(* ===== verification/_CoqProject ===== *)
-Q . S2P
Prelude.v
Wire.v
ApiPacket.v
Registry.v
Api.v
GoFloat.v
Minecraft.v
ServerPacket.v
Conn.v
Toy.v
Animation.v
ConnIO.v
ConnSeq.v
ConnLife.v
ConnSafe.v
Batch.v
Tracker.v
Transport.v
Session.v
SessionLoops.v
SessionSteps.v
SessionProps.v
SessionScreen.v
SessionLife.v
SessionOutcomes.v
SessionLeak.v
SessionHistory.v
SessionSafe.v
SessionPools.v
SessionTransfer.v
SessionFallback.v
SessionLogin.v
SessionUpstream.v
SessionServer.v
SessionSeamless.v
Spectrum.v
ProxyPools.v
ProxySafe.v
Service.v
ServiceTransfer.v
