(* ===== verification/Prelude.v ===== *)
(** * Spectrum: a verification library for the proxy

    Spectrum is a proxy for Minecraft Bedrock Edition.  A player's client stays
    connected to the proxy (a [minecraft.Conn] of gophertunnel) while the proxy
    keeps one connection to the server the player is on and replaces it when
    the player is transferred.  This library models the proxy's own logic as
    Rocq functions, close to the Go code, and proves what makes it correct, as
    well as where it is not.

    ** The program and its model

    - package [protocol] (protocol/reader.go, protocol/writer.go): packets
      framed by a length, on any stream.  File [Wire]: [ReadPacket], [Write] and
      [WriteWithFlags] over an [io.Reader] as a list of chunks and an
      [io.Writer] as a sink with faults; the writer's reusable slices are its
      state.
    - package [server/packet]: the packets between proxy and server.  File
      [ServerPacket]: the records, [ID], [Marshal] over an abstract
      [protocol.IO], the factories that are registered.
    - package [server] (server/conn.go): the connection to a server.  File
      [Conn]: [NewConn], [DoConnect], [ReadPacket] with the handlers of the
      connection sequence, [DoSpawn], [WritePacket], [WriteBatch], [Write],
      [OnConnect], [WaitConnect], [CloseWithError], each a function of the same
      name over the record [Conn], the package's three [sync.Pool]s and the
      rest of the proxy.  Theorems in [ConnIO] (the wire), [ConnSeq] (the
      connection sequence) and [ConnLife] (termination, closing, concurrency).
    - session/processor.go and the batches of session/handler.go: what the
      client sends.  File [Batch]: the packet contexts and their pool,
      [decodeAndCreateContext] and [handleClientBatch] (its two loops are
      [decode_loop] and [encode_loop]); it ends in [Conn.WriteBatch].
    - session/tracker.go: what has been shown to the client.  File [Tracker]:
      [handlePacket] and the [clear...] methods, and [clearAll], the critical
      section of [sendGameData] (session/session.go).
    - session/registry.go: the sessions by XUID.  File [Registry], with
      [strings.EqualFold].
    - packages [api] and [api/packet]: the service through which servers kick
      and transfer players.  Files [ApiPacket] (encoding.go, the packets, the
      registry of factories) and [Api] (api.go, client.go, dial.go,
      authentication.go); it reaches the sessions through the class
      [Sessions], whose contract is [SessionsLaws].
    - package [transport]: the cache of QUIC or spectral connections.  File
      [Transport]: [Dial] and the watcher goroutines of both transports.
    - util/opts.go: [Opts] and [DefaultOpts], in [Batch].
    - session/session.go, session/chunk.go, server/discovery.go and the loop
      [handleServer] of session/handler.go: a session.  File [Session]: the
      state of a session is the record [World], with every server connection
      it ever made ([conns], the current one is [serverConn]), what the client
      was asked ([client_out]) and what the processor was told ([notes]);
      [login_start] and [login_finish] are [LoginContext] before and after
      [WaitConnect] ([Login] and [LoginTimeout] call it), [TransferContext], [dial], [fallback], [CloseWithError],
      [SetCache], [sendMetadata] and [sendGameData] have their names,
      [on_connected] is the callback of a transfer, [handleServer_round] one
      round of the loop of [handleServer].  The record [Processor] is the
      interface of session/processor.go and [AnimationObject] the one of the
      animations; a session points to one of each ([s_processor], [s_animation], moved by
      [SetProcessor] and [SetAnimation]) among the objects of the class
      [Surroundings], which is all the session depends on ([DefaultObjects]:
      a new session has [NopProcessor] and [Dimension]).
    - the other goroutines of session/handler.go.  File [SessionLoops]:
      [handleClient] and its rounds [handleClient_round], which run the batches
      of [Batch] on the session's server connection, and [handleLatency] with
      its ticker ([latency_ticker]) and [handleLatency_round].  File [SessionSteps]: every operation of a session
      as a step of a machine.
    - package [session/animation].  File [Animation]: what each animation sends
      and how long it sleeps, over IEEE 754 numbers (file [GoFloat]).
    - spectrum.go and util/status.go: the whole.  File [Spectrum]: the proxy
      with all its sessions, each run on the shared registry and pools
      ([on_session]); it implements the class [Sessions] of [Api]
      ([proxy_sessions]).  File [Service] discharges [SessionsLaws] for it and
      puts the service and the proxy together.

    The files [Minecraft] and [Toy] stand for the third-party libraries.
    [Minecraft] declares what the proxy uses of gophertunnel and snappy: the
    packets it inspects as data, everything else as parameters of the class
    [Gopher], and the documented behaviour as separate laws ([IOLaws],
    [HeaderLaws], [SnappyLaws], [IDLaws]; [BuiltLaws] in [ConnSeq],
    [TotalLibrary] in [ConnLife], [ConstLaws] in [Tracker], [DimensionLaws] in
    [Animation], [WriterReturns] in [ConnSafe]; [Trigonometry] and [Vectors]
    are sine, cosine and the sum of vectors).  [Toy] is a small executable
    instance that satisfies the laws; the witnesses run on it.

    ** Conventions

    A Go function that fails or panics is a computation of the monad [M] below:
    it ends in a value, an error or a panic and always leaves a state.
    [defer], [recover] and dropped errors are [deferring], [recovering] and
    [ignore].  Integers are [Z] with wrap-around where the code relies on a
    width ([u32], [i32], ...); strings are byte sequences; maps are [gmap]s
    and sets [gset]s, whose iteration order is a parameter
    ([IterationOrder]).  A mutex makes the section it guards one step; where
    interleavings matter they are explicit: [ConnLife.step] (a reader, a closer
    and writers of one connection), [Registry.registry_step], [Api.api_step],
    [Transport.estep], [SessionSteps.perform] (every operation of a session and
    of its goroutines, in any order) and [Spectrum.sp_perform] (of all
    sessions).  The class [SessionRelation] lists the primitive effects of a
    session; a preorder that respects them is respected by every step, and the
    invariants of sessions are its instances.  A round of a goroutine that runs
    out of fuel has got as far as its state says, so that other operations can
    come before it goes on.
    Processors do not call the session back.  Logging, deadlines and socket
    options are left out.

    ** What the theorems show

    - [Wire]: the reader inverts the writer for every fragmentation; it refines
      a pure parser; the writer under faults; what happens above 4 GiB.
    - [ConnIO]: the server decodes what [WritePacket] and [WriteBatch] send,
      compressed or not, and the pools stay clean; [Write] and [read] agree;
      [read] panics exactly on an empty frame; stale sub-client ids leak
      through the header pool.
    - [ConnSeq]: the loop of [ReadPacket] refines an abstract machine of the
      connection sequence; a server that answers completes it for any
      interleaving with other packets, and nothing is lost or reordered;
      [DoConnect] starts it.
    - [ConnLife]: [ReadPacket] terminates; deferred packets come out in order;
      what a closed connection refuses and what it does not; the callback is told at most once each of
      success and failure, but can be told of both; a second PlayStatus before
      the spawn panics.
    - [Batch]: a client's batch reaches the server, byte for byte where nothing
      was modified; a batch is all or nothing; legacy clients with
      [SyncProtocol] fail.
    - [Tracker]: the sets follow the packets; a transfer removes everything
      from the screen of a client that has seen the same packets.
    - [Registry]: lookups, and which login a closure removes.
    - [ApiPacket], [Api]: round trips; authorised clients are served in order,
      others reach nothing; [handle] terminates; ids are fresh; the response
      code is lost in decoding, so that [Dial] accepts refusals.
    - [Transport]: [Dial] on every branch; watchers leave exactly the live
      connections.
    - [SessionLife]: at most one server connection is open, however the
      operations of a session are interleaved.
    - [SessionHistory]: nothing of a session is ever undone: causes are given
      once, what is closed stays closed, what was sent or called stays.
    - [SessionOutcomes]: the outcomes of a transfer; what closing does, and that
      every goroutine of a closed session ends; the fallback after a lost
      server; the rounds of the client's loop, which ends for good when one
      batch fails.
    - [SessionLeak]: a session closed while it dials for a transfer keeps an
      open connection, and which operations can still close it.
    - [SessionProps]: what the end of a transfer sends, and which chunks.
    - [SessionScreen]: what the player sees of it with the default animation,
      and when the first change of dimension is none.
    - [SessionTransfer], [SessionLogin], [SessionFallback]: against a server
      that answers, a transfer, a login and the fallback after a lost server
      complete.
    - [SessionServer]: what the server sends reaches the client, from its frames
      to the calls of the client, in order.
    - [SessionUpstream]: what the client sends and the latency reports reach
      the server, for every interleaving of the two goroutines that write.
    - [Animation]: the player gets the camera back, the presets are sent once,
      the dimension screen, the direction of the descent.
    - [Spectrum]: the proxy's state stays well formed; closing the proxy and
      the service's Kick, from the handler to the disconnected client.
    - [ConnSafe], [SessionSafe], [ProxySafe]: where the proxy can panic.  A small
      program logic ([guarded]) carries an invariant and the crashes allowed
      along the code, from the writer of one connection to the operations of
      the whole proxy: an empty frame, the second closing of a channel and a
      latency interval that is not positive are the only panics left.
    - [SessionSeamless]: the whole of a transfer: after its own packets the
      client is given exactly what the new server sends, and what the client
      sends reaches that server.
    - [SessionPools], [ProxyPools]: the pools of buffers, batches and packet
      contexts hand out nothing of what went through them before, for every
      interleaving of the whole proxy.
    - [Service]: a server that the service has accepted drives the proxy
      through an abstract machine, one step for each packet it sends.
    - [ServiceTransfer]: a transfer asked for through the service, from the
      frames of the request to the player on the new server.

    ** Recursion bounds

    Two Go loops are not structural and take fuel; the endless loops of the
    goroutines are modelled round by round.  [Conn.ReadPacket] recurses
    once per frame read before the spawn, and each frame has four bytes of
    header, so one more than the number of unread bytes is enough
    ([ConnLife.ReadPacket_terminates]).  [Api.handle_loop] runs once per packet
    read from its client, with the same bound ([Api.handle_terminates]).
    Running out of fuel is the separate outcome [NoFuel].

    For a round of [handleServer] the fuel is that of [Conn.ReadPacket]; one
    for each frame of the connection sequence and one more is enough for a
    transfer ([SessionTransfer.transfer_to_answering_server]).

    ** Not modelled

    Plain accessors ([Client], [Context], [Opts], ...), deadlines (the
    durations of [LoginTimeout] and [TransferTimeout]: the context only reaches
    the transport and [WaitConnect], whose results are parameters), logging, processors and animations written outside the repository (they
    are parameters), and the third-party libraries: gophertunnel,
    QUIC, spectral, raknet and the socket functions of the standard library. *)

From stdpp Require Export base fin_maps fin_map_dom gmap list strings pretty relations.
From Stdlib Require Export ZArith Lia.
From Stdlib Require Import Strings.Byte.

#[global] Set Default Goal Selector "!".
#[global] Set Warnings "-clear-no-such-hyp".

Declare Scope go_scope.
Delimit Scope go_scope with go.

Local Open Scope Z_scope.

(** ** Bytes and machine integers *)

Abbreviation byte := Byte.byte.

#[export] Instance byte_eq_dec : EqDecision byte := Byte.byte_eq_dec.

Definition Z_of_byte (b : byte) : Z := Z.of_N (Byte.to_N b).

(** Conversion to [byte] as Go converts: the low eight bits are kept. *)
Definition byte_of_Z (z : Z) : byte :=
  default Byte.x00 (Byte.of_N (Z.to_N (z mod 256))).

#[export] Program Instance byte_countable : Countable byte :=
  inj_countable' Z_of_byte byte_of_Z _.
Next Obligation. by intros []. Qed.

(** [len(x)] of a slice. *)
Definition len {A} (l : list A) : Z := Z.of_nat (length l).

Definition u8 (z : Z) : Z := z mod 2 ^ 8.
Definition u32 (z : Z) : Z := z mod 2 ^ 32.
Definition i32 (z : Z) : Z := (z + 2 ^ 31) mod 2 ^ 32 - 2 ^ 31.
Definition i64 (z : Z) : Z := (z + 2 ^ 63) mod 2 ^ 64 - 2 ^ 63.

(** [binary.LittleEndian] and [binary.BigEndian]: [n] bytes of a number. *)
Fixpoint le_bytes (n : nat) (z : Z) : list byte :=
  match n with
  | O => []
  | S n => byte_of_Z z :: le_bytes n (z / 256)
  end.

Fixpoint le_val (bs : list byte) : Z :=
  match bs with
  | [] => 0
  | b :: bs => Z_of_byte b + 256 * le_val bs
  end.

Definition be_bytes (n : nat) (z : Z) : list byte := reverse (le_bytes n z).
Definition be_val (bs : list byte) : Z := le_val (reverse bs).

(** ** Go strings

    A Go string is a sequence of bytes; [string] is the same thing, a list of
    8-bit characters.  [bytes_of] is the conversion [[]byte(s)], [string_of]
    the conversion [string(data)]. *)
Definition bytes_of (s : string) : list byte := String.list_byte_of_string s.
Definition string_of (bs : list byte) : string := String.string_of_list_byte bs.

(** ** Errors

    The sentinel errors the code compares with, [errors.New]/[fmt.Errorf]
    values by their text, and [fmt.Errorf("prefix: %w", e)]. *)
Inductive error :=
  | EOF
  | ErrUnexpectedEOF
  | Canceled
  | DeadlineExceeded
  | ErrNew (text : string)
  | ErrWrap (prefix : string) (cause : error).

#[export] Instance error_eq_dec : EqDecision error.
Proof. solve_decision. Defined.

(** [err.Error()] *)
Fixpoint error_text (e : error) : string :=
  match e with
  | EOF => "EOF"
  | ErrUnexpectedEOF => "unexpected EOF"
  | Canceled => "context canceled"
  | DeadlineExceeded => "context deadline exceeded"
  | ErrNew t => t
  | ErrWrap p e => (p +:+ ": " +:+ error_text e)%string
  end.

(** [errors.Is(e, target)] for the sentinel targets the code uses. *)
Fixpoint errors_Is (e target : error) : bool :=
  bool_decide (e = target) ||
  match e with ErrWrap _ e' => errors_Is e' target | _ => false end.

(** ** A state monad with Go's three ways to leave a function

    A call returns a value ([Ok]), returns a non-nil error ([Err]) or panics
    ([Panic]); the state it leaves behind is kept in all three cases.
    [NoFuel] is the model's own outcome for an exhausted recursion bound. *)
Inductive outcome (A : Type) :=
  | Ok (a : A)
  | Err (e : error)
  | Panic (why : string)
  | NoFuel.
Arguments Ok {_} _.
Arguments Err {_} _.
Arguments Panic {_} _.
Arguments NoFuel {_}.

Definition M (S A : Type) : Type := S -> outcome A * S.

Definition ret {S A} (a : A) : M S A := fun s => (Ok a, s).
Definition fail {S A} (e : error) : M S A := fun s => (Err e, s).
Definition panic {S A} (why : string) : M S A := fun s => (Panic why, s).
Definition nofuel {S A} : M S A := fun s => (NoFuel, s).

Definition bind {S A B} (m : M S A) (k : A -> M S B) : M S B := fun s =>
  match m s with
  | (Ok a, s') => k a s'
  | (Err e, s') => (Err e, s')
  | (Panic w, s') => (Panic w, s')
  | (NoFuel, s') => (NoFuel, s')
  end.

Definition gets {S A} (f : S -> A) : M S A := fun s => (Ok (f s), s).
Definition modify {S} (f : S -> S) : M S unit := fun s => (Ok tt, f s).

(** [v, err := m()]: the error becomes a value of the caller. *)
Definition attempt {S A} (m : M S A) : M S (A + error) := fun s =>
  match m s with
  | (Ok a, s') => (Ok (inl a), s')
  | (Err e, s') => (Ok (inr e), s')
  | (Panic w, s') => (Panic w, s')
  | (NoFuel, s') => (NoFuel, s')
  end.

(** [_ = m()]: the error is dropped. *)
Definition ignore {S A} (m : M S A) : M S unit := bind (attempt m) (fun _ => ret tt).

(** [defer cleanup()]: runs on every exit. *)
Definition deferring {S A} (cleanup : S -> S) (m : M S A) : M S A := fun s =>
  let (o, s') := m s in (o, cleanup s').

(** [defer func() { if r := recover(); r != nil { err = h r } }()]. *)
Definition recovering {S A} (h : string -> error) (m : M S A) : M S A := fun s =>
  match m s with
  | (Panic w, s') => (Err (h w), s')
  | r => r
  end.

(** Run an operation on a component of a larger state. *)
Definition zoom {S T A} (get : S -> T) (put : T -> S -> S) (m : M T A) : M S A := fun s =>
  let (o, t) := m (get s) in (o, put t s).

(** Run an operation on a local variable of the function. *)
Definition on_local {S T A} (m : M T A) (t : T) : M S (A * T) := fun s =>
  match m t with
  | (Ok a, t') => (Ok (a, t'), s)
  | (Err e, _) => (Err e, s)
  | (Panic w, _) => (Panic w, s)
  | (NoFuel, _) => (NoFuel, s)
  end.

(** A [for _, x := range xs] loop whose body may return early. *)
Fixpoint for_each {S A} (f : A -> M S unit) (xs : list A) : M S unit :=
  match xs with
  | [] => ret tt
  | x :: xs => bind (f x) (fun _ => for_each f xs)
  end.

(** ** [sync.Pool]

    The items waiting in the pool; [Get] hands one of them out, or a new one
    when there is none.  Theorems quantify over the contents of the pool, so
    the order in which the runtime picks items, and the items it drops, do not
    matter. *)
Definition pool_Get {A} (new : A) : M (list A) A := fun p =>
  match p with
  | [] => (Ok new, [])
  | x :: p => (Ok x, p)
  end.

Definition pool_Put {A} (x : A) (p : list A) : list A := x :: p.

(** ** [range] over a map or a set

    Go visits the entries in an unspecified order: [visit] is the order of one
    run, any permutation of the entries. *)
Class IterationOrder := {
  visit : forall {A : Type}, list A -> list A;
  visit_perm : forall {A : Type} (l : list A), visit l ≡ₚ l;
}.

Notation "'let!' x := m 'in' k" := (bind m (fun x => k))
  (at level 10, x pattern, m at level 100, k at level 200) : go_scope.
Notation "m ;;; k" := (bind m (fun _ => k))
  (at level 199, right associativity) : go_scope.

(** ** Frame and invariant reasoning

    [moves R m]: every run of [m], whatever its outcome, takes the state along
    [R].  With [R] a preorder this composes along [bind], so that "this
    operation leaves that part of the state alone" and "this invariant is
    preserved" are proved by following the code ([go_moves]). *)
Definition moves {S A} (R : relation S) (m : M S A) : Prop := forall s, R s (m s).2.

(** [same f]: the component [f] of the state is unchanged. *)
Definition same {S T} (f : S -> T) : relation S := fun s s' => f s' = f s.

(** [keeps P]: the invariant [P] is preserved. *)
Definition keeps {S} (P : S -> Prop) : relation S := fun s s' => P s -> P s'.

(** A result that is not a crash: a value or an error. *)
Definition returns {A} (o : outcome A) : Prop :=
  match o with Ok _ | Err _ => True | _ => False end.

Definition is_Ok {A} (o : outcome A) : Prop :=
  match o with Ok _ => True | _ => False end.

#[export] Instance same_preorder {S T} (f : S -> T) : PreOrder (same f).
Proof. split; [by intros ? | unfold same; intros x y z; congruence]. Qed.

#[export] Instance keeps_preorder {S} (P : S -> Prop) : PreOrder (keeps P).
Proof. split; unfold keeps; [intros x; auto | intros x y z; auto]. Qed.

Section moves.
Context {S : Type} (R : relation S) `{!PreOrder R}.

Lemma moves_ret {A} (a : A) : moves R (ret a).
Proof. intros s. reflexivity. Qed.

Lemma moves_fail {A} e : moves R (fail (A:=A) e).
Proof. intros s. reflexivity. Qed.

Lemma moves_panic {A} w : moves R (panic (A:=A) w).
Proof. intros s. reflexivity. Qed.

Lemma moves_nofuel {A} : moves R (nofuel (A:=A)).
Proof. intros s. reflexivity. Qed.

Lemma moves_gets {A} (f : S -> A) : moves R (gets f).
Proof. intros s. reflexivity. Qed.

Lemma moves_modify f : (forall s, R s (f s)) -> moves R (modify f).
Proof. intros H s. apply H. Qed.

Lemma moves_bind {A B} (m : M S A) (k : A -> M S B) :
  moves R m -> (forall a, moves R (k a)) -> moves R (bind m k).
Proof.
  intros Hm Hk s. unfold bind. specialize (Hm s).
  destruct (m s) as [[] s']; simpl in *; try done.
  etrans; [exact Hm | apply Hk].
Qed.

Lemma moves_attempt {A} (m : M S A) : moves R m -> moves R (attempt m).
Proof. intros Hm s. unfold attempt. specialize (Hm s). by destruct (m s) as [[] s']. Qed.

Lemma moves_ignore {A} (m : M S A) : moves R m -> moves R (ignore m).
Proof. intros Hm. apply moves_bind; [by apply moves_attempt | intros; apply moves_ret]. Qed.

Lemma moves_recovering {A} h (m : M S A) : moves R m -> moves R (recovering h m).
Proof. intros Hm s. unfold recovering. specialize (Hm s). by destruct (m s) as [[] s']. Qed.

Lemma moves_deferring {A} f (m : M S A) :
  (forall s, R s (f s)) -> moves R m -> moves R (deferring f m).
Proof.
  intros Hf Hm s. unfold deferring. specialize (Hm s).
  destruct (m s) as [o s']; simpl in *. etrans; [exact Hm | apply Hf].
Qed.

Lemma moves_zoom {T A} (get : S -> T) put (m : M T A) :
  (forall s t, R s (put t s)) -> moves R (zoom get put m).
Proof. intros H s. unfold zoom. destruct (m (get s)); simpl. apply H. Qed.

Lemma moves_on_local {T A} (m : M T A) t : moves R (on_local m t).
Proof. intros s. unfold on_local. destruct (m t) as [[] ?]; reflexivity. Qed.

Lemma moves_for_each {A} (f : A -> M S unit) xs :
  (forall x, moves R (f x)) -> moves R (for_each f xs).
Proof.
  intros Hf. induction xs as [|x xs IH]; simpl; [apply moves_ret|].
  by apply moves_bind.
Qed.

Lemma moves_if {A} (b : bool) (m1 m2 : M S A) :
  moves R m1 -> moves R m2 -> moves R (if b then m1 else m2).
Proof. by destruct b. Qed.

Lemma moves_case_option {A B} (o : option B) (m1 : B -> M S A) m2 :
  (forall b, moves R (m1 b)) -> moves R m2 ->
  moves R (match o with Some b => m1 b | None => m2 end).
Proof. destruct o; auto. Qed.

Lemma moves_case_sum {A B C} (o : B + C) (m1 : B -> M S A) m2 :
  (forall b, moves R (m1 b)) -> (forall c, moves R (m2 c)) ->
  moves R (match o with inl b => m1 b | inr c => m2 c end).
Proof. destruct o; auto. Qed.
End moves.

Lemma moves_run {S A} (R : relation S) (m : M S A) s o s' : moves R m -> m s = (o, s') -> R s s'.
Proof. intros Hm E. specialize (Hm s). by rewrite E in Hm. Qed.

Create HintDb go discriminated.
#[export] Hint Resolve moves_ret moves_fail moves_panic moves_nofuel moves_gets : go.
#[export] Hint Extern 5 (relation_equivalence _ _) => reflexivity : go.

(** Follow the code; leaves the state updates that are not framed trivially. *)
Ltac go_moves_step :=
  intros;
  lazymatch goal with
  | |- moves _ (bind _ _) => apply moves_bind; [apply _| |]
  | |- moves _ (attempt _) => apply moves_attempt
  | |- moves _ (ignore _) => apply moves_ignore; [apply _|]
  | |- moves _ (recovering _ _) => apply moves_recovering
  | |- moves _ (deferring _ _) => apply moves_deferring; [apply _| |]
  | |- moves _ (for_each _ _) => apply moves_for_each; [apply _|]
  | |- moves _ (if _ then _ else _) => apply moves_if
  | |- moves _ (match ?o with Some _ => _ | None => _ end) => apply moves_case_option
  | |- moves _ (match ?o with inl _ => _ | inr _ => _ end) => apply moves_case_sum
  | |- moves _ (match ?o with _ => _ end) => destruct o
  | |- moves _ (modify _) => apply moves_modify
  | |- moves _ (on_local _ _) => apply moves_on_local; apply _
  | |- moves _ (gets _) => apply moves_gets; apply _
  | |- moves _ (ret _) => apply moves_ret; apply _
  | |- moves _ (fail _) => apply moves_fail; apply _
  | |- moves _ (panic _) => apply moves_panic; apply _
  | |- moves _ nofuel => apply moves_nofuel; apply _
  end.
Ltac go_moves :=
  repeat first [ solve [eauto with go typeclass_instances] | progress go_moves_step
               | solve [intros; by auto] ].

(** ** Inversion of runs *)

Lemma bind_Ok_inv {S A B} (m : M S A) (k : A -> M S B) s b s'' :
  bind m k s = (Ok b, s'') -> exists a s', m s = (Ok a, s') /\ k a s' = (Ok b, s'').
Proof. unfold bind. destruct (m s) as [[] s']; intros; simplify_eq; eauto. Qed.

Lemma bind_eq_Ok {S A B} (m : M S A) (k : A -> M S B) s a s' :
  m s = (Ok a, s') -> bind m k s = k a s'.
Proof. unfold bind. by intros ->. Qed.

Lemma bind_eq_Err {S A B} (m : M S A) (k : A -> M S B) s e s' :
  m s = (Err e, s') -> bind m k s = (Err e, s').
Proof. unfold bind. by intros ->. Qed.

Lemma bind_eq_Panic {S A B} (m : M S A) (k : A -> M S B) s w s' :
  m s = (Panic w, s') -> bind m k s = (Panic w, s').
Proof. unfold bind. by intros ->. Qed.

Lemma attempt_eq_Ok {S A} (m : M S A) s a s' :
  m s = (Ok a, s') -> attempt m s = (Ok (inl a), s').
Proof. unfold attempt. by intros ->. Qed.

Lemma attempt_eq_Err {S A} (m : M S A) s e s' :
  m s = (Err e, s') -> attempt m s = (Ok (inr e), s').
Proof. unfold attempt. by intros ->. Qed.

Lemma ignore_eq {S A} (m : M S A) s o s' :
  m s = (o, s') -> returns o -> ignore m s = (Ok tt, s').
Proof. unfold ignore, attempt, bind. intros ->. by destruct o. Qed.

Lemma for_each_app {S A} (f : A -> M S unit) xs ys s :
  for_each f (xs ++ ys) s = bind (for_each f xs) (fun _ => for_each f ys) s.
Proof.
  revert s. induction xs as [|x xs IH]; intros s; simpl; [done|].
  unfold bind in *. by destruct (f x s) as [[] s'].
Qed.

(** ** Bytes, numbers and strings *)

Lemma Z_of_byte_range b : 0 <= Z_of_byte b < 256.
Proof. by destruct b. Qed.

Lemma byte_of_Z_of_byte b : byte_of_Z (Z_of_byte b) = b.
Proof. by destruct b. Qed.

Lemma Z_of_byte_of_Z z : Z_of_byte (byte_of_Z z) = z mod 256.
Proof.
  unfold byte_of_Z, Z_of_byte. pose proof (Z.mod_pos_bound z 256 ltac:(lia)) as Hz.
  destruct (Byte.of_N (Z.to_N (z mod 256))) as [b|] eqn:E; simpl.
  - apply Byte.to_of_N in E. rewrite E. lia.
  - apply Byte.of_N_None_iff in E. lia.
Qed.

Lemma length_le_bytes n z : length (le_bytes n z) = n.
Proof. revert z. induction n; intros z; simpl; auto. Qed.

Lemma length_be_bytes n z : length (be_bytes n z) = n.
Proof. unfold be_bytes. by rewrite length_reverse, length_le_bytes. Qed.

Lemma le_val_le_bytes n z : le_val (le_bytes n z) = z mod 2 ^ (8 * Z.of_nat n).
Proof.
  revert z. induction n as [|n IH]; intros z; simpl.
  - by rewrite Z.mod_1_r.
  - rewrite IH, Z_of_byte_of_Z.
    replace (8 * Z.of_nat (S n)) with (8 + 8 * Z.of_nat n) by lia.
    rewrite Z.pow_add_r by lia. change (2 ^ 8) with 256.
    rewrite Z.rem_mul_r by lia. lia.
Qed.

Lemma be_val_be_bytes n z : be_val (be_bytes n z) = z mod 2 ^ (8 * Z.of_nat n).
Proof. unfold be_val, be_bytes. by rewrite reverse_involutive, le_val_le_bytes. Qed.

Lemma le_val_range bs : 0 <= le_val bs < 2 ^ (8 * len bs).
Proof.
  unfold len. induction bs as [|b bs IH]; simpl; [lia|].
  pose proof (Z_of_byte_range b).
  replace (8 * Z.of_nat (S (length bs))) with (8 + 8 * Z.of_nat (length bs)) by lia.
  rewrite Z.pow_add_r by lia. change (2 ^ 8) with 256. nia.
Qed.

Lemma be_val_range bs : 0 <= be_val bs < 2 ^ (8 * len bs).
Proof. unfold be_val. pose proof (le_val_range (reverse bs)) as H.
  unfold len in *. by rewrite length_reverse in H. Qed.

Lemma u32_small z : 0 <= z < 2 ^ 32 -> u32 z = z.
Proof. apply Z.mod_small. Qed.

Lemma len_nonneg {A} (l : list A) : 0 <= len l.
Proof. unfold len. lia. Qed.

Lemma len_nil {A} : len (@nil A) = 0.
Proof. done. Qed.

Lemma len_cons {A} (x : A) l : len (x :: l) = 1 + len l.
Proof. unfold len. simpl length. lia. Qed.

Lemma len_app {A} (l k : list A) : len (l ++ k) = len l + len k.
Proof. unfold len. rewrite length_app. lia. Qed.

Lemma bytes_of_string_of bs : bytes_of (string_of bs) = bs.
Proof. apply String.list_byte_of_string_of_list_byte. Qed.

Lemma string_of_bytes_of s : string_of (bytes_of s) = s.
Proof. apply String.string_of_list_byte_of_string. Qed.

(** A list is its first [n] elements and the rest. *)
Lemma take_app_exact {A} (l k : list A) n : n = length l -> take n (l ++ k) = l.
Proof. intros ->. apply take_app_length. Qed.

Lemma drop_app_exact {A} (l k : list A) n : n = length l -> drop n (l ++ k) = k.
Proof. intros ->. apply drop_app_length. Qed.

Create Rewrite HintDb len.
Create Rewrite HintDb codec.
#[export] Hint Rewrite @length_app length_le_bytes length_be_bytes @length_reverse : len.
#[export] Hint Rewrite @le_val_le_bytes @be_val_be_bytes bytes_of_string_of string_of_bytes_of : codec.

#[global] Opaque le_bytes be_bytes.
