(* ===== verification/Wire.v ===== *)
(** * Wire: the length-prefixed framing of package [protocol]

    [protocol/reader.go] and [protocol/writer.go], over a model of the two
    standard-library interfaces they use: [io.Reader] as a sequence of chunks
    of arbitrary sizes ended by an error, [io.Writer] as a byte sink whose
    calls may fail after a prefix.  The [Writer] keeps its two scratch slices
    as state.  The lemmas show that the reader only depends on the bytes
    received and not on how the transport fragments them, that it implements
    a pure parser of frames, and that it inverts the writer. *)

From S2P Require Import Prelude.

Local Open Scope Z_scope.
Local Open Scope go_scope.

(** ** [io.Reader] and [io.ReadFull] *)

(** What the other side sends: the chunks successive [Read] calls can return,
    and the error after the last one ([io.EOF] for a clean end). *)
Record source := mkSource { src_chunks : list (list byte); src_end : error }.

(** All the bytes that are still to come. *)
Definition flat (s : source) : list byte := concat (src_chunks s).

(** [io.ReadAtLeast]'s error for a short read: [io.EOF] after a partial read
    becomes [io.ErrUnexpectedEOF]. *)
Definition short_read (got : list byte) (e : error) : error :=
  match got, e with
  | _ :: _, EOF => ErrUnexpectedEOF
  | _, _ => e
  end.

(** The loop of [io.ReadFull]: [Read] is called with the part of the buffer
    still to fill until [n] bytes have arrived; a chunk larger than that part
    leaves its tail to the next call. *)
Fixpoint ReadFull_loop (e : error) (n : Z) (got : list byte) (chunks : list (list byte))
    : outcome (list byte) * list (list byte) :=
  if n <=? len got then (Ok got, chunks) else
  match chunks with
  | [] => (Err (short_read got e), [])
  | c :: cs =>
      let want := n - len got in
      if want <? len c
      then (Ok (got ++ take (Z.to_nat want) c), drop (Z.to_nat want) c :: cs)
      else ReadFull_loop e n (got ++ c) cs
  end.

Definition ReadFull (n : Z) : M source (list byte) := fun s =>
  let (o, cs) := ReadFull_loop (src_end s) n [] (src_chunks s) in
  (o, mkSource cs (src_end s)).

(** ** [Reader] (reader.go) *)

(** [Reader.ReadPacket]: the length as a big-endian uint32, then that many
    bytes. *)
Definition ReadPacket : M source (list byte) :=
  let! hdr := attempt (ReadFull 4) in
  match hdr with
  | inr err => fail (ErrWrap "failed to read packet length" err)
  | inl bs =>
      let length := be_val bs in
      let! pk := attempt (ReadFull length) in
      match pk with
      | inr err => fail (ErrWrap "failed to read packet data" err)
      | inl pk => ret pk
      end
  end.

(** The loop [for { pk, err := r.ReadPacket() ... }] for [n] packets. *)
Fixpoint ReadPackets (n : nat) : M source (list (list byte)) :=
  match n with
  | O => ret []
  | S n =>
      let! pk := ReadPacket in
      let! pks := ReadPackets n in
      ret (pk :: pks)
  end.

(** ** [io.Writer] *)

(** The bytes accepted so far and the faults of the coming [Write] calls:
    [Some (k, e)] is a call that accepts [k] bytes and returns [e], [None] one
    that succeeds; calls after the list is used up succeed. *)
Record sink := mkSink { sk_data : list byte; sk_faults : list (option (nat * error)) }.

Definition sink_Write (p : list byte) : M sink unit := fun s =>
  match sk_faults s with
  | Some (k, e) :: fs => (Err e, mkSink (sk_data s ++ take k p) fs)
  | None :: fs => (Ok tt, mkSink (sk_data s ++ p) fs)
  | [] => (Ok tt, mkSink (sk_data s ++ p) [])
  end.

(** ** [Writer] (writer.go) *)

Record Writer := mkWriter {
  wr_w : sink;
  wr_p : list byte;       (* reusable slice for the length *)
  wr_pwf : list byte;     (* reusable slice for the length and the flags *)
}.

Definition NewWriter (w : sink) : Writer :=
  mkWriter w (replicate 4 Byte.x00) (replicate 5 Byte.x00).

(** [binary.BigEndian.PutUint32(b, v)] *)
Definition PutUint32_BE (b : list byte) (v : Z) : outcome (list byte) :=
  if (4 <=? length b)%nat then Ok (be_bytes 4 v ++ drop 4 b)
  else Panic "runtime error: index out of range".

(** [b[i] = x] *)
Definition set_index (b : list byte) (i : nat) (x : byte) : outcome (list byte) :=
  if (i <? length b)%nat then Ok (<[i := x]> b)
  else Panic "runtime error: index out of range".

Definition lift_outcome {S A} (o : outcome A) : M S A := fun s => (o, s).

Definition set_p (p : list byte) (w : Writer) := mkWriter (wr_w w) p (wr_pwf w).
Definition set_pwf (p : list byte) (w : Writer) := mkWriter (wr_w w) (wr_p w) p.
Definition set_w (k : sink) (w : Writer) := mkWriter k (wr_p w) (wr_pwf w).

(** [w.w.Write(p)] *)
Definition w_Write (p : list byte) : M Writer unit := zoom wr_w set_w (sink_Write p).

(** [Writer.Write].  The mutex makes the body one atomic step. *)
Definition Write (data : list byte) : M Writer unit :=
  let! p := gets wr_p in
  let! p := lift_outcome (PutUint32_BE p (u32 (len data))) in
  modify (set_p p) ;;;
  w_Write p ;;;
  w_Write data.

(** [Writer.WriteWithFlags] *)
Definition WriteWithFlags (flags : byte) (data : list byte) : M Writer unit :=
  let! pwf := gets wr_pwf in
  let! pwf := lift_outcome (PutUint32_BE pwf (u32 (len data + 1))) in
  let! pwf := lift_outcome (set_index pwf 4 flags) in
  modify (set_pwf pwf) ;;;
  w_Write pwf ;;;
  w_Write data.

(** A call of one of the two methods, from any goroutine. *)
Inductive wop := WWrite (data : list byte) | WWriteWithFlags (flags : byte) (data : list byte).

Definition run_wop (o : wop) : M Writer unit :=
  match o with
  | WWrite data => Write data
  | WWriteWithFlags flags data => WriteWithFlags flags data
  end.

(** What the reader on the other side should see for a call. *)
Definition payload (o : wop) : list byte :=
  match o with
  | WWrite data => data
  | WWriteWithFlags flags data => flags :: data
  end.

(** ** The specification: a pure format and its parser *)

Definition frame (pk : list byte) : list byte := be_bytes 4 (u32 (len pk)) ++ pk.

Definition parse_frame (e : error) (bs : list byte) : outcome (list byte) * list byte :=
  if len bs <? 4 then (Err (ErrWrap "failed to read packet length" (short_read bs e)), [])
  else
    let n := be_val (take 4 bs) in
    let bs := drop 4 bs in
    if len bs <? n then (Err (ErrWrap "failed to read packet data" (short_read bs e)), [])
    else (Ok (take (Z.to_nat n) bs), drop (Z.to_nat n) bs).

(** Two sources with the same bytes to come, however they are cut. *)
#[export] Instance source_equiv : Equiv source := fun s1 s2 =>
  flat s1 = flat s2 /\ src_end s1 = src_end s2.

Definition wf_writer (w : Writer) : Prop := length (wr_p w) = 4%nat /\ length (wr_pwf w) = 5%nat.

(** Every coming call on the underlying [io.Writer] succeeds. *)
Definition healthy (w : Writer) : Prop := sk_faults (wr_w w) = [].

(** * Lemmas *)

#[export] Instance source_equivalence : Equivalence (≡@{source}).
Proof.
  split.
  - by intros s.
  - intros s1 s2 [? ?]. by split.
  - intros s1 s2 s3 [? ?] [? ?]. split; congruence.
Qed.

(** The bytes [ReadFull n] yields, on the flattened stream. *)
Definition flat_read (e : error) (n : Z) (bs : list byte) : outcome (list byte) * list byte :=
  if len bs <? n then (Err (short_read bs e), [])
  else (Ok (take (Z.to_nat n) bs), drop (Z.to_nat n) bs).

Lemma ReadFull_loop_flat e n got chunks :
  len got <= n ->
  let r := ReadFull_loop e n got chunks in
  (r.1, concat r.2) = flat_read e n (got ++ concat chunks).
Proof.
  revert got. induction chunks as [|c cs IH]; intros got Hgot r; subst r; unfold flat_read; simpl.
  - rewrite app_nil_r. unfold len in *. case_match; simpl.
    + case_match; [lia|]. rewrite take_ge, drop_ge by lia. done.
    + case_match; [done | lia].
  - destruct (Z.leb_spec n (len got)) as [Hn|Hn]; simpl.
    { assert (Z.to_nat n = length got) as Hl by (unfold len in *; lia).
      rewrite (proj2 (Z.ltb_ge _ _)) by (rewrite !len_app; pose proof (len_nonneg (c ++ concat cs)); rewrite len_app in *; lia).
      by rewrite Hl, take_app_length, drop_app_length. }
    destruct (Z.ltb_spec (n - len got) (len c)) as [Hc|Hc]; simpl.
    + rewrite (proj2 (Z.ltb_ge _ _)) by (rewrite !len_app; pose proof (len_nonneg (concat cs)); lia).
      rewrite take_app_ge, drop_app_ge by (unfold len in *; lia).
      replace (Z.to_nat n - length got)%nat with (Z.to_nat (n - len got)) by (unfold len in *; lia).
      rewrite take_app_le, drop_app_le by (unfold len in *; lia). done.
    + rewrite (assoc_L (++)). apply IH. rewrite len_app. lia.
Qed.

Lemma ReadFull_flat n s :
  0 <= n ->
  let r := ReadFull n s in
  (r.1, flat r.2) = flat_read (src_end s) n (flat s) /\ src_end r.2 = src_end s.
Proof.
  intros Hn r; subst r. unfold ReadFull, flat.
  pose proof (ReadFull_loop_flat (src_end s) n [] (src_chunks s) Hn) as H. simpl in H.
  by destruct (ReadFull_loop _ _ _ _) as [o cs].
Qed.

(** The reader implements the pure parser of frames. *)
Lemma ReadPacket_flat s :
  let r := ReadPacket s in
  (r.1, flat r.2) = parse_frame (src_end s) (flat s) /\ src_end r.2 = src_end s.
Proof.
  intros r; subst r. unfold ReadPacket, parse_frame, bind, attempt.
  pose proof (ReadFull_flat 4 s ltac:(lia)) as [H4 E4]. unfold flat_read in H4.
  destruct (ReadFull 4 s) as [o s1]; simpl in *.
  destruct (len (flat s) <? 4) eqn:?; simplify_eq; simpl; [by split; [congruence|]|].
  pose proof (be_val_range (take (Z.to_nat 4) (flat s))) as [Hn _].
  pose proof (ReadFull_flat _ s1 Hn) as [Hd Ed]. unfold flat_read in Hd.
  destruct (ReadFull _ s1) as [o2 s2]; simpl in *.
  change (Z.to_nat 4) with 4%nat in *. rewrite E4 in *.
  replace (flat s1) with (drop 4 (flat s)) in * by congruence.
  destruct (len (drop 4 (flat s)) <? be_val (take 4 (flat s))) eqn:?; simplify_eq; simpl;
    split; congruence.
Qed.

#[export] Instance ReadPacket_proper :
  Proper ((≡) ==> prod_relation (=) (≡)) ReadPacket.
Proof.
  intros s1 s2 [Hf He].
  pose proof (ReadPacket_flat s1) as [H1 E1]. pose proof (ReadPacket_flat s2) as [H2 E2].
  rewrite Hf, He, <- H2 in H1. destruct (ReadPacket s1), (ReadPacket s2); simpl in *.
  split; simpl; [congruence | split; congruence].
Qed.

#[export] Instance ReadPackets_proper n :
  Proper ((≡) ==> prod_relation (=) (≡)) (ReadPackets n).
Proof.
  induction n as [|n IH]; intros s1 s2 Hs; simpl; [by split|].
  unfold bind. destruct (ReadPacket_proper s1 s2 Hs) as [Ho Ht].
  destruct (ReadPacket s1) as [o1 t1], (ReadPacket s2) as [o2 t2]; simpl in *; subst o2.
  destruct o1; try by split.
  destruct (IH t1 t2 Ht) as [Ho' Ht'].
  destruct (ReadPackets n t1) as [o1 u1], (ReadPackets n t2) as [o2 u2]; simpl in *; subst o2.
  by destruct o1.
Qed.

Lemma len_frame pk : len (frame pk) = 4 + len pk.
Proof. unfold frame. rewrite len_app. unfold len. by rewrite length_be_bytes. Qed.

(** A frame is parsed to the packet, cut to its length modulo 2^32. *)
Lemma parse_frame_frame e pk rest :
  let n := Z.to_nat (u32 (len pk)) in
  parse_frame e (frame pk ++ rest) = (Ok (take n pk), drop n pk ++ rest).
Proof.
  intros n. unfold parse_frame, frame. rewrite <- (assoc_L (++)).
  rewrite (proj2 (Z.ltb_ge _ 4)) by (unfold len; rewrite length_app, length_be_bytes; lia).
  rewrite take_app_exact, drop_app_exact by (by rewrite length_be_bytes).
  rewrite be_val_be_bytes. change (8 * Z.of_nat 4) with 32.
  unfold u32 at 1 2 3. rewrite Z.mod_mod by lia. fold (u32 (len pk)).
  assert (n <= length pk)%nat as Hn.
  { subst n. unfold u32. pose proof (Z.mod_le (len pk) (2 ^ 32) (len_nonneg pk) ltac:(lia)).
    unfold len in *. lia. }
  rewrite (proj2 (Z.ltb_ge _ _)).
  - by rewrite take_app_le, drop_app_le.
  - rewrite len_app. pose proof (len_nonneg rest).
    pose proof (Z.mod_pos_bound (len pk) (2 ^ 32) ltac:(lia)). unfold len, u32 in *. lia.
Qed.

Lemma parse_frame_small e pk rest :
  len pk < 2 ^ 32 -> parse_frame e (frame pk ++ rest) = (Ok pk, rest).
Proof.
  intros Hpk. rewrite parse_frame_frame, u32_small by (pose proof (len_nonneg pk); lia).
  unfold len. by rewrite Nat2Z.id, take_ge, drop_ge.
Qed.

(** A packet takes its header and its bytes off the stream. *)
Lemma ReadPacket_consumes s pk s' :
  ReadPacket s = (Ok pk, s') ->
  (length (flat s') + 4 + length pk)%nat = length (flat s) /\ src_end s' = src_end s.
Proof.
  intros Hr. pose proof (ReadPacket_flat s) as [H E]. rewrite Hr in *. simpl in *.
  split; [|done]. unfold parse_frame in H.
  destruct (Z.ltb_spec (len (flat s)) 4); [done|].
  destruct (Z.ltb_spec (len (drop 4 (flat s))) (be_val (take 4 (flat s)))) as [|Hn]; [done|].
  injection H as -> ->.
  rewrite length_drop, length_take, length_drop. unfold len in *.
  rewrite length_drop in Hn. lia.
Qed.

(** [ReadPacket] never panics. *)
Lemma ReadPacket_returns s : returns (ReadPacket s).1.
Proof.
  pose proof (ReadPacket_flat s) as [H _]. unfold parse_frame in H.
  destruct (ReadPacket s) as [o ?]; simpl in *. repeat case_match; by simplify_eq.
Qed.

(** A packet that fits comes out whole, whatever chunks carry it. *)
Lemma ReadPacket_frame s pk rest :
  flat s = frame pk ++ rest -> len pk < 2 ^ 32 ->
  exists s', ReadPacket s = (Ok pk, s') /\ flat s' = rest /\ src_end s' = src_end s.
Proof.
  intros Hs Hpk. pose proof (ReadPacket_flat s) as [H E].
  rewrite Hs, parse_frame_small in H by done.
  destruct (ReadPacket s) as [o s']; simpl in *; simplify_eq. eauto.
Qed.

Lemma ReadPackets_frames pks rest s :
  Forall (fun pk => len pk < 2 ^ 32) pks ->
  flat s = concat (map frame pks) ++ rest ->
  exists s', ReadPackets (length pks) s = (Ok pks, s') /\ flat s' = rest /\ src_end s' = src_end s.
Proof.
  revert s. induction pks as [|pk pks IH]; intros s Hsz Hs; simpl in *; [by eauto|].
  apply Forall_cons in Hsz as [Hpk Hsz]. rewrite <- (assoc_L (++)) in Hs.
  destruct (ReadPacket_frame _ _ _ Hs Hpk) as (s1 & H1 & F1 & E1).
  destruct (IH s1 Hsz F1) as (s2 & H2 & F2 & E2).
  exists s2. split; [|split; congruence].
  rewrite (bind_eq_Ok _ _ _ _ _ H1), (bind_eq_Ok _ _ _ _ _ H2). done.
Qed.

Lemma PutUint32_BE_full b v k :
  length b = (4 + k)%nat -> PutUint32_BE b v = Ok (be_bytes 4 v ++ drop 4 b).
Proof. intros Hb. unfold PutUint32_BE. by rewrite Hb. Qed.

(** What a call of a writer may do to it: append a prefix of [bs], all of it
    exactly when it succeeds, and fail only with an error of the sink. *)
Definition sends (bs : list byte) (w : Writer) (res : outcome unit * Writer) : Prop :=
  exists sent,
    wf_writer res.2 /\
    sk_data (wr_w res.2) = sk_data (wr_w w) ++ sent /\
    sent `prefix_of` bs /\
    match res.1 with
    | Ok _ => sent = bs
    | Err e => exists k, Some (k, e) ∈ sk_faults (wr_w w)
    | _ => False
    end /\
    (healthy w -> res.1 = Ok tt /\ healthy res.2).

(** The two [Write] calls of a method, header and data. *)
Lemma two_writes_sends hdr data p pwf w :
  length p = 4%nat -> length pwf = 5%nat ->
  sends (hdr ++ data) w
    (bind (w_Write hdr) (fun _ => w_Write data) (mkWriter (wr_w w) p pwf)).
Proof.
  intros Hp Hpwf. destruct w as [[d [|[[k e]|] [|[[k' e']|] fs]]] p0 pwf0]; unfold sends; simpl;
    lazymatch goal with
    | |- context [_ ++ take ?k hdr] => exists (take k hdr)
    | |- context [_ ++ take ?k data] => exists (hdr ++ take k data); rewrite (assoc_L (++))
    | |- _ => exists (hdr ++ data); rewrite (assoc_L (++))
    end; split_and!;
    solve [done | apply prefix_app_r, prefix_take | apply prefix_app, prefix_take
          | eexists; left | eexists; right; left | intros [=]].
Qed.

Lemma Write_sends data w : wf_writer w -> sends (frame data) w (Write data w).
Proof.
  intros [Hp Hpwf]. unfold Write, bind at 1, gets.
  rewrite (PutUint32_BE_full _ _ 0) by done. rewrite drop_ge, app_nil_r by lia.
  apply two_writes_sends; [apply length_be_bytes | done].
Qed.

Lemma WriteWithFlags_sends flags data w :
  wf_writer w -> sends (frame (flags :: data)) w (WriteWithFlags flags data w).
Proof.
  intros [Hp Hpwf]. unfold WriteWithFlags, bind at 1, gets.
  rewrite (PutUint32_BE_full _ _ 1) by done.
  assert (exists x, drop 4 (wr_pwf w) = [x]) as [x ->].
  { destruct (wr_pwf w) as [|? [|? [|? [|? [|x [|]]]]]]; naive_solver. }
  unfold frame. replace (len (flags :: data)) with (len data + 1) by (unfold len; simpl; lia).
  change (flags :: data) with ([flags] ++ data). rewrite (assoc_L (++)).
  unfold set_index, bind at 1 2, lift_outcome.
  apply (two_writes_sends (be_bytes 4 (u32 (len data + 1)) ++ [flags])); done.
Qed.

(** One call appends a prefix of its frame, the whole of it when it succeeds;
    it never panics and keeps the scratch slices at their sizes. *)
Lemma run_wop_sends o w : wf_writer w -> sends (frame (payload o)) w (run_wop o w).
Proof. destruct o; [apply Write_sends | apply WriteWithFlags_sends]. Qed.

Lemma run_wop_healthy o w :
  wf_writer w -> healthy w ->
  exists w', run_wop o w = (Ok tt, w') /\ wf_writer w' /\ healthy w' /\
    sk_data (wr_w w') = sk_data (wr_w w) ++ frame (payload o).
Proof.
  intros Hwf Hh. destruct (run_wop_sends o w Hwf) as (sent & Hwf' & Hd & _ & Hr & Hok).
  destruct (Hok Hh) as [Ho Hh']. destruct (run_wop o w) as [r w']; simpl in *; subst.
  exists w'. by rewrite Hr in Hd.
Qed.

Lemma for_each_wop_healthy ops w :
  wf_writer w -> healthy w ->
  exists w', for_each run_wop ops w = (Ok tt, w') /\ wf_writer w' /\ healthy w' /\
    sk_data (wr_w w') = sk_data (wr_w w) ++ concat (map frame (map payload ops)).
Proof.
  revert w. induction ops as [|o ops IH]; intros w Hwf Hh; simpl.
  - exists w. by rewrite app_nil_r.
  - destruct (run_wop_healthy o w Hwf Hh) as (w1 & H1 & Hwf1 & Hh1 & D1).
    destruct (IH w1 Hwf1 Hh1) as (w2 & H2 & Hwf2 & Hh2 & D2).
    exists w2. rewrite (bind_eq_Ok _ _ _ _ _ H1), D2, D1. by rewrite <- (assoc_L (++)).
Qed.

(** * Properties *)

(** C22: everything written through a [Writer], by any sequence of [Write] and
    [WriteWithFlags] calls with payloads below 4 GiB, is read back by a
    [Reader] packet by packet and in order, however the transport fragments
    the bytes; after the last packet the reader reports the end of the
    stream. *)
Theorem writer_reader_roundtrip (ops : list wop) (s : source) :
  Forall (fun o => len (payload o) < 2 ^ 32) ops ->
  flat s = sk_data (wr_w (for_each run_wop ops (NewWriter (mkSink [] []))).2) ->
  src_end s = EOF ->
  exists s', ReadPackets (length ops) s = (Ok (map payload ops), s') /\
    (ReadPacket s').1 = Err (ErrWrap "failed to read packet length" EOF).
Proof.
  intros Hsz Hs He.
  destruct (for_each_wop_healthy ops (NewWriter (mkSink [] []))) as (w & Hw & _ & _ & Hd);
    [done | done |].
  rewrite Hw in Hs. simpl in *. rewrite Hd in Hs. rewrite <- (app_nil_r (concat _)) in Hs.
  destruct (ReadPackets_frames (map payload ops) [] s) as (s' & Hr & Hf & E);
    [by rewrite Forall_map | done |].
  rewrite length_map in Hr. exists s'. split; [done|].
  pose proof (ReadPacket_flat s') as [H _]. rewrite Hf, E, He in H. exact (f_equal fst H).
Qed.

Lemma writer_reader_roundtrip_witness :
  exists s', ReadPackets 2 (mkSource [[Byte.x00]; [Byte.x00; Byte.x00]; [];
      [Byte.x02; Byte.x01; Byte.x61; Byte.x00; Byte.x00; Byte.x00]; [Byte.x00]] EOF)
    = (Ok [[Byte.x01; Byte.x61]; []], s') /\
    (ReadPacket s').1 = Err (ErrWrap "failed to read packet length" EOF).
Proof.
  apply (writer_reader_roundtrip [WWriteWithFlags Byte.x01 [Byte.x61]; WWrite []]);
    [repeat constructor | vm_compute; reflexivity | reflexivity].
Defined.

(** [Reader.ReadPacket] is a function of the bytes received and of how the
    stream ends: two sources that deliver the same bytes in different
    fragments give the same result and leave the same bytes unread, and that
    result is the one of the pure frame parser. *)
Theorem reader_ignores_fragmentation (s1 s2 : source) :
  s1 ≡ s2 ->
  (ReadPacket s1).1 = (ReadPacket s2).1 /\
  (ReadPacket s1).2 ≡ (ReadPacket s2).2 /\
  ((ReadPacket s1).1, flat (ReadPacket s1).2) = parse_frame (src_end s1) (flat s1).
Proof.
  intros Hs. destruct (ReadPacket_proper s1 s2 Hs) as [Ho Ht].
  split_and!; [done | done | apply ReadPacket_flat].
Qed.

Lemma reader_ignores_fragmentation_witness :
  let s1 := mkSource [[Byte.x00; Byte.x00]; [Byte.x00; Byte.x01; Byte.x07; Byte.x08]] EOF in
  let s2 := mkSource [[Byte.x00; Byte.x00; Byte.x00; Byte.x01; Byte.x07; Byte.x08]] EOF in
  (ReadPacket s1).1 = (ReadPacket s2).1 /\
  (ReadPacket s1).2 ≡ (ReadPacket s2).2 /\
  ((ReadPacket s1).1, flat (ReadPacket s1).2) = parse_frame (src_end s1) (flat s1).
Proof.
  intros s1 s2. apply (reader_ignores_fragmentation s1 s2). split; reflexivity.
Defined.

(** Under any faults of the underlying [io.Writer], a call of [Write] or
    [WriteWithFlags] never panics, appends a prefix of its frame and nothing
    else, succeeds only with the whole frame sent, fails only with an error of
    the underlying writer, and leaves the scratch slices usable. *)
Theorem writer_under_faults (o : wop) (w : Writer) :
  wf_writer w -> sends (frame (payload o)) w (run_wop o w).
Proof. intros Hw. by apply run_wop_sends. Qed.

Lemma writer_under_faults_witness :
  let w := NewWriter (mkSink [] [Some (2%nat, ErrNew "broken pipe")]) in
  sends (frame (payload (WWrite [Byte.x07]))) w (run_wop (WWrite [Byte.x07]) w).
Proof. intros w. apply (writer_under_faults (WWrite [Byte.x07]) w). split; reflexivity. Defined.

(** The length header holds the payload's length modulo 2^32: on a
    successful call the reader gets the first [len mod 2^32] bytes as the
    packet, and the rest of an oversized payload is left in the stream to be
    taken for the next header. *)
Theorem oversized_payload_truncated (o : wop) (w w' : Writer) (s : source) :
  wf_writer w -> sk_data (wr_w w) = [] -> run_wop o w = (Ok tt, w') ->
  flat s = sk_data (wr_w w') ->
  let n := Z.to_nat (len (payload o) mod 2 ^ 32) in
  (ReadPacket s).1 = Ok (take n (payload o)) /\ flat (ReadPacket s).2 = drop n (payload o).
Proof.
  intros Hwf Hnil Hrun Hs n.
  destruct (run_wop_sends o w Hwf) as (sent & _ & Hd & _ & Hr & _). rewrite Hrun in *; simpl in *.
  rewrite Hnil, Hr in Hd. simpl in Hd. rewrite Hd in Hs.
  pose proof (ReadPacket_flat s) as [H _].
  rewrite Hs, <- (app_nil_r (frame _)), parse_frame_frame, app_nil_r in H.
  fold n in H. destruct (ReadPacket s); simpl in *; by simplify_eq.
Qed.

Lemma oversized_payload_truncated_witness :
  let w := NewWriter (mkSink [] []) in
  let s := mkSource [[Byte.x00; Byte.x00; Byte.x00; Byte.x01; Byte.x07]] EOF in
  let n := Z.to_nat (len (payload (WWriteWithFlags Byte.x07 [])) mod 2 ^ 32) in
  (ReadPacket s).1 = Ok (take n (payload (WWriteWithFlags Byte.x07 []))) /\
  flat (ReadPacket s).2 = drop n (payload (WWriteWithFlags Byte.x07 [])).
Proof.
  intros w s. apply (oversized_payload_truncated (WWriteWithFlags Byte.x07 []) w
    (run_wop (WWriteWithFlags Byte.x07 []) w).2 s); [split; reflexivity | reflexivity ..].
Defined.
