(* ===== verification/ApiPacket.v ===== *)
(** * ApiPacket: the packets of the API service

    Package [api/packet]: the string codec (encoding.go), the four packets
    with their [ID], [Encode] and [Decode], and the packet pool (pool.go).
    Packets registered by the user of the library are a parameter
    ([CustomPackets]).  The lemmas give the round trips, what decoding makes
    of truncated input, and that [ConnectionResponse.Decode] does not decode. *)

From S2P Require Import Prelude Wire.

Local Open Scope Z_scope.
Local Open Scope go_scope.

(** ** [bytes.Buffer] and [encoding/binary]

    A buffer is the list of its unread bytes. *)

(** [io.ReadFull(buf, make([]byte, n))] *)
Definition buf_ReadFull (n : Z) : M (list byte) (list byte) := fun buf => flat_read EOF n buf.

(** [binary.Read(buf, binary.LittleEndian, &v)] for a [v uint32]. *)
Definition binary_Read_uint32 : M (list byte) Z :=
  let! bs := buf_ReadFull 4 in
  ret (le_val bs).

(** [binary.Read(buf, binary.LittleEndian, v)] where [v] is a [uint8] and not
    a pointer: the byte is consumed, then the value is refused. *)
Definition binary_Read_uint8_value : M (list byte) unit :=
  let! _ := buf_ReadFull 1 in
  fail (ErrNew "binary.Read: invalid type uint8").

(** [_, _ = buf.Read(data)] for a fresh [data] of [n] bytes: what the buffer
    has is copied, the rest of [data] keeps its zeros. *)
Definition buf_Read_into (n : Z) : M (list byte) (list byte) := fun buf =>
  let got := take (Z.to_nat n) buf in
  (Ok (got ++ replicate (Z.to_nat n - length got) Byte.x00), drop (Z.to_nat n) buf).

Definition buf_Write (bs : list byte) : M (list byte) unit := modify (fun buf => buf ++ bs).

(** ** encoding.go *)

(** [ReadString] *)
Definition ReadString : M (list byte) string :=
  let! length := attempt binary_Read_uint32 in
  let length := match length with inl n => n | inr _ => 0 end in
  let! data := buf_Read_into length in
  ret (string_of data).

(** [WriteString] *)
Definition WriteString (s : string) : M (list byte) unit :=
  buf_Write (le_bytes 4 (u32 (len (bytes_of s)))) ;;;
  buf_Write (bytes_of s).

(** ** The packets *)

(** Packets registered by other code through [Register]: their type and their
    three methods.  What [Encode] appends and what [Decode] makes of a buffer
    is user code, which may panic. *)
Class CustomPackets := {
  custom : Type;
  custom_ID : custom -> Z;
  custom_Encode : custom -> list byte + string;
  custom_Decode : custom -> list byte -> (custom + string) * list byte;
}.

(** id.go *)
Definition IDConnectionRequest : Z := 0.
Definition IDConnectionResponse : Z := 1.
Definition IDKick : Z := 2.
Definition IDTransfer : Z := 3.

(** connection_response.go *)
Definition ResponseSuccess : Z := 0.
Definition ResponseUnauthorized : Z := 1.
Definition ResponseFail : Z := 2.

Record ConnectionRequest := mkConnectionRequest { Token : string }.
Record ConnectionResponse := mkConnectionResponse { Response : Z }.
Record Kick := mkKick { Kick_Reason : string; Kick_Username : string }.
Record Transfer := mkTransfer { Transfer_Addr : string; Transfer_Username : string }.

Definition ConnectionRequest_ID (_ : ConnectionRequest) : Z := IDConnectionRequest.
Definition ConnectionRequest_Encode (pk : ConnectionRequest) : M (list byte) unit :=
  WriteString (Token pk).
Definition ConnectionRequest_Decode (pk : ConnectionRequest) : M (list byte) ConnectionRequest :=
  let! t := ReadString in
  ret (mkConnectionRequest t).

Definition ConnectionResponse_ID (_ : ConnectionResponse) : Z := IDConnectionResponse.
Definition ConnectionResponse_Encode (pk : ConnectionResponse) : M (list byte) unit :=
  buf_Write [byte_of_Z (Response pk)].
(** The code passes [pk.Response], not its address. *)
Definition ConnectionResponse_Decode (pk : ConnectionResponse) : M (list byte) ConnectionResponse :=
  ignore binary_Read_uint8_value ;;;
  ret pk.

Definition Kick_ID (_ : Kick) : Z := IDKick.
Definition Kick_Encode (pk : Kick) : M (list byte) unit :=
  WriteString (Kick_Reason pk) ;;;
  WriteString (Kick_Username pk).
Definition Kick_Decode (pk : Kick) : M (list byte) Kick :=
  let! r := ReadString in
  let! u := ReadString in
  ret (mkKick r u).

Definition Transfer_ID (_ : Transfer) : Z := IDTransfer.
Definition Transfer_Encode (pk : Transfer) : M (list byte) unit :=
  WriteString (Transfer_Addr pk) ;;;
  WriteString (Transfer_Username pk).
Definition Transfer_Decode (pk : Transfer) : M (list byte) Transfer :=
  let! a := ReadString in
  let! u := ReadString in
  ret (mkTransfer a u).

Section Packets.
Context `{CP : CustomPackets}.

(** packet.go: a value of the interface [Packet], by its dynamic type. *)
Inductive Packet :=
  | PConnectionRequest (pk : ConnectionRequest)
  | PConnectionResponse (pk : ConnectionResponse)
  | PKick (pk : Kick)
  | PTransfer (pk : Transfer)
  | PCustom (pk : custom).

Definition ID (p : Packet) : Z :=
  match p with
  | PConnectionRequest pk => ConnectionRequest_ID pk
  | PConnectionResponse pk => ConnectionResponse_ID pk
  | PKick pk => Kick_ID pk
  | PTransfer pk => Transfer_ID pk
  | PCustom pk => custom_ID pk
  end.

Definition Encode (p : Packet) : M (list byte) unit :=
  match p with
  | PConnectionRequest pk => ConnectionRequest_Encode pk
  | PConnectionResponse pk => ConnectionResponse_Encode pk
  | PKick pk => Kick_Encode pk
  | PTransfer pk => Transfer_Encode pk
  | PCustom pk => match custom_Encode pk with inl bs => buf_Write bs | inr w => panic w end
  end.

(** [pk.Decode(buf)]: the packet as the call leaves it. *)
Definition Decode (p : Packet) : M (list byte) Packet :=
  match p with
  | PConnectionRequest pk => let! pk := ConnectionRequest_Decode pk in ret (PConnectionRequest pk)
  | PConnectionResponse pk => let! pk := ConnectionResponse_Decode pk in ret (PConnectionResponse pk)
  | PKick pk => let! pk := Kick_Decode pk in ret (PKick pk)
  | PTransfer pk => let! pk := Transfer_Decode pk in ret (PTransfer pk)
  | PCustom pk => fun buf =>
      match custom_Decode pk buf with
      | (inl pk, buf) => (Ok (PCustom pk), buf)
      | (inr w, buf) => (Panic w, buf)
      end
  end.

(** ** pool.go

    A factory is the packet it makes. *)
Definition factory : Type := Packet.

(** The variable [packets], before [init]. *)
Definition packets_var : gmap Z factory := ∅.

Definition Register (id : Z) (f : factory) (packets : gmap Z factory) : gmap Z factory :=
  <[id := f]> packets.

(** [NewPool]: the loop that copies the registered factories. *)
Definition NewPool (packets : gmap Z factory) : gmap Z factory :=
  map_fold (fun id f pool => <[id := f]> pool) ∅ packets.

(** [init] *)
Definition init_packets : gmap Z factory :=
  Register IDTransfer (PTransfer (mkTransfer "" ""))
  (Register IDKick (PKick (mkKick "" ""))
  (Register IDConnectionResponse (PConnectionResponse (mkConnectionResponse 0))
  (Register IDConnectionRequest (PConnectionRequest (mkConnectionRequest ""))
  packets_var))).

(** The strings of a packet fit their uint32 length prefixes. *)
Definition encodable (p : Packet) : Prop :=
  match p with
  | PConnectionRequest pk => len (bytes_of (Token pk)) < 2 ^ 32
  | PConnectionResponse pk => True
  | PKick pk => len (bytes_of (Kick_Reason pk)) < 2 ^ 32 /\ len (bytes_of (Kick_Username pk)) < 2 ^ 32
  | PTransfer pk => len (bytes_of (Transfer_Addr pk)) < 2 ^ 32 /\ len (bytes_of (Transfer_Username pk)) < 2 ^ 32
  | PCustom _ => False
  end.

(** The zero value a factory for the packet's type makes. *)
Definition zero_of (p : Packet) : Packet :=
  match p with
  | PConnectionRequest _ => PConnectionRequest (mkConnectionRequest "")
  | PConnectionResponse _ => PConnectionResponse (mkConnectionResponse 0)
  | PKick _ => PKick (mkKick "" "")
  | PTransfer _ => PTransfer (mkTransfer "" "")
  | PCustom pk => PCustom pk
  end.

(** What the peer's decoder makes of an encoded packet: itself, except that a
    response code is lost. *)
Definition as_decoded (p : Packet) : Packet :=
  match p with
  | PConnectionResponse _ => PConnectionResponse (mkConnectionResponse 0)
  | _ => p
  end.

End Packets.

(** The encodings of a string and of a packet. *)
Definition enc_string (s : string) : list byte := le_bytes 4 (u32 (len (bytes_of s))) ++ bytes_of s.

Definition encoding `{CP : CustomPackets} (p : Packet) : list byte :=
  match p with
  | PConnectionRequest pk => enc_string (Token pk)
  | PConnectionResponse pk => [byte_of_Z (Response pk)]
  | PKick pk => enc_string (Kick_Reason pk) ++ enc_string (Kick_Username pk)
  | PTransfer pk => enc_string (Transfer_Addr pk) ++ enc_string (Transfer_Username pk)
  | PCustom _ => []
  end.


#[global] Arguments WriteString : simpl never.
#[global] Arguments ReadString : simpl never.
#[global] Arguments enc_string : simpl never.

(** * Lemmas *)

Lemma WriteString_eq s buf :
  WriteString s buf = (Ok tt, buf ++ enc_string s).
Proof. unfold WriteString, enc_string, bind, buf_Write, modify. by rewrite <- (assoc_L (++)). Qed.

(** Decoding a string never fails: a missing length counts as 0, missing bytes
    as zeros. *)
Lemma ReadString_eq buf :
  ReadString buf =
    (if len buf <? 4 then (Ok EmptyString, [])
     else
       let n := Z.to_nat (le_val (take 4 buf)) in
       let rest := drop 4 buf in
       (Ok (string_of (take n rest ++ replicate (n - length rest) Byte.x00)), drop n rest)).
Proof.
  unfold ReadString, binary_Read_uint32, attempt, bind, buf_ReadFull, flat_read, buf_Read_into.
  destruct (len buf <? 4) eqn:?; simpl; [done|].
  change (Z.to_nat 4) with 4%nat. set (n := Z.to_nat _). rewrite length_take.
  by replace (n - n `min` length (drop 4 buf))%nat with (n - length (drop 4 buf))%nat by lia.
Qed.

Lemma ReadString_WriteString s rest :
  len (bytes_of s) < 2 ^ 32 ->
  ReadString (enc_string s ++ rest) = (Ok s, rest).
Proof.
  intros Hs. unfold enc_string. rewrite ReadString_eq, <- (assoc_L (++)).
  rewrite (proj2 (Z.ltb_ge _ 4)) by (unfold len; rewrite length_app, length_le_bytes; lia).
  rewrite take_app_exact, drop_app_exact by (by rewrite length_le_bytes).
  rewrite le_val_le_bytes, (u32_small (len _)) by (pose proof (len_nonneg (bytes_of s)); lia).
  rewrite Z.mod_small by (pose proof (len_nonneg (bytes_of s)); simpl; lia).
  unfold len. rewrite Nat2Z.id. rewrite take_app_length, drop_app_length, length_app.
  replace (_ - _)%nat with 0%nat by lia. simpl.
  by rewrite app_nil_r, string_of_bytes_of.
Qed.

Section PacketLemmas.
Context `{CP : CustomPackets}.

Lemma NewPool_eq (packets : gmap Z factory) : NewPool packets = packets.
Proof.
  unfold NewPool. apply (map_fold_weak_ind (fun r m => r = m)); [done|].
  by intros id f m r _ ->.
Qed.

Lemma Encode_eq p buf :
  encodable p -> Encode p buf = (Ok tt, buf ++ encoding p).
Proof.
  destruct p as [[t] | [r] | [r u] | [a u] | ?]; intros Hp; [apply WriteString_eq | done | .. | done];
    unfold Encode, Kick_Encode, Transfer_Encode;
    rewrite (bind_eq_Ok _ _ _ _ _ (WriteString_eq _ buf)), WriteString_eq;
    by rewrite <- (assoc_L (++)).
Qed.

Lemma ConnectionResponse_Decode_cons pk x rest :
  ConnectionResponse_Decode pk (x :: rest) = (Ok pk, rest).
Proof.
  unfold ConnectionResponse_Decode, ignore, attempt, bind, binary_Read_uint8_value, bind,
    buf_ReadFull, flat_read.
  rewrite (proj2 (Z.ltb_ge _ 1)); [done|]. rewrite len_cons. pose proof (len_nonneg rest). lia.
Qed.

Lemma Decode_Encode p rest :
  encodable p -> Decode (zero_of p) (encoding p ++ rest) = (Ok (as_decoded p), rest).
Proof.
  destruct p as [[t] | [r] | [r u] | [a u] | ?]; intros Hp; [| | | | done];
    unfold Decode, zero_of, encoding, ConnectionRequest_Decode, Kick_Decode, Transfer_Decode;
    unfold bind.
  - by rewrite ReadString_WriteString.
  - simpl app. by rewrite ConnectionResponse_Decode_cons.
  - destruct Hp. rewrite <- (assoc_L (++)), ReadString_WriteString by done.
    by rewrite ReadString_WriteString.
  - destruct Hp. rewrite <- (assoc_L (++)), ReadString_WriteString by done.
    by rewrite ReadString_WriteString.
Qed.

(** [Decode] returns or panics; it has no error. *)
Lemma Decode_outcome p buf :
  match (Decode p buf).1 with Ok _ | Panic _ => True | _ => False end.
Proof.
  destruct p; unfold Decode, ConnectionRequest_Decode, ConnectionResponse_Decode, Kick_Decode,
    Transfer_Decode, ignore, attempt, binary_Read_uint8_value, buf_ReadFull, flat_read, bind;
    rewrite ?ReadString_eq; repeat (case_match; simplify_eq/=; rewrite ?ReadString_eq in *);
    try done.
Qed.

End PacketLemmas.

(** Only built-in packets: the instance the witnesses use. *)
Definition no_custom : CustomPackets := {|
  custom := Empty_set;
  custom_ID x := match x with end;
  custom_Encode x := match x with end;
  custom_Decode x := match x with end
|}.

(** * Properties *)

(** Every request, kick and transfer packet is decoded, by the factory
    [NewPool] registers under its own [ID] and from the bytes its [Encode]
    wrote, to itself; nothing of what follows in the buffer is touched. *)
Theorem packet_roundtrip `{CP : CustomPackets} (p : Packet) (rest : list byte) :
  encodable p -> ID p <> IDConnectionResponse ->
  exists f, NewPool init_packets !! ID p = Some f /\
    (let! _ := Encode p in modify (fun buf => buf ++ rest) ;;; Decode f) [] = (Ok p, rest).
Proof.
  intros Hp Hid. exists (zero_of p). split.
  - rewrite NewPool_eq. by destruct p as [[] | [] | [] | [] | ].
  - rewrite (bind_eq_Ok _ _ _ _ _ (Encode_eq p [] Hp)). unfold bind, modify. simpl.
    rewrite Decode_Encode by done. by destruct p.
Qed.

Lemma packet_roundtrip_witness :
  let CP := no_custom in
  exists f, NewPool init_packets !! ID (PKick (mkKick "bye" "Steve")) = Some f /\
    (let! _ := Encode (PKick (mkKick "bye" "Steve")) in
     modify (fun buf => buf ++ [Byte.x09]) ;;; Decode f) []
    = (Ok (PKick (mkKick "bye" "Steve")), [Byte.x09]).
Proof. intros CP. apply (packet_roundtrip (PKick (mkKick "bye" "Steve")) [Byte.x09]); [by split | done]. Defined.

(** A decoded connection response always says "success": whatever code
    the sender encoded, [Decode] leaves the factory's zero value, because it
    hands [binary.Read] the value of the field instead of its address. *)
Theorem response_code_lost `{CP : CustomPackets} (code : Z) (buf : list byte) :
  exists f, NewPool init_packets !! IDConnectionResponse = Some f /\
    (let! _ := Encode (PConnectionResponse (mkConnectionResponse code)) in Decode f) buf
    = (Ok (PConnectionResponse (mkConnectionResponse ResponseSuccess)),
       drop 1 (buf ++ [byte_of_Z code])).
Proof.
  eexists. rewrite NewPool_eq. split; [done|].
  rewrite (bind_eq_Ok _ _ _ _ _ (Encode_eq (PConnectionResponse (mkConnectionResponse code)) buf I)).
  change (encoding _) with [byte_of_Z code]. unfold Decode, bind.
  set (b := buf ++ [byte_of_Z code]).
  assert (exists x bs, b = x :: bs) as (x & bs & ->) by (subst b; destruct buf; simpl; eauto).
  by rewrite ConnectionResponse_Decode_cons.
Qed.

(** [ReadString] never fails and never signals truncation: on any buffer
    it returns a string, of the announced length when four length bytes were
    there (missing bytes are zeros) and empty otherwise, and it consumes only
    a prefix of the buffer. *)
Theorem ReadString_total (buf : list byte) :
  exists s rest, ReadString buf = (Ok s, rest) /\ (exists used, buf = used ++ rest) /\
    len (bytes_of s) = (if len buf <? 4 then 0 else le_val (take 4 buf)) /\
    (forall i, (i < Z.to_nat (len (bytes_of s)))%nat ->
       bytes_of s !! i = Some (default Byte.x00 (drop 4 buf !! i))).
Proof.
  rewrite ReadString_eq. destruct (len buf <? 4) eqn:Hl.
  - exists EmptyString, []. split_and!; [done | exists buf; by rewrite app_nil_r | done |].
    simpl. intros i Hi. unfold len in Hi. simpl in Hi. lia.
  - set (n := Z.to_nat (le_val (take 4 buf))). simpl.
    eexists _, _. split; [done|]. rewrite bytes_of_string_of.
    pose proof (le_val_range (take 4 buf)) as [Hv _].
    assert (length (take n (drop 4 buf) ++ replicate (n - length (drop 4 buf)) Byte.x00) = n) as Hn
      by (rewrite length_app, length_take, length_replicate; lia).
    split_and!.
    + exists (take 4 buf ++ take n (drop 4 buf)).
      by rewrite <- (assoc_L (++)), !take_drop.
    + unfold len. rewrite Hn. lia.
    + unfold len. rewrite Hn, Nat2Z.id. intros i Hi.
      destruct (decide (i < length (drop 4 buf))%nat) as [Hin|Hout].
      * rewrite lookup_app_l by (rewrite length_take; lia). rewrite lookup_take by lia.
        rewrite decide_True by lia. by destruct (lookup_lt_is_Some_2 _ _ Hin) as [x ->].
      * rewrite lookup_app_r by (rewrite length_take; lia).
        rewrite length_take, lookup_replicate_2 by lia.
        by rewrite (lookup_ge_None_2 (drop 4 buf)) by lia.
Qed.
