(* ===== verification/Registry.v ===== *)
(** * Registry: the table of logged-in sessions

    [session/registry.go], with [strings.EqualFold] (standard library, used by
    [Registry.GetSessionByUsername] and by the API's authentication).  The
    registry is a map from XUIDs to session pointers; sessions are known here
    by an identifier and by the display name of their client.  The lemmas
    characterise every lookup whatever the map's iteration order, and show
    what [AddSession] and [RemoveSession] do to a second session of the same
    player. *)

From S2P Require Import Prelude.

Local Open Scope Z_scope.
Local Open Scope go_scope.

(** ** [strings.EqualFold] *)

(** The part of [EqualFold] after the first non-ASCII byte: it decodes runes
    and folds them with the Unicode tables. *)
Class UnicodeFold := fold_unicode : list byte -> list byte -> bool.

Definition rune_self : Z := 128.

(** The comparison of two ASCII bytes inside the loop. *)
Definition fold_byte (sr tr : Z) : bool :=
  (sr =? tr) ||
  (let lo := Z.min sr tr in
   let hi := Z.max sr tr in
   (65 <=? lo) && (lo <=? 90) && (hi =? lo + 32)).

(** The loop over the common prefix; a byte that is not ASCII sends both
    remainders to [hasUnicode]. *)
Fixpoint EqualFold_loop `{UnicodeFold} (s t : list byte) : bool :=
  match s, t with
  | a :: s', b :: t' =>
      if rune_self <=? Z.lor (Z_of_byte a) (Z_of_byte b) then fold_unicode s t
      else if fold_byte (Z_of_byte a) (Z_of_byte b) then EqualFold_loop s' t'
      else false
  | _, _ => len s =? len t
  end.

Definition EqualFold `{UnicodeFold} (s t : string) : bool :=
  EqualFold_loop (bytes_of s) (bytes_of t).

(** ** registry.go *)

(** A [*Session]. *)
Abbreviation sid := nat.

Section Registry.
Context `{UnicodeFold} `{IterationOrder}.

(** [session.client.IdentityData().DisplayName] *)
Variable DisplayName : sid -> string.

Record Registry := mkRegistry { sessions : gmap string sid }.

Definition NewRegistry : Registry := mkRegistry ∅.

Definition AddSession (xuid : string) (s : sid) (r : Registry) : Registry :=
  mkRegistry (<[xuid := s]> (sessions r)).

Definition GetSession (xuid : string) (r : Registry) : option sid := sessions r !! xuid.

(** The loop of [GetSessionByUsername] over the entries. *)
Fixpoint find_username (username : string) (l : list (string * sid)) : option sid :=
  match l with
  | [] => None
  | (_, session) :: l =>
      if EqualFold (DisplayName session) username then Some session else find_username username l
  end.

Definition GetSessionByUsername (username : string) (r : Registry) : option sid :=
  find_username username (visit (map_to_list (sessions r))).

Definition RemoveSession (xuid : string) (r : Registry) : Registry :=
  mkRegistry (delete xuid (sessions r)).

Definition GetSessions (r : Registry) : list sid :=
  foldl (fun acc '(_, session) => acc ++ [session]) [] (visit (map_to_list (sessions r))).

(** What the sessions of the proxy do to the registry: [LoginContext] ends
    with an [AddSession], [CloseWithError] contains a [RemoveSession], both
    under the XUID of the session's own client. *)
Inductive registry_event :=
  | LoggedIn (xuid : string) (s : sid)
  | ClosedSession (xuid : string) (s : sid).

Definition registry_step (r : Registry) (e : registry_event) : Registry :=
  match e with
  | LoggedIn xuid s => AddSession xuid s r
  | ClosedSession xuid _ => RemoveSession xuid r
  end.

Definition registry_run (es : list registry_event) : Registry :=
  foldl registry_step NewRegistry es.

(** ASCII lower case, the specification of [EqualFold] on ASCII strings. *)
Definition lower (b : byte) : byte :=
  if (65 <=? Z_of_byte b) && (Z_of_byte b <=? 90) then byte_of_Z (Z_of_byte b + 32) else b.

Definition ascii (s : string) : Prop := Forall (fun b => Z_of_byte b < 128) (bytes_of s).

End Registry.

(** * Lemmas *)

(** Two ASCII bytes fold together exactly when their lower cases agree:
    checked on all pairs. *)
Definition all_bytes : list byte := map (fun n => byte_of_Z (Z.of_nat n)) (seq 0 256).

Lemma all_bytes_complete b : b ∈ all_bytes.
Proof.
  unfold all_bytes. apply list_elem_of_fmap. exists (Z.to_nat (Z_of_byte b)).
  pose proof (Z_of_byte_range b). split.
  - by rewrite Z2Nat.id, byte_of_Z_of_byte by lia.
  - apply elem_of_seq. lia.
Qed.

Lemma forallb_bytes (f : byte -> bool) : forallb f all_bytes = true -> forall b, f b = true.
Proof.
  intros Hf b. rewrite forallb_forall in Hf. apply Hf, list_elem_of_In, all_bytes_complete.
Qed.

Definition fold_byte_check (a b : byte) : bool :=
  implb ((Z_of_byte a <? 128) && (Z_of_byte b <? 128))
    (Bool.eqb (fold_byte (Z_of_byte a) (Z_of_byte b)) (Z_of_byte (lower a) =? Z_of_byte (lower b))).

Lemma fold_byte_lower a b :
  Z_of_byte a < 128 -> Z_of_byte b < 128 ->
  fold_byte (Z_of_byte a) (Z_of_byte b) = bool_decide (lower a = lower b).
Proof.
  assert (forallb (fun a => forallb (fold_byte_check a) all_bytes) all_bytes = true) as Hall
    by (vm_compute; reflexivity).
  intros Ha Hb. pose proof (forallb_bytes _ (forallb_bytes _ Hall a) b) as H.
  unfold fold_byte_check in H.
  rewrite (proj2 (Z.ltb_lt _ _) Ha), (proj2 (Z.ltb_lt _ _) Hb) in H.
  apply eqb_prop in H as ->. apply eq_true_iff_eq. rewrite Z.eqb_eq, bool_decide_eq_true.
  split; [|congruence]. intros He. by rewrite <- (byte_of_Z_of_byte (lower a)), He, byte_of_Z_of_byte.
Qed.

Lemma lor_ascii a b : 0 <= a < 256 -> 0 <= b < 256 -> a < 128 -> b < 128 -> Z.lor a b < 128.
Proof.
  intros. destruct (decide (Z.lor a b = 0)); [lia|].
  apply (Z.log2_lt_pow2 _ 7); [pose proof (Z.lor_nonneg a b); lia|].
  rewrite Z.log2_lor by lia.
  assert (forall x, 0 <= x < 128 -> Z.log2 x < 7) as Hlog.
  { intros x Hx. destruct (decide (x = 0)) as [->|]; [done|]. apply Z.log2_lt_pow2; simpl; lia. }
  pose proof (Hlog a). pose proof (Hlog b). lia.
Qed.

Lemma EqualFold_ascii `{UnicodeFold} s t :
  ascii s -> ascii t ->
  EqualFold s t = bool_decide (map lower (bytes_of s) = map lower (bytes_of t)).
Proof.
  unfold EqualFold, ascii. generalize (bytes_of s) as a, (bytes_of t) as b. clear s t.
  induction a as [|x a IH]; intros [|y b] Ha Hb; try done.
  apply Forall_cons in Ha as [Hx Ha], Hb as [Hy Hb]. simpl.
  pose proof (Z_of_byte_range x). pose proof (Z_of_byte_range y).
  rewrite (proj2 (Z.leb_gt _ _)) by (apply lor_ascii; unfold rune_self; lia).
  rewrite fold_byte_lower by done. rewrite IH by done.
  case_bool_decide as E.
  - apply bool_decide_ext. rewrite E. split; congruence.
  - symmetry. apply bool_decide_eq_false. congruence.
Qed.

Section RegistryLemmas.
Context `{UnicodeFold} `{IterationOrder} (DisplayName : sid -> string).

Lemma elem_of_visit_map (m : gmap string sid) x s :
  (x, s) ∈ visit (map_to_list m) <-> m !! x = Some s.
Proof. rewrite (visit_perm (map_to_list m)). apply elem_of_map_to_list. Qed.

Lemma find_username_spec u l :
  match find_username DisplayName u l with
  | Some s => EqualFold (DisplayName s) u = true /\ exists x, (x, s) ∈ l
  | None => forall x s, (x, s) ∈ l -> EqualFold (DisplayName s) u = false
  end.
Proof.
  induction l as [|[x s] l IH]; simpl; [intros ? ? Hin; by apply not_elem_of_nil in Hin|].
  destruct (EqualFold (DisplayName s) u) eqn:E; [split; [done | exists x; left]|].
  destruct (find_username _ _ _) as [s'|].
  - destruct IH as (? & x' & ?). split; [done | exists x'; by right].
  - intros x' s' [?|?]%elem_of_cons; simplify_eq; eauto.
Qed.

(** Whatever the iteration order: a result is a registered session of that
    name, and no result means that there is none. *)
Lemma GetSessionByUsername_spec u r :
  match GetSessionByUsername DisplayName u r with
  | Some s => EqualFold (DisplayName s) u = true /\ exists x, sessions r !! x = Some s
  | None => forall x s, sessions r !! x = Some s -> EqualFold (DisplayName s) u = false
  end.
Proof.
  pose proof (find_username_spec u (visit (map_to_list (sessions r)))) as Hl.
  unfold GetSessionByUsername. destruct (find_username _ _ _) as [s|].
  - destruct Hl as (? & x & ?%elem_of_visit_map). eauto.
  - intros x s Hs. apply (Hl x s). by apply elem_of_visit_map.
Qed.

Lemma GetSessions_perm r : GetSessions r ≡ₚ map snd (map_to_list (sessions r) : list (string * sid)).
Proof.
  unfold GetSessions. rewrite <- (visit_perm (map_to_list (sessions r))) at 2.
  generalize (visit (map_to_list (sessions r))) as l.
  assert (forall l acc,
    foldl (fun acc '(_, session) => acc ++ [session]) acc l = acc ++ map snd (l : list (string * sid))) as Hf.
  { induction l as [|[x s] l IH]; intros acc; simpl; [by rewrite app_nil_r|].
    by rewrite IH, <- (assoc_L (++)). }
  intros l. by rewrite (Hf l []).
Qed.

End RegistryLemmas.

(** * Properties *)

#[local] Instance go_order : IterationOrder := {| visit A l := l; visit_perm A l := reflexivity l |}.
#[local] Instance no_unicode : UnicodeFold := fun s t => bool_decide (s = t).

(** Looking a player up by name is sound and complete for every iteration
    order of the map: a session that is returned is registered and its name
    equals the username up to letter case, and when none is returned no
    registered session has that name. *)
Theorem lookup_by_username `{UnicodeFold} `{IterationOrder} (DisplayName : sid -> string)
    (u : string) (r : Registry) :
  ascii u -> (forall x s, sessions r !! x = Some s -> ascii (DisplayName s)) ->
  (forall s, GetSessionByUsername DisplayName u r = Some s ->
     (exists x, GetSession x r = Some s) /\ map lower (bytes_of (DisplayName s)) = map lower (bytes_of u)) /\
  (GetSessionByUsername DisplayName u r = None <->
     forall x s, GetSession x r = Some s -> map lower (bytes_of (DisplayName s)) <> map lower (bytes_of u)).
Proof.
  intros Hu Hnames. pose proof (GetSessionByUsername_spec DisplayName u r) as Hspec.
  assert (forall x s, sessions r !! x = Some s ->
    EqualFold (DisplayName s) u = bool_decide (map lower (bytes_of (DisplayName s)) = map lower (bytes_of u))) as Heq
    by eauto using EqualFold_ascii.
  unfold GetSession. destruct (GetSessionByUsername DisplayName u r) as [s|].
  - destruct Hspec as (Hf & x & Hx). rewrite (Heq x s Hx), bool_decide_eq_true in Hf.
    split; [intros ? [= <-]; eauto | split; [done | intros Hno; by destruct (Hno x s Hx)]].
  - split; [done | split; [intros _ | done]]. intros x s Hx.
    specialize (Hspec x s Hx). by rewrite (Heq x s Hx), bool_decide_eq_false in Hspec.
Qed.

Lemma lookup_by_username_witness :
  let r := AddSession "1" 7%nat NewRegistry in
  let names := fun _ : sid => "Steve" in
  (forall s, GetSessionByUsername names "steve" r = Some s ->
     (exists x, GetSession x r = Some s) /\ map lower (bytes_of (names s)) = map lower (bytes_of "steve")) /\
  (GetSessionByUsername names "steve" r = None <->
     forall x s, GetSession x r = Some s -> map lower (bytes_of (names s)) <> map lower (bytes_of "steve")).
Proof.
  intros r names. apply (lookup_by_username names "steve" r);
    [repeat constructor | intros; repeat constructor].
Defined.

(** After any history of logins and closures the registry holds, for every
    XUID, the session of the last login that no closure of that XUID follows;
    in particular the closure of an older session of the same player removes
    the entry of the session that replaced it. *)
Theorem registry_history (es : list registry_event) (xuid : string) :
  GetSession xuid (registry_run es) =
    foldl (fun o e => match e with
                      | LoggedIn x s => if decide (x = xuid) then Some s else o
                      | ClosedSession x _ => if decide (x = xuid) then None else o
                      end) None es /\
  (forall old new, GetSession xuid
     (registry_run (es ++ [LoggedIn xuid old; LoggedIn xuid new; ClosedSession xuid old])) = None).
Proof.
  split.
  - induction es as [|e es IH] using rev_ind; [done|].
    unfold registry_run, GetSession in *. rewrite !foldl_app. simpl. rewrite <- IH.
    destruct e as [x s | x s]; simpl; case_decide; simplify_map_eq; done.
  - intros old new. unfold registry_run, GetSession. rewrite foldl_app. simpl. by simplify_map_eq.
Qed.
