(* ===== verification/Api.v ===== *)
(** * Api: the API service and its client

    Package [api]: [Client] (client.go), [Dial] (dial.go), authentication
    (authentication.go) and the service itself (api.go).  The sessions the
    service acts on are an interface ([Sessions]): the registry lookup,
    [Session.Disconnect] and [Session.Transfer].  TCP connections are a
    [source] for what the peer sends and a [Writer] for what is sent to it;
    logging is left out. *)

From S2P Require Import Prelude Wire ApiPacket Registry.

Local Open Scope Z_scope.
Local Open Scope go_scope.

(** What the service needs of the proxy's sessions, over the proxy's state. *)
Class Sessions (W : Type) := {
  find_session : string -> W -> option sid;        (* registry.GetSessionByUsername *)
  session_Disconnect : sid -> string -> M W unit;
  session_Transfer : sid -> string -> M W unit;
}.

(** What the service relies on, in the proxy's states [Inv]: [Disconnect] of a
    session it finds has no result, [Transfer] returns. *)
Class SessionsLaws {W} `{S : !Sessions W} (Inv : W -> Prop) : Prop := {
  found_Disconnect u s r w : Inv w -> find_session u w = Some s ->
    (session_Disconnect s r w).1 = Ok tt /\ Inv (session_Disconnect s r w).2;
  found_Transfer u s a w : Inv w -> find_session u w = Some s ->
    returns (session_Transfer s a w).1 /\ Inv (session_Transfer s a w).2;
}.

(** ** authentication.go *)

(** The interface [Authentication], by its one method. *)
Definition Authentication : Type := string -> bool.

Record SecretBasedAuthentication := mkSecret { secret : string }.

Definition NewSecretBasedAuthentication (s : string) : SecretBasedAuthentication := mkSecret s.

Definition Authenticate `{UnicodeFold} (a : SecretBasedAuthentication) (token : string) : bool :=
  EqualFold (secret a) token.

Section Api.
Context `{CP : CustomPackets}.

(** ** client.go *)

(** What [New] of [bufferPool] makes. *)
Definition bufferPool_New : list byte := [].

Record Client := mkClient {
  cl_in : source;              (* conn, as read through [reader] *)
  cl_writer : Writer;          (* conn, as written through [writer] *)
  cl_closed : bool;            (* conn has been closed *)
  cl_pool : gmap Z factory;
  cl_buffers : list (list byte);   (* the package's [bufferPool] *)
}.

Definition newClient (conn_in : source) (conn_out : sink) (pool : gmap Z factory)
    (buffers : list (list byte)) : Client :=
  mkClient conn_in (NewWriter conn_out) false pool buffers.

Definition set_cl_in x c := mkClient x (cl_writer c) (cl_closed c) (cl_pool c) (cl_buffers c).
Definition set_cl_writer x c := mkClient (cl_in c) x (cl_closed c) (cl_pool c) (cl_buffers c).
Definition set_cl_closed x c := mkClient (cl_in c) (cl_writer c) x (cl_pool c) (cl_buffers c).
Definition set_cl_buffers x c := mkClient (cl_in c) (cl_writer c) (cl_closed c) (cl_pool c) x.

(** [Client.ReadPacket]; a panic of the decoder becomes an error. *)
Definition Client_ReadPacket : M Client Packet :=
  recovering (fun r => ErrNew ("panic while decoding packet: " +:+ r)) (
    let! payload := zoom cl_in set_cl_in ReadPacket in
    let! (packetID, buf) := on_local binary_Read_uint32 payload in
    let! pool := gets cl_pool in
    match pool !! packetID with
    | None => fail (ErrNew ("unknown packet ID: " +:+ pretty packetID))
    | Some factory =>
        let! (pk, _) := on_local (Decode factory) buf in
        ret pk
    end).

(** [Client.WritePacket]: the buffer comes from [bufferPool] and goes back to
    it empty on every exit. *)
Definition Client_WritePacket (pk : Packet) : M Client unit :=
  let! buf := zoom cl_buffers set_cl_buffers (pool_Get bufferPool_New) in
  deferring (fun c => set_cl_buffers (pool_Put [] (cl_buffers c)) c) (
    let! (_, buf) := on_local (buf_Write (le_bytes 4 (u32 (ID pk)))) buf in
    let! (_, buf) := on_local (Encode pk) buf in
    zoom cl_writer set_cl_writer (Write buf)).

(** [Client.Close] *)
Definition Client_Close : M Client unit := modify (set_cl_closed true).

(** ** dial.go *)

(** [Dial] after [net.Dial] has connected. *)
Definition Dial_conn (token : string) : M Client unit := fun c =>
  let (o, c') := (
    Client_WritePacket (PConnectionRequest (mkConnectionRequest token)) ;;;
    let! connectionResponsePacket := Client_ReadPacket in
    match connectionResponsePacket with
    | PConnectionResponse r =>
        if Response r =? ResponseFail then fail (ErrNew "connection failed")
        else if Response r =? ResponseUnauthorized then fail (ErrNew "connection unauthorized")
        else if negb (Response r =? ResponseSuccess)
        then fail (ErrNew ("received an unknown response code " +:+ pretty IDConnectionResponse))
        else ret tt
    | _ => fail (ErrNew ("expected connection response, got " +:+ pretty IDConnectionResponse))
    end) c in
  (* defer: close on error *)
  match o with
  | Err e => (Err e, (Client_Close c').2)
  | _ => (o, c')
  end.

(** [Dial]; [net_Dial] is [net.Dial("tcp", addr)]. *)
Definition Dial (net_Dial : string -> (source * sink) + error) (packets : gmap Z factory)
    (buffers : list (list byte)) (addr token : string) : outcome Client * option Client :=
  match net_Dial addr with
  | inr err => (Err err, None)
  | inl (i, o) =>
      match Dial_conn token (newClient i o (NewPool packets) buffers) with
      | (Ok _, c) => (Ok c, Some c)
      | (Err e, c) => (Err e, Some c)
      | (Panic w, c) => (Panic w, Some c)
      | (NoFuel, c) => (NoFuel, Some c)
      end
  end.

(** ** api.go *)

Section Service.
Context {W : Type} `{S : !Sessions W}.

(** [handler]: a function of the client and the packet, on the client's
    connection and the proxy. *)
Definition handler : Type := Packet -> M (Client * W) unit.

Definition on_client {A} (m : M Client A) : M (Client * W) A :=
  zoom fst (fun c s => (c, snd s)) m.
Definition on_world {A} (m : M W A) : M (Client * W) A :=
  zoom snd (fun w s => (fst s, w)) m.

Record API := mkAPI {
  authentication : option Authentication;
  handlers : gmap Z handler;
  clients : gmap Z nat;        (* client pointers by connection id *)
  nextId : Z;
  api_listener : option bool;  (* nil, or whether it is open *)
  closed : bool;               (* the channel [closed] is closed *)
}.

Definition set_handlers h a := mkAPI (authentication a) h (clients a) (nextId a) (api_listener a) (closed a).
Definition set_clients c n a := mkAPI (authentication a) (handlers a) c n (api_listener a) (closed a).
Definition set_api_listener v a := mkAPI (authentication a) (handlers a) (clients a) (nextId a) v (closed a).
Definition set_closed b a := mkAPI (authentication a) (handlers a) (clients a) (nextId a) (api_listener a) b.

(** [RegisterHandler] *)
Definition RegisterHandler (id : Z) (h : handler) (a : API) : API :=
  set_handlers (<[id := h]> (handlers a)) a.

(** The handlers [NewAPI] registers.  The type assertion panics on another
    type. *)
Definition kick_handler : handler := fun pk =>
  match pk with
  | PKick k =>
      let! w := gets snd in
      match find_session (Kick_Username k) w with
      | Some s => on_world (session_Disconnect s (Kick_Reason k))
      | None => ret tt
      end
  | _ => panic "interface conversion: packet.Packet is not *packet.Kick"
  end.

Definition transfer_handler : handler := fun pk =>
  match pk with
  | PTransfer t =>
      let! w := gets snd in
      match find_session (Transfer_Username t) w with
      | Some s => ignore (on_world (session_Transfer s (Transfer_Addr t)))
      | None => ret tt
      end
  | _ => panic "interface conversion: packet.Packet is not *packet.Transfer"
  end.

(** [NewAPI] *)
Definition NewAPI (auth : option Authentication) : API :=
  RegisterHandler IDTransfer transfer_handler
  (RegisterHandler IDKick kick_handler
  (mkAPI auth ∅ ∅ 0 None false)).

(** [Listen]; [err] is the result of [net.Listen]. *)
Definition Listen (err : option error) : M API unit :=
  match err with
  | Some e => fail e
  | None => modify (set_api_listener (Some true))
  end.

(** [Accept]; [conn] is the result of [listener.Accept], the pointer of the
    new client or an error; there is none before [Listen].  The id is returned
    for the [handle] it starts. *)
Definition Accept (conn : nat + error) : M API Z :=
  let! a := gets (fun a => a) in
  match api_listener a with
  | None => panic "runtime error: invalid memory address or nil pointer dereference"
  | Some _ =>
      match conn with
      | inr err => fail err
      | inl c =>
          let id := nextId a in
          modify (set_clients (<[id := c]> (clients a)) (i64 (nextId a + 1))) ;;;
          ret id
      end
  end.

(** [Clients] *)
Definition Clients `{IterationOrder} (a : API) : list nat :=
  foldl (fun acc '(_, client) => acc ++ [client]) [] (visit (map_to_list (clients a))).

(** [API.Close] *)
Definition Close : M API unit :=
  let! a := gets (fun a => a) in
  if closed a then fail (ErrNew "already closed")
  else
    modify (set_closed true) ;;;
    modify (fun a => match api_listener a with Some _ => set_api_listener (Some false) a | None => a end).

(** The loop of [handle].  [polls] is what the successive polls of [a.closed]
    find; [Close] may run at any time. *)
Fixpoint handle_loop (hs : gmap Z handler) (fuel : nat) (polls : nat -> bool) : M (Client * W) unit :=
  match fuel with
  | O => nofuel
  | Datatypes.S fuel =>
      if polls O then ret tt
      else
        let! r := attempt (on_client Client_ReadPacket) in
        match r with
        | inr err => ret tt
        | inl pk =>
            match hs !! ID pk with
            | Some h => h pk ;;; handle_loop hs fuel (fun n => polls (Datatypes.S n))
            | None => handle_loop hs fuel (fun n => polls (Datatypes.S n))
            end
        end
  end.

Definition respond (code : Z) : M (Client * W) unit :=
  on_client (Client_WritePacket (PConnectionResponse (mkConnectionResponse code))).

(** The part of [handle] after the [defer]. *)
Definition handle_body (a : API) (fuel : nat) (polls : nat -> bool) : M (Client * W) unit :=
  let! r := attempt (on_client Client_ReadPacket) in
  match r with
  | inr err => ignore (respond ResponseFail)
  | inl (PConnectionRequest connectionRequest) =>
      if match authentication a with
         | Some auth => negb (auth (Token connectionRequest))
         | None => false
         end
      then ignore (respond ResponseUnauthorized)
      else
        let! r := attempt (respond ResponseSuccess) in
        match r with
        | inr err => ret tt
        | inl _ => handle_loop (handlers a) fuel polls
        end
  | inl _ => ignore (respond ResponseFail)
  end.

(** [handle]: the deferred function removes the client and closes its
    connection on every exit. *)
Definition handle (id : Z) (fuel : nat) (polls : nat -> bool) : M (API * (Client * W)) unit := fun s =>
  let (o, cw) := handle_body s.1 fuel polls s.2 in
  (o, (set_clients (delete id (clients s.1)) (nextId s.1) s.1, ((Client_Close cw.1).2, cw.2))).

End Service.
End Api.

(** * Lemmas *)

Section ApiLemmas.
Context `{CP : CustomPackets}.

(** A client as [newClient] and the methods leave it: usable scratch slices
    and an empty buffer in every place of the pool. *)
Definition wf_client (c : Client) : Prop :=
  wf_writer (cl_writer c) /\ Forall (fun b => b = []) (cl_buffers c).

(** The body of the frame of a packet. *)
Definition packet_bytes (p : Packet) : list byte := le_bytes 4 (u32 (ID p)) ++ encoding p.

(** [WritePacket] is [Writer.Write] on the encoded packet; the pooled buffer
    it used leaves no trace. *)
Lemma Client_WritePacket_eq p c :
  wf_client c -> encodable p ->
  exists bufs, Forall (fun b => b = []) bufs /\
    Client_WritePacket p c =
      let (o, w) := Write (packet_bytes p) (cl_writer c) in
      (o, mkClient (cl_in c) w (cl_closed c) (cl_pool c) bufs).
Proof.
  intros [Hw Hb] Hp. destruct c as [i w cl pool bufs]; simpl in *.
  assert (exists bufs', Forall (fun b => b = []) bufs' /\ pool_Get bufferPool_New bufs = (Ok [], bufs')) as
    (bufs' & Hb' & Hget).
  { destruct bufs as [|b bufs]; simpl; [by exists []|].
    apply Forall_cons in Hb as [-> Hb]. by exists bufs. }
  exists ([] :: bufs'). split; [by constructor|].
  unfold Client_WritePacket, bind at 1, zoom at 1. simpl. rewrite Hget. simpl.
  unfold deferring, bind, on_local, buf_Write, modify. simpl.
  rewrite Encode_eq by done. unfold zoom. simpl. fold (packet_bytes p).
  by destruct (Write (packet_bytes p) w).
Qed.

Lemma Client_WritePacket_healthy p c :
  wf_client c -> healthy (cl_writer c) -> encodable p ->
  exists w bufs,
    Client_WritePacket p c = (Ok tt, mkClient (cl_in c) w (cl_closed c) (cl_pool c) bufs) /\
    wf_writer w /\ healthy w /\ Forall (fun b => b = []) bufs /\
    sk_data (wr_w w) = sk_data (wr_w (cl_writer c)) ++ frame (packet_bytes p).
Proof.
  intros Hc Hh Hp. destruct (Client_WritePacket_eq p c Hc Hp) as (bufs & Hb & ->).
  destruct (run_wop_healthy (WWrite (packet_bytes p)) _ (proj1 Hc) Hh) as (w & Hrun & ? & ? & ?).
  simpl in Hrun. rewrite Hrun. by exists w, bufs.
Qed.

(** Whatever happens to the bytes: a write leaves the client well formed,
    touches only its connection, and returns. *)
Lemma Client_WritePacket_any p c :
  wf_client c -> encodable p ->
  exists o w bufs,
    Client_WritePacket p c = (o, mkClient (cl_in c) w (cl_closed c) (cl_pool c) bufs) /\
    returns o /\ wf_writer w /\ Forall (fun b => b = []) bufs /\
    exists sent, sk_data (wr_w w) = sk_data (wr_w (cl_writer c)) ++ sent /\
      sent `prefix_of` frame (packet_bytes p).
Proof.
  intros Hc Hp. destruct (Client_WritePacket_eq p c Hc Hp) as (bufs & Hb & ->).
  destruct (Write_sends (packet_bytes p) _ (proj1 Hc)) as (sent & Hwf & Hd & Hpre & Ho & _).
  destruct (Write _ _) as [o w]; simpl in *. exists o, w, bufs.
  split_and!; try done; [by destruct o | by exists sent].
Qed.

Lemma packet_id_small p : encodable p -> 0 <= ID p < 2 ^ 32.
Proof. by destruct p. Qed.

Lemma Client_ReadPacket_frame p c rest :
  encodable p -> len (packet_bytes p) < 2 ^ 32 ->
  cl_pool c !! ID p = Some (zero_of p) ->
  flat (cl_in c) = frame (packet_bytes p) ++ rest ->
  exists s', Client_ReadPacket c = (Ok (as_decoded p), set_cl_in s' c) /\ flat s' = rest /\
    src_end s' = src_end (cl_in c).
Proof.
  intros Hp Hlen Hpool Hs. destruct (ReadPacket_frame _ _ _ Hs Hlen) as (s' & Hr & Hf & He).
  exists s'. split; [|done].
  unfold Client_ReadPacket, recovering, bind at 1, zoom. rewrite Hr.
  unfold bind at 1, on_local at 1. unfold binary_Read_uint32, buf_ReadFull, bind at 1, flat_read, packet_bytes.
  rewrite (proj2 (Z.ltb_ge _ 4)) by (unfold len; rewrite length_app, length_le_bytes; lia).
  rewrite take_app_exact, drop_app_exact by (by rewrite length_le_bytes).
  unfold ret at 1. rewrite le_val_le_bytes. change (8 * Z.of_nat 4) with 32.
  rewrite (u32_small (ID p)), Z.mod_small by (by apply packet_id_small).
  unfold bind, gets. simpl. rewrite Hpool. unfold on_local.
  rewrite <- (app_nil_r (encoding p)), Decode_Encode by done. done.
Qed.

(** At the end of the stream every read is an error. *)
Lemma Client_ReadPacket_eof c :
  flat (cl_in c) = [] -> exists e c', Client_ReadPacket c = (Err e, c') /\
    cl_writer c' = cl_writer c /\ cl_buffers c' = cl_buffers c.
Proof.
  intros Hf. pose proof (ReadPacket_flat (cl_in c)) as [H _]. rewrite Hf in H.
  unfold Client_ReadPacket, recovering, bind at 1, zoom.
  destruct (ReadPacket (cl_in c)) as [o s']; simpl in *.
  unfold parse_frame in H. simpl in H. simplify_eq. by eexists _, _.
Qed.

(** A read touches only the input, always returns, and takes at least the
    four header bytes when it succeeds. *)
Lemma Client_ReadPacket_any c :
  exists o s', Client_ReadPacket c = (o, set_cl_in s' c) /\ returns o /\
    (is_Ok o -> (length (flat s') < length (flat (cl_in c)))%nat).
Proof.
  unfold Client_ReadPacket, recovering, bind at 1, zoom.
  pose proof (ReadPacket_returns (cl_in c)) as Hret.
  destruct (ReadPacket (cl_in c)) as [[payload|e| |] s'] eqn:Hr; simpl in Hret; try done;
    [|by exists (Err e), s'].
  assert (length (flat s') < length (flat (cl_in c)))%nat as Hlt
    by (apply ReadPacket_consumes in Hr; lia).
  unfold bind at 1, on_local at 1. unfold binary_Read_uint32, buf_ReadFull, bind at 1, flat_read.
  destruct (len payload <? 4); simpl; [by eexists _, s'|].
  unfold bind, gets. simpl.
  destruct (cl_pool c !! le_val (take (Z.to_nat 4) payload)) as [f|]; [|by eexists _, s'].
  pose proof (Decode_outcome f (drop (Z.to_nat 4) payload)) as Hd. unfold on_local.
  destruct (Decode _ _) as [[] ?]; simpl in Hd; try done; by eexists _, s'.
Qed.

(** The built-in factories, as [newClient] gets them from [NewPool]. *)
Lemma init_pool p : encodable p -> NewPool init_packets !! ID p = Some (zero_of p).
Proof. intros Hp. rewrite NewPool_eq. by destruct p as [[] | [] | [] | [] | ]. Qed.

Section ServiceLemmas.
Context {W : Type} `{S : !Sessions W}.

(** What a packet does to the proxy, by the service's contract: a kick
    disconnects and a transfer moves the session the username names, if any;
    every other packet is ignored. *)
Definition dispatch (w : W) (p : Packet) : W :=
  match p with
  | PKick k =>
      match find_session (Kick_Username k) w with
      | Some s => (session_Disconnect s (Kick_Reason k) w).2
      | None => w
      end
  | PTransfer t =>
      match find_session (Transfer_Username t) w with
      | Some s => (session_Transfer s (Transfer_Addr t) w).2
      | None => w
      end
  | _ => w
  end.

Context {Inv : W -> Prop} `{!SessionsLaws Inv}.

Lemma dispatch_invariant w p : Inv w -> Inv (dispatch w p).
Proof.
  intros Hw. destruct p; try done; simpl; destruct (find_session _ w) as [s|] eqn:Hf; try done;
    [by apply (found_Disconnect _ s _ w Hw Hf) | by apply (found_Transfer _ s _ w Hw Hf)].
Qed.

Lemma on_client_eq {A} (m : M Client A) c (w : W) o c' :
  m c = (o, c') -> on_client m (c, w) = (o, (c', w)).
Proof. unfold on_client, zoom. simpl. by intros ->. Qed.

Lemma kick_handler_eq k c w :
  Inv w -> kick_handler (PKick k) (c, w) = (Ok tt, (c, dispatch w (PKick k))).
Proof.
  intros Hw. unfold kick_handler, bind, gets. simpl.
  destruct (find_session _ w) as [s|] eqn:Hf; [|done]. unfold on_world, zoom. simpl.
  destruct (found_Disconnect _ s (Kick_Reason k) w Hw Hf) as [Hd _].
  by destruct (session_Disconnect _ _ _) as [o w']; simpl in *; subst.
Qed.

Lemma transfer_handler_eq t c w :
  Inv w -> transfer_handler (PTransfer t) (c, w) = (Ok tt, (c, dispatch w (PTransfer t))).
Proof.
  intros Hw. unfold transfer_handler, bind, gets. simpl.
  destruct (find_session _ w) as [s|] eqn:Hf; [|done].
  unfold ignore, attempt, bind, on_world, zoom. simpl.
  destruct (found_Transfer _ s (Transfer_Addr t) w Hw Hf) as [Ht _].
  by destruct (session_Transfer _ _ _) as [[] w']; simpl in *.
Qed.

Lemma handlers_NewAPI (auth : option Authentication) id :
  handlers (NewAPI (W:=W) auth) !! id =
    if decide (id = IDTransfer) then Some transfer_handler
    else if decide (id = IDKick) then Some kick_handler else None.
Proof. simpl. repeat case_decide; subst; by simplify_map_eq. Qed.

(** A handler of [NewAPI] on a packet of the built-in types. *)
Lemma builtin_handler auth p :
  encodable p ->
  match handlers (NewAPI (W:=W) auth) !! ID p with
  | Some h => forall c w, Inv w -> h p (c, w) = (Ok tt, (c, dispatch w p))
  | None => forall w, dispatch w p = w
  end.
Proof.
  intros Hp. rewrite handlers_NewAPI.
  destruct p; [done | done | intros c w; by apply kick_handler_eq
              | intros c w; by apply transfer_handler_eq | done].
Qed.

(** A handler of [NewAPI] on any packet leaves the connection alone and comes
    to an end. *)
Lemma builtin_handler_any (auth : option Authentication) id h p c w :
  handlers (NewAPI (W:=W) auth) !! id = Some h -> Inv w ->
  exists o w', h p (c, w) = (o, (c, w')) /\ o <> NoFuel /\ Inv w'.
Proof.
  rewrite handlers_NewAPI. intros Hh Hw. repeat case_decide; simplify_eq; destruct p;
    try (by eexists _, _);
    [rewrite transfer_handler_eq by done | rewrite kick_handler_eq by done];
    eexists _, _; split_and!; try done; by apply dispatch_invariant.
Qed.

(** The loop of [handle] ends: every round takes at least four bytes. *)
Lemma handle_loop_terminates auth fuel polls c (w : W) :
  (length (flat (cl_in c)) < fuel)%nat -> Inv w ->
  (handle_loop (handlers (NewAPI auth)) fuel polls (c, w)).1 <> NoFuel.
Proof.
  intros Hfuel Hw. pose proof (builtin_handler_any auth) as Hany. revert Hany.
  generalize (handlers (W:=W) (NewAPI auth)) as hs. intros hs Hany. revert polls c w Hfuel Hw.
  induction fuel as [|fuel IH]; intros polls c w Hfuel Hw; [lia|]. simpl.
  destruct (polls 0%nat); [done|].
  destruct (Client_ReadPacket_any c) as (o & s' & Hr & Hro & Hlt).
  unfold bind at 1, attempt, on_client, zoom. simpl. rewrite Hr.
  destruct o as [pk|e| |]; try done. specialize (Hlt I). simpl.
  destruct (hs !! ID pk) as [h|] eqn:Hh.
  - unfold bind. destruct (Hany _ h pk (set_cl_in s' c) w Hh Hw) as (o & w' & -> & Ho & Hw').
    destruct o; try done. apply IH; [simpl; lia | done].
  - apply IH; [simpl; lia | done].
Qed.

(** The loop on a stream of built-in packets: each is dispatched, in order. *)
Lemma handle_loop_dispatch auth ps fuel polls c (w : W) :
  (length ps < fuel)%nat -> (forall n, polls n = false) -> Inv w ->
  Forall (fun p => encodable p /\ len (packet_bytes p) < 2 ^ 32) ps ->
  cl_pool c = NewPool init_packets ->
  flat (cl_in c) = concat (map frame (map packet_bytes ps)) ->
  exists c', handle_loop (handlers (NewAPI auth)) fuel polls (c, w) =
      (Ok tt, (c', foldl dispatch w (map as_decoded ps))) /\
    cl_writer c' = cl_writer c /\ cl_buffers c' = cl_buffers c.
Proof.
  intros Hfuel Hpolls Hw Hps Hpool. pose proof (builtin_handler auth) as Hb. revert Hb.
  generalize (handlers (W:=W) (NewAPI auth)) as hs. intros hs Hb.
  revert fuel polls c w Hfuel Hpolls Hw Hps Hpool.
  induction ps as [|p ps IH]; intros [|fuel] polls c w Hfuel Hpolls Hw Hps Hpool Hf;
    simpl in Hfuel; try lia; simpl; rewrite Hpolls;
    unfold bind at 1, attempt, on_client, zoom; simpl.
  - destruct (Client_ReadPacket_eof c Hf) as (e & c' & -> & Hwr & Hbuf). by exists c'.
  - apply Forall_cons in Hps as [[Hp Hlen] Hps].
    destruct (Client_ReadPacket_frame p c (concat (map frame (map packet_bytes ps))) Hp Hlen) as (s' & -> & Hf' & _);
      [by rewrite Hpool, init_pool | exact Hf |]. simpl.
    assert (encodable (as_decoded p)) as Hp' by (by destruct p).
    pose proof (Hb (as_decoded p) Hp') as Hh.
    assert (forall w0, Inv w0 -> exists c', handle_loop hs fuel (fun n => polls (Datatypes.S n))
        (set_cl_in s' c, w0) = (Ok tt, (c', foldl dispatch w0 (map as_decoded ps))) /\
        cl_writer c' = cl_writer c /\ cl_buffers c' = cl_buffers c) as Hrest
      by (intros w0 Hw0; apply (IH fuel _ (set_cl_in s' c) w0); simpl; auto; lia).
    destruct (hs !! ID (as_decoded p)) as [h|].
    + unfold bind. rewrite Hh by done. by apply Hrest, dispatch_invariant.
    + rewrite Hh. by apply Hrest.
Qed.

End ServiceLemmas.
End ApiLemmas.

(** * Properties *)

Section ApiSpec.
Context `{CP : CustomPackets} {W : Type} `{S : !Sessions W}.

(** The connection opens with a request the service's authentication accepts. *)
Definition accepted (a : API (W:=W)) (c : Client) : Prop :=
  exists req c', Client_ReadPacket c = (Ok (PConnectionRequest req), c') /\
    match authentication a with Some auth => auth (Token req) = true | None => True end.

(** The peer reads one packet after the other until an error. *)
Fixpoint Client_ReadPackets (n : nat) : M Client (list Packet) :=
  match n with
  | O => ret []
  | Datatypes.S n =>
      let! pk := Client_ReadPacket in
      let! pks := Client_ReadPackets n in
      ret (pk :: pks)
  end.

(** Each accepted connection of a history of the service, in order, and the
    ids whose [handle] has ended. *)
Inductive api_event := Accepted (c : nat) | AcceptFailed (e : error) | Exited (id : Z).

Definition api_step (a : API (W:=W)) (ev : api_event) : API :=
  match ev with
  | Accepted c => (Accept (inl c) a).2
  | AcceptFailed e => (Accept (inr e) a).2
  | Exited id => set_clients (delete id (clients a)) (nextId a) a
  end.

(** A history of the service from its [Listen] on. *)
Definition api_run (auth : option Authentication) (evs : list api_event) : API (W:=W) :=
  foldl api_step (Listen None (NewAPI auth)).2 evs.

(** The connections accepted in a history. *)
Definition accepted_conns (evs : list api_event) : list nat :=
  omap (fun ev => match ev with Accepted c => Some c | _ => None end) evs.

End ApiSpec.

(** The sessions of the witnesses: one session, "Steve"; the state records the
    calls. *)
Inductive session_call := CalledDisconnect (s : sid) (r : string) | CalledTransfer (s : sid) (a : string).

Definition toy_sessions : Sessions (list session_call) := {|
  find_session u _ := if decide (u = "Steve") then Some 7%nat else None;
  session_Disconnect s r w := (Ok tt, w ++ [CalledDisconnect s r]);
  session_Transfer s a w := (Ok tt, w ++ [CalledTransfer s a])
|}.

Lemma toy_sessions_laws : SessionsLaws (S:=toy_sessions) (fun _ => True).
Proof. by split. Qed.

(** Packets written with [Client.WritePacket] are read by the peer's
    [Client.ReadPacket] in order and unchanged (response codes excepted), for
    any fragmentation of the stream and any reuse of pooled buffers. *)
Theorem client_stream_roundtrip `{CP : CustomPackets} (ps : list Packet) (c peer : Client) :
  wf_client c -> healthy (cl_writer c) -> sk_data (wr_w (cl_writer c)) = [] ->
  Forall (fun p => encodable p /\ len (packet_bytes p) < 2 ^ 32) ps ->
  cl_pool peer = NewPool init_packets ->
  flat (cl_in peer) = sk_data (wr_w (cl_writer (for_each Client_WritePacket ps c).2)) ->
  (for_each Client_WritePacket ps c).1 = Ok tt /\
  (Client_ReadPackets (length ps) peer).1 = Ok (map as_decoded ps).
Proof.
  intros Hc Hh Hnil Hps Hpool Hin.
  assert (exists c', for_each Client_WritePacket ps c = (Ok tt, c') /\
    sk_data (wr_w (cl_writer c')) = sk_data (wr_w (cl_writer c)) ++ concat (map frame (map packet_bytes ps)))
    as (c' & Hrun & Hd).
  { clear Hnil Hin. revert c Hc Hh. induction Hps as [|p ps [Hp _] _ IH]; intros c Hc Hh; simpl.
    - exists c. by rewrite app_nil_r.
    - destruct (Client_WritePacket_healthy p c Hc Hh Hp) as (w & bufs & Hw & ? & ? & ? & Hd).
      destruct (IH (mkClient (cl_in c) w (cl_closed c) (cl_pool c) bufs)) as (c' & Hrun & Hd'); [done..|].
      exists c'. rewrite (bind_eq_Ok _ _ _ _ _ Hw). split; [done|]. simpl in Hd'.
      by rewrite Hd', Hd, <- (assoc_L (++)). }
  rewrite Hrun in *. split; [done|]. simpl in Hin. rewrite Hd, Hnil in Hin. clear - Hin Hps Hpool.
  revert peer Hin Hpool. induction Hps as [|p ps [Hp Hlen] _ IH]; intros peer Hin Hpool; simpl in *; [done|].
  destruct (Client_ReadPacket_frame p peer _ Hp Hlen ltac:(by rewrite Hpool, init_pool) Hin)
    as (s' & Hr & Hf & _).
  rewrite (bind_eq_Ok _ _ _ _ _ Hr). unfold bind.
  specialize (IH (set_cl_in s' peer) Hf Hpool).
  by destruct (Client_ReadPackets _ _) as [[] ?]; simplify_eq/=.
Qed.

Lemma client_stream_roundtrip_witness :
  let CP := no_custom in
  let ps := [PConnectionRequest (mkConnectionRequest "s3cret"); PTransfer (mkTransfer "hub:19133" "Steve")] in
  let c := newClient (mkSource [] EOF) (mkSink [] []) (NewPool init_packets) [] in
  let peer := newClient (mkSource [sk_data (wr_w (cl_writer (for_each Client_WritePacket ps c).2))] EOF)
                (mkSink [] []) (NewPool init_packets) [] in
  (for_each Client_WritePacket ps c).1 = Ok tt /\
  (Client_ReadPackets (length ps) peer).1 = Ok (map as_decoded ps).
Proof.
  intros CP ps c peer. apply (client_stream_roundtrip ps c peer);
    [split; [split; reflexivity | constructor] | reflexivity | reflexivity
    | repeat constructor | reflexivity | apply app_nil_r].
Defined.

(** The service refuses: nothing but a prefix of a refusal is sent. *)
Definition refuses `{CP : CustomPackets} {W} (c : Client) (w : W) (r : outcome unit * (Client * W)) : Prop :=
  r.1 = Ok tt /\ r.2.2 = w /\
  exists code sent, code <> ResponseSuccess /\
    sk_data (wr_w (cl_writer r.2.1)) = sk_data (wr_w (cl_writer c)) ++ sent /\
    sent `prefix_of` frame (packet_bytes (PConnectionResponse (mkConnectionResponse code))).

Lemma respond_refuses `{CP : CustomPackets} {W} code c (w : W) :
  code <> ResponseSuccess -> wf_client c -> refuses c w (ignore (respond code) (c, w)).
Proof.
  intros Hcode Hc.
  destruct (Client_WritePacket_any (PConnectionResponse (mkConnectionResponse code)) c)
    as (o & wr & bufs & Hw & Ho & _ & _ & sent & Hd & Hpre); [done | done |].
  unfold ignore, bind, attempt, respond, on_client, zoom. simpl. rewrite Hw.
  destruct o; try done; (split; [done | split; [done | by exists code, sent]]).
Qed.

Lemma handle_body_refuses `{CP : CustomPackets} {W} `{S : !Sessions W} (a : API (W:=W)) fuel polls c (w : W) :
  wf_client c -> ~ accepted a c -> refuses c w (handle_body a fuel polls (c, w)).
Proof.
  intros Hc Hna. unfold handle_body, bind at 1, attempt, on_client, zoom. simpl.
  destruct (Client_ReadPacket_any c) as (o & s' & Hr & Hro & _). rewrite Hr.
  assert (forall code, code <> ResponseSuccess -> refuses c w (ignore (respond code) (set_cl_in s' c, w)))
    as Hresp by (intros code Hcode; by apply (respond_refuses code (set_cl_in s' c) w)).
  destruct o as [pk|e| |]; try done; [|by apply Hresp].
  destruct pk as [req| | | |]; try by apply Hresp.
  destruct (authentication a) as [auth|] eqn:Ha.
  - destruct (auth (Token req)) eqn:Hauth; [|by apply Hresp].
    exfalso. apply Hna. exists req, (set_cl_in s' c). by rewrite Ha.
  - exfalso. apply Hna. exists req, (set_cl_in s' c). by rewrite Ha.
Qed.

(** C30: a connection that does not open with an accepted request reaches no
    handler: [handle] returns, the proxy is as before, at most a refusal was
    sent, and the connection is closed and forgotten. *)
Theorem unauthorized_client_contained `{CP : CustomPackets} {W : Type} `{S : !Sessions W}
    (a : API (W:=W)) (id : Z) (fuel : nat) (polls : nat -> bool) (c : Client) (w : W) :
  wf_client c -> ~ accepted a c ->
  let r := handle id fuel polls (a, (c, w)) in
  r.1 = Ok tt /\ r.2.2.2 = w /\ cl_closed r.2.2.1 = true /\ clients r.2.1 !! id = None /\
  exists code sent, code <> ResponseSuccess /\
    sk_data (wr_w (cl_writer r.2.2.1)) = sk_data (wr_w (cl_writer c)) ++ sent /\
    sent `prefix_of` frame (packet_bytes (PConnectionResponse (mkConnectionResponse code))).
Proof.
  intros Hc Hna. pose proof (handle_body_refuses a fuel polls c w Hc Hna) as (H1 & H2 & H3).
  unfold handle. simpl. destruct (handle_body a fuel polls (c, w)) as [o [c' w']]; simpl in *.
  split_and!; [done | done | done | apply lookup_delete_eq | exact H3].
Qed.

Lemma unauthorized_client_contained_witness :
  let CP := no_custom in
  let S := toy_sessions in
  let a := NewAPI (Some (fun t => bool_decide (t = "s3cret"))) in
  let c := newClient (mkSource [sk_data (wr_w (cl_writer (Client_WritePacket
             (PConnectionRequest (mkConnectionRequest "guess"))
             (newClient (mkSource [] EOF) (mkSink [] []) ∅ [])).2))] EOF)
             (mkSink [] []) (NewPool init_packets) [] in
  let r := handle 0 5 (fun _ => false) (a, (c, [])) in
  r.1 = Ok tt /\ r.2.2.2 = [] /\ cl_closed r.2.2.1 = true /\ clients r.2.1 !! 0 = None /\
  exists code sent, code <> ResponseSuccess /\
    sk_data (wr_w (cl_writer r.2.2.1)) = sk_data (wr_w (cl_writer c)) ++ sent /\
    sent `prefix_of` frame (packet_bytes (PConnectionResponse (mkConnectionResponse code))).
Proof.
  intros CP S a c. apply (unauthorized_client_contained a 0 5 (fun _ => false) c []).
  - split; [split; reflexivity | constructor].
  - intros (req & c' & Hr & Hauth). vm_compute in Hr. injection Hr as <- _. vm_compute in Hauth. done.
Defined.

(** An accepted client, from its request to its end. *)
Lemma authorized_client_handled `{CP : CustomPackets} {W : Type} `{S : !Sessions W} (Inv : W -> Prop) `{!SessionsLaws Inv}
    (auth : option Authentication) (cs : gmap Z nat) (n id : Z) (token : string) (ps : list Packet)
    (fuel : nat) (polls : nat -> bool) (c : Client) (w : W) :
  wf_client c -> healthy (cl_writer c) -> cl_pool c = NewPool init_packets ->
  match auth with Some f => f token = true | None => True end ->
  Forall (fun p => encodable p /\ len (packet_bytes p) < 2 ^ 32)
    (PConnectionRequest (mkConnectionRequest token) :: ps) ->
  flat (cl_in c) = concat (map frame (map packet_bytes (PConnectionRequest (mkConnectionRequest token) :: ps))) ->
  (forall k, polls k = false) -> (length ps < fuel)%nat -> Inv w ->
  let a := set_clients cs n (NewAPI auth) in
  let r := handle id fuel polls (a, (c, w)) in
  r.1 = Ok tt /\ r.2.2.2 = foldl dispatch w (map as_decoded ps) /\
  sk_data (wr_w (cl_writer r.2.2.1)) = sk_data (wr_w (cl_writer c)) ++
    frame (packet_bytes (PConnectionResponse (mkConnectionResponse ResponseSuccess))) /\
  cl_closed r.2.2.1 = true /\ clients r.2.1 = delete id cs.
Proof.
  intros Hc Hh Hpool Hauth Hps Hin Hpolls Hfuel Hret a.
  apply Forall_cons in Hps as [[Hp Hlen] Hps].
  destruct (Client_ReadPacket_frame _ c _ Hp Hlen ltac:(by rewrite Hpool, init_pool) Hin)
    as (s' & Hr & Hf & _).
  destruct (Client_WritePacket_healthy (PConnectionResponse (mkConnectionResponse ResponseSuccess))
    (set_cl_in s' c)) as (wr & bufs & Hw & _ & _ & _ & Hd); [done | done | done |].
  destruct (handle_loop_dispatch auth ps fuel polls (mkClient s' wr (cl_closed c) (cl_pool c) bufs) w)
    as (c' & Hl & Hcw & _); [done..|].
  assert (handle_body a fuel polls (c, w) = (Ok tt, (c', foldl dispatch w (map as_decoded ps)))) as Hbody.
  { unfold handle_body.
    rewrite (bind_eq_Ok _ _ _ _ _ (attempt_eq_Ok _ _ _ _ (on_client_eq _ _ w _ _ Hr))).
    change (authentication a) with auth. cbn [as_decoded Token].
    replace (match auth with Some f => negb (f token) | None => false end) with false
      by (destruct auth; [by rewrite Hauth | done]).
    by rewrite (bind_eq_Ok _ _ _ _ _ (attempt_eq_Ok _ _ _ _ (on_client_eq _ _ w _ _ Hw))). }
  unfold handle. simpl fst. simpl snd. rewrite Hbody. simpl.
  split_and!; try done. by rewrite Hcw.
Qed.

(** An accepted client is served: it is told "success", and every packet
    it sends afterwards is dispatched once and in order; when its stream ends
    it is closed and forgotten. *)
Theorem authorized_client_served `{CP : CustomPackets} {W : Type} `{S : !Sessions W} (Inv : W -> Prop) `{!SessionsLaws Inv}
    (auth : option Authentication) (cs : gmap Z nat) (n id : Z) (token : string) (ps : list Packet)
    (fuel : nat) (polls : nat -> bool) (c : Client) (w : W) :
  wf_client c -> healthy (cl_writer c) -> cl_pool c = NewPool init_packets ->
  match auth with Some f => f token = true | None => True end ->
  Forall (fun p => encodable p /\ len (packet_bytes p) < 2 ^ 32)
    (PConnectionRequest (mkConnectionRequest token) :: ps) ->
  flat (cl_in c) = concat (map frame (map packet_bytes (PConnectionRequest (mkConnectionRequest token) :: ps))) ->
  (forall k, polls k = false) -> (length ps < fuel)%nat -> Inv w ->
  let a := set_clients cs n (NewAPI auth) in
  let r := handle id fuel polls (a, (c, w)) in
  r.1 = Ok tt /\ r.2.2.2 = foldl dispatch w (map as_decoded ps) /\
  sk_data (wr_w (cl_writer r.2.2.1)) = sk_data (wr_w (cl_writer c)) ++
    frame (packet_bytes (PConnectionResponse (mkConnectionResponse ResponseSuccess))) /\
  cl_closed r.2.2.1 = true /\ clients r.2.1 = delete id cs.
Proof. intros ? ? ? ? ? ? ? ? ?. by apply (authorized_client_handled Inv auth cs n id token). Qed.

Lemma authorized_client_served_witness :
  let CP := no_custom in
  let S := toy_sessions in
  let ps := [PKick (mkKick "bye" "Steve"); PTransfer (mkTransfer "hub" "Alex")] in
  let auth := Some (fun t => bool_decide (t = "s3cret")) in
  let c := newClient (mkSource [sk_data (wr_w (cl_writer (for_each Client_WritePacket
             (PConnectionRequest (mkConnectionRequest "s3cret") :: ps)
             (newClient (mkSource [] EOF) (mkSink [] []) ∅ [])).2))] EOF)
             (mkSink [] []) (NewPool init_packets) [] in
  let r := handle 4 3 (fun _ => false) (set_clients {[4 := 1%nat]} 5 (NewAPI auth), (c, [])) in
  r.1 = Ok tt /\ r.2.2.2 = foldl dispatch [] (map as_decoded ps) /\
  sk_data (wr_w (cl_writer r.2.2.1)) = sk_data (wr_w (cl_writer c)) ++
    frame (packet_bytes (PConnectionResponse (mkConnectionResponse ResponseSuccess))) /\
  cl_closed r.2.2.1 = true /\ clients r.2.1 = delete 4 {[4 := 1%nat]}.
Proof.
  intros CP S ps auth c.
  pose proof toy_sessions_laws as Hlaws. apply (authorized_client_served (fun _ => True) auth {[4 := 1%nat]} 5 4 "s3cret" ps 3 (fun _ => false) c []).
  - split; [split; reflexivity | constructor].
  - reflexivity.
  - reflexivity.
  - reflexivity.
  - repeat constructor.
  - vm_compute. reflexivity.
  - reflexivity.
  - simpl. lia.
  - exact I.
Defined.

(** C36: [handle] always comes to an end: on any input, with any polls of
    [closed] and any decoders registered by the user, one round per four bytes
    of input is enough, and however it ends (a handler that panics included)
    the client is closed and its id is free. *)
Theorem handle_terminates `{CP : CustomPackets} {W : Type} `{S : !Sessions W} (Inv : W -> Prop) `{!SessionsLaws Inv}
    (auth : option Authentication) (cs : gmap Z nat) (n id : Z) (fuel : nat)
    (polls : nat -> bool) (c : Client) (w : W) :
  wf_client c -> Inv w -> (length (flat (cl_in c)) <= fuel)%nat ->
  let r := handle id fuel polls (set_clients cs n (NewAPI auth), (c, w)) in
  r.1 <> NoFuel /\ cl_closed r.2.2.1 = true /\ clients r.2.1 !! id = None.
Proof.
  intros Hc Hret Hfuel. set (a := set_clients cs n (NewAPI auth)).
  assert ((handle_body a fuel polls (c, w)).1 <> NoFuel) as Hbody.
  { unfold handle_body. destruct (Client_ReadPacket_any c) as (o & s' & Hr & Hro & Hlt).
    assert (forall code, (ignore (respond code) (set_cl_in s' c, w)).1 <> NoFuel) as Hresp.
    { intros code.
      destruct (Client_WritePacket_any (PConnectionResponse (mkConnectionResponse code)) (set_cl_in s' c))
        as (o' & wr & bufs & Hw & Ho' & _); [done | done |].
      unfold respond. by rewrite (ignore_eq _ _ _ _ (on_client_eq _ _ w _ _ Hw) Ho'). }
    destruct o as [pk|e| |]; try done.
    - rewrite (bind_eq_Ok _ _ _ _ _ (attempt_eq_Ok _ _ _ _ (on_client_eq _ _ w _ _ Hr))).
      destruct pk as [req| | | |]; try apply Hresp.
      destruct (match authentication a with Some _ => _ | None => _ end); [apply Hresp|].
      destruct (Client_WritePacket_any (PConnectionResponse (mkConnectionResponse ResponseSuccess))
        (set_cl_in s' c)) as (o' & wr & bufs & Hw & Ho' & _); [done | done |].
      destruct o' as [[]|e| |]; try done.
      + rewrite (bind_eq_Ok _ _ _ _ _ (attempt_eq_Ok _ _ _ _ (on_client_eq _ _ w _ _ Hw))).
        apply handle_loop_terminates; [|done]. specialize (Hlt I). simpl. lia.
      + by rewrite (bind_eq_Ok _ _ _ _ _ (attempt_eq_Err _ _ _ _ (on_client_eq _ _ w _ _ Hw))).
    - rewrite (bind_eq_Ok _ _ _ _ _ (attempt_eq_Err _ _ _ _ (on_client_eq _ _ w _ _ Hr))).
      apply Hresp. }
  unfold handle. simpl fst. simpl snd. destruct (handle_body a fuel polls (c, w)) as [o [c' w']].
  simpl. split_and!; [exact Hbody | done | apply lookup_delete_eq].
Qed.

Lemma handle_terminates_witness :
  let CP := no_custom in
  let S := toy_sessions in
  let c := newClient (mkSource [[Byte.x00; Byte.x00]; [Byte.x00]] EOF) (mkSink [] []) (NewPool init_packets) [] in
  let r := handle 1 3 (fun _ => false) (set_clients {[1 := 9%nat]} 2 (NewAPI None), (c, [])) in
  r.1 <> NoFuel /\ cl_closed r.2.2.1 = true /\ clients r.2.1 !! 1 = None.
Proof.
  intros CP S c. pose proof toy_sessions_laws as Hlaws. apply (handle_terminates (fun _ => True) None {[1 := 9%nat]} 2 1 3 (fun _ => false) c []).
  - split; [split; reflexivity | constructor].
  - exact I.
  - vm_compute. lia.
Defined.

(** [Dial] cannot tell a refusal from an acceptance: whatever token it
    sends and however the service answers it, once the service has answered
    with a response code (refusals included) [Dial] returns a client and no
    error. *)
Theorem dial_accepts_refusals `{CP : CustomPackets} (net_Dial : string -> (source * sink) + error)
    (buffers : list (list byte)) (addr token : string) (code : Z) (i : source) (o : sink)
    (rest : list byte) :
  net_Dial addr = inl (i, o) -> sk_faults o = [] -> Forall (fun b => b = []) buffers ->
  len (bytes_of token) < 2 ^ 32 ->
  flat i = frame (packet_bytes (PConnectionResponse (mkConnectionResponse code))) ++ rest ->
  exists c, Dial net_Dial init_packets buffers addr token = (Ok c, Some c) /\ cl_closed c = false.
Proof.
  intros Hdial Hf Hb Ht Hi. unfold Dial. rewrite Hdial.
  destruct (Client_WritePacket_healthy (PConnectionRequest (mkConnectionRequest token))
    (newClient i o (NewPool init_packets) buffers)) as (w & bufs & Hw & _ & _ & _ & _);
    [done | done | done |].
  destruct (Client_ReadPacket_frame (PConnectionResponse (mkConnectionResponse code))
    (mkClient i w false (NewPool init_packets) bufs) rest) as (s' & Hr & _ & _);
    [done | done | by apply init_pool | done |].
  unfold Dial_conn. rewrite (bind_eq_Ok _ _ _ _ _ Hw), (bind_eq_Ok _ _ _ _ _ Hr). simpl.
  by eexists.
Qed.

Lemma dial_accepts_refusals_witness :
  let CP := no_custom in
  let i := mkSource [frame (packet_bytes (PConnectionResponse (mkConnectionResponse ResponseUnauthorized)))] EOF in
  exists c, Dial (fun _ => inl (i, mkSink [] [])) init_packets [] "localhost" "wrong" = (Ok c, Some c) /\
    cl_closed c = false.
Proof.
  intros CP i. apply (dial_accepts_refusals (fun _ => inl (i, mkSink [] [])) [] "localhost" "wrong"
    ResponseUnauthorized i (mkSink [] []) []);
    [reflexivity | reflexivity | constructor | reflexivity | reflexivity].
Defined.

Lemma connection_ids_inv `{CP : CustomPackets} {W : Type} `{S : !Sessions W}
    (auth : option Authentication) (evs : list api_event) :
  let a := api_run (W:=W) auth evs in
  len (accepted_conns evs) < 2 ^ 63 - 1 ->
  api_listener a = Some true /\ nextId a = len (accepted_conns evs) /\
  (forall id c, clients a !! id = Some c -> 0 <= id /\ accepted_conns evs !! Z.to_nat id = Some c).
Proof.
  induction evs as [|ev evs IH] using rev_ind; intros a Hlen; subst a.
  { split_and!; [done..|]. intros id c Hc. simpl in Hc. by rewrite lookup_empty in Hc. }
  unfold api_run, accepted_conns in *. rewrite foldl_app. rewrite omap_app, len_app in *.
  set (acc := omap _ evs) in *. set (a := foldl api_step _ evs) in *.
  assert (len acc < 2 ^ 63 - 1) as Hacc by (pose proof (len_nonneg (omap (fun ev =>
    match ev with Accepted c => Some c | _ => None end) [ev])); lia).
  destruct (IH Hacc) as (Hl & Hn & Hc). pose proof (len_nonneg acc).
  destruct ev as [c0|e|id0]; cbn [foldl api_step omap list_omap]; rewrite ?app_nil_r, ?len_nil, ?Z.add_0_r;
    unfold Accept, bind, gets; rewrite ?Hl; simpl; try (by split_and!).
  - rewrite len_cons, len_nil. split_and!; [done | unfold i64; rewrite Hn, Z.mod_small by lia; lia |].
    intros id c [[<- <-] | [_ Hid]]%lookup_insert_Some.
    + rewrite Hn. split; [done|]. unfold len. by rewrite Nat2Z.id, lookup_app_r, Nat.sub_diag by lia.
    + destruct (Hc id c Hid) as [? Hi]. split; [done|]. by apply lookup_app_l_Some.
  - split_and!; [done..|]. intros id c [_ Hid]%lookup_delete_Some. by apply Hc.
Qed.

(** Connection ids are never reused: after any history with fewer than
    2^63 - 1 connections, the client under id [k] is the [k]-th accepted
    connection (counting from 0), and the next [Accept] takes an id that no
    connected client has, so it never displaces one. *)
Theorem connection_ids_fresh `{CP : CustomPackets} {W : Type} `{S : !Sessions W}
    (auth : option Authentication) (evs : list api_event) :
  len (accepted_conns evs) < 2 ^ 63 - 1 ->
  let a := api_run (W:=W) auth evs in
  nextId a = len (accepted_conns evs) /\
  (forall id c, clients a !! id = Some c -> 0 <= id /\ accepted_conns evs !! Z.to_nat id = Some c) /\
  (forall c', clients (Accept (inl c') a).2 = <[nextId a := c']> (clients a) /\
              clients a !! nextId a = None).
Proof.
  intros Hlen a. destruct (connection_ids_inv auth evs Hlen) as (Hl & Hn & Hc). fold a in Hl, Hn, Hc.
  split_and!; [done | done |]. intros c'. unfold Accept, bind, gets. rewrite Hl. split; [done|].
  destruct (clients a !! nextId a) as [c|] eqn:E; [|done].
  destruct (Hc _ _ E) as [_ Hi]. apply lookup_lt_Some in Hi. rewrite Hn in Hi.
  unfold len in Hi. lia.
Qed.

Lemma connection_ids_fresh_witness :
  let CP := no_custom in
  let S := toy_sessions in
  let evs := [Accepted 11; AcceptFailed EOF; Accepted 12; Exited 0] in
  let a := api_run None evs in
  nextId a = len (accepted_conns evs) /\
  (forall id c, clients a !! id = Some c -> 0 <= id /\ accepted_conns evs !! Z.to_nat id = Some c) /\
  (forall c', clients (Accept (inl c') a).2 = <[nextId a := c']> (clients a) /\
              clients a !! nextId a = None).
Proof. intros CP S evs. apply (connection_ids_fresh None evs). reflexivity. Defined.

(** Secret-based authentication compares without regard to letter case: on
    ASCII texts a token is valid exactly when it equals the secret after
    lower-casing both. *)
Theorem secret_authentication_folds_case `{UnicodeFold} (s token : string) :
  ascii s -> ascii token ->
  Authenticate (NewSecretBasedAuthentication s) token = true <->
  map lower (bytes_of s) = map lower (bytes_of token).
Proof.
  intros Hs Ht. unfold Authenticate. rewrite EqualFold_ascii by done.
  apply bool_decide_eq_true.
Qed.

Lemma secret_authentication_folds_case_witness :
  let U : UnicodeFold := fun _ _ => false in
  Authenticate (NewSecretBasedAuthentication "S3cReT") "s3cret" = true <->
  map lower (bytes_of "S3cReT") = map lower (bytes_of "s3cret").
Proof.
  intros U. apply (secret_authentication_folds_case "S3cReT" "s3cret"); repeat constructor.
Defined.
