(* ===== verification/GoFloat.v ===== *)
(** * GoFloat: floating-point numbers of Go

    float32 and float64 as IEEE 754 numbers ([SpecFloat], of the Standard
    Library) with the operations the proxy uses: sums, products, comparisons,
    conversions, and of package [math] [Abs] and [Mod]. *)

From Stdlib Require Export Floats.SpecFloat.
From S2P Require Import Prelude.

Local Open Scope Z_scope.

Abbreviation float32 := spec_float.
Abbreviation float64 := spec_float.

(** ** float32 *)

Definition f32_of_Z (z : Z) : float32 := binary_normalize 24 128 z 0 false.
(** The constant [a / b]. *)
Definition f32_ratio (a b : Z) : float32 := SFdiv 24 128 (f32_of_Z a) (f32_of_Z b).
Definition f32_add : float32 -> float32 -> float32 := SFadd 24 128.

(** ** float64 *)

Definition f64_of_Z (z : Z) : float64 := binary_normalize 53 1024 z 0 false.
Definition f64_add : float64 -> float64 -> float64 := SFadd 53 1024.
Definition f64_sub : float64 -> float64 -> float64 := SFsub 53 1024.
Definition f64_mul : float64 -> float64 -> float64 := SFmul 53 1024.

Definition signed (s : bool) (z : Z) : Z := if s then - z else z.

(** [float64(f)]: exact. *)
Definition f64_of_f32 (f : float32) : float64 :=
  match f with
  | S754_finite s m e => binary_normalize 53 1024 (signed s (Zpos m)) e false
  | _ => f
  end.

(** [math.Abs] *)
Definition math_Abs : float64 -> float64 := SFabs.

(** [math.Mod]: the exact remainder, with the sign of [x]. *)
Definition math_Mod (x y : float64) : float64 :=
  match x, y with
  | S754_nan, _ | _, S754_nan | S754_infinity _, _ | _, S754_zero _ => S754_nan
  | S754_zero _, _ | _, S754_infinity _ => x
  | S754_finite sx mx ex, S754_finite _ my ey =>
      let e := Z.min ex ey in
      let r := Z.shiftl (Zpos mx) (ex - e) mod Z.shiftl (Zpos my) (ey - e) in
      binary_normalize 53 1024 (signed sx r) e sx
  end.

(** ** Conversions to integers

    Truncation towards zero; the language leaves the result for values that
    do not fit to the implementation. *)
Class FloatConversion := { out_of_range : Z -> spec_float -> Z }.

Definition trunc_mantissa (m : positive) (e : Z) : Z := Z.shiftl (Zpos m) e.

Section Conversion.
Context `{FloatConversion}.

Definition int_of_float (bits : Z) (wrap : Z -> Z) (f : spec_float) : Z :=
  match f with
  | S754_zero _ => 0
  | S754_finite s m e =>
      let z := signed s (trunc_mantissa m e) in
      if (- 2 ^ (bits - 1) <=? z) && (z <? 2 ^ (bits - 1)) then z else wrap (out_of_range bits f)
  | _ => wrap (out_of_range bits f)
  end.

(** [int32(f)] and [int64(f)] *)
Definition int32_of_float : spec_float -> Z := int_of_float 32 i32.
Definition int64_of_float : spec_float -> Z := int_of_float 64 i64.

Lemma i32_range z : - 2 ^ 31 <= i32 z < 2 ^ 31.
Proof. unfold i32. pose proof (Z.mod_pos_bound (z + 2 ^ 31) (2 ^ 32)). lia. Qed.

Lemma int32_of_float_range f : - 2 ^ 31 <= int32_of_float f < 2 ^ 31.
Proof.
  unfold int32_of_float, int_of_float. destruct f as [s|s| |s m e]; try (apply i32_range); [lia|]. cbv zeta.
  destruct (_ && _) eqn:E; [|apply i32_range]. apply andb_true_iff in E as [E1 E2].
  apply Z.leb_le in E1. apply Z.ltb_lt in E2. simpl in *. lia.
Qed.

End Conversion.

Example mod_negative : math_Mod (f64_of_Z (-725)) (f64_of_Z 360) = f64_of_Z (-5).
Proof. reflexivity. Qed.
Example mod_fraction : math_Mod (f64_of_f32 (f32_ratio 1441 4)) (f64_of_Z 360) = f64_of_f32 (f32_ratio 1 4).
Proof. reflexivity. Qed.
