(* ===== verification/Minecraft.v ===== *)
(** * Minecraft: the interface of the third-party libraries

    The proxy is built on gophertunnel (packets, headers, protocols, client
    connections), snappy and mathgl, which are not part of the repository.
    This file declares what the proxy uses of them: the fields of the packets
    it inspects or builds as data, everything else as parameters ([MCTypes],
    [Gopher]), and the documented behaviour some theorems rely on as separate
    laws ([IOLaws], [HeaderLaws], [SnappyLaws], [IDLaws]).  The file [Toy] has a
    concrete instance that satisfies them. *)

From S2P Require Import Prelude GoFloat Wire.

Local Open Scope Z_scope.
Local Open Scope go_scope.

(** ** Data *)

(** [mgl32.Vec3] *)
Record Vec3 := mkVec3 { X : float32; Y : float32; Z' : float32 }.

(** Types of fields the proxy only copies, and [body]: the fields of a packet
    that the proxy does not mention. *)
Class MCTypes := {
  BlockPos : Type;
  GameRule : Type;
  BlockEntry : Type;
  MovementSettings : Type;
  ExperimentData : Type;
  ItemRest : Type;
  body : Type;
  body_zero : body;            (* all fields zero *)
}.

Section Data.
Context `{T : MCTypes}.

(** [protocol.ItemEntry] *)
Record ItemEntry := mkItem { Item_Name : string; Item_RuntimeID : Z; Item_rest : ItemRest }.

(** The fields of [packet.StartGame] that [handleStartGame] copies. *)
Record StartGame_fields := mkStartGame {
  sg_Difficulty : Z; sg_WorldName : string; sg_WorldSeed : Z; sg_PlayerGameMode : Z;
  sg_BaseGameVersion : string; sg_PlayerPosition : Vec3; sg_Pitch : float32; sg_Yaw : float32;
  sg_Dimension : Z; sg_WorldSpawn : BlockPos; sg_EditorWorldType : Z; sg_CreatedInEditor : bool;
  sg_ExportedFromEditor : bool; sg_PersonaDisabled : bool; sg_CustomSkinsDisabled : bool;
  sg_GameRules : list GameRule; sg_Time : Z; sg_ServerBlockStateChecksum : Z;
  sg_Blocks : list BlockEntry; sg_PlayerMovementSettings : MovementSettings; sg_WorldGameMode : Z;
  sg_Hardcore : bool; sg_ServerAuthoritativeInventory : bool; sg_PlayerPermissions : Z;
  sg_ChatRestrictionLevel : Z; sg_DisablePlayerInteractions : bool; sg_ClientSideGeneration : bool;
  sg_Experiments : list ExperimentData; sg_UseBlockNetworkIDHashes : bool;
}.

(** [minecraft.GameData] *)
Record GameData := mkGameData {
  gd_start : StartGame_fields;   (* the fields with the names of StartGame's; [Blocks] is [CustomBlocks] *)
  gd_EntityUniqueID : Z;
  gd_EntityRuntimeID : Z;
  gd_Items : list ItemEntry;
  gd_ChunkRadius : Z;
}.

(** The packets of gophertunnel that the proxy inspects or builds, with the
    fields it uses, and all other packets. *)
Inductive gt_packet :=
  | StartGame (f : StartGame_fields) (rest : body)
  | ItemRegistry (Items : list ItemEntry) (rest : body)
  | ChunkRadiusUpdated (ChunkRadius : Z) (rest : body)
  | PlayStatus (Status : Z) (rest : body)
  | RequestChunkRadius (ChunkRadius : Z) (rest : body)
  | ClientCacheStatus (Enabled : bool) (rest : body)
  | SetLocalPlayerAsInitialised (EntityRuntimeID : Z) (rest : body)
  | AddActor (EntityUniqueID : Z) (rest : body)
  | AddItemActor (EntityUniqueID : Z) (rest : body)
  | AddPainting (EntityUniqueID : Z) (rest : body)
  | AddPlayer (AbilityData_EntityUniqueID : Z) (rest : body)
  | BossEvent (BossEntityUniqueID : Z) (EventType : Z) (rest : body)
  | MobEffect (EntityRuntimeID : Z) (Operation : Z) (EffectType : Z) (rest : body)
  | PlayerList (ActionType : Z) (Entries : list (list byte * body))   (* UUIDs, other fields *)
  | RemoveActor (EntityUniqueID : Z) (rest : body)
  | RemoveObjective (ObjectiveName : string) (rest : body)
  | SetDisplayObjective (ObjectiveName : string) (rest : body)
  | OtherPacket (id : Z) (rest : body).

End Data.

(** The packet ids [packet.ID...] by packet type. *)
Inductive gt_kind :=
  | KStartGame | KItemRegistry | KChunkRadiusUpdated | KPlayStatus | KRequestChunkRadius
  | KClientCacheStatus | KSetLocalPlayerAsInitialised | KAddActor | KAddItemActor | KAddPainting
  | KAddPlayer | KBossEvent | KMobEffect | KPlayerList | KRemoveActor | KRemoveObjective
  | KSetDisplayObjective.

#[export] Instance gt_kind_eq_dec : EqDecision gt_kind.
Proof. solve_decision. Defined.

(** Named constants of the library. *)
Inductive gt_const :=
  | MobEffectAdd | MobEffectRemove | PlayerListActionAdd | PlayerListActionRemove | BossEventHide
  | DimensionOverworld | DimensionNether | DimensionEnd | LevelEventStopRaining | LevelEventStopThunderstorm
  | MoveModeReset | PlayStatusPlayerSpawn | PlayerActionDimensionChangeDone.

(** [packet.Header]: the packet id and the fields the proxy does not mention. *)
Record Header {rest : Type} := mkHeader { PacketID : Z; Header_rest : rest }.
Arguments Header : clear implicits.
Arguments mkHeader {_} _ _.

(** ** Operations *)

(** The buffers are lists of unread bytes; the readers and writers of packets
    run over them. *)
Class Gopher `{T : MCTypes} := {
  (* minecraft.Protocol *)
  Proto : Type;
  DefaultProtocol : Proto;
  Proto_ID : Proto -> Z;
  CurrentProtocol : Z;
  (* protocol.IO *)
  IO : Type;
  NewWriter_IO : Proto -> Z -> IO;           (* proto.NewWriter(buf, shieldID) *)
  NewReader_IO : Proto -> Z -> bool -> IO;   (* proto.NewReader(buf, shieldID, limits) *)
  io_String : IO -> string -> M (list byte) string;
  io_ByteSlice : IO -> list byte -> M (list byte) (list byte);
  io_Varuint64 : IO -> Z -> M (list byte) Z;
  io_Varint64 : IO -> Z -> M (list byte) Z;
  io_Int32 : IO -> Z -> M (list byte) Z;
  io_Int64 : IO -> Z -> M (list byte) Z;
  gt_Marshal : IO -> gt_packet -> M (list byte) gt_packet;
  (* packet ids and constants *)
  gt_ID : gt_kind -> Z;
  const : gt_const -> Z;
  (* packet.Header *)
  hdr_rest : Type;
  hdr_zero : hdr_rest;
  Header_Write : Header hdr_rest -> M (list byte) unit;
  Header_Read : Header hdr_rest -> list byte -> option error * Header hdr_rest * list byte;
  (* snappy *)
  snappy_Encode : list byte -> list byte;
  snappy_Decode : list byte -> list byte + error;
}.

Section Operations.
Context `{G : Gopher}.

(** [pk.ID()] of gophertunnel's packets. *)
Definition gt_packet_ID (p : gt_packet) : Z :=
  match p with
  | StartGame _ _ => gt_ID KStartGame
  | ItemRegistry _ _ => gt_ID KItemRegistry
  | ChunkRadiusUpdated _ _ => gt_ID KChunkRadiusUpdated
  | PlayStatus _ _ => gt_ID KPlayStatus
  | RequestChunkRadius _ _ => gt_ID KRequestChunkRadius
  | ClientCacheStatus _ _ => gt_ID KClientCacheStatus
  | SetLocalPlayerAsInitialised _ _ => gt_ID KSetLocalPlayerAsInitialised
  | AddActor _ _ => gt_ID KAddActor
  | AddItemActor _ _ => gt_ID KAddItemActor
  | AddPainting _ _ => gt_ID KAddPainting
  | AddPlayer _ _ => gt_ID KAddPlayer
  | BossEvent _ _ _ => gt_ID KBossEvent
  | MobEffect _ _ _ _ => gt_ID KMobEffect
  | PlayerList _ _ => gt_ID KPlayerList
  | RemoveActor _ _ => gt_ID KRemoveActor
  | RemoveObjective _ _ => gt_ID KRemoveObjective
  | SetDisplayObjective _ _ => gt_ID KSetDisplayObjective
  | OtherPacket id _ => id
  end.

(** ** Documented behaviour *)

(** A field codec of [protocol.IO]: a writer appends an encoding of the value
    and leaves it unchanged, a reader of any configuration takes exactly that
    encoding off the buffer and stores the value, whatever was there before. *)
Definition codec_law {A} (dom : A -> Prop) (io : IO -> A -> M (list byte) A) : Prop :=
  forall p s x, dom x -> exists enc : list byte,
    (forall buf, io (NewWriter_IO p s) x buf = (Ok x, buf ++ enc)) /\
    (forall s' l y rest, io (NewReader_IO p s' l) y (enc ++ rest) = (Ok x, rest)).

Definition in_u64 (z : Z) : Prop := 0 <= z < 2 ^ 64.
Definition in_i64 (z : Z) : Prop := - 2 ^ 63 <= z < 2 ^ 63.
Definition in_i32 (z : Z) : Prop := - 2 ^ 31 <= z < 2 ^ 31.

Class IOLaws : Prop := {
  String_codec : codec_law (fun s => len (bytes_of s) < 2 ^ 31) io_String;
  ByteSlice_codec : codec_law (fun s => len s < 2 ^ 31) io_ByteSlice;
  Varuint64_codec : codec_law in_u64 io_Varuint64;
  Varint64_codec : codec_law in_i64 io_Varint64;
  Int32_codec : codec_law in_i32 io_Int32;
  Int64_codec : codec_law in_i64 io_Int64;
}.

(** The header round trip; packet ids have ten bits. *)
Class HeaderLaws : Prop := {
  Header_codec : forall h, 0 <= PacketID h < 1024 -> exists enc : list byte,
    (forall buf, Header_Write h buf = (Ok tt, buf ++ enc)) /\
    (forall h' rest, Header_Read h' (enc ++ rest) = (None, h, rest));
}.

Class SnappyLaws : Prop := {
  snappy_roundtrip : forall bs, len bs < 2 ^ 32 -> snappy_Decode (snappy_Encode bs) = inl bs;
}.

(** Packet types have different ids, below those of the proxy's own packets. *)
Class IDLaws : Prop := {
  gt_ID_inj : Inj (=) (=) gt_ID;
  gt_ID_range : forall k, 0 <= gt_ID k < 500;
}.

End Operations.
