(* ===== verification/ServerPacket.v ===== *)
(** * ServerPacket: the packets between the proxy and its servers

    Package [server/packet]: the six packets with their [ID] and [Marshal].
    [Marshal] is one function of a [protocol.IO], which writes or reads the
    fields: it is modelled once and run with a writer or a reader.  [packet] is
    the interface value [packet.Packet] the proxy handles: one of these packets
    or one of gophertunnel's.  [Protocols] is the part of [minecraft.Protocol]
    that deals in packets. *)

From S2P Require Import Prelude Wire Minecraft.

Local Open Scope Z_scope.
Local Open Scope go_scope.

(** id.go *)
Definition IDConnectionRequest : Z := 500.
Definition IDConnectionResponse : Z := 501.
Definition IDFlush : Z := 502.
Definition IDLatency : Z := 503.
Definition IDTransfer : Z := 504.
Definition IDUpdateCache : Z := 505.

Record ConnectionRequest := mkConnectionRequest {
  cr_Addr : string;
  cr_ClientData : list byte;
  cr_IdentityData : list byte;
  cr_ProtocolID : Z;
  cr_Cache : list byte;
}.

Record ConnectionResponse := mkConnectionResponse { RuntimeID : Z; UniqueID : Z }.

Record Flush := mkFlush {}.

Record Latency := mkLatency { Latency_Latency : Z; Latency_Timestamp : Z }.

Record Transfer := mkTransfer { Transfer_Addr : string }.

Record UpdateCache := mkUpdateCache { UpdateCache_Cache : list byte }.

Section ServerPacket.
Context `{G : Gopher}.

Definition ConnectionRequest_ID (_ : ConnectionRequest) : Z := IDConnectionRequest.
Definition ConnectionRequest_Marshal (io : IO) (pk : ConnectionRequest) : M (list byte) ConnectionRequest :=
  let! addr := io_String io (cr_Addr pk) in
  let! clientData := io_ByteSlice io (cr_ClientData pk) in
  let! identityData := io_ByteSlice io (cr_IdentityData pk) in
  let! protocolID := io_Int32 io (cr_ProtocolID pk) in
  let! cache := io_ByteSlice io (cr_Cache pk) in
  ret (mkConnectionRequest addr clientData identityData protocolID cache).

Definition ConnectionResponse_ID (_ : ConnectionResponse) : Z := IDConnectionResponse.
Definition ConnectionResponse_Marshal (io : IO) (pk : ConnectionResponse) : M (list byte) ConnectionResponse :=
  let! runtimeID := io_Varuint64 io (RuntimeID pk) in
  let! uniqueID := io_Varint64 io (UniqueID pk) in
  ret (mkConnectionResponse runtimeID uniqueID).

Definition Flush_ID (_ : Flush) : Z := IDFlush.
Definition Flush_Marshal (_ : IO) (pk : Flush) : M (list byte) Flush := ret pk.

Definition Latency_ID (_ : Latency) : Z := IDLatency.
Definition Latency_Marshal (io : IO) (pk : Latency) : M (list byte) Latency :=
  let! latency := io_Int64 io (Latency_Latency pk) in
  let! timestamp := io_Int64 io (Latency_Timestamp pk) in
  ret (mkLatency latency timestamp).

Definition Transfer_ID (_ : Transfer) : Z := IDTransfer.
Definition Transfer_Marshal (io : IO) (pk : Transfer) : M (list byte) Transfer :=
  let! addr := io_String io (Transfer_Addr pk) in
  ret (mkTransfer addr).

Definition UpdateCache_ID (_ : UpdateCache) : Z := IDUpdateCache.
Definition UpdateCache_Marshal (io : IO) (pk : UpdateCache) : M (list byte) UpdateCache :=
  let! cache := io_ByteSlice io (UpdateCache_Cache pk) in
  ret (mkUpdateCache cache).

#[global] Arguments ConnectionRequest_ID _ /.
#[global] Arguments ConnectionResponse_ID _ /.
#[global] Arguments Flush_ID _ /.
#[global] Arguments Latency_ID _ /.
#[global] Arguments Transfer_ID _ /.
#[global] Arguments UpdateCache_ID _ /.

(** A value of [packet.Packet] by its dynamic type. *)
Inductive packet :=
  | SConnectionRequest (pk : ConnectionRequest)
  | SConnectionResponse (pk : ConnectionResponse)
  | SFlush (pk : Flush)
  | SLatency (pk : Latency)
  | STransfer (pk : Transfer)
  | SUpdateCache (pk : UpdateCache)
  | Gt (pk : gt_packet).

(** [pk.ID()] *)
Definition ID (p : packet) : Z :=
  match p with
  | SConnectionRequest pk => ConnectionRequest_ID pk
  | SConnectionResponse pk => ConnectionResponse_ID pk
  | SFlush pk => Flush_ID pk
  | SLatency pk => Latency_ID pk
  | STransfer pk => Transfer_ID pk
  | SUpdateCache pk => UpdateCache_ID pk
  | Gt p => gt_packet_ID p
  end.

(** [pk.Marshal(io)]: the packet as the call leaves it. *)
Definition Marshal (io : IO) (p : packet) : M (list byte) packet :=
  match p with
  | SConnectionRequest pk => let! pk := ConnectionRequest_Marshal io pk in ret (SConnectionRequest pk)
  | SConnectionResponse pk => let! pk := ConnectionResponse_Marshal io pk in ret (SConnectionResponse pk)
  | SFlush pk => let! pk := Flush_Marshal io pk in ret (SFlush pk)
  | SLatency pk => let! pk := Latency_Marshal io pk in ret (SLatency pk)
  | STransfer pk => let! pk := Transfer_Marshal io pk in ret (STransfer pk)
  | SUpdateCache pk => let! pk := UpdateCache_Marshal io pk in ret (SUpdateCache pk)
  | Gt pk => let! pk := gt_Marshal io pk in ret (Gt pk)
  end.

(** The factories [init] (packet.go) registers, as the packets they make. *)
Definition registered_from_client : list (Z * packet) :=
  [(IDConnectionRequest, SConnectionRequest (mkConnectionRequest "" [] [] 0 []));
   (IDLatency, SLatency (mkLatency 0 0))].

Definition registered_from_server : list (Z * packet) :=
  [(IDConnectionResponse, SConnectionResponse (mkConnectionResponse 0 0));
   (IDFlush, SFlush mkFlush);
   (IDLatency, SLatency (mkLatency 0 0));
   (IDTransfer, STransfer (mkTransfer ""));
   (IDUpdateCache, SUpdateCache (mkUpdateCache []))].

(** The rest of [minecraft.Protocol]: [Packets(fromClient)], the factories by
    packet id, and [ConvertToLatest]. *)
Class Protocols := {
  Packets : Proto -> bool -> gmap Z packet;
  ConvertToLatest : Proto -> packet -> list packet;
}.

(** [RegisterPacketFromServer] and [RegisterPacketFromClient] add to the pools
    of the default protocol. *)
Class PoolLaws `{Protocols} : Prop := {
  pool_from_server : forall id p, (id, p) ∈ registered_from_server ->
    Packets DefaultProtocol false !! id = Some p;
  pool_from_client : forall id p, (id, p) ∈ registered_from_client ->
    Packets DefaultProtocol true !! id = Some p;
}.

(** The fields of a packet fit their encodings. *)
Definition marshalable (p : packet) : Prop :=
  match p with
  | SConnectionRequest pk =>
      len (bytes_of (cr_Addr pk)) < 2 ^ 31 /\ len (cr_ClientData pk) < 2 ^ 31 /\
      len (cr_IdentityData pk) < 2 ^ 31 /\ in_i32 (cr_ProtocolID pk) /\ len (cr_Cache pk) < 2 ^ 31
  | SConnectionResponse pk => in_u64 (RuntimeID pk) /\ in_i64 (UniqueID pk)
  | SFlush _ => True
  | SLatency pk => in_i64 (Latency_Latency pk) /\ in_i64 (Latency_Timestamp pk)
  | STransfer pk => len (bytes_of (Transfer_Addr pk)) < 2 ^ 31
  | SUpdateCache pk => len (UpdateCache_Cache pk) < 2 ^ 31
  | Gt _ => False
  end.

(** The type of a packet, as a type switch sees it. *)
Definition same_type (p q : packet) : bool :=
  match p, q with
  | SConnectionRequest _, SConnectionRequest _ | SConnectionResponse _, SConnectionResponse _
  | SFlush _, SFlush _ | SLatency _, SLatency _ | STransfer _, STransfer _
  | SUpdateCache _, SUpdateCache _ => true
  | _, _ => false
  end.

End ServerPacket.

(** * Lemmas *)

Section ServerPacketLemmas.
Context `{G : Gopher} `{L : !IOLaws}.

(** The encodings of the fields, from their laws; [i64] is the codec of the
    packet's int64 fields. *)
Ltac field_codecs pr s i64 :=
  repeat match goal with
  | H : _ /\ _ |- _ => destruct H
  | H : len (bytes_of _) < _ |- _ => destruct (String_codec pr s _ H) as (? & ? & ?); clear H
  | H : len _ < _ |- _ => destruct (ByteSlice_codec pr s _ H) as (? & ? & ?); clear H
  | H : in_u64 _ |- _ => destruct (Varuint64_codec pr s _ H) as (? & ? & ?); clear H
  | H : in_i32 _ |- _ => destruct (Int32_codec pr s _ H) as (? & ? & ?); clear H
  | H : in_i64 _ |- _ => destruct (i64 pr s _ H) as (? & ? & ?); clear H
  end.

(** Run a [Marshal] field by field. *)
Ltac run_fields :=
  unfold Marshal, ConnectionRequest_Marshal, ConnectionResponse_Marshal, Latency_Marshal,
    Transfer_Marshal, UpdateCache_Marshal, bind; simpl; rewrite <- ?app_assoc;
  repeat match goal with H : context [_ = (Ok _, _)] |- _ => rewrite H end;
  rewrite <- ?app_assoc; reflexivity.

(** The proxy's own packets: reading back what was written, from any value of
    the same type. *)
Lemma Marshal_roundtrip p pr s :
  marshalable p -> exists enc : list byte,
    (forall buf, Marshal (NewWriter_IO pr s) p buf = (Ok p, buf ++ enc)) /\
    (forall s' l y rest, same_type p y = true ->
       Marshal (NewReader_IO pr s' l) y (enc ++ rest) = (Ok p, rest)).
Proof.
  destruct p as [[]|[]|[]|[]|[]|[]|]; intros Hp; simpl in Hp; [| | | | | |done];
    [ | field_codecs pr s Varint64_codec
    | exists []; split; [intros buf; by rewrite app_nil_r | by intros s' l [| |[]| | | |] rest]
    | | | ]; field_codecs pr s Int64_codec;
    (eexists; split;
      [ intros buf; run_fields
      | intros s' l y rest Hy; destruct y; try done; run_fields ]).
Qed.

End ServerPacketLemmas.
