(* ===== verification/Conn.v ===== *)
(** * Conn: the connection to a server

    [server/conn.go].  The state of a [Conn] is a record with the fields of the
    struct; the channels [connected] and [spawned] are booleans (closed or
    not), the context is its cancellation cause, the underlying connection is
    a [source] for what the server sends and a [Writer] for what is sent to
    it.  Every method is a function over the connection, the package's pools
    and the rest of the proxy ([env]), which only the [OnConnect] callback
    touches.  Callbacks are defunctionalised: [cb] names them and
    [run_onConnect] runs them. *)

From S2P Require Import Prelude Wire Minecraft ServerPacket.

Local Open Scope Z_scope.
Local Open Scope go_scope.

(** ** Constants *)

Definition flagPacketDecode : Z := Z.shiftl 1 0.
Definition flagPacketCompressed : Z := Z.shiftl 1 1.
Definition flagPacketIsBatch : Z := Z.shiftl 1 2.

Definition compressionThreshold : Z := 256.
Definition maxBatchPooledSize : Z := 1024 * 1024.

(** The capacity the runtime gives a slice that needs [c] bytes. *)
Class Runtime := {
  size_class : Z -> Z;
  size_class_ge : forall c, c <= size_class c;
}.

(** ** [bytes.Buffer] with its capacity, as [WriteBatch] uses it *)

Record Buffer := mkBuffer { buf_bytes : list byte; buf_cap : Z }.

(** [buf.Write(p)]: within the capacity, or grown to at least twice it. *)
Definition Buffer_Write `{Runtime} (p : list byte) (b : Buffer) : Buffer :=
  let n := len (buf_bytes b) + len p in
  mkBuffer (buf_bytes b ++ p)
    (if n <=? buf_cap b then buf_cap b else size_class (Z.max n (2 * buf_cap b))).

Section Conn.
Context `{G : Gopher} `{P : !Protocols} `{Rt : Runtime}.

(** What [read] and [ReadPacket] return: a packet or raw bytes. *)
Inductive item := Decoded (pk : packet) | Raw (payload : list byte).

(** What the proxy knows of the client connection, as far as [Conn] uses it;
    the JSON documents are the results of [json.Marshal]. *)
Record ClientInfo := mkClientInfo {
  client_Proto : Proto;
  client_RemoteAddr : string;
  client_ClientData : list byte + error;
  client_IdentityData : list byte + error;
  client_ClientCacheEnabled : bool;
}.

Section Methods.
Context {cb env : Type}.

Record Conn := mkConn {
  ctx : option error;                  (* cause of the cancellation *)
  conn_in : source;                    (* conn, read through [reader] *)
  writer : Writer;                     (* conn, written through [writer] *)
  conn_closed : bool;
  client : ClientInfo;
  runtimeID : Z;
  uniqueID : Z;
  syncProtocol : bool;
  cache : list byte;
  gameData : option GameData;          (* [None]: the zero value *)
  shieldID : Z;
  protocol : Proto;
  pool : gmap Z packet;
  deferredPackets : list item;
  expectedIds : list Z;
  onConnect : option cb;
  connected : bool;
  spawned : bool;
  once : bool;
}.

(** The package's pools. *)
Record Pools := mkPools {
  bufferPool : list (list byte);
  batchPool : list Buffer;
  headerPool : list (Header hdr_rest);
}.

Record CS := mkCS { conn : Conn; pools : Pools; cenv : env }.

Definition set_ctx v c := mkConn v (conn_in c) (writer c) (conn_closed c) (client c) (runtimeID c) (uniqueID c) (syncProtocol c) (cache c) (gameData c) (shieldID c) (protocol c) (pool c) (deferredPackets c) (expectedIds c) (onConnect c) (connected c) (spawned c) (once c).
Definition set_conn_in v c := mkConn (ctx c) v (writer c) (conn_closed c) (client c) (runtimeID c) (uniqueID c) (syncProtocol c) (cache c) (gameData c) (shieldID c) (protocol c) (pool c) (deferredPackets c) (expectedIds c) (onConnect c) (connected c) (spawned c) (once c).
Definition set_writer v c := mkConn (ctx c) (conn_in c) v (conn_closed c) (client c) (runtimeID c) (uniqueID c) (syncProtocol c) (cache c) (gameData c) (shieldID c) (protocol c) (pool c) (deferredPackets c) (expectedIds c) (onConnect c) (connected c) (spawned c) (once c).
Definition set_conn_closed v c := mkConn (ctx c) (conn_in c) (writer c) v (client c) (runtimeID c) (uniqueID c) (syncProtocol c) (cache c) (gameData c) (shieldID c) (protocol c) (pool c) (deferredPackets c) (expectedIds c) (onConnect c) (connected c) (spawned c) (once c).
Definition set_ids r u c := mkConn (ctx c) (conn_in c) (writer c) (conn_closed c) (client c) r u (syncProtocol c) (cache c) (gameData c) (shieldID c) (protocol c) (pool c) (deferredPackets c) (expectedIds c) (onConnect c) (connected c) (spawned c) (once c).
Definition set_gameData v c := mkConn (ctx c) (conn_in c) (writer c) (conn_closed c) (client c) (runtimeID c) (uniqueID c) (syncProtocol c) (cache c) v (shieldID c) (protocol c) (pool c) (deferredPackets c) (expectedIds c) (onConnect c) (connected c) (spawned c) (once c).
Definition set_shieldID v c := mkConn (ctx c) (conn_in c) (writer c) (conn_closed c) (client c) (runtimeID c) (uniqueID c) (syncProtocol c) (cache c) (gameData c) v (protocol c) (pool c) (deferredPackets c) (expectedIds c) (onConnect c) (connected c) (spawned c) (once c).
Definition set_deferred v c := mkConn (ctx c) (conn_in c) (writer c) (conn_closed c) (client c) (runtimeID c) (uniqueID c) (syncProtocol c) (cache c) (gameData c) (shieldID c) (protocol c) (pool c) v (expectedIds c) (onConnect c) (connected c) (spawned c) (once c).
Definition set_expectedIds v c := mkConn (ctx c) (conn_in c) (writer c) (conn_closed c) (client c) (runtimeID c) (uniqueID c) (syncProtocol c) (cache c) (gameData c) (shieldID c) (protocol c) (pool c) (deferredPackets c) v (onConnect c) (connected c) (spawned c) (once c).
Definition set_onConnect v c := mkConn (ctx c) (conn_in c) (writer c) (conn_closed c) (client c) (runtimeID c) (uniqueID c) (syncProtocol c) (cache c) (gameData c) (shieldID c) (protocol c) (pool c) (deferredPackets c) (expectedIds c) v (connected c) (spawned c) (once c).
Definition set_connected v c := mkConn (ctx c) (conn_in c) (writer c) (conn_closed c) (client c) (runtimeID c) (uniqueID c) (syncProtocol c) (cache c) (gameData c) (shieldID c) (protocol c) (pool c) (deferredPackets c) (expectedIds c) (onConnect c) v (spawned c) (once c).
Definition set_spawned v c := mkConn (ctx c) (conn_in c) (writer c) (conn_closed c) (client c) (runtimeID c) (uniqueID c) (syncProtocol c) (cache c) (gameData c) (shieldID c) (protocol c) (pool c) (deferredPackets c) (expectedIds c) (onConnect c) (connected c) v (once c).
Definition set_once v c := mkConn (ctx c) (conn_in c) (writer c) (conn_closed c) (client c) (runtimeID c) (uniqueID c) (syncProtocol c) (cache c) (gameData c) (shieldID c) (protocol c) (pool c) (deferredPackets c) (expectedIds c) (onConnect c) (connected c) (spawned c) v.

Definition upd_conn (f : Conn -> Conn) (s : CS) : CS := mkCS (f (conn s)) (pools s) (cenv s).
Definition upd_pools (f : Pools -> Pools) (s : CS) : CS := mkCS (conn s) (f (pools s)) (cenv s).

Definition set_bufferPool v p := mkPools v (batchPool p) (headerPool p).
Definition set_batchPool v p := mkPools (bufferPool p) v (headerPool p).
Definition set_headerPool v p := mkPools (bufferPool p) (batchPool p) v.

(** [sync.Pool.Get] of the three pools. *)
Definition bufferPool_Get : M CS (list byte) :=
  zoom (fun s => bufferPool (pools s)) (fun v => upd_pools (set_bufferPool v)) (pool_Get []).
Definition batchPool_Get : M CS Buffer :=
  zoom (fun s => batchPool (pools s)) (fun v => upd_pools (set_batchPool v))
    (pool_Get (mkBuffer [] maxBatchPooledSize)).
Definition headerPool_Get : M CS (Header hdr_rest) :=
  zoom (fun s => headerPool (pools s)) (fun v => upd_pools (set_headerPool v))
    (pool_Get (mkHeader 0 hdr_zero)).

Definition put_buffer (b : list byte) (p : Pools) : Pools := set_bufferPool (pool_Put b (bufferPool p)) p.
Definition put_batch (b : Buffer) (p : Pools) : Pools := set_batchPool (pool_Put b (batchPool p)) p.
Definition put_header (h : Header hdr_rest) (p : Pools) : Pools := set_headerPool (pool_Put h (headerPool p)) p.

(** [close(ch)] of one of the channels. *)
Definition close_chan (get : Conn -> bool) (set : bool -> Conn -> Conn) : M CS unit :=
  let! c := gets conn in
  if get c then panic "close of closed channel" else modify (upd_conn (set true)).

(** [expect] and [deferPacket] *)
Definition expect (ids : list Z) : M CS unit := modify (upd_conn (set_expectedIds ids)).
Definition deferPacket (pk : item) : M CS unit :=
  modify (upd_conn (fun c => set_deferred (deferredPackets c ++ [pk]) c)).

(** [NewConn] *)
Definition NewConn (conn : source) (out : sink) (client : ClientInfo) (syncProtocol : bool)
    (cache : list byte) : Conn :=
  let proto := if syncProtocol then client_Proto client else DefaultProtocol in
  mkConn None conn (NewWriter out) false client 0 0 syncProtocol cache None 0 proto
    (Packets proto false) [] [IDConnectionResponse] None false false false.

(** ** Writing *)

(** [c.writer.WriteWithFlags(flags, data)] *)
Definition write_flags (flags : Z) (data : list byte) : M CS unit :=
  zoom (fun s => writer (conn s)) (fun w => upd_conn (set_writer w))
    (WriteWithFlags (byte_of_Z flags) data).

(** [select { case <-c.ctx.Done(): return context.Cause(c.ctx) default: }] *)
Definition check_ctx : M CS unit :=
  let! c := gets conn in
  match ctx c with
  | Some cause => fail cause
  | None => ret tt
  end.

(** The body of the loop of [WriteBatch]: length, then payload. *)
Definition batch_entry (buf : Buffer) (payload : list byte) : Buffer :=
  Buffer_Write payload (Buffer_Write (le_bytes 4 (u32 (len payload))) buf).

(** [WriteBatch] *)
Definition WriteBatch (payloads : list (list byte)) : M CS unit :=
  check_ctx ;;;
  if len payloads =? 0 then ret tt
  else
    let! buf := batchPool_Get in
    let buf := foldl batch_entry buf payloads in
    deferring
      (fun s =>
         if buf_cap buf =? maxBatchPooledSize
         then upd_pools (put_batch (mkBuffer [] (buf_cap buf))) s
         else s)
      (if compressionThreshold <? len (buf_bytes buf)
       then write_flags (Z.lor flagPacketCompressed flagPacketIsBatch) (snappy_Encode (buf_bytes buf))
       else write_flags flagPacketIsBatch (buf_bytes buf)).

(** [WritePacket].  Only [PacketID] of the pooled header is assigned. *)
Definition WritePacket (pk : packet) : M CS unit :=
  check_ctx ;;;
  let! buf := bufferPool_Get in
  let! header := headerPool_Get in
  let header := mkHeader (ID pk) (Header_rest header) in
  deferring (fun s => upd_pools (fun p => put_header header (put_buffer [] p)) s) (
    let! (_, buf) := on_local (Header_Write header) buf in
    let! c := gets conn in
    let! (_, buf) := on_local (Marshal (NewWriter_IO (protocol c) (shieldID c)) pk) buf in
    if compressionThreshold <? len buf
    then write_flags flagPacketCompressed (snappy_Encode buf)
    else write_flags 0 buf).

(** [Write] *)
Definition Write (p : list byte) : M CS Z :=
  let! r := attempt (
    if compressionThreshold <? len p
    then write_flags flagPacketCompressed (snappy_Encode p)
    else write_flags 0 p) in
  match r with
  | inl _ => ret (len p)
  | inr err => fail err
  end.

(** [DoConnect] *)
Definition DoConnect : M CS unit :=
  check_ctx ;;;
  let! c := gets conn in
  match client_ClientData (client c) with
  | inr err => fail err
  | inl clientData =>
      match client_IdentityData (client c) with
      | inr err => fail err
      | inl identityData =>
          WritePacket (SConnectionRequest
            (mkConnectionRequest (client_RemoteAddr (client c)) clientData identityData
               (Proto_ID (protocol c)) (cache c)))
      end
  end.

(** [DoSpawn] *)
Definition DoSpawn : M CS unit :=
  check_ctx ;;;
  close_chan spawned set_spawned ;;;
  let! c := gets conn in
  WritePacket (Gt (ClientCacheStatus (client_ClientCacheEnabled (client c)) body_zero)) ;;;
  let! c := gets conn in
  WritePacket (Gt (SetLocalPlayerAsInitialised (runtimeID c) body_zero)).

(** ** Connecting and closing *)

Variable run_onConnect : cb -> option error -> M CS unit.

(** [OnConnect] *)
Definition OnConnect (fn : cb) : M CS unit := modify (upd_conn (set_onConnect (Some fn))).

(** The results the [select] of [WaitConnect] can return for a state of the
    connection and of the context passed to it. *)
Inductive WaitConnect (c : Conn) (ctx' : option error) : outcome unit -> Prop :=
  | WaitConnect_conn_done e : ctx c = Some e -> WaitConnect c ctx' (Err e)
  | WaitConnect_ctx_done e : ctx' = Some e -> WaitConnect c ctx' (Err e)
  | WaitConnect_connected : connected c = true -> WaitConnect c ctx' (Ok tt).

(** [if c.onConnect != nil { c.onConnect(err) }] *)
Definition notify (err : option error) : M CS unit :=
  let! c := gets conn in
  match onConnect c with
  | Some fn => run_onConnect fn err
  | None => ret tt
  end.

(** [CloseWithError] *)
Definition CloseWithError (err : error) : M CS unit :=
  let! c := gets conn in
  if once c then ret tt
  else
    modify (upd_conn (set_once true)) ;;;
    (if negb (connected c) then notify (Some err) else ret tt) ;;;
    modify (upd_conn (fun c => set_ctx (match ctx c with None => Some err | s => s end) c)) ;;;
    modify (upd_conn (set_conn_closed true)).

(** [Close] *)
Definition Close : M CS unit := CloseWithError (ErrNew "closed by application").

(** ** Reading *)

(** [read].  [payload[0]] is evaluated before the [recover] is installed. *)
Definition read : M CS item :=
  let! payload := zoom (fun s => conn_in (conn s)) (fun i => upd_conn (set_conn_in i)) ReadPacket in
  match payload with
  | [] => panic "runtime error: index out of range [0] with length 0"
  | flags :: payload =>
      let isDecodeNeeded := negb (Z.land (Z_of_byte flags) flagPacketDecode =? 0) in
      let isCompressed := negb (Z.land (Z_of_byte flags) flagPacketCompressed =? 0) in
      match (if isCompressed then snappy_Decode payload else inl payload) with
      | inr err => fail err
      | inl decompressed =>
          if negb isDecodeNeeded then ret (Raw decompressed)
          else
            let! header := headerPool_Get in
            let '(err, header, buf) := Header_Read header decompressed in
            recovering (fun r => ErrNew ("panic while decoding packet " +:+ pretty (PacketID header) +:+ ": " +:+ r))
              (deferring (upd_pools (put_header header)) (
                match err with
                | Some err => fail err
                | None =>
                    let! c := gets conn in
                    match pool c !! PacketID header with
                    | None => fail (ErrNew ("unknown packet ID " +:+ pretty (PacketID header)))
                    | Some factory =>
                        let! (pk, _) := on_local
                          (Marshal (NewReader_IO (protocol c) (shieldID c) false) factory) buf in
                        ret (Decoded pk)
                    end
                end))
      end
  end.

(** The handlers of the connection sequence. *)
Definition handleConnectionResponse (pk : ConnectionResponse) : M CS unit :=
  expect [gt_ID KStartGame] ;;;
  modify (upd_conn (set_ids (RuntimeID pk) (UniqueID pk))).

Definition handleStartGame (pk : StartGame_fields) : M CS unit :=
  let! c := gets conn in
  (if 776 <=? Proto_ID (protocol c)
   then expect [gt_ID KItemRegistry]
   else
     expect [gt_ID KChunkRadiusUpdated] ;;;
     WritePacket (Gt (RequestChunkRadius 16 body_zero))) ;;;
  modify (upd_conn (fun c =>
    set_gameData (Some (mkGameData pk (uniqueID c) (runtimeID c) [] 0)) c)).

(** Assignments to fields of [c.gameData]; [zero_start] are the other fields
    of a game data no StartGame has set. *)
Variable zero_start : StartGame_fields.

Definition gameData_of (c : Conn) : GameData :=
  default (mkGameData zero_start 0 0 [] 0) (gameData c).

Definition set_Items (items : list ItemEntry) (c : Conn) : Conn :=
  let g := gameData_of c in
  set_gameData (Some (mkGameData (gd_start g) (gd_EntityUniqueID g) (gd_EntityRuntimeID g) items (gd_ChunkRadius g))) c.

Definition set_ChunkRadius (r : Z) (c : Conn) : Conn :=
  let g := gameData_of c in
  set_gameData (Some (mkGameData (gd_start g) (gd_EntityUniqueID g) (gd_EntityRuntimeID g) (gd_Items g) r)) c.

Definition handleItemRegistry (Items : list ItemEntry) : M CS unit :=
  expect [gt_ID KChunkRadiusUpdated] ;;;
  modify (upd_conn (set_Items Items)) ;;;
  for_each (fun item =>
    if decide (Item_Name item = "minecraft:shield"%string)
    then modify (upd_conn (set_shieldID (i32 (Item_RuntimeID item))))
    else ret tt) Items ;;;
  WritePacket (Gt (RequestChunkRadius 16 body_zero)).

Definition handleChunkRadiusUpdated (radius : Z) (pk : packet) : M CS unit :=
  deferPacket (Decoded pk) ;;;
  expect [gt_ID KPlayStatus] ;;;
  modify (upd_conn (set_ChunkRadius radius)).

Definition handlePlayStatus (pk : packet) : M CS unit :=
  deferPacket (Decoded pk) ;;;
  close_chan connected set_connected ;;;
  notify None.

(** The body of the loop of [handlePacket]. *)
Definition handle_one (pk : packet) : M CS unit :=
  let! c := gets conn in
  if negb (bool_decide (ID pk ∈ expectedIds c)) then deferPacket (Decoded pk)
  else
    match pk with
    | SConnectionResponse r => handleConnectionResponse r
    | Gt (StartGame f _) => handleStartGame f
    | Gt (ItemRegistry items _) => handleItemRegistry items
    | Gt (ChunkRadiusUpdated radius _) => handleChunkRadiusUpdated radius pk
    | Gt (PlayStatus _ _) => handlePlayStatus pk
    | _ => deferPacket (Decoded pk)
    end.

(** [handlePacket] *)
Definition handlePacket (p : packet) : M CS unit :=
  let! c := gets conn in
  let pks := if syncProtocol c then ConvertToLatest (protocol c) p else [p] in
  for_each handle_one pks.

(** The [case <-c.spawned] of [ReadPacket]. *)
Definition read_spawned : M CS item :=
  let! c := gets conn in
  match deferredPackets c with
  | pk :: rest => modify (upd_conn (set_deferred rest)) ;;; ret pk
  | [] => read
  end.

(** [ReadPacket] after a [select] that took its default case, up to the
    recursive call. *)
Definition read_sequence : M CS unit :=
  let! p := read in
  match p with
  | Decoded pk =>
      let! r := attempt (handlePacket pk) in
      match r with
      | inl _ => ret tt
      | inr err => fail (ErrWrap ("failed to handle packet " +:+ pretty (ID pk)) err)
      end
  | Raw _ => deferPacket p
  end.

(** [ReadPacket].  When both the context is done and [spawned] is closed the
    [select] takes either case: [pick] says whether it takes the first.  Both
    cases return, so one choice per call is enough. *)
Fixpoint ReadPacket (fuel : nat) (pick : bool) : M CS item :=
  match fuel with
  | O => nofuel
  | S fuel =>
      let! c := gets conn in
      match ctx c, spawned c with
      | Some cause, false => fail cause
      | Some cause, true => if pick then fail cause else read_spawned
      | None, true => read_spawned
      | None, false => read_sequence ;;; ReadPacket fuel pick
      end
  end.

End Methods.
End Conn.
