(* ===== verification/Toy.v ===== *)
(** * Toy: a concrete instance of the third-party interface

    Small executable codecs that satisfy the laws of [Minecraft] and
    [ServerPacket]; the witnesses of the theorems that depend on those laws
    run on it.  Numbers are little-endian, byte slices have a four-byte
    length, snappy is the identity, a header is its id and one byte, the
    packets of gophertunnel have no fields on the wire. *)

From S2P Require Import Prelude GoFloat Wire Minecraft ServerPacket Conn.

Local Open Scope Z_scope.
Local Open Scope go_scope.

Definition toy_types : MCTypes := {|
  BlockPos := unit; GameRule := unit; BlockEntry := unit; MovementSettings := unit;
  ExperimentData := unit; ItemRest := unit; body := unit; body_zero := tt
|}.

#[local] Existing Instance toy_types.

(** Writers append, readers take [n] bytes or panic. *)
Inductive toy_IO := ToyWriter | ToyReader.

Definition take_bytes (n : Z) : M (list byte) (list byte) := fun buf =>
  if len buf <? n then (Panic "EOF", [])
  else (Ok (take (Z.to_nat n) buf), drop (Z.to_nat n) buf).

Definition toy_number (n : nat) (decode : Z -> Z) (io : toy_IO) (x : Z) : M (list byte) Z :=
  match io with
  | ToyWriter => fun buf => (Ok x, buf ++ le_bytes n x)
  | ToyReader => let! bs := take_bytes (Z.of_nat n) in ret (decode (le_val bs))
  end.

Definition toy_slice (io : toy_IO) (x : list byte) : M (list byte) (list byte) :=
  match io with
  | ToyWriter => fun buf => (Ok x, buf ++ le_bytes 4 (len x) ++ x)
  | ToyReader => let! n := take_bytes 4 in take_bytes (le_val n)
  end.

Definition toy_string (io : toy_IO) (x : string) : M (list byte) string :=
  let! bs := toy_slice io (bytes_of x) in ret (string_of bs).

Definition toy_kind_ID (k : gt_kind) : Z :=
  match k with
  | KStartGame => 11 | KItemRegistry => 162 | KChunkRadiusUpdated => 70 | KPlayStatus => 2
  | KRequestChunkRadius => 69 | KClientCacheStatus => 129 | KSetLocalPlayerAsInitialised => 113
  | KAddActor => 13 | KAddItemActor => 15 | KAddPainting => 22 | KAddPlayer => 12
  | KBossEvent => 74 | KMobEffect => 28 | KPlayerList => 63 | KRemoveActor => 14
  | KRemoveObjective => 106 | KSetDisplayObjective => 107
  end.

Definition toy_Header_Write (h : @Header byte) : M (list byte) unit := fun buf =>
  (Ok tt, buf ++ le_bytes 2 (PacketID h) ++ [Header_rest h]).

Definition toy_Header_Read (h : @Header byte) (buf : list byte) : option error * Header byte * list byte :=
  match buf with
  | a :: b :: c :: rest => (None, mkHeader (le_val [a; b]) c, rest)
  | _ => (Some EOF, h, [])
  end.

(** Protocols are numbered. *)
Definition toy : @Gopher toy_types := {|
  Proto := Z;
  DefaultProtocol := 800;
  Proto_ID p := p;
  CurrentProtocol := 800;
  IO := toy_IO;
  NewWriter_IO _ _ := ToyWriter;
  NewReader_IO _ _ _ := ToyReader;
  io_String := toy_string;
  io_ByteSlice := toy_slice;
  io_Varuint64 := toy_number 8 (fun z => z);
  io_Varint64 := toy_number 8 i64;
  io_Int32 := toy_number 4 i32;
  io_Int64 := toy_number 8 i64;
  gt_Marshal _ pk := ret pk;
  gt_ID := toy_kind_ID;
  const c := match c with
             | MobEffectAdd => 1 | MobEffectRemove => 3
             | PlayerListActionAdd => 0 | PlayerListActionRemove => 1 | BossEventHide => 2
             | DimensionOverworld => 0 | DimensionNether => 1 | DimensionEnd => 2 | LevelEventStopRaining => 3003
             | LevelEventStopThunderstorm => 3004 | MoveModeReset => 1
             | PlayStatusPlayerSpawn => 3 | PlayerActionDimensionChangeDone => 14
             end;
  hdr_rest := byte;
  hdr_zero := Byte.x00;
  Header_Write := toy_Header_Write;
  Header_Read := toy_Header_Read;
  snappy_Encode bs := bs;
  snappy_Decode bs := inl bs
|}.

#[local] Existing Instance toy.

Definition toy_start : @StartGame_fields toy_types :=
  let zero := mkVec3 (S754_zero false) (S754_zero false) (S754_zero false) in
  @mkStartGame toy_types 1 "world" 0 0 "1.21" zero (S754_zero false) (S754_zero false) 0 tt 0
    false false false false [] 0 0 [] tt 0 false false 0 0 false false [] false.

(** The server sends the packets of the connection sequence. *)
Definition toy_server_packets : list (@packet toy_types) :=
  [Gt (StartGame toy_start tt); Gt (ItemRegistry [mkItem "minecraft:shield" 355 tt] tt);
   Gt (ChunkRadiusUpdated 16 tt); Gt (PlayStatus 3 tt); Gt (AddActor 5 tt)].

Definition toy_packets (p : Z) (from_client : bool) : gmap Z (@packet toy_types) :=
  list_to_map ((if from_client then registered_from_client else registered_from_server) ++
    map (fun p => (@ID toy_types toy p, p)) toy_server_packets).

Definition toy_protocols : @Protocols toy_types toy :=
  @Build_Protocols toy_types toy toy_packets (fun _ p => [p]).

Definition toy_runtime : Runtime := {| size_class c := c; size_class_ge c := Z.le_refl c |}.

(** ** The laws *)

Lemma take_bytes_app n enc rest :
  n = len enc -> take_bytes n (enc ++ rest) = (Ok enc, rest).
Proof.
  intros ->. unfold take_bytes. rewrite (proj2 (Z.ltb_ge _ _)) by (rewrite len_app; pose proof (len_nonneg rest); lia).
  unfold len. by rewrite Nat2Z.id, take_app_length, drop_app_length.
Qed.

Lemma toy_number_law n (dom : Z -> Prop) decode :
  (forall x, dom x -> decode (x mod 2 ^ (8 * Z.of_nat n)) = x) ->
  @codec_law toy_types toy Z dom (toy_number n decode).
Proof.
  intros Hd p s x Hx. exists (le_bytes n x). split; [done|]. intros s' l y rest. simpl.
  unfold bind. rewrite take_bytes_app by (unfold len; by rewrite length_le_bytes).
  unfold ret. by rewrite le_val_le_bytes, Hd.
Qed.

Lemma toy_slice_law : @codec_law toy_types toy _ (fun s => len s < 2 ^ 31) toy_slice.
Proof.
  intros p s x Hx. exists (le_bytes 4 (len x) ++ x). split; [done|]. intros s' l y rest. simpl.
  unfold bind. rewrite <- app_assoc, take_bytes_app by (unfold len; by rewrite length_le_bytes).
  rewrite le_val_le_bytes, Z.mod_small by (pose proof (len_nonneg x); simpl; lia).
  by rewrite take_bytes_app.
Qed.

Lemma toy_string_law : @codec_law toy_types toy _ (fun s => len (bytes_of s) < 2 ^ 31) toy_string.
Proof.
  intros p s x Hx. destruct (toy_slice_law p s (bytes_of x) Hx) as (enc & W & R). exists enc. split.
  - intros buf. unfold toy_string, bind. rewrite W. unfold ret. by rewrite string_of_bytes_of.
  - intros s' l y rest. unfold toy_string, bind. rewrite (R s' l). unfold ret. by rewrite string_of_bytes_of.
Qed.

Lemma i64_mod x : in_i64 x -> i64 (x mod 2 ^ 64) = x.
Proof.
  unfold in_i64, i64. intros Hx. rewrite Zplus_mod_idemp_l, Z.mod_small by lia. lia.
Qed.

Lemma i32_mod x : in_i32 x -> i32 (x mod 2 ^ 32) = x.
Proof.
  unfold in_i32, i32. intros Hx. rewrite Zplus_mod_idemp_l, Z.mod_small by lia. lia.
Qed.

Definition toy_IOLaws : @IOLaws toy_types toy.
Proof.
  split; [apply toy_string_law | apply toy_slice_law | apply toy_number_law ..]; intros x Hx.
  - apply Z.mod_small. apply Hx.
  - by apply i64_mod.
  - by apply i32_mod.
  - by apply i64_mod.
Defined.

Definition toy_HeaderLaws : @HeaderLaws toy_types toy.
Proof.
  split. intros [id r] Hid. exists (le_bytes 2 id ++ [r]). split; [done|]. intros h' rest. simpl in *.
  assert (exists a b, le_bytes 2 id = [a; b]) as (a & b & E).
  { pose proof (length_le_bytes 2 id) as Hl. destruct (le_bytes 2 id) as [|a [|b [|]]]; try done. by exists a, b. }
  rewrite E. simpl. do 3 f_equal. change (Z_of_byte a + 256 * (Z_of_byte b + 256 * 0)) with (le_val [a; b]).
  rewrite <- E, le_val_le_bytes. apply Z.mod_small. simpl. lia.
Defined.

Definition toy_SnappyLaws : @SnappyLaws toy_types toy.
Proof. by split. Defined.

Definition toy_IDLaws : @IDLaws toy_types toy.
Proof. split; [by intros [] [] | by intros []]. Defined.

Definition toy_PoolLaws : @PoolLaws toy_types toy toy_protocols.
Proof.
  split; intros id p Hp; repeat (apply elem_of_cons in Hp as [[= -> ->]|Hp]; [vm_compute; reflexivity|]);
    by apply not_elem_of_nil in Hp.
Defined.

(** A client, and a new connection whose server sends the given chunks. *)
Definition toy_client : @ClientInfo toy_types toy :=
  @mkClientInfo toy_types toy 800 "10.0.0.1:19132" (inl [Byte.x7b; Byte.x7d]) (inl [Byte.x7b; Byte.x7d]) true.

Definition toy_cs_env {cb env : Type} (e : env) (chunks : list (list byte)) :
    @CS toy_types toy cb env :=
  mkCS (@NewConn toy_types toy toy_protocols cb (mkSource chunks EOF) (mkSink [] []) toy_client false [])
    (mkPools [] [] []) e.

Definition toy_cs := @toy_cs_env unit unit tt.
