(* ===== verification/Animation.v ===== *)
(** * Animation: what a player sees during a transfer

    Package [session/animation]: the animations as the packets they send and
    the time they sleep.  [Play] runs in the callback of the transfer before
    the new world is sent, [Clear] after it; the camera animations clear in a
    goroutine of their own ([Go]).  An animation may keep state: the camera
    animations remember that they have sent their presets. *)

From S2P Require Import Prelude GoFloat Minecraft Toy.

Local Open Scope Z_scope.

(** ** The camera packets *)

(** [protocol.EasingType...], [color.RGBA] *)
Inductive EasingType := EasingTypeLinear | EasingTypeOutExpo | EasingTypeInExpo | EasingTypeInOutExpo.
Record RGBA := mkRGBA { RGBA_R : Z; RGBA_G : Z; RGBA_B : Z; RGBA_A : Z }.

Record CameraEase := mkCameraEase { Duration : float32; Ease_Type : EasingType }.
Record CameraInstructionSet := mkCameraSet {
  Preset : Z;
  Set_Ease : CameraEase;
  Set_Position : Vec3;
  Set_Rotation : float32 * float32;
}.
Record CameraFadeTimeData := mkFadeTime {
  FadeInDuration : float32;
  WaitDuration : float32;
  FadeOutDuration : float32;
}.
Record CameraInstructionFade := mkCameraFade { TimeData : CameraFadeTimeData; Colour : RGBA }.

(** The packets of the animations, with the fields they set. *)
Inductive animation_packet :=
  | CameraPresets (names : list string)
  | CameraInstruction (set : option CameraInstructionSet) (fade : option CameraInstructionFade) (clear : option bool)
  | ChangeDimension (Dimension : Z) (Position : Vec3)
  | StopSound (StopAll : bool)
  | PlayerAction (ActionType : Z)
  | SendPlayStatus (Status : Z).

(** What an animation does: [conn.WritePacket], whose errors are dropped,
    [time.Sleep] in nanoseconds, and a goroutine. *)
Inductive act :=
  | Send (pk : animation_packet)
  | Sleep (ns : Z)
  | Go (body : list act).

Definition Millisecond : Z := 1000000.
Definition Second : Z := 1000000000.

(** Package [math] without [Mod], whose last bits depend on the architecture. *)
Class Trigonometry := {
  math_Cos : float64 -> float64;
  math_Sin : float64 -> float64;
}.

(** [mgl32.Vec3.Add] *)
Class Vectors := { Vec3_Add : Vec3 -> Vec3 -> Vec3 }.

(** ** math.go *)

Section Yaw.
Context `{Tr : Trigonometry}.

(** The constant [math.Pi / 180]. *)
Definition degree : float64 := S754_finite false 5030569068109113 (-58).
Definition half : float64 := SFdiv 53 1024 (f64_of_Z 1) (f64_of_Z 2).

Definition axis (x z : Z) : Vec3 := mkVec3 (f32_of_Z x) (f32_of_Z 0) (f32_of_Z z).

Definition yawToDirectionVec (yaw : float64) : Vec3 :=
  let yaw := math_Mod yaw (f64_of_Z 360) in
  let yaw := if SFltb yaw (f64_of_Z 0) then f64_add yaw (f64_of_Z 360) else yaw in
  let radians := f64_mul yaw degree in
  let x := math_Cos radians in
  let y := math_Sin radians in
  if SFleb (f64_of_Z 0) y && SFleb (math_Abs x) half then axis (-1) 0
  else if SFleb (f64_of_Z 0) x && SFleb (math_Abs y) half then axis 0 1
  else if SFltb y (f64_of_Z 0) && SFleb (math_Abs x) half then axis 1 0
  else axis 0 (-1).

End Yaw.

Section Animation.
Context `{T : MCTypes} `{G : !Gopher} `{F : FloatConversion} `{Tr : Trigonometry} `{Ve : Vectors}.

(** ** The interface

    [Play] and [Clear] with the dimension of the client's own game data, the
    only field of the connection an animation reads, and the new server's game
    data.  [state] is what the object keeps. *)
Record Animation := mkAnimation {
  state : Type;
  Play : state -> Z -> GameData -> list act * state;
  Clear : state -> Z -> GameData -> list act * state;
}.

(** ** animation.go *)

Definition NopAnimation : Animation := {|
  state := unit;
  Play s _ _ := ([], s);
  Clear s _ _ := ([], s)
|}.

(** [cameraAnimation.Sync], over the field [synced]. *)
Definition Sync (synced : bool) : list act * bool :=
  if synced then ([], synced) else ([Send (CameraPresets ["minecraft:free"%string])], true).

(** ** dimension.go *)

Definition sendDimension (serverGameData : GameData) (dimension : Z) (playStatus : bool) : list act :=
  [Send (ChangeDimension dimension (sg_PlayerPosition (gd_start serverGameData)));
   Send (StopSound true);
   Send (PlayerAction (const PlayerActionDimensionChangeDone))] ++
  (if playStatus then [Send (SendPlayStatus (const PlayStatusPlayerSpawn))] else []).

Definition Dimension_Play (GameData_Dimension : Z) (serverGameData : GameData) : list act :=
  let dimension := if GameData_Dimension =? const DimensionNether then const DimensionEnd else const DimensionNether in
  sendDimension serverGameData dimension false.

Definition Dimension_Clear (serverGameData : GameData) : list act :=
  Send (SendPlayStatus (const PlayStatusPlayerSpawn)) :: sendDimension serverGameData (const DimensionOverworld) true.

Definition Dimension : Animation := {|
  state := unit;
  Play s d g := (Dimension_Play d g, s);
  Clear s _ g := (Dimension_Clear g, s)
|}.

(** ** Camera instructions *)

Definition set_camera (Duration : float32) (Type_ : EasingType) (Position : Vec3) (Rotation : float32 * float32) : act :=
  Send (CameraInstruction (Some (mkCameraSet 0 (mkCameraEase Duration Type_) Position Rotation)) None None).

Definition up (height : Z) (Position : Vec3) : Vec3 := Vec3_Add Position (mkVec3 (f32_of_Z 0) (f32_of_Z height) (f32_of_Z 0)).

(** The goroutine of [Clear] of both camera animations. *)
Definition camera_descent (colour : RGBA) (timing : CameraFadeTimeData) (serverGameData : GameData) : list act :=
  let g := gd_start serverGameData in
  let pos := sg_PlayerPosition g in
  let down := (f32_of_Z 90, sg_Yaw g) in
  [Send (CameraInstruction (Some (mkCameraSet 0 (mkCameraEase (f32_of_Z 0) EasingTypeLinear) (up 100 pos) down))
     (Some (mkCameraFade timing colour)) None);
   Sleep (i64 (Second * int64_of_float
     (f32_add (f32_add (FadeInDuration timing) (WaitDuration timing)) (FadeOutDuration timing))));
   set_camera (f32_ratio 11 4) EasingTypeInExpo (up 1 pos) down;
   Sleep (3 * Second);
   set_camera (f32_ratio 3 10) EasingTypeInOutExpo (Vec3_Add pos (yawToDirectionVec (f64_of_f32 (sg_Yaw g))))
     (sg_Pitch g, sg_Yaw g);
   Sleep (400 * Millisecond);
   Send (CameraInstruction None None (Some true))].

(** ** ease.go *)

Record Ease := mkEase {
  Ease_Flicker : bool;
  Ease_Colour : RGBA;
  Ease_Timing : CameraFadeTimeData;
  Ease_Position : Vec3;
  Ease_Yaw : float32;
}.

Definition flicker (colour : RGBA) : act :=
  Send (CameraInstruction None
    (Some (mkCameraFade (mkFadeTime (f32_ratio 1 10) (f32_ratio 1 10) (f32_ratio 1 10)) colour)) None).

(** The body of the loop of [Ease.Play]. *)
Definition Ease_step (a : Ease) (i : Z) : list act :=
  [set_camera (f32_ratio 3 10) EasingTypeOutExpo (up (25 * (i + 1)) (Ease_Position a)) (f32_of_Z 90, Ease_Yaw a);
   Sleep (300 * Millisecond)] ++
  (if negb (i =? 3) && Ease_Flicker a then [flicker (Ease_Colour a); Sleep (300 * Millisecond)] else []).

Definition Ease_Play (a : Ease) (synced : bool) : list act * bool :=
  let '(presets, synced) := Sync synced in
  (presets ++
   [set_camera (f32_ratio 3 10) EasingTypeLinear (Ease_Position a) (f32_of_Z 90, Ease_Yaw a);
    Sleep (300 * Millisecond)] ++
   concat (map (Ease_step a) (seqZ 0 4)) ++
   [Sleep (3 * Second)], synced).

Definition Ease_animation (a : Ease) : Animation := {|
  state := bool;
  Play s _ _ := Ease_Play a s;
  Clear s _ g := ([Go (camera_descent (Ease_Colour a) (Ease_Timing a) g)], s)
|}.

(** ** fade.go *)

Record Fade := mkFade { Fade_Colour : RGBA; Fade_Timing : CameraFadeTimeData }.

Definition Fade_animation (a : Fade) : Animation := {|
  state := unit;
  Play s _ _ := ([Send (CameraInstruction None (Some (mkCameraFade (Fade_Timing a) (Fade_Colour a))) None)], s);
  Clear s d g := Clear NopAnimation s d g
|}.

(** ** smooth.go *)

Record Smooth := mkSmooth {
  Smooth_Colour : RGBA;
  Smooth_Timing : CameraFadeTimeData;
  Smooth_Position : Vec3;
  Smooth_Yaw : float32;
}.

Definition Smooth_Play (a : Smooth) (synced : bool) : list act * bool :=
  let '(presets, synced) := Sync synced in
  (presets ++
   [set_camera (f32_ratio 3 10) EasingTypeLinear (Smooth_Position a) (f32_of_Z 90, Smooth_Yaw a);
    Sleep (350 * Millisecond);
    set_camera (f32_ratio 5 2) EasingTypeOutExpo (up 100 (Smooth_Position a)) (f32_of_Z 90, Smooth_Yaw a);
    Sleep (3 * Second)], synced).

Definition Smooth_animation (a : Smooth) : Animation := {|
  state := bool;
  Play s _ _ := Smooth_Play a s;
  Clear s _ g := ([Go (camera_descent (Smooth_Colour a) (Smooth_Timing a) g)], s)
|}.

End Animation.

(** * Specification *)

(** The packets sent and the time slept; a goroutine's follow those of the
    call that starts it, which here ends with it. *)
Fixpoint sent_by (a : act) : list animation_packet :=
  match a with
  | Send pk => [pk]
  | Sleep _ => []
  | Go acts => concat (map sent_by acts)
  end.

Definition packets (acts : list act) : list animation_packet := concat (map sent_by acts).

Definition slept (acts : list act) : Z := foldr (fun a n => match a with Sleep ns => ns + n | _ => n end) 0 acts.

(** The player's camera: held by an instruction until one that clears it. *)
Definition camera_step (held : bool) (pk : animation_packet) : bool :=
  match pk with
  | CameraInstruction _ _ (Some true) => false
  | CameraInstruction (Some _) _ _ => true
  | _ => held
  end.
Definition camera_held : bool -> list animation_packet -> bool := foldl camera_step.

Definition is_presets (pk : animation_packet) : bool := match pk with CameraPresets _ => true | _ => false end.
Definition moves_camera (pk : animation_packet) : bool := match pk with CameraInstruction (Some _) _ _ => true | _ => false end.

(** Every packet that moves the camera comes after the presets. *)
Fixpoint presets_first (synced : bool) (pks : list animation_packet) : Prop :=
  match pks with
  | [] => True
  | pk :: pks => (moves_camera pk = true -> synced = true) /\ presets_first (synced || is_presets pk) pks
  end.

(** The dimension the client ends in. *)
Definition client_dimension (d : Z) (pks : list animation_packet) : Z :=
  foldl (fun d pk => match pk with ChangeDimension d' _ => d' | _ => d end) d pks.
Definition dimension_changes (pks : list animation_packet) : list Z :=
  concat (map (fun pk => match pk with ChangeDimension d _ => [d] | _ => [] end) pks).

Section Spec.
Context `{T : MCTypes} `{G : !Gopher} `{F : FloatConversion} `{Tr : Trigonometry} `{Ve : Vectors}.

Inductive builtin : Animation -> Prop :=
  | builtin_nop : builtin NopAnimation
  | builtin_dimension : builtin Dimension
  | builtin_ease a : builtin (Ease_animation a)
  | builtin_fade a : builtin (Fade_animation a)
  | builtin_smooth a : builtin (Smooth_animation a).

(** [Play] and then [Clear]. *)
Definition whole (a : Animation) (s : state a) (d : Z) (g g' : GameData) : list act * state a :=
  let '(acts, s) := Play a s d g in
  let '(acts', s) := Clear a s d g' in (acts ++ acts', s).

(** Any number of whole animations of one object. *)
Fixpoint repeated (a : Animation) (s : state a) (gs : list (Z * GameData)) : list act :=
  match gs with
  | [] => []
  | (d, g) :: gs => let '(acts, s) := whole a s d g g in acts ++ repeated a s gs
  end.

Class DimensionLaws : Prop := {
  nether_overworld : const DimensionNether <> const DimensionOverworld;
  end_overworld : const DimensionEnd <> const DimensionOverworld;
  end_nether : const DimensionEnd <> const DimensionNether;
}.

(** * Lemmas *)

Lemma packets_app xs ys : packets (xs ++ ys) = packets xs ++ packets ys.
Proof. unfold packets. by rewrite map_app, concat_app. Qed.

Lemma packets_go acts : packets [Go acts] = packets acts.
Proof. unfold packets. simpl. apply app_nil_r. Qed.

Lemma camera_held_app h xs ys : camera_held h (xs ++ ys) = camera_held (camera_held h xs) ys.
Proof. apply foldl_app. Qed.

Lemma descent_releases c t g h : camera_held h (packets (camera_descent c t g)) = false.
Proof. done. Qed.

Lemma presets_first_app b xs ys :
  presets_first b xs -> presets_first (b || existsb is_presets xs) ys -> presets_first b (xs ++ ys).
Proof.
  revert b. induction xs as [|x xs IH]; intros b; simpl.
  - by rewrite orb_false_r.
  - rewrite orb_assoc. intros [H1 H2] H3. split; [done | by apply IH].
Qed.

(** What a whole camera animation does about the presets. *)
Definition presets_ok (a : Animation) (state_synced : state a -> bool) : Prop := forall s d g,
  let '(acts, s') := whole a s d g g in
  state_synced s' = true /\ presets_first (state_synced s) (packets acts) /\
  filter (fun pk => is_presets pk) (packets acts) = (if state_synced s then [] else [CameraPresets ["minecraft:free"%string]]).

Lemma Ease_presets a : presets_ok (Ease_animation a) id.
Proof.
  intros s d g. unfold whole, Play, Clear, Ease_animation, Ease_Play, Sync, id, packets.
  destruct s, (Ease_Flicker a) eqn:E; unfold Ease_step; simpl; rewrite E; simpl; by split_and!.
Qed.

Lemma Smooth_presets a : presets_ok (Smooth_animation a) id.
Proof. intros [] d g; simpl; by split_and!. Qed.

Lemma repeated_presets a state_synced gs s :
  presets_ok a state_synced ->
  presets_first (state_synced s) (packets (repeated a s gs)) /\
  filter (fun pk => is_presets pk) (packets (repeated a s gs))
    = (if state_synced s then [] else match gs with [] => [] | _ => [CameraPresets ["minecraft:free"%string]] end).
Proof.
  intros Hok. revert s. induction gs as [|[d g] gs IH]; intros s; simpl.
  - by destruct (state_synced s).
  - specialize (Hok s d g). destruct (whole a s d g g) as [acts s'] eqn:E. destruct Hok as (H1 & H2 & H3).
    destruct (IH s') as [G1 G2]. rewrite H1 in G1, G2. rewrite packets_app, filter_app, H3, G2, app_nil_r.
    split; [|by destruct (state_synced s)]. apply presets_first_app; [done|].
    assert (forall pks b, presets_first true pks -> b = true -> presets_first b pks) as Ht by (intros ?? ? ->; done).
    apply Ht; [done|]. destruct (state_synced s); [done|]. simpl. apply existsb_exists.
    exists (CameraPresets ["minecraft:free"%string]). split; [|done]. apply list_elem_of_In.
    eapply list_elem_of_filter. rewrite H3. by left.
Qed.

End Spec.

(** * Properties *)

Section Properties.
Context `{T : MCTypes} `{G : !Gopher} `{F : FloatConversion} `{Tr : Trigonometry} `{Ve : Vectors}.

(** C34: the player gets the camera back.  Whatever animation of the package is
    played and then cleared, in any state of the object, for any game data, the
    camera is free after it. *)
Theorem animations_release_camera a (s : state a) d g g' :
  builtin a -> camera_held false (packets (whole a s d g g').1) = false.
Proof.
  destruct 1 as [| |e|f|m]; try done; unfold whole; simpl.
  - destruct (Ease_Play e s) as [acts s']. simpl. rewrite packets_app, camera_held_app.
    rewrite packets_go. apply descent_releases.
  - destruct (Smooth_Play m s) as [acts s']. simpl. rewrite packets_app, camera_held_app.
    rewrite packets_go. apply descent_releases.
Qed.

(** The camera presets are sent once.  However often a camera animation
    object is played and cleared, its client gets the presets exactly once, and
    before the first instruction that moves the camera. *)
Theorem presets_sent_once gs :
  (forall a, let pks := packets (repeated (Ease_animation a) false gs) in
    presets_first false pks /\
    filter (fun pk => is_presets pk) pks = match gs with [] => [] | _ => [CameraPresets ["minecraft:free"%string]] end) /\
  (forall a, let pks := packets (repeated (Smooth_animation a) false gs) in
    presets_first false pks /\
    filter (fun pk => is_presets pk) pks = match gs with [] => [] | _ => [CameraPresets ["minecraft:free"%string]] end).
Proof.
  split; intros a.
  - apply (repeated_presets (Ease_animation a) id gs false), Ease_presets.
  - apply (repeated_presets (Smooth_animation a) id gs false), Smooth_presets.
Qed.

(** The dimension screen.  [Play] moves the client to a dimension that is
    neither the one of its own game data nor the overworld, and [Clear] back to
    the overworld, so that each is a real change of dimension; the new
    server's dimension plays no part: the client ends in the overworld also
    when the server's world, whose chunks [sendGameData] sends in between, is
    in another dimension. *)
Theorem dimension_animation `{!DimensionLaws} d g g' :
  d = const DimensionOverworld \/ d = const DimensionNether \/ d = const DimensionEnd ->
  exists d', dimension_changes (packets (whole Dimension tt d g g').1) = [d'; const DimensionOverworld] /\
    d' <> d /\ d' <> const DimensionOverworld /\
    client_dimension d (packets (whole Dimension tt d g g').1) = const DimensionOverworld /\
    slept (whole Dimension tt d g g').1 = 0.
Proof.
  intros Hd. unfold whole, Dimension, Play, Clear, Dimension_Play.
  pose proof nether_overworld. pose proof end_overworld. pose proof end_nether.
  exists (if d =? const DimensionNether then const DimensionEnd else const DimensionNether).
  destruct (Z.eqb_spec d (const DimensionNether)); split_and!; try done; congruence.
Qed.

(** The last step of the camera's descent.  It stands one block beside the
    player, in one of the four directions of the axes, by the quarter the yaw
    is in; but for every yaw whose sine and cosine both exceed one half, near
    the diagonals, the direction is north, whichever way the player looks.
    The fade is awaited for a whole number of seconds: one that takes less than
    a second in all is not awaited. *)
Theorem camera_descent_direction (yaw : float64) (colour : RGBA) (t : CameraFadeTimeData) (g : GameData) :
  let radians := f64_mul (let yaw := math_Mod yaw (f64_of_Z 360) in
    if SFltb yaw (f64_of_Z 0) then f64_add yaw (f64_of_Z 360) else yaw) degree in
  let total := f32_add (f32_add (FadeInDuration t) (WaitDuration t)) (FadeOutDuration t) in
  yawToDirectionVec yaw ∈ [axis (-1) 0; axis 0 1; axis 1 0; axis 0 (-1)] /\
  (SFleb (math_Abs (math_Cos radians)) half = false -> SFleb (math_Abs (math_Sin radians)) half = false ->
   yawToDirectionVec yaw = axis 0 (-1)) /\
  (forall m e, total = S754_finite false m e -> trunc_mantissa m e = 0 ->
   slept (camera_descent colour t g) = 3400 * Millisecond).
Proof.
  intros radians total. unfold yawToDirectionVec. fold radians. split_and!.
  - repeat case_match; set_solver.
  - intros -> ->. by rewrite !andb_false_r.
  - intros m e Ht Hz. unfold camera_descent, slept. fold total. rewrite Ht. simpl. unfold signed. rewrite Hz. reflexivity.
Qed.

End Properties.

(** * Witnesses

    Sine and cosine as Taylor series. *)

#[local] Existing Instances toy_types toy.

Fixpoint series (fuel : nat) (k : Z) (x2 term : float64) : float64 :=
  match fuel with
  | O => term
  | S fuel =>
      f64_add term (series fuel (k + 2) x2
        (SFdiv 53 1024 (SFopp (f64_mul term x2)) (f64_of_Z (k * (k + 1)))))
  end.

Definition toy_trigonometry : Trigonometry := {|
  math_Cos x := series 20 1 (f64_mul x x) (f64_of_Z 1);
  math_Sin x := series 20 2 (f64_mul x x) x
|}.
Definition toy_vectors : Vectors := {|
  Vec3_Add a b := mkVec3 (f32_add (X a) (X b)) (f32_add (Y a) (Y b)) (f32_add (Z' a) (Z' b))
|}.
Definition toy_conversion : FloatConversion := {| out_of_range _ _ := 0 |}.

#[local] Existing Instances toy_trigonometry toy_vectors toy_conversion.

Definition toy_game : GameData := mkGameData toy_start 1 1 [] 16.

Example yaw_directions :
  map (fun d => yawToDirectionVec (f64_of_Z d)) [0; 90; 180; 270; 45; 315]
    = [axis 0 1; axis (-1) 0; axis 0 (-1); axis 1 0; axis 0 (-1); axis 0 (-1)].
Proof. vm_compute. reflexivity. Qed.

Lemma animations_release_camera_witness :
  let e := Ease_animation (mkEase true (mkRGBA 0 0 0 0) (mkFadeTime (f32_of_Z 1) (f32_of_Z 1) (f32_of_Z 1))
    (sg_PlayerPosition toy_start) (f32_of_Z 0)) in
  builtin e /\ camera_held false (packets (whole e false 0 toy_game toy_game).1) = false.
Proof.
  intros e. split; [constructor|]. apply (animations_release_camera e false 0 toy_game toy_game). constructor.
Defined.

Lemma dimension_animation_witness :
  exists d', dimension_changes (packets (whole Dimension tt 0 toy_game toy_game).1) = [d'; const DimensionOverworld] /\
    d' <> 0 /\ d' <> const DimensionOverworld /\
    client_dimension 0 (packets (whole Dimension tt 0 toy_game toy_game).1) = const DimensionOverworld /\
    slept (whole Dimension tt 0 toy_game toy_game).1 = 0.
Proof.
  assert (DimensionLaws) as Hd by (split; discriminate).
  apply (dimension_animation 0 toy_game toy_game). left. reflexivity.
Defined.

Lemma camera_descent_direction_witness :
  let south_west := f64_of_Z 45 in
  let third := f32_ratio 3 10 in
  yawToDirectionVec south_west = axis 0 (-1) /\
  slept (camera_descent (mkRGBA 0 0 0 0) (mkFadeTime third third third) toy_game) = 3400 * Millisecond.
Proof.
  intros south_west third.
  destruct (camera_descent_direction south_west (mkRGBA 0 0 0 0) (mkFadeTime third third third) toy_game) as (_ & H1 & H2).
  split.
  - apply H1; vm_compute; reflexivity.
  - refine (H2 (match f32_add (f32_add third third) third with S754_finite _ m _ => m | _ => 1%positive end)
      (match f32_add (f32_add third third) third with S754_finite _ _ e => e | _ => 0 end) _ _); vm_compute; reflexivity.
Defined.
