(* ===== verification/ConnIO.v ===== *)
(** * ConnIO: what a [Conn] puts on the wire and takes off it

    Lemmas and properties of the writing methods and of [read]: what a server
    decodes from [WritePacket] and [WriteBatch], that [Write] and [read] agree
    on the raw format, the hygiene of the pooled buffers, what the header pool
    leaks, and exactly when [read] panics. *)

From S2P Require Import Prelude Wire Minecraft ServerPacket Conn Toy.

Local Open Scope Z_scope.
Local Open Scope go_scope.

(** ** Specifications *)

Section Spec.
Context `{G : Gopher} `{P : !Protocols} `{Rt : Runtime} {cb env : Type}.
Implicit Types s : CS (cb:=cb) (env:=env).

(** The pooled buffers are empty, the pooled batches have the pool's size. *)
Definition wf_pools (p : Pools) : Prop :=
  Forall (fun b => b = []) (bufferPool p) /\
  Forall (fun b => b = mkBuffer [] maxBatchPooledSize) (batchPool p).

Definition wf_cs s : Prop := wf_writer (writer (conn s)) /\ wf_pools (pools s).

(** The bytes sent so far, and a connection that accepts more. *)
Definition sent s : list byte := sk_data (wr_w (writer (conn s))).
Definition live s : Prop := ctx (conn s) = None.
Definition healthy_cs s : Prop := healthy (writer (conn s)).

(** The payload for some data: flags and data, or compressed data. *)
Definition seal (flags : Z) (data : list byte) : list byte :=
  if compressionThreshold <? len data
  then byte_of_Z (Z.lor flagPacketCompressed flags) :: snappy_Encode data
  else byte_of_Z flags :: data.

(** What the peer makes of a payload: the flags and the decompressed data. *)
Definition unseal (payload : list byte) : option (Z * list byte) :=
  match payload with
  | [] => None
  | f :: data =>
      if negb (Z.land (Z_of_byte f) flagPacketCompressed =? 0)
      then match snappy_Decode data with inl d => Some (Z_of_byte f, d) | inr _ => None end
      else Some (Z_of_byte f, data)
  end.

(** The peer's parser of a batch: lengths and payloads, to the end. *)
Fixpoint unbatch (fuel : nat) (bs : list byte) : option (list (list byte)) :=
  match fuel, bs with
  | _, [] => Some []
  | O, _ => None
  | S fuel, _ =>
      let n := Z.to_nat (le_val (take 4 bs)) in
      let rest := drop 4 bs in
      if (length rest <? n)%nat then None
      else (fun tl => take n rest :: tl) <$> unbatch fuel (drop n rest)
  end.

(** What the peer finds at the head of the stream: flags, data, what follows. *)
Definition peer_reads (bs : list byte) : option (Z * list byte * list byte) :=
  match parse_frame EOF bs with
  | (Ok payload, rest) => (fun fd => (fd.1, fd.2, rest)) <$> unseal payload
  | _ => None
  end.

(** The server's decoding of a packet: the header, then the fields into a
    packet [y] of the announced type, with nothing left over. *)
Definition server_decodes (pr : Proto) (shield : Z) (y : packet) (data : list byte)
    : option (Header hdr_rest * packet) :=
  match Header_Read (mkHeader 0 hdr_zero) data with
  | (None, h, buf) =>
      match Marshal (NewReader_IO pr shield false) y buf with
      | (Ok pk, []) => Some (h, pk)
      | _ => None
      end
  | _ => None
  end.

(** The header [WritePacket] takes from the pool. *)
Definition pooled_header s : Header hdr_rest := hd (mkHeader 0 hdr_zero) (headerPool (pools s)).

End Spec.

(** ** Lemmas *)

Section ConnIO.
Context `{G : Gopher} `{P : !Protocols} `{Rt : Runtime} {cb env : Type}.
Implicit Types s : CS (cb:=cb) (env:=env).

Lemma byte_flags f : 0 <= f < 256 -> Z_of_byte (byte_of_Z f) = f.
Proof. intros Hf. rewrite Z_of_byte_of_Z. by apply Z.mod_small. Qed.

(** Compression is transparent to the peer. *)
Lemma unseal_seal `{!SnappyLaws} flags data :
  flags = 0 \/ flags = flagPacketIsBatch -> len data < 2 ^ 32 ->
  exists f, unseal (seal flags data) = Some (f, data) /\
    Z.land f flagPacketIsBatch = flags /\ Z.land f flagPacketDecode = 0.
Proof.
  intros Hflags Hlen. unfold seal, unseal.
  destruct (compressionThreshold <? len data); destruct Hflags as [-> | ->];
    rewrite byte_flags by (vm_compute; done); rewrite ?snappy_roundtrip by done;
    eexists; (split; [reflexivity | done]).
Qed.

Lemma write_flags_sends f d s :
  wf_cs s -> exists o w, write_flags f d s = (o, upd_conn (set_writer w) s) /\
    sends (frame (byte_of_Z f :: d)) (writer (conn s)) (o, w).
Proof.
  intros [Hw _]. pose proof (WriteWithFlags_sends (byte_of_Z f) d _ Hw) as H.
  unfold write_flags, zoom. destruct (WriteWithFlags _ _ _) as [o w]. by exists o, w.
Qed.

(** The two ways out of the writing methods: sealed data. *)
Lemma write_sealed_sends flags data s :
  wf_cs s -> exists o w,
    (if compressionThreshold <? len data
     then write_flags (Z.lor flagPacketCompressed flags) (snappy_Encode data)
     else write_flags flags data) s = (o, upd_conn (set_writer w) s) /\
    sends (frame (seal flags data)) (writer (conn s)) (o, w).
Proof.
  intros Hs. unfold seal. destruct (compressionThreshold <? len data); by apply write_flags_sends.
Qed.

Lemma sends_healthy bs w o w' :
  sends bs w (o, w') -> healthy w ->
  o = Ok tt /\ wf_writer w' /\ healthy w' /\ sk_data (wr_w w') = sk_data (wr_w w) ++ bs.
Proof.
  intros (st & Hwf & Hd & _ & Ho & Hok) Hh. destruct (Hok Hh) as [Ho' Hh']. simpl in *.
  subst o. simpl in Ho. subst st. done.
Qed.

Lemma check_ctx_live s : live s -> check_ctx s = (Ok tt, s).
Proof. unfold check_ctx, bind, gets, live. by intros ->. Qed.

Lemma check_ctx_done s e : ctx (conn s) = Some e -> check_ctx s = (Err e, s).
Proof. unfold check_ctx, bind, gets. by intros ->. Qed.

Lemma bufferPool_Get_eq s :
  wf_cs s -> exists p, bufferPool_Get s = (Ok [], mkCS (conn s) p (cenv s)) /\ wf_pools p /\
    headerPool p = headerPool (pools s).
Proof.
  intros [_ [Hb Hbt]]. destruct s as [c [bp bt hp] e]; simpl in *.
  unfold bufferPool_Get, zoom. simpl.
  destruct bp as [|b bp]; simpl; [by eexists|].
  apply Forall_cons in Hb as [-> Hb]. by eexists.
Qed.

Lemma headerPool_Get_eq s :
  headerPool_Get s = (Ok (pooled_header s),
    upd_pools (set_headerPool (tl (headerPool (pools s)))) s).
Proof.
  unfold headerPool_Get, zoom, pooled_header. by destruct (headerPool (pools s)).
Qed.

Lemma batchPool_Get_eq s :
  wf_cs s -> exists p, batchPool_Get s = (Ok (mkBuffer [] maxBatchPooledSize), mkCS (conn s) p (cenv s)) /\
    wf_pools p /\ headerPool p = headerPool (pools s).
Proof.
  intros [_ [Hb Hbt]]. destruct s as [c [bp bt hp] e]; simpl in *.
  unfold batchPool_Get, zoom. simpl.
  destruct bt as [|b bt]; simpl; [by eexists|].
  apply Forall_cons in Hbt as [-> Hbt]. by eexists.
Qed.

(** [WritePacket]: the encoding of the header and of the packet, sealed and
    framed; of the pooled header only the id is replaced. *)
Lemma WritePacket_sends pk s henc enc :
  let h := mkHeader (ID pk) (Header_rest (pooled_header s)) in
  wf_cs s -> live s ->
  (forall buf, Header_Write h buf = (Ok tt, buf ++ henc)) ->
  (forall buf, Marshal (NewWriter_IO (protocol (conn s)) (shieldID (conn s))) pk buf = (Ok pk, buf ++ enc)) ->
  exists o w p, WritePacket pk s = (o, mkCS (set_writer w (conn s)) p (cenv s)) /\
    wf_pools p /\ headerPool p = h :: tl (headerPool (pools s)) /\
    sends (frame (seal 0 (henc ++ enc))) (writer (conn s)) (o, w).
Proof.
  intros h Hs Hl Hh Hm. unfold WritePacket. rewrite (bind_eq_Ok _ _ _ _ _ (check_ctx_live s Hl)).
  destruct (bufferPool_Get_eq s Hs) as (p & Hg & Hp & Hhp). rewrite (bind_eq_Ok _ _ _ _ _ Hg).
  rewrite (bind_eq_Ok _ _ _ _ _ (headerPool_Get_eq _)). unfold pooled_header. simpl.
  rewrite Hhp. fold (pooled_header s). fold h.
  set (s' := upd_pools _ _). assert (wf_cs s') as Hs' by (split; [apply Hs | apply Hp]).
  unfold deferring, bind, on_local, gets. rewrite Hh. simpl. rewrite Hm. simpl.
  destruct (write_sealed_sends 0 (henc ++ enc) s' Hs') as (o & w & Hw & Hsends).
  change (Z.lor flagPacketCompressed 0) with flagPacketCompressed in Hw. rewrite Hw.
  exists o, w. eexists. split; [reflexivity|]. split; [|by split].
  destruct Hp as [Hb Hbt]. split; simpl; [by constructor | done].
Qed.

(** The buffer of [WriteBatch]. *)
Definition batch_bytes (payloads : list (list byte)) : list byte :=
  concat (map (fun p => le_bytes 4 (u32 (len p)) ++ p) payloads).

Lemma batch_buffer payloads b :
  buf_bytes (foldl batch_entry b payloads) = buf_bytes b ++ batch_bytes payloads.
Proof.
  revert b. induction payloads as [|p ps IH]; intros b; simpl; [by rewrite app_nil_r|].
  rewrite IH. simpl. by rewrite <- !app_assoc.
Qed.

Lemma unbatch_batch payloads fuel :
  Forall (fun p => len p < 2 ^ 32) payloads -> (length payloads <= fuel)%nat ->
  unbatch fuel (batch_bytes payloads) = Some payloads.
Proof.
  revert fuel. induction payloads as [|p ps IH]; intros [|fuel] Hps Hf; simpl in Hf; try done; [lia|].
  apply Forall_cons in Hps as [Hp Hps]. unfold batch_bytes. simpl map. simpl concat.
  fold (batch_bytes ps). rewrite <- app_assoc.
  assert (exists x l, le_bytes 4 (u32 (len p)) ++ p ++ batch_bytes ps = x :: l) as (x & l & E).
  { pose proof (length_le_bytes 4 (u32 (len p))). destruct (le_bytes 4 (u32 (len p))); naive_solver. }
  cbn [unbatch]. rewrite E. rewrite <- E.
  rewrite take_app_exact, drop_app_exact by (by rewrite length_le_bytes).
  rewrite le_val_le_bytes, u32_small by (pose proof (len_nonneg p); lia).
  rewrite Z.mod_small by (pose proof (len_nonneg p); simpl; lia).
  unfold len. rewrite Nat2Z.id, length_app. rewrite (proj2 (Nat.ltb_ge _ _)) by lia.
  by rewrite take_app_length, drop_app_length, IH by (done || lia).
Qed.

Lemma WriteBatch_sends payloads s :
  wf_cs s -> live s -> payloads <> [] ->
  exists o w p, WriteBatch payloads s = (o, mkCS (set_writer w (conn s)) p (cenv s)) /\
    wf_pools p /\ headerPool p = headerPool (pools s) /\
    sends (frame (seal flagPacketIsBatch (batch_bytes payloads))) (writer (conn s)) (o, w).
Proof.
  intros Hs Hl Hne. unfold WriteBatch. rewrite (bind_eq_Ok _ _ _ _ _ (check_ctx_live s Hl)).
  rewrite (proj2 (Z.eqb_neq _ 0)) by (unfold len; destruct payloads; simpl in *; [done | lia]).
  destruct (batchPool_Get_eq s Hs) as (p & Hg & Hp & Hhp). rewrite (bind_eq_Ok _ _ _ _ _ Hg).
  rewrite batch_buffer. simpl buf_bytes. rewrite app_nil_l.
  set (b := foldl _ _ _). set (s' := mkCS _ _ _). assert (wf_cs s') as Hs' by (split; [apply Hs | done]).
  unfold deferring.
  destruct (write_sealed_sends flagPacketIsBatch (batch_bytes payloads) s' Hs') as (o & w & Hw & Hsends).
  rewrite Hw. destruct (Z.eqb_spec (buf_cap b) maxBatchPooledSize) as [Hcap|];
    (exists o, w; eexists; split; [reflexivity|]; split; [|by split]); [|done].
  destruct Hp as [Hb Hbt]. split; simpl; [done|]. rewrite Hcap. by constructor.
Qed.

Lemma len_frame_payload pk n : len (frame pk) < n -> len pk < n.
Proof. rewrite len_frame. lia. Qed.

(** A sealed frame that fits is understood by the peer. *)
Lemma peer_reads_sealed `{!SnappyLaws} flags data rest :
  flags = 0 \/ flags = flagPacketIsBatch ->
  len data < 2 ^ 32 -> len (frame (seal flags data)) < 2 ^ 32 ->
  exists f, peer_reads (frame (seal flags data) ++ rest) = Some (f, data, rest) /\
    Z.land f flagPacketIsBatch = flags /\ Z.land f flagPacketDecode = 0.
Proof.
  intros Hf Hd Hl. destruct (unseal_seal flags data Hf Hd) as (f & Hu & Hf1 & Hf2).
  exists f. split; [|done]. unfold peer_reads.
  rewrite parse_frame_small by (by apply len_frame_payload). by rewrite Hu.
Qed.

(** The end of a write on a healthy connection. *)
Lemma sends_connected bs s o w p :
  sends bs (writer (conn s)) (o, w) -> healthy_cs s -> live s -> wf_pools p ->
  let s' := mkCS (set_writer w (conn s)) p (cenv s) in
  o = Ok tt /\ wf_cs s' /\ live s' /\ healthy_cs s' /\ sent s' = sent s ++ bs.
Proof.
  intros Hsd Hh Hl Hp s'. destruct (sends_healthy _ _ _ _ Hsd Hh) as (-> & Hw & Hh' & Hd). done.
Qed.

(** [read], from the result of the [Reader]. *)
Lemma read_frame s payload in' :
  Wire.ReadPacket (conn_in (conn s)) = (Ok payload, in') ->
  forall f data, unseal payload = Some (f, data) -> Z.land f flagPacketDecode = 0 ->
  read s = (Ok (Raw data), upd_conn (set_conn_in in') s).
Proof.
  intros Hr f data Hu Hd. unfold read.
  erewrite bind_eq_Ok by (unfold zoom; rewrite Hr; reflexivity).
  destruct payload as [|x payload]; [done|]. simpl in Hu.
  destruct (negb (Z.land (Z_of_byte x) flagPacketCompressed =? 0));
    [destruct (snappy_Decode payload)|]; simplify_eq; by rewrite Hd.
Qed.

End ConnIO.

(** * Properties *)

Section Properties.
Context `{G : Gopher} `{P : !Protocols} `{Rt : Runtime} {cb env : Type}.
Context `{!IOLaws} `{!HeaderLaws} `{!SnappyLaws}.
Implicit Types s : CS (cb:=cb) (env:=env).

(** A packet, sent and decoded. *)
Lemma WritePacket_delivers (pk : packet) s :
  wf_cs s -> live s -> healthy_cs s -> marshalable pk ->
  exists w p data, WritePacket pk s = (Ok tt, mkCS (set_writer w (conn s)) p (cenv s)) /\
    wf_writer w /\ wf_pools p /\ healthy w /\ sk_data (wr_w w) = sent s ++ frame (seal 0 data) /\
    forall l y, same_type pk y = true ->
      server_decodes (protocol (conn s)) l y data = Some (mkHeader (ID pk) (Header_rest (pooled_header s)), pk).
Proof.
  intros Hs Hl Hh Hpk.
  destruct (Marshal_roundtrip pk (protocol (conn s)) (shieldID (conn s)) Hpk) as (enc & Hw & Hr).
  destruct (Header_codec (mkHeader (ID pk) (Header_rest (pooled_header s)))) as (henc & Hhw & Hhr).
  { by destruct pk. }
  destruct (WritePacket_sends pk s henc enc Hs Hl Hhw Hw) as (o & w & p & Hrun & Hp & _ & Hsd).
  destruct (sends_healthy _ _ _ _ Hsd Hh) as (-> & Hw' & Hh' & Hd).
  exists w, p, (henc ++ enc). split_and!; try done. intros l y Hy.
  unfold server_decodes. rewrite Hhr. rewrite <- (app_nil_r enc), Hr by done. done.
Qed.

(** What the peer makes of a packet. *)
Lemma WritePacket_peer (pk y : packet) (l : Z) s (rest : list byte) :
  wf_cs s -> live s -> healthy_cs s -> marshalable pk -> same_type pk y = true ->
  exists s' data,
    let bytes := frame (seal 0 data) in
    WritePacket pk s = (Ok tt, s') /\ wf_cs s' /\ live s' /\ healthy_cs s' /\
    sent s' = sent s ++ bytes /\
    server_decodes (protocol (conn s)) l y data
      = Some (mkHeader (ID pk) (Header_rest (pooled_header s)), pk) /\
    (len data < 2 ^ 32 -> len bytes < 2 ^ 32 ->
     exists f, peer_reads (bytes ++ rest) = Some (f, data, rest) /\
    Z.land f flagPacketIsBatch = 0 /\ Z.land f flagPacketDecode = 0).
Proof.
  intros Hs Hl Hh Hpk Hy.
  destruct (WritePacket_delivers pk s Hs Hl Hh Hpk) as (w & p & data & Hrun & Hw & Hp & Hh' & Hd & Hdec).
  exists (mkCS (set_writer w (conn s)) p (cenv s)), data. intros bytes.
  split; [done|]. split_and!; try done; [by apply Hdec|]. intros H1' H2'. apply peer_reads_sealed; auto.
Qed.

(** C23: one of the proxy's own packets, sent with [WritePacket] on an open
    connection, arrives: it is appended to the stream as one frame in which
    the server finds a header with the packet's id and the very packet,
    compressed exactly when it is longer than the threshold; and the pooled
    buffers go back empty. *)
Theorem server_reads_packet (pk y : packet) (l : Z) s (rest : list byte) :
  wf_cs s -> live s -> healthy_cs s -> marshalable pk -> same_type pk y = true ->
  exists s' data,
    let bytes := frame (seal 0 data) in
    WritePacket pk s = (Ok tt, s') /\ wf_cs s' /\ live s' /\ healthy_cs s' /\
    sent s' = sent s ++ bytes /\
    server_decodes (protocol (conn s)) l y data
      = Some (mkHeader (ID pk) (Header_rest (pooled_header s)), pk) /\
    (len data < 2 ^ 32 -> len bytes < 2 ^ 32 ->
     exists f, peer_reads (bytes ++ rest) = Some (f, data, rest) /\
       Z.land f flagPacketIsBatch = 0 /\ Z.land f flagPacketDecode = 0).
Proof. apply WritePacket_peer. Qed.

(** What the peer makes of a batch. *)
Lemma WriteBatch_peer (payloads : list (list byte)) s (rest : list byte) :
  wf_cs s -> live s -> healthy_cs s -> Forall (fun p => len p < 2 ^ 32) payloads ->
  exists s' bytes,
    WriteBatch payloads s = (Ok tt, s') /\ wf_cs s' /\ live s' /\ healthy_cs s' /\
    sent s' = sent s ++ bytes /\
    (payloads = [] -> bytes = []) /\
    (payloads <> [] -> len (batch_bytes payloads) < 2 ^ 32 -> len bytes < 2 ^ 32 ->
     exists f data, peer_reads (bytes ++ rest) = Some (f, data, rest) /\
       Z.land f flagPacketIsBatch <> 0 /\ Z.land f flagPacketDecode = 0 /\
       unbatch (length payloads) data = Some payloads).
Proof.
  intros Hs Hl Hh Hps. destruct (decide (payloads = [])) as [-> | Hne].
  { exists s, []. rewrite app_nil_r. split_and!; try done.
    unfold WriteBatch. by rewrite (bind_eq_Ok _ _ _ _ _ (check_ctx_live s Hl)). }
  destruct (WriteBatch_sends payloads s Hs Hl Hne) as (o & w & p & Hrun & Hp & _ & Hsd).
  destruct (sends_connected _ _ _ _ _ Hsd Hh Hl Hp) as (-> & Hs').
  exists (mkCS (set_writer w (conn s)) p (cenv s)), (frame (seal flagPacketIsBatch (batch_bytes payloads))).
  split; [done|]. split_and!; try apply Hs'; try done. intros _ Hd Hb.
  destruct (peer_reads_sealed flagPacketIsBatch _ rest (or_intror eq_refl) Hd Hb) as (f & Hr & Hf & Hf').
  exists f, (batch_bytes payloads). rewrite Hf, unbatch_batch by done. done.
Qed.

(** C20: [WriteBatch] with payloads below 4 GiB sends nothing for an empty
    batch, and otherwise one frame marked as a batch in which the peer finds
    the payloads, in order and unchanged; whatever the size of the batch, the
    batch pool keeps only empty buffers of its own size. *)
Theorem server_reads_batch (payloads : list (list byte)) s (rest : list byte) :
  wf_cs s -> live s -> healthy_cs s -> Forall (fun p => len p < 2 ^ 32) payloads ->
  exists s' bytes,
    WriteBatch payloads s = (Ok tt, s') /\ wf_cs s' /\ live s' /\ healthy_cs s' /\
    sent s' = sent s ++ bytes /\
    (payloads = [] -> bytes = []) /\
    (payloads <> [] -> len (batch_bytes payloads) < 2 ^ 32 -> len bytes < 2 ^ 32 ->
     exists f data, peer_reads (bytes ++ rest) = Some (f, data, rest) /\
       Z.land f flagPacketIsBatch <> 0 /\ Z.land f flagPacketDecode = 0 /\
       unbatch (length payloads) data = Some payloads).
Proof. apply WriteBatch_peer. Qed.

(** [Write] and [read] agree on the raw format: what one connection sends
    with [Write] is what another one's [read] returns, undecoded, whatever the
    fragmentation, and nothing after it is consumed.  [Write] never looks at
    the connection's context. *)
Theorem raw_loopback (p rest : list byte) s s2 :
  wf_cs s -> healthy_cs s -> len p < 2 ^ 32 ->
  exists s', Write p s = (Ok (len p), s') /\ wf_cs s' /\ healthy_cs s' /\
    exists bytes, sent s' = sent s ++ bytes /\
    (len bytes < 2 ^ 32 -> flat (conn_in (conn s2)) = bytes ++ rest ->
     exists s2', read s2 = (Ok (Raw p), s2') /\ flat (conn_in (conn s2')) = rest).
Proof.
  intros Hs Hh Hp. destruct (write_sealed_sends 0 p s Hs) as (o & w & Hrun & Hsd).
  destruct (sends_healthy _ _ _ _ Hsd Hh) as (-> & Hw & Hh' & Hd).
  change (Z.lor flagPacketCompressed 0) with flagPacketCompressed in Hrun.
  exists (upd_conn (set_writer w) s). split.
  { unfold Write. by rewrite (bind_eq_Ok _ _ _ _ _ (attempt_eq_Ok _ _ _ _ Hrun)). }
  split; [by split; [|apply Hs]|]. split; [done|].
  exists (frame (seal 0 p)). split; [done|]. intros Hb Hin.
  destruct (ReadPacket_frame _ _ _ Hin (len_frame_payload _ _ Hb)) as (in' & Hr & Hf & _).
  destruct (unseal_seal 0 p (or_introl eq_refl) Hp) as (f & Hu & _ & Hdec).
  exists (upd_conn (set_conn_in in') s2). by rewrite (read_frame _ _ _ Hr _ _ Hu Hdec).
Qed.

(** C40: the header pool leaks.  [read] stores the header it decoded in the
    pool whatever becomes of the packet, and [WritePacket], on any connection,
    assigns only the packet id: the rest of a server's header, the ids of the
    sub-clients, is sent along with the proxy's next packet. *)
Theorem stale_header_sent (h : Header hdr_rest) (payload data enc : list byte) in' s (pk : packet) :
  Wire.ReadPacket (conn_in (conn s)) = (Ok payload, in') ->
  unseal payload = Some (flagPacketDecode, data) ->
  0 <= PacketID h < 1024 ->
  (forall buf, Header_Write h buf = (Ok tt, buf ++ enc)) ->
  (forall h' rest, Header_Read h' (enc ++ rest) = (None, h, rest)) ->
  enc `prefix_of` data ->
  wf_cs s -> live s -> healthy_cs s -> marshalable pk ->
  exists o s1 s2 d, read s = (o, s1) /\ WritePacket pk s1 = (Ok tt, s2) /\
    sent s2 = sent s ++ frame (seal 0 d) /\
    server_decodes (protocol (conn s)) 0 pk d = Some (mkHeader (ID pk) (Header_rest h), pk).
Proof.
  intros Hr Hu Hid Hhw Hhr [body ->] Hs Hl Hh Hpk.
  destruct (read s) as [o s1] eqn:Erd.
  assert (wf_cs s1 /\ live s1 /\ healthy_cs s1 /\ sent s1 = sent s /\
    protocol (conn s1) = protocol (conn s) /\ Header_rest (pooled_header s1) = Header_rest h)
    as (Hs1 & Hl1 & Hh1 & Hsent & Hpr & Hph).
  { revert Erd. unfold read. erewrite bind_eq_Ok by (unfold zoom; rewrite Hr; reflexivity).
    destruct payload as [|x payload]; [done|]. simpl in Hu.
    assert (Z_of_byte x = flagPacketDecode /\ payload = enc ++ body) as [Hx ->].
    { destruct (Z.eqb _ 0) eqn:Hc in Hu; simpl in Hu; [by injection Hu as -> ->|].
      destruct (snappy_Decode payload); [|done]. injection Hu as Hx _. by rewrite Hx in Hc. }
    rewrite Hx. simpl. rewrite (bind_eq_Ok _ _ _ _ _ (headerPool_Get_eq _)).
    rewrite Hhr. unfold recovering, deferring, bind, gets. simpl.
    destruct (pool (conn s) !! PacketID h) as [factory|]; simpl.
    - unfold on_local. destruct (Marshal _ _ _) as [[] ?]; simpl; intros [= <- <-]; repeat split; try apply Hs; done.
    - intros [= <- <-]. repeat split; try apply Hs; done. }
  destruct (WritePacket_peer pk pk 0 s1 []) as (s2 & d & Hw & _ & _ & _ & Hsd & Hdec & _);
    [done.. | by destruct pk |].
  rewrite Hph, Hpr, Hsent in *. by exists o, s1, s2, d.
Qed.

(** C37: [read] panics exactly when the peer sends a frame of length zero: the
    flags are read off the payload before the [recover] is installed.  Every
    other malformed input is an error: a truncated stream, data that does not
    decompress, a bad header, an unknown id, a packet whose decoder panics. *)
Theorem read_panics_iff s :
  (exists why, (read s).1 = Panic why) <-> (Wire.ReadPacket (conn_in (conn s))).1 = Ok [].
Proof.
  pose proof (ReadPacket_returns (conn_in (conn s))) as Hret.
  unfold read, bind at 1, zoom at 1.
  destruct (Wire.ReadPacket _) as [[[|x payload]|e|w|] in']; simpl in *; try (split; [by intros [? ?] | done]).
  { split; [done|]. intros _. by eexists. }
  split; [|done]. intros [why Hp]. exfalso. revert Hp.
  lazymatch goal with |- context [match ?d with inl _ => _ | inr _ => _ end] => destruct d end; [|done].
  destruct (negb (negb _)); [done|].
  rewrite (bind_eq_Ok _ _ _ _ _ (headerPool_Get_eq _)).
  destruct (Header_Read _ _) as [[e h] buf]. unfold recovering.
  by destruct (deferring _ _ _) as [[] ?].
Qed.

End Properties.

(** * Witnesses *)

#[local] Existing Instances toy_types toy toy_protocols toy_runtime toy_IOLaws toy_HeaderLaws toy_SnappyLaws.

Lemma server_reads_packet_witness :
  let pk := SLatency (mkLatency 12 34) in
  let s := toy_cs [] in
  exists s' data,
    let bytes := frame (seal 0 data) in
    WritePacket pk s = (Ok tt, s') /\ wf_cs s' /\ live s' /\ healthy_cs s' /\
    sent s' = sent s ++ bytes /\
    server_decodes (protocol (conn s)) 0 (SLatency (mkLatency 0 0)) data
      = Some (mkHeader (ID pk) (Header_rest (pooled_header s)), pk) /\
    (len data < 2 ^ 32 -> len bytes < 2 ^ 32 ->
     exists f, peer_reads (bytes ++ [Byte.x07]) = Some (f, data, [Byte.x07]) /\
       Z.land f flagPacketIsBatch = 0 /\ Z.land f flagPacketDecode = 0).
Proof.
  intros pk s. apply (server_reads_packet pk (SLatency (mkLatency 0 0)) 0 s [Byte.x07]).
  - repeat constructor.
  - reflexivity.
  - reflexivity.
  - vm_compute. intuition congruence.
  - reflexivity.
Defined.

Lemma server_reads_batch_witness :
  let payloads := [[Byte.x01; Byte.x02]; []; [Byte.x03]] in
  let s := toy_cs [] in
  exists s' bytes,
    WriteBatch payloads s = (Ok tt, s') /\ wf_cs s' /\ live s' /\ healthy_cs s' /\
    sent s' = sent s ++ bytes /\
    (payloads = [] -> bytes = []) /\
    (payloads <> [] -> len (batch_bytes payloads) < 2 ^ 32 -> len bytes < 2 ^ 32 ->
     exists f data, peer_reads (bytes ++ []) = Some (f, data, []) /\
       Z.land f flagPacketIsBatch <> 0 /\ Z.land f flagPacketDecode = 0 /\
       unbatch (length payloads) data = Some payloads).
Proof.
  intros payloads s. apply (server_reads_batch payloads s []); [repeat constructor ..].
Defined.

Lemma raw_loopback_witness :
  let s := toy_cs [] in
  let s2 := toy_cs [[Byte.x00; Byte.x00; Byte.x00]; [Byte.x02; Byte.x00; Byte.x61; Byte.x62]] in
  exists s', Write [Byte.x61] s = (Ok (len [Byte.x61]), s') /\ wf_cs s' /\ healthy_cs s' /\
    exists bytes, sent s' = sent s ++ bytes /\
    (len bytes < 2 ^ 32 -> flat (conn_in (conn s2)) = bytes ++ [Byte.x62] ->
     exists s2', read s2 = (Ok (Raw [Byte.x61]), s2') /\ flat (conn_in (conn s2')) = [Byte.x62]).
Proof.
  intros s s2. apply (raw_loopback [Byte.x61] [Byte.x62] s s2); [repeat constructor | reflexivity ..].
Defined.

Lemma stale_header_sent_witness :
  let s := toy_cs [[Byte.x00; Byte.x00; Byte.x00; Byte.x04; Byte.x01; Byte.x63; Byte.x00; Byte.x09]] in
  let pk := SLatency (mkLatency 12 34) in
  exists o s1 s2 d, read s = (o, s1) /\ WritePacket pk s1 = (Ok tt, s2) /\
    sent s2 = sent s ++ frame (seal 0 d) /\
    server_decodes (protocol (conn s)) 0 pk d = Some (mkHeader (ID pk) Byte.x09, pk).
Proof.
  intros s pk.
  apply (stale_header_sent (@mkHeader (@hdr_rest toy_types toy) 99 Byte.x09)
    [Byte.x01; Byte.x63; Byte.x00; Byte.x09] [Byte.x63; Byte.x00; Byte.x09]
    [Byte.x63; Byte.x00; Byte.x09] (mkSource [] EOF) s pk);
    [ vm_compute; reflexivity | vm_compute; reflexivity | simpl; lia
    | intros buf; reflexivity | intros h' rest; reflexivity | exists []; reflexivity
    | repeat constructor | reflexivity | reflexivity | vm_compute; intuition congruence ].
Defined.
