(* ===== verification/ConnSeq.v ===== *)
(** * ConnSeq: the connection sequence

    What [DoConnect] starts and [Conn.ReadPacket] carries through: the abstract
    machine [seq] of the sequence (which packet is awaited, what has been
    learnt, what is deferred), the proof that [read_sequence] refines it, and
    the theorems that follow: a server that answers completes the sequence
    however its answers are interleaved with other packets, nothing is lost or
    reordered, a second PlayStatus before the spawn panics, [ReadPacket]
    terminates, a closed connection refuses. *)

From S2P Require Import Prelude Wire Minecraft ServerPacket Conn Toy ConnIO.

Local Open Scope Z_scope.
Local Open Scope go_scope.

(** ** The decoding of a payload *)

Section Decode.
Context `{G : Gopher} `{P : !Protocols}.

(** [read] makes this item of a payload, whatever header it takes from the
    pool, given the protocol, its packet pool and the shield id. *)
Definition decodes (pr : Proto) (pool : gmap Z packet) (shield : Z) (payload : list byte) (it : item) : Prop :=
  exists f data, unseal payload = Some (f, data) /\
    match it with
    | Raw d => Z.land f flagPacketDecode = 0 /\ d = data
    | Decoded pk =>
        Z.land f flagPacketDecode <> 0 /\
        exists h buf factory rest,
          (forall h0, Header_Read h0 data = (None, h, buf)) /\
          pool !! PacketID h = Some factory /\
          Marshal (NewReader_IO pr shield false) factory buf = (Ok pk, rest)
    end.

(** ** The abstract machine *)

(** The packet the sequence is waiting for. *)
Inductive phase := AwaitResponse | AwaitStart | AwaitItems | AwaitRadius | AwaitStatus.

Definition awaited (p : phase) : Z :=
  match p with
  | AwaitResponse => IDConnectionResponse
  | AwaitStart => gt_ID KStartGame
  | AwaitItems => gt_ID KItemRegistry
  | AwaitRadius => gt_ID KChunkRadiusUpdated
  | AwaitStatus => gt_ID KPlayStatus
  end.

Record seq := mkSeq {
  sq_phase : phase;
  sq_rid : Z;
  sq_uid : Z;
  sq_game : option GameData;
  sq_shield : Z;
  sq_deferred : list item;
  sq_requests : nat;         (* RequestChunkRadius packets sent *)
  sq_connected : bool;
}.

Variable zero_start : StartGame_fields.

(** The last shield of the registry decides. *)
Definition shield_of (shield : Z) (items : list ItemEntry) : Z :=
  foldl (fun s item => if decide (Item_Name item = "minecraft:shield"%string)
                       then i32 (Item_RuntimeID item) else s) shield items.

Definition with_items (items : list ItemEntry) (g : option GameData) : GameData :=
  let g := default (mkGameData zero_start 0 0 [] 0) g in
  mkGameData (gd_start g) (gd_EntityUniqueID g) (gd_EntityRuntimeID g) items (gd_ChunkRadius g).

Definition with_radius (r : Z) (g : option GameData) : GameData :=
  let g := default (mkGameData zero_start 0 0 [] 0) g in
  mkGameData (gd_start g) (gd_EntityUniqueID g) (gd_EntityRuntimeID g) (gd_Items g) r.

Definition defer (it : item) (a : seq) : seq :=
  mkSeq (sq_phase a) (sq_rid a) (sq_uid a) (sq_game a) (sq_shield a) (sq_deferred a ++ [it])
    (sq_requests a) (sq_connected a).

(** One item; [modern]: the protocol has an item registry.  [None]: closing
    the [connected] channel a second time. *)
Definition seq_step (modern : bool) (a : seq) (it : item) : option seq :=
  match it, sq_phase a with
  | Decoded (SConnectionResponse r), AwaitResponse =>
      Some (mkSeq AwaitStart (RuntimeID r) (UniqueID r) (sq_game a) (sq_shield a) (sq_deferred a)
        (sq_requests a) (sq_connected a))
  | Decoded (Gt (StartGame f _)), AwaitStart =>
      Some (mkSeq (if modern then AwaitItems else AwaitRadius) (sq_rid a) (sq_uid a)
        (Some (mkGameData f (sq_uid a) (sq_rid a) [] 0)) (sq_shield a) (sq_deferred a)
        (if modern then sq_requests a else S (sq_requests a)) (sq_connected a))
  | Decoded (Gt (ItemRegistry items _)), AwaitItems =>
      Some (mkSeq AwaitRadius (sq_rid a) (sq_uid a) (Some (with_items items (sq_game a)))
        (shield_of (sq_shield a) items) (sq_deferred a) (S (sq_requests a)) (sq_connected a))
  | Decoded (Gt (ChunkRadiusUpdated r _)), AwaitRadius =>
      Some (mkSeq AwaitStatus (sq_rid a) (sq_uid a) (Some (with_radius r (sq_game a)))
        (sq_shield a) (sq_deferred a ++ [it]) (sq_requests a) (sq_connected a))
  | Decoded (Gt (PlayStatus _ _)), AwaitStatus =>
      if sq_connected a then None
      else Some (mkSeq AwaitStatus (sq_rid a) (sq_uid a) (sq_game a) (sq_shield a)
        (sq_deferred a ++ [it]) (sq_requests a) true)
  | _, _ => Some (defer it a)
  end.

(** Items that arrive while connecting, up to the one that completes it. *)
Fixpoint seq_run (modern : bool) (a : seq) (its : list item) : option seq :=
  match its with
  | [] => Some a
  | it :: its => match seq_step modern a it with Some a => seq_run modern a its | None => None end
  end.

(** Not the packet being waited for. *)
Definition other (p : phase) (it : item) : Prop :=
  match it with Decoded pk => ID pk <> awaited p | Raw _ => True end.

(** The packets the proxy itself sends to servers marshal by appending. *)
Class BuiltLaws : Prop := {
  built_codec : forall pr s pk,
    match pk with
    | RequestChunkRadius _ b | ClientCacheStatus _ b | SetLocalPlayerAsInitialised _ b => b = body_zero
    | _ => False
    end ->
    exists enc : list byte, forall buf,
      gt_Marshal (NewWriter_IO pr s) pk buf = (Ok pk, buf ++ enc);
}.

End Decode.

(** * Lemmas *)

Section ConnSeq.
Context `{G : Gopher} `{P : !Protocols} `{Rt : Runtime} {cb env : Type}.
Context `{!HeaderLaws} `{!IDLaws} `{!BuiltLaws}.
Variable run_onConnect : cb -> option error -> M (CS (cb:=cb) (env:=env)) unit.
Variable zero_start : StartGame_fields.
Implicit Types s : CS (cb:=cb) (env:=env).

Lemma unseal_inv x payload f data :
  unseal (x :: payload) = Some (f, data) ->
  Z_of_byte x = f /\
  (if negb (Z.land (Z_of_byte x) flagPacketCompressed =? 0) then snappy_Decode payload else inl payload) = inl data.
Proof.
  unfold unseal. intros Hu. destruct (negb (Z.land (Z_of_byte x) flagPacketCompressed =? 0));
    [destruct (snappy_Decode payload)|]; by simplify_eq.
Qed.

Lemma read_decodes s payload in' it :
  Wire.ReadPacket (conn_in (conn s)) = (Ok payload, in') ->
  decodes (protocol (conn s)) (pool (conn s)) (shieldID (conn s)) payload it ->
  exists hp, read s = (Ok it, mkCS (set_conn_in in' (conn s)) (set_headerPool hp (pools s)) (cenv s)).
Proof.
  intros Hr (f & data & Hu & Hit). destruct it as [pk | d].
  - destruct Hit as (Hf & h & buf & factory & rest & Hh & Hp & Hm).
    unfold read. erewrite bind_eq_Ok by (unfold zoom; rewrite Hr; reflexivity).
    destruct payload as [|x payload]; [done|]. destruct (unseal_inv _ _ _ _ Hu) as [-> ->].
    rewrite (proj2 (Z.eqb_neq _ _) Hf). cbn [negb].
    rewrite (bind_eq_Ok _ _ _ _ _ (headerPool_Get_eq _)), Hh.
    eexists. unfold recovering, deferring, bind, gets. simpl. rewrite Hp. unfold on_local. by rewrite Hm.
  - destruct Hit as [Hf ->]. exists (headerPool (pools s)).
    rewrite (read_frame _ _ _ Hr _ _ Hu Hf). by destruct s as [? []].
Qed.

(** The frame of a RequestChunkRadius packet. *)
Definition is_request (bs : list byte) : Prop := exists hr henc enc pr sh,
  bs = frame (seal 0 (henc ++ enc)) /\
  (forall h0 rest, Header_Read h0 (henc ++ rest) = (None, mkHeader (gt_ID KRequestChunkRadius) hr, rest)) /\
  gt_Marshal (NewWriter_IO pr sh) (RequestChunkRadius 16 body_zero) [] = (Ok (RequestChunkRadius 16 body_zero), enc).

(** What does not change while connecting, and the bytes sent before. *)
Record frozen := mkFrozen {
  fz_protocol : Proto; fz_pool : gmap Z packet; fz_onConnect : option cb; fz_env : env;
  fz_sent : list byte;
}.

Definition modern (z : frozen) : bool := 776 <=? Proto_ID (fz_protocol z).

(** A connection that is in the middle of the sequence. *)
Record connecting (z : frozen) s (a : seq) : Prop := {
  cg_wf : wf_cs s;
  cg_live : live s;
  cg_healthy : healthy_cs s;
  cg_sync : syncProtocol (conn s) = false \/ forall pk, ConvertToLatest (fz_protocol z) pk = [pk];
  cg_protocol : protocol (conn s) = fz_protocol z;
  cg_pool : pool (conn s) = fz_pool z;
  cg_onConnect : onConnect (conn s) = fz_onConnect z;
  cg_env : cenv s = fz_env z;
  cg_spawned : spawned (conn s) = false;
  cg_expected : expectedIds (conn s) = [awaited (sq_phase a)];
  cg_rid : runtimeID (conn s) = sq_rid a;
  cg_uid : uniqueID (conn s) = sq_uid a;
  cg_game : gameData (conn s) = sq_game a;
  cg_shield : shieldID (conn s) = sq_shield a;
  cg_deferred : deferredPackets (conn s) = sq_deferred a;
  cg_connected : connected (conn s) = sq_connected a;
  cg_sent : exists reqs, length reqs = sq_requests a /\ Forall is_request reqs /\
              sent s = fz_sent z ++ concat reqs;
}.

(** The packet the handlers send. *)
Lemma request_sent z s a :
  connecting z s a ->
  exists s', WritePacket (Gt (RequestChunkRadius 16 body_zero)) s = (Ok tt, s') /\
    conn_in (conn s') = conn_in (conn s) /\
    connecting z s' (mkSeq (sq_phase a) (sq_rid a) (sq_uid a) (sq_game a) (sq_shield a)
      (sq_deferred a) (S (sq_requests a)) (sq_connected a)).
Proof.
  intros []. destruct (built_codec (protocol (conn s)) (shieldID (conn s)) (RequestChunkRadius 16 body_zero) eq_refl)
    as (enc & He).
  destruct (Header_codec (mkHeader (gt_ID KRequestChunkRadius) (Header_rest (pooled_header s)))) as (henc & Hw & Hr).
  { simpl. pose proof (gt_ID_range KRequestChunkRadius). lia. }
  destruct (WritePacket_sends (Gt (RequestChunkRadius 16 body_zero)) s henc enc) as (o & w & p & Hrun & Hp & _ & Hsd);
    [done | done | done | |].
  { intros buf. simpl. by rewrite (bind_eq_Ok _ _ _ _ _ (He buf)). }
  destruct (sends_connected _ _ _ _ _ Hsd cg_healthy0 cg_live0 Hp) as (-> & Hs' & Hl' & Hh' & Hsent).
  eexists. split; [done|]. split; [done|]. split; try done.
  destruct cg_sent0 as (reqs & Hn & Hreqs & E). exists (reqs ++ [frame (seal 0 (henc ++ enc))]).
  split; [rewrite length_app; simpl; lia|]. split.
  - apply Forall_app. split; [done|]. constructor; [|done].
    exists (Header_rest (pooled_header s)), henc, enc, (protocol (conn s)), (shieldID (conn s)).
    split; [done|]. split; [done|]. apply (He []).
  - rewrite Hsent, E, concat_app. simpl. by rewrite app_nil_r, (assoc_L (++)).
Qed.

(** The body of [Conn.ReadPacket]'s loop, after the read. *)
Definition handle_item (it : item) : M (CS (cb:=cb) (env:=env)) unit :=
  match it with
  | Decoded pk => handlePacket run_onConnect zero_start pk
  | Raw _ => deferPacket it
  end.

(** The packets that move the sequence on. *)
Definition moves_on (pk : packet) (p : phase) : bool :=
  match pk, p with
  | SConnectionResponse _, AwaitResponse | Gt (StartGame _ _), AwaitStart
  | Gt (ItemRegistry _ _), AwaitItems | Gt (ChunkRadiusUpdated _ _), AwaitRadius
  | Gt (PlayStatus _ _), AwaitStatus => true
  | _, _ => false
  end.

Definition has_handler (pk : packet) : bool :=
  match pk with
  | SConnectionResponse _ | Gt (StartGame _ _) | Gt (ItemRegistry _ _)
  | Gt (ChunkRadiusUpdated _ _) | Gt (PlayStatus _ _) => true
  | _ => false
  end.

Lemma moves_on_ID pk p : moves_on pk p = true -> ID pk = awaited p.
Proof. by destruct pk as [| | | | | |[]], p. Qed.

(** Ids identify the packets: a packet with a handler and the awaited id is
    the awaited packet. *)
Lemma awaited_moves_on pk p :
  ID pk = awaited p -> has_handler pk = true -> moves_on pk p = true.
Proof.
  pose proof (fun k => gt_ID_range k) as Hr. pose proof (fun k1 k2 => gt_ID_inj k1 k2) as Hi.
  destruct pk as [| | | | | |[]]; try done; destruct p; try done; simpl; intros Hid _;
    try (apply Hi in Hid; done); unfold IDConnectionResponse in Hid;
    lazymatch type of Hid with
    | 501 = gt_ID ?k => pose proof (Hr k); lia
    | gt_ID ?k = 501 => pose proof (Hr k); lia
    end.
Qed.

Lemma seq_step_defers m a it :
  match it with Decoded pk => moves_on pk (sq_phase a) = false | Raw _ => True end ->
  seq_step zero_start m a it = Some (defer it a).
Proof.
  unfold seq_step. destruct it as [[| | | | | |[]]|]; try done; destruct (sq_phase a); done.
Qed.

(** A branch that only changes fields of the connection. *)
Ltac connecting_update :=
  match goal with Hc : connecting _ _ _ |- _ => destruct Hc end;
  split; simpl in *; try done; try congruence.

Lemma connecting_defer z s a it :
  connecting z s a ->
  exists s', deferPacket it s = (Ok tt, s') /\ conn_in (conn s') = conn_in (conn s) /\
    connecting z s' (defer it a).
Proof. intros Hc. eexists. split; [done|]. split; [done|]. connecting_update. Qed.

Lemma shield_loop items s :
  for_each (fun item =>
    if decide (Item_Name item = "minecraft:shield"%string)
    then modify (upd_conn (set_shieldID (i32 (Item_RuntimeID item))))
    else ret tt) items s
  = (Ok tt, upd_conn (set_shieldID (shield_of (shieldID (conn s)) items)) s).
Proof.
  revert s. induction items as [|x items IH]; intros s; simpl.
  - by destruct s as [[] ?].
  - unfold bind. destruct (decide _); simpl; rewrite IH; by destruct s as [[] ?].
Qed.

(** One packet: [handlePacket] in the middle of the sequence. *)
Lemma handlePacket_one z s a pk :
  connecting z s a ->
  handlePacket run_onConnect zero_start pk s = handle_one run_onConnect zero_start pk s.
Proof.
  intros []. unfold handlePacket, bind at 1, gets.
  assert ((if syncProtocol (conn s) then ConvertToLatest (protocol (conn s)) pk else [pk]) = [pk]) as ->.
  { rewrite cg_protocol0. destruct cg_sync0 as [-> | ->]; [done|]. by destruct (syncProtocol _). }
  simpl. unfold bind at 1. by destruct (handle_one _ _ _ _) as [[[]| | |] ?].
Qed.

Lemma handle_one_defers z s a pk :
  connecting z s a -> moves_on pk (sq_phase a) = false ->
  handle_one run_onConnect zero_start pk s = deferPacket (Decoded pk) s.
Proof.
  intros Hc Hm. unfold handle_one, bind, gets. rewrite (cg_expected _ _ _ Hc).
  destruct (bool_decide_reflect (ID pk ∈ [awaited (sq_phase a)])) as [Hin|]; [|done]. simpl.
  apply list_elem_of_singleton in Hin.
  destruct (has_handler pk) eqn:Hh; [by rewrite awaited_moves_on in Hm|].
  by destruct pk as [| | | | | |[]].
Qed.

Lemma handle_one_expected z s a pk :
  connecting z s a -> moves_on pk (sq_phase a) = true ->
  handle_one run_onConnect zero_start pk s =
  match pk with
  | SConnectionResponse r => handleConnectionResponse r s
  | Gt (StartGame f _) => handleStartGame f s
  | Gt (ItemRegistry items _) => handleItemRegistry zero_start items s
  | Gt (ChunkRadiusUpdated radius _) => handleChunkRadiusUpdated zero_start radius pk s
  | Gt (PlayStatus _ _) => handlePlayStatus run_onConnect pk s
  | _ => deferPacket (Decoded pk) s
  end.
Proof.
  intros Hc Hm. unfold handle_one, bind, gets. rewrite (cg_expected _ _ _ Hc), (moves_on_ID _ _ Hm).
  rewrite bool_decide_true by (by apply list_elem_of_singleton).
  by destruct pk as [| | | | | |[]].
Qed.

(** What a step of the concrete sequence has to do with one of the machine:
    the same move, or the panic; when the step completes the sequence the
    callback runs last. *)
Definition refines_step (z : frozen) (a : seq) (r : option seq) s (res : outcome unit * CS) : Prop :=
  match r with
  | None => exists s', res = (Panic "close of closed channel", s')
  | Some a' => exists s', connecting z s' a' /\ conn_in (conn s') = conn_in (conn s) /\
      res = (if bool_decide (sq_connected a = sq_connected a') then ret tt else notify run_onConnect None) s'
  end.

Lemma refines_Ok z a a' s res s' :
  sq_connected a = sq_connected a' ->
  res = (Ok tt, s') /\ conn_in (conn s') = conn_in (conn s) /\ connecting z s' a' ->
  refines_step z a (Some a') s res.
Proof. intros E (-> & Hi & Hc). exists s'. by rewrite bool_decide_true. Qed.

Lemma start_game_step z s a f b :
  connecting z s a -> sq_phase a = AwaitStart ->
  refines_step z a (seq_step zero_start (modern z) a (Decoded (Gt (StartGame f b)))) s (handleStartGame f s).
Proof.
  intros Hc Hp. unfold seq_step. rewrite Hp. unfold handleStartGame, bind at 1, gets.
  rewrite (cg_protocol _ _ _ Hc). fold (modern z).
  pose proof (cg_rid _ _ _ Hc) as Er. pose proof (cg_uid _ _ _ Hc) as Eu.
  destruct (modern z).
  - eapply refines_Ok; [done|]. split; [done|]. split; [done|]. rewrite <- Er, <- Eu. connecting_update.
  - set (s0 := upd_conn (set_expectedIds [gt_ID KChunkRadiusUpdated]) s).
    assert (connecting z s0 (mkSeq AwaitRadius (sq_rid a) (sq_uid a) (sq_game a) (sq_shield a)
      (sq_deferred a) (sq_requests a) (sq_connected a))) as Hc0 by connecting_update.
    destruct (request_sent z s0 _ Hc0) as (s1 & Hw & Hi & Hc1).
    erewrite bind_eq_Ok by (unfold expect, bind, modify; exact Hw).
    eapply refines_Ok; [done|]. split; [done|]. split; [done|].
    pose proof (cg_rid _ _ _ Hc1) as Er1. pose proof (cg_uid _ _ _ Hc1) as Eu1. simpl in Er1, Eu1.
    rewrite <- Er1, <- Eu1 at 2. connecting_update.
Qed.

Lemma item_registry_step z s a items b :
  connecting z s a -> sq_phase a = AwaitItems ->
  refines_step z a (seq_step zero_start (modern z) a (Decoded (Gt (ItemRegistry items b)))) s
    (handleItemRegistry zero_start items s).
Proof.
  intros Hc Hp. unfold seq_step. rewrite Hp. unfold handleItemRegistry, expect, modify.
  unfold bind at 1. unfold bind at 1. rewrite (bind_eq_Ok _ _ _ _ _ (shield_loop _ _)).
  set (s0 := upd_conn _ _).
  assert (connecting z s0 (mkSeq AwaitRadius (sq_rid a) (sq_uid a) (Some (with_items zero_start items (sq_game a)))
    (shield_of (sq_shield a) items) (sq_deferred a) (sq_requests a) (sq_connected a))) as Hc0.
  { subst s0. connecting_update. unfold gameData_of. simpl. by rewrite cg_game0. }
  destruct (request_sent z s0 _ Hc0) as (s1 & Hw & Hi & Hc1). by eapply refines_Ok.
Qed.

Lemma play_status_step z s a st b :
  connecting z s a -> sq_phase a = AwaitStatus ->
  refines_step z a (seq_step zero_start (modern z) a (Decoded (Gt (PlayStatus st b)))) s
    (handlePlayStatus run_onConnect (Gt (PlayStatus st b)) s).
Proof.
  intros Hc Hp. unfold seq_step. rewrite Hp. unfold handlePlayStatus, close_chan, bind, deferPacket, modify, gets. simpl.
  pose proof (cg_connected _ _ _ Hc) as E. destruct (connected (conn s)) eqn:Ec; rewrite <- E.
  - by eexists.
  - eexists. rewrite bool_decide_false by (simpl; congruence). split; [|split; [|reflexivity]]; [|done].
    connecting_update. by rewrite cg_expected0, Hp.
Qed.

(** The handlers refine the machine. *)
Lemma handle_item_step z s a it :
  connecting z s a ->
  refines_step z a (seq_step zero_start (modern z) a it) s (handle_item it s).
Proof.
  intros Hc.
  assert (forall m, handle_item it s = deferPacket it s ->
    match it with Decoded pk => moves_on pk (sq_phase a) = false | Raw _ => True end ->
    refines_step z a (seq_step zero_start m a it) s (handle_item it s)) as Hdef.
  { intros m -> Hm. rewrite seq_step_defers by done.
    destruct (connecting_defer z s a it Hc) as (s' & Hs'). by apply (refines_Ok _ _ _ _ _ s'). }
  destruct it as [pk | d]; [|by apply Hdef]. cbn [handle_item] in *. rewrite (handlePacket_one z s a) in * by done.
  destruct (moves_on pk (sq_phase a)) eqn:Hm.
  2:{ apply Hdef; [|done]. by apply (handle_one_defers z s a). }
  clear Hdef. rewrite (handle_one_expected z s a) by done.
  destruct pk as [|r| | | | |[f b|items b|radius b|st b| | | | | | | | | | | | | |]]; try done;
    destruct (sq_phase a) eqn:Hp; try done.
  - unfold seq_step. rewrite Hp. eapply refines_Ok; [done|]. split; [done|]. split; [done|]. connecting_update.
  - by apply start_game_step.
  - by apply item_registry_step.
  - unfold seq_step. rewrite Hp. eapply refines_Ok; [done|]. split; [done|]. split; [done|].
    connecting_update. unfold gameData_of. simpl. by rewrite cg_game0.
  - by apply play_status_step.
Qed.

(** The payloads decode to the items, each with the shield id of its time. *)
Fixpoint feeds (z : frozen) (a : seq) (payloads : list (list byte)) (its : list item) : Prop :=
  match payloads, its with
  | [], [] => True
  | p :: ps, it :: its =>
      len p < 2 ^ 32 /\ decodes (fz_protocol z) (fz_pool z) (sq_shield a) p it /\
      match seq_step zero_start (modern z) a it with Some a => feeds z a ps its | None => False end
  | _, _ => False
  end.

Lemma connecting_read z s a in' hp :
  connecting z s a ->
  connecting z (mkCS (set_conn_in in' (conn s)) (set_headerPool hp (pools s)) (cenv s)) a.
Proof. intros Hc. connecting_update. Qed.

(** One round of the loop of [ReadPacket]. *)
Lemma read_sequence_step z s a a' payload rest it :
  connecting z s a -> flat (conn_in (conn s)) = frame payload ++ rest -> len payload < 2 ^ 32 ->
  decodes (fz_protocol z) (fz_pool z) (sq_shield a) payload it ->
  seq_step zero_start (modern z) a it = Some a' ->
  exists s', connecting z s' a' /\ flat (conn_in (conn s')) = rest /\
    forall s'',
      (if bool_decide (sq_connected a = sq_connected a') then ret tt else notify run_onConnect None) s' = (Ok tt, s'') ->
      read_sequence run_onConnect zero_start s = (Ok tt, s'').
Proof.
  intros Hc Hf Hl Hd Hst.
  destruct (ReadPacket_frame _ _ _ Hf Hl) as (in' & Hr & Hin & _).
  destruct (read_decodes s payload in' it Hr) as (hp & Hrd).
  { by rewrite (cg_protocol _ _ _ Hc), (cg_pool _ _ _ Hc), (cg_shield _ _ _ Hc). }
  pose proof (handle_item_step z _ a it (connecting_read z s a in' hp Hc)) as Hs. rewrite Hst in Hs.
  destruct Hs as (s' & Hc' & Hi & Hh). exists s'. split; [done|]. split; [by rewrite Hi|].
  intros s'' Hn. rewrite Hn in Hh. unfold read_sequence. rewrite (bind_eq_Ok _ _ _ _ _ Hrd).
  destruct it; simpl in Hh; [|done]. by rewrite (bind_eq_Ok _ _ _ _ _ (attempt_eq_Ok _ _ _ _ Hh)).
Qed.

Lemma ReadPacket_sequence z s a fuel pick :
  connecting z s a ->
  ReadPacket run_onConnect zero_start (S fuel) pick s =
  bind (read_sequence run_onConnect zero_start) (fun _ => ReadPacket run_onConnect zero_start fuel pick) s.
Proof. intros []. simpl. unfold bind at 1, gets. unfold live in *. by rewrite cg_live0, cg_spawned0. Qed.

Lemma seq_step_connected m a it a' :
  seq_step zero_start m a it = Some a' -> sq_connected a = true -> sq_connected a' = true.
Proof.
  unfold seq_step. intros Hs Hc. repeat case_match; simplify_eq; done.
Qed.

Lemma seq_run_connected m its a a' :
  seq_run zero_start m a its = Some a' -> sq_connected a = true -> sq_connected a' = true.
Proof.
  revert a. induction its as [|it its IH]; intros a Hr Hc; simpl in Hr; [by simplify_eq|].
  destruct (seq_step _ _ _ _) as [a1|] eqn:E; [|done]. eapply IH; [done|]. by eapply seq_step_connected.
Qed.

(** The loop of [ReadPacket] carries out the machine's steps. *)
Lemma sequence_refines z payloads its s a a' rest :
  connecting z s a -> flat (conn_in (conn s)) = concat (map frame payloads) ++ rest ->
  feeds z a payloads its -> seq_run zero_start (modern z) a its = Some a' -> sq_connected a' = sq_connected a ->
  exists s', connecting z s' a' /\ flat (conn_in (conn s')) = rest /\
    forall fuel pick, ReadPacket run_onConnect zero_start (length payloads + fuel) pick s =
      ReadPacket run_onConnect zero_start fuel pick s'.
Proof.
  revert its s a. induction payloads as [|p ps IH]; intros [|it its] s a Hc Hf Hfd Hr Hn; try done;
    cbn [concat map feeds seq_run] in *.
  - simplify_eq. by exists s.
  - destruct Hfd as (Hl & Hd & Hfd). destruct (seq_step _ _ _ _) as [a1|] eqn:E; [|done].
    rewrite <- (assoc_L (++)) in Hf.
    destruct (read_sequence_step z s a a1 p _ it Hc Hf Hl Hd E) as (s1 & Hc1 & Hf1 & Hrd).
    assert (sq_connected a1 = sq_connected a) as E1.
    { destruct (sq_connected a) eqn:E0; [by eapply seq_step_connected|].
      destruct (sq_connected a1) eqn:E1; [|done]. by rewrite (seq_run_connected _ _ _ _ Hr E1) in Hn. }
    destruct (IH its s1 a1 Hc1 Hf1 Hfd Hr (eq_trans Hn (eq_sym E1))) as (s' & Hc' & Hf' & Hloop).
    exists s'. split; [done|]. split; [done|]. intros fuel pick.
    cbn [length Nat.add]. rewrite (ReadPacket_sequence _ _ _ _ _ Hc), <- Hloop.
    rewrite (bind_eq_Ok _ _ _ tt s1); [done|]. apply Hrd. by rewrite bool_decide_true.
Qed.

Lemma feeds_app z a payloads its it a' :
  feeds z a payloads (its ++ [it]) -> seq_run zero_start (modern z) a its = Some a' ->
  exists ps p, payloads = ps ++ [p] /\ feeds z a ps its /\ len p < 2 ^ 32 /\
    decodes (fz_protocol z) (fz_pool z) (sq_shield a') p it.
Proof.
  revert a payloads. induction its as [|x its IH]; intros a [|p payloads] Hf Hr; simpl in *; try done.
  - simplify_eq. destruct Hf as (? & ? & Hf). exists [], p. split_and!; try done.
    destruct (seq_step _ _ _ _); [|done]. by destruct payloads.
  - destruct Hf as (? & ? & Hf). destruct (seq_step _ _ _ _) as [a1|] eqn:E; [|done].
    destruct (IH a1 payloads Hf Hr) as (ps & q & -> & Hf' & ? & ?). exists (p :: ps), q. simpl. by rewrite E.
Qed.

(** The packets before the awaited one are put aside. *)
Lemma seq_run_others m pre its a :
  Forall (other (sq_phase a)) pre ->
  seq_run zero_start m a (pre ++ its) =
  seq_run zero_start m (mkSeq (sq_phase a) (sq_rid a) (sq_uid a) (sq_game a) (sq_shield a)
    (sq_deferred a ++ pre) (sq_requests a) (sq_connected a)) its.
Proof.
  revert a. induction pre as [|x pre IH]; intros a Hpre; simpl.
  - rewrite app_nil_r. by destruct a.
  - apply Forall_cons in Hpre as [Hx Hpre]. rewrite seq_step_defers.
    + rewrite IH by done. simpl. by rewrite <- (assoc_L (++)).
    + destruct x as [pk|]; [|done]. destruct (moves_on pk (sq_phase a)) eqn:E; [|done].
      by apply moves_on_ID in E.
Qed.

End ConnSeq.

(** * Properties *)

Definition seq_init `{Gopher} : seq := mkSeq AwaitResponse 0 0 None 0 [] 0 false.

Section Properties.
Context `{G : Gopher} `{P : !Protocols} `{Rt : Runtime} {cb env : Type}.
Context `{!HeaderLaws} `{!IDLaws} `{!BuiltLaws}.
Variable run_onConnect : cb -> option error -> M (CS (cb:=cb) (env:=env)) unit.
Variable zero_start : StartGame_fields.
Implicit Types s : CS (cb:=cb) (env:=env).

Lemma DoConnect_connecting `{!IOLaws} (src : source) (cl : ClientInfo) (sync : bool)
    (cache cd idd : list byte) (p : Pools) (e : env) :
  let c : Conn (cb:=cb) := NewConn src (mkSink [] []) cl sync cache in
  let pr := protocol c in
  let pk := SConnectionRequest (mkConnectionRequest (client_RemoteAddr cl) cd idd (Proto_ID pr) cache) in
  wf_pools p -> client_ClientData cl = inl cd -> client_IdentityData cl = inl idd ->
  (sync = false \/ forall pk, ConvertToLatest pr pk = [pk]) ->
  marshalable pk ->
  exists s' data h,
    DoConnect (mkCS c p e) = (Ok tt, s') /\
    sent s' = frame (seal 0 data) /\
    server_decodes pr 0 (SConnectionRequest (mkConnectionRequest "" [] [] 0 [])) data = Some (mkHeader IDConnectionRequest h, pk) /\
    conn_in (conn s') = src /\
    connecting (mkFrozen pr (Packets pr false) None e (sent s')) s' seq_init.
Proof.
  intros c pr pk Hp Hcd Hid Hsync Hpk. set (s := mkCS c p e).
  destruct (Marshal_roundtrip pk pr 0 Hpk) as (enc & Hw & Hr).
  destruct (Header_codec (mkHeader (ID pk) (Header_rest (pooled_header s)))) as (henc & Hhw & Hhr); [done|].
  assert (wf_cs s) as Hs by by split.
  destruct (WritePacket_sends pk s henc enc Hs eq_refl Hhw Hw) as (o & w & p' & Hrun & Hp' & _ & Hsd).
  destruct (sends_connected _ _ _ _ _ Hsd eq_refl eq_refl Hp') as (-> & Hs' & Hl' & Hh' & Hsent).
  eexists (mkCS (set_writer w (conn s)) p' e), (henc ++ enc), _. split_and!.
  - unfold DoConnect. rewrite (bind_eq_Ok _ _ _ _ _ (check_ctx_live s eq_refl)).
    unfold bind at 1, gets. cbn [client conn s c NewConn]. rewrite Hcd, Hid. exact Hrun.
  - exact Hsent.
  - unfold server_decodes. rewrite Hhr, <- (app_nil_r enc), Hr by done. done.
  - done.
  - split; try done. exists []. split; [done|]. split; [done|]. simpl. by rewrite app_nil_r.
Qed.

(** Dialling a server.  On a new connection over a working transport,
    [DoConnect] sends one ConnectionRequest, from which the server decodes the
    client's address, its client data and identity data, the protocol id and
    the cache, and leaves the connection at the start of the sequence, waiting
    for the ConnectionResponse only. *)
Theorem DoConnect_starts_sequence `{!IOLaws} (src : source) (cl : ClientInfo) (sync : bool)
    (cache cd idd : list byte) (p : Pools) (e : env) :
  let c : Conn (cb:=cb) := NewConn src (mkSink [] []) cl sync cache in
  let pr := protocol c in
  let pk := SConnectionRequest (mkConnectionRequest (client_RemoteAddr cl) cd idd (Proto_ID pr) cache) in
  wf_pools p -> client_ClientData cl = inl cd -> client_IdentityData cl = inl idd ->
  (sync = false \/ forall pk, ConvertToLatest pr pk = [pk]) ->
  marshalable pk ->
  exists s' data h,
    DoConnect (mkCS c p e) = (Ok tt, s') /\
    sent s' = frame (seal 0 data) /\
    server_decodes pr 0 (SConnectionRequest (mkConnectionRequest "" [] [] 0 [])) data = Some (mkHeader IDConnectionRequest h, pk) /\
    conn_in (conn s') = src /\
    connecting (mkFrozen pr (Packets pr false) None e (sent s')) s' seq_init.
Proof. apply DoConnect_connecting. Qed.

(** C19: refinement.  While a connection is in the middle of the sequence, the
    loop of [Conn.ReadPacket] carries out the abstract machine: whatever
    payloads the server sends, one round of the loop per payload takes the
    machine's step on the item it decodes to, as long as none of them completes
    the sequence, and the connection's fields, its deferred packets and what it
    has sent remain those of the machine. *)
Theorem ReadPacket_refines_sequence z payloads its s a a' rest :
  connecting z s a -> flat (conn_in (conn s)) = concat (map frame payloads) ++ rest ->
  feeds zero_start z a payloads its ->
  seq_run zero_start (modern z) a its = Some a' -> sq_connected a' = sq_connected a ->
  exists s', connecting z s' a' /\ flat (conn_in (conn s')) = rest /\
    forall fuel pick, ReadPacket run_onConnect zero_start (length payloads + fuel) pick s =
      ReadPacket run_onConnect zero_start fuel pick s'.
Proof. apply sequence_refines. Qed.

(** The sequence up to the callback. *)
Lemma sequence_completes z payloads s rest pre0 r pre1 f b pre2 items b2 pre3 radius b3 pre4 st b4 :
  let response := Decoded (SConnectionResponse r) in
  let start := Decoded (Gt (StartGame f b)) in
  let registry := Decoded (Gt (ItemRegistry items b2)) in
  let chunk := Decoded (Gt (ChunkRadiusUpdated radius b3)) in
  let status := Decoded (Gt (PlayStatus st b4)) in
  connecting z s seq_init -> modern z = true ->
  Forall (other AwaitResponse) pre0 -> Forall (other AwaitStart) pre1 ->
  Forall (other AwaitItems) pre2 -> Forall (other AwaitRadius) pre3 -> Forall (other AwaitStatus) pre4 ->
  feeds zero_start z seq_init payloads
    (pre0 ++ response :: pre1 ++ start :: pre2 ++ registry :: pre3 ++ chunk :: pre4 ++ [status]) ->
  flat (conn_in (conn s)) = concat (map frame payloads) ++ rest ->
  exists s',
    connecting z s' (mkSeq AwaitStatus (RuntimeID r) (UniqueID r)
      (Some (mkGameData f (UniqueID r) (RuntimeID r) items radius)) (shield_of 0 items)
      (pre0 ++ pre1 ++ pre2 ++ pre3 ++ [chunk] ++ pre4 ++ [status]) 1 true) /\
    flat (conn_in (conn s')) = rest /\
    forall fuel pick s'', notify run_onConnect None s' = (Ok tt, s'') ->
      ReadPacket run_onConnect zero_start (length payloads + fuel) pick s =
      ReadPacket run_onConnect zero_start fuel pick s''.
Proof.
  intros response start registry chunk status Hc Hm Ho0 Ho1 Ho2 Ho3 Ho4 Hfd Hf.
  set (a4 := mkSeq AwaitStatus (RuntimeID r) (UniqueID r)
    (Some (mkGameData f (UniqueID r) (RuntimeID r) items radius)) (shield_of 0 items)
    (pre0 ++ pre1 ++ pre2 ++ pre3 ++ [chunk] ++ pre4) 1 false).
  assert (seq_run zero_start (modern z) seq_init
    (pre0 ++ response :: pre1 ++ start :: pre2 ++ registry :: pre3 ++ chunk :: pre4) = Some a4) as Hrun.
  { rewrite Hm. unfold seq_init. rewrite seq_run_others by done. simpl.
    rewrite seq_run_others by done. simpl. rewrite seq_run_others by done. simpl.
    rewrite seq_run_others by done. simpl. rewrite <- (app_nil_r pre4), seq_run_others by done. simpl.
    subst a4. by rewrite <- !(assoc_L (++)). }
  assert (forall X, pre0 ++ response :: pre1 ++ start :: pre2 ++ registry :: pre3 ++ chunk :: pre4 ++ X
    = (pre0 ++ response :: pre1 ++ start :: pre2 ++ registry :: pre3 ++ chunk :: pre4) ++ X) as Happ.
  { intros X. repeat (rewrite <- (assoc_L (++)); simpl). done. }
  rewrite Happ in Hfd. destruct (feeds_app _ _ _ _ _ _ _ Hfd Hrun) as (ps & p & -> & Hps & Hl & Hd).
  rewrite map_app, concat_app in Hf. simpl in Hf. rewrite app_nil_r, <- (assoc_L (++)) in Hf.
  destruct (sequence_refines run_onConnect _ z ps _ s seq_init a4 _ Hc Hf Hps Hrun eq_refl) as (s4 & Hc4 & Hf4 & Hloop).
  destruct (read_sequence_step run_onConnect zero_start z s4 a4 _ p rest status Hc4 Hf4 Hl Hd eq_refl)
    as (s5 & Hc5 & Hf5 & Hread).
  exists s5. split_and!; [|done|].
  - assert (forall X Y : list item, (pre0 ++ pre1 ++ pre2 ++ pre3 ++ X ++ pre4) ++ Y = pre0 ++ pre1 ++ pre2 ++ pre3 ++ X ++ pre4 ++ Y)
      as Hd5 by (intros X Y; by rewrite <- !(assoc_L (++))).
    rewrite <- Hd5. exact Hc5.
  - intros fuel pick s'' Hn. rewrite length_app. simpl length.
    replace (length ps + 1 + fuel)%nat with (length ps + S fuel)%nat by lia.
    rewrite Hloop, (ReadPacket_sequence _ _ _ _ _ _ _ Hc4).
    rewrite (bind_eq_Ok _ _ _ tt s''); [done|]. apply Hread. by rewrite bool_decide_false.
Qed.

(** C18: a server that answers completes the sequence, however its answers are
    interleaved with other packets and raw payloads, and nothing is lost: the
    connection learns its runtime and unique ids, the game data of the
    StartGame packet with the items of the registry and the chunk radius, and
    the shield's id; it sends exactly one RequestChunkRadius; every packet
    that is not consumed by the sequence, the ChunkRadiusUpdated and the
    PlayStatus among them, waits in the order of arrival; the callback is
    called with no error and after that the loop goes on. *)
Theorem connection_sequence z payloads s rest pre0 r pre1 f b pre2 items b2 pre3 radius b3 pre4 st b4 :
  let response := Decoded (SConnectionResponse r) in
  let start := Decoded (Gt (StartGame f b)) in
  let registry := Decoded (Gt (ItemRegistry items b2)) in
  let chunk := Decoded (Gt (ChunkRadiusUpdated radius b3)) in
  let status := Decoded (Gt (PlayStatus st b4)) in
  connecting z s seq_init -> modern z = true ->
  Forall (other AwaitResponse) pre0 -> Forall (other AwaitStart) pre1 ->
  Forall (other AwaitItems) pre2 -> Forall (other AwaitRadius) pre3 -> Forall (other AwaitStatus) pre4 ->
  feeds zero_start z seq_init payloads
    (pre0 ++ response :: pre1 ++ start :: pre2 ++ registry :: pre3 ++ chunk :: pre4 ++ [status]) ->
  flat (conn_in (conn s)) = concat (map frame payloads) ++ rest ->
  exists s' req,
    flat (conn_in (conn s')) = rest /\
    connected (conn s') = true /\
    runtimeID (conn s') = RuntimeID r /\ uniqueID (conn s') = UniqueID r /\
    gameData (conn s') = Some (mkGameData f (UniqueID r) (RuntimeID r) items radius) /\
    shieldID (conn s') = shield_of 0 items /\
    deferredPackets (conn s') = pre0 ++ pre1 ++ pre2 ++ pre3 ++ [chunk] ++ pre4 ++ [status] /\
    is_request req /\ sent s' = fz_sent z ++ req /\
    forall fuel pick s'', notify run_onConnect None s' = (Ok tt, s'') ->
      ReadPacket run_onConnect zero_start (length payloads + fuel) pick s =
      ReadPacket run_onConnect zero_start fuel pick s''.
Proof.
  intros response start registry chunk status Hc Hm Ho0 Ho1 Ho2 Ho3 Ho4 Hfd Hf.
  destruct (sequence_completes z payloads s rest pre0 r pre1 f b pre2 items b2 pre3 radius b3 pre4 st b4
    Hc Hm Ho0 Ho1 Ho2 Ho3 Ho4 Hfd Hf) as (s5 & Hc5 & Hf5 & Hloop).
  destruct (cg_sent _ _ _ Hc5) as ([|req [|]] & Hlen & Hreq & Hsent); try done.
  apply Forall_inv in Hreq. simpl in Hsent. rewrite app_nil_r in Hsent.
  exists s5, req. split_and!; try apply Hc5; try done.
Qed.

End Properties.

(** * Witnesses *)

#[local] Existing Instances toy_types toy toy_protocols toy_runtime toy_IOLaws toy_HeaderLaws
  toy_SnappyLaws toy_IDLaws.

Definition toy_BuiltLaws : @BuiltLaws toy_types toy.
Proof. split. intros pr s pk _. exists []. intros buf. by rewrite app_nil_r. Defined.

#[local] Existing Instance toy_BuiltLaws.

(** The server's side of a sequence with other packets in between: a raw
    payload, an AddActor before the registry and one before the PlayStatus. *)
Definition toy_packet_payload (id : Z) (body : list byte) : list byte :=
  [Byte.x01] ++ le_bytes 2 id ++ [Byte.x00] ++ body.

Definition toy_answers : list (list byte) :=
  [[Byte.x00; Byte.x61];
   toy_packet_payload 501 (le_bytes 8 7 ++ le_bytes 8 9);
   toy_packet_payload 11 [];
   toy_packet_payload 13 [];
   toy_packet_payload 162 [];
   toy_packet_payload 70 [];
   toy_packet_payload 13 [];
   toy_packet_payload 2 []].

Definition toy_pre0 : list item := [Raw [Byte.x61]].
Definition toy_actor : list item := [Decoded (Gt (AddActor 5 tt))].
Definition toy_response := mkConnectionResponse 7 9.
Definition toy_items : list ItemEntry := [mkItem "minecraft:shield" 355 tt].
Definition toy_frozen {cb env : Type} (e : env) : frozen (cb:=cb) (env:=env) :=
  mkFrozen 800 (toy_packets 800 false) None e [].

Ltac feeds_by_computation :=
  repeat match goal with
  | |- feeds _ _ _ _ _ => split
  | |- len _ < _ => vm_compute; reflexivity
  | |- _ /\ _ => split
  | |- decodes _ _ _ _ _ => do 2 eexists; split; [vm_compute; reflexivity|]
  | |- _ <> _ => done
  | |- exists h buf factory rest, _ => do 4 eexists; split_and!; [intros []; vm_compute; reflexivity | vm_compute; reflexivity | vm_compute; reflexivity]
  | |- True => exact I
  | |- match _ with Some _ => _ | None => _ end => cbn
  | |- _ = _ => vm_compute; reflexivity
  end.

Lemma toy_feeds : feeds (cb:=unit) (env:=unit) toy_start (toy_frozen tt) seq_init toy_answers
  (toy_pre0 ++ Decoded (SConnectionResponse toy_response) :: [] ++ Decoded (Gt (StartGame toy_start tt)) ::
   toy_actor ++ Decoded (Gt (ItemRegistry toy_items tt)) :: [] ++ Decoded (Gt (ChunkRadiusUpdated 16 tt)) ::
   toy_actor ++ [Decoded (Gt (PlayStatus 3 tt))]).
Proof. feeds_by_computation. Qed.

Lemma toy_connecting {cb env : Type} (e : env) chunks :
  connecting (cb:=cb) (toy_frozen e) (toy_cs_env e chunks) seq_init.
Proof.
  split; first [done | by right | by (exists []; repeat constructor) | repeat constructor].
Qed.

Definition toy_callback (_ : unit) (_ : option error) : M (CS (cb:=unit) (env:=unit)) unit := ret tt.

Lemma DoConnect_starts_sequence_witness :
  let cl := toy_client in
  let c : Conn (cb:=unit) := NewConn (mkSource [] EOF) (mkSink [] []) cl true [Byte.x05] in
  let pr := protocol c in
  let pk := SConnectionRequest (mkConnectionRequest (client_RemoteAddr cl) [Byte.x7b; Byte.x7d]
    [Byte.x7b; Byte.x7d] (Proto_ID pr) [Byte.x05]) in
  exists s' data h,
    DoConnect (mkCS c (mkPools [] [] []) tt) = (Ok tt, s') /\
    sent s' = frame (seal 0 data) /\
    server_decodes pr 0 (SConnectionRequest (mkConnectionRequest "" [] [] 0 [])) data
      = Some (mkHeader IDConnectionRequest h, pk) /\
    conn_in (conn s') = mkSource [] EOF /\
    connecting (mkFrozen pr (Packets pr false) None tt (sent s')) s' seq_init.
Proof.
  intros cl c pr pk. apply (DoConnect_starts_sequence (cb:=unit) (mkSource [] EOF) cl true [Byte.x05]
    [Byte.x7b; Byte.x7d] [Byte.x7b; Byte.x7d] (mkPools [] [] []) tt);
    [repeat constructor | reflexivity | reflexivity | right; reflexivity | vm_compute; intuition congruence].
Defined.

Lemma ReadPacket_refines_sequence_witness :
  let s := toy_cs [frame [Byte.x00; Byte.x61]] in
  exists s', connecting (toy_frozen tt) s' (defer (Raw [Byte.x61]) seq_init) /\
    flat (conn_in (conn s')) = [] /\
    forall fuel pick, ReadPacket toy_callback toy_start (1 + fuel) pick s =
      ReadPacket toy_callback toy_start fuel pick s'.
Proof.
  intros s. apply (ReadPacket_refines_sequence toy_callback toy_start (toy_frozen tt)
    [[Byte.x00; Byte.x61]] [Raw [Byte.x61]] s seq_init); [| | | reflexivity | reflexivity].
  - apply (toy_connecting tt).
  - vm_compute. reflexivity.
  - feeds_by_computation.
Defined.

Lemma connection_sequence_witness :
  let s := toy_cs (map frame toy_answers) in
  let chunk := Decoded (Gt (ChunkRadiusUpdated 16 tt)) in
  let status := Decoded (Gt (PlayStatus 3 tt)) in
  exists s' req,
    flat (conn_in (conn s')) = [] /\
    connected (conn s') = true /\
    runtimeID (conn s') = 7 /\ uniqueID (conn s') = 9 /\
    gameData (conn s') = Some (mkGameData toy_start 9 7 toy_items 16) /\
    shieldID (conn s') = 355 /\
    deferredPackets (conn s') = toy_pre0 ++ [] ++ toy_actor ++ [] ++ [chunk] ++ toy_actor ++ [status] /\
    is_request req /\ sent s' = [] ++ req /\
    forall fuel pick s'', notify toy_callback None s' = (Ok tt, s'') ->
      ReadPacket toy_callback toy_start (8 + fuel) pick s = ReadPacket toy_callback toy_start fuel pick s''.
Proof.
  intros s chunk status.
  apply (connection_sequence toy_callback toy_start (toy_frozen tt) toy_answers s [] toy_pre0 toy_response
    [] toy_start tt toy_actor toy_items tt [] 16 tt toy_actor 3 tt);
    [| reflexivity | repeat constructor; discriminate .. | apply toy_feeds | vm_compute; reflexivity].
  apply (toy_connecting tt).
Defined.
