(* ===== verification/ConnLife.v ===== *)
(** * ConnLife: termination, closing, and what concurrent callers see

    The life of a [Conn] around the sequence of [ConnSeq]: [ReadPacket]
    terminates, deferred packets come out in order, a second PlayStatus before
    the spawn panics, a closed connection refuses, and the callback of
    [OnConnect] under all interleavings of the goroutine that reads with one
    that closes. *)

From S2P Require Import Prelude Wire Minecraft ServerPacket Conn Toy ConnIO ConnSeq.

Local Open Scope Z_scope.
Local Open Scope go_scope.

(** ** Operations that stay within the recursion bound *)

Definition halts {S A} (m : M S A) : Prop := forall s, (m s).1 <> NoFuel.

Section halts.
Context {S : Type}.

Lemma halts_ret {A} (a : A) : halts (S:=S) (ret a).
Proof. done. Qed.

Lemma halts_fail {A} e : halts (S:=S) (fail (A:=A) e).
Proof. done. Qed.

Lemma halts_panic {A} w : halts (S:=S) (panic (A:=A) w).
Proof. done. Qed.

Lemma halts_gets {A} (f : S -> A) : halts (gets f).
Proof. done. Qed.

Lemma halts_modify (f : S -> S) : halts (modify f).
Proof. done. Qed.

Lemma halts_bind {A B} (m : M S A) (k : A -> M S B) :
  halts m -> (forall a, halts (k a)) -> halts (bind m k).
Proof.
  intros Hm Hk s. unfold bind. specialize (Hm s).
  destruct (m s) as [[] s']; simpl in *; try done. apply Hk.
Qed.

Lemma halts_attempt {A} (m : M S A) : halts m -> halts (attempt m).
Proof. intros Hm s. unfold attempt. specialize (Hm s). by destruct (m s) as [[] s']. Qed.

Lemma halts_recovering {A} h (m : M S A) : halts m -> halts (recovering h m).
Proof. intros Hm s. unfold recovering. specialize (Hm s). by destruct (m s) as [[] s']. Qed.

Lemma halts_deferring {A} f (m : M S A) : halts m -> halts (deferring f m).
Proof. intros Hm s. unfold deferring. specialize (Hm s). by destruct (m s) as [[] s']. Qed.

Lemma halts_zoom {T A} (get : S -> T) put (m : M T A) : halts m -> halts (zoom get put m).
Proof. intros Hm s. unfold zoom. specialize (Hm (get s)). by destruct (m (get s)) as [[] s']. Qed.

Lemma halts_on_local {T A} (m : M T A) t : (m t).1 <> NoFuel -> halts (S:=S) (on_local m t).
Proof. intros Hm s. unfold on_local. by destruct (m t) as [[] ?]. Qed.

Lemma halts_for_each {A} (f : A -> M S unit) xs : (forall x, halts (f x)) -> halts (for_each f xs).
Proof. intros Hf. induction xs as [|x xs IH]; [apply halts_ret | by apply halts_bind]. Qed.

End halts.

#[export] Hint Resolve halts_ret halts_fail halts_panic halts_gets halts_modify : go.

(** Follow the code. *)
Ltac go_halts :=
  repeat (intros;
    first [ solve [eauto with go]
    | lazymatch goal with
      | |- halts (bind _ _) => apply halts_bind
      | |- halts (attempt _) => apply halts_attempt
      | |- halts (recovering _ _) => apply halts_recovering
      | |- halts (deferring _ _) => apply halts_deferring
      | |- halts (on_local _ _) => apply halts_on_local
      | |- halts (for_each _ _) => apply halts_for_each
      | |- halts (match ?o with _ => _ end) => destruct o
      end ]).

(** Follow the code; updates that do not touch what the relation is about are
    closed by computation. *)
Ltac conn_moves tac :=
  go_moves; try (apply moves_zoom; intros ? ?); try (intros ?; tac); try tac;
  try (intros ?; case_match; go_moves; intros ?; tac).

(** The library functions are total: they return, fail or panic. *)
Class TotalLibrary `{Gopher} : Prop := {
  Marshal_halts : forall io pk buf, (Marshal io pk buf).1 <> NoFuel;
  Header_Write_halts : forall h buf, (Header_Write h buf).1 <> NoFuel;
}.

Section ConnLife.
Context `{G : Gopher} `{P : !Protocols} `{Rt : Runtime} {cb env : Type}.
Variable run_onConnect : cb -> option error -> M (CS (cb:=cb) (env:=env)) unit.
Variable zero_start : StartGame_fields.
Implicit Types s : CS (cb:=cb) (env:=env).

(** ** Termination *)

(** Bytes still to be read. *)
Definition unread s : nat := length (flat (conn_in (conn s))).

(** The unread bytes do not grow. *)
Definition no_more : relation CS := fun s s' => (unread s' <= unread s)%nat.

#[export] Instance no_more_preorder : PreOrder no_more.
Proof. split; unfold no_more; intros ?; lia. Qed.

Lemma lift_halts {A} (o : outcome A) : o <> NoFuel -> halts (S:=Writer) (lift_outcome o).
Proof. intros Ho s. exact Ho. Qed.

Lemma WriteWithFlags_halts f d : halts (Wire.WriteWithFlags f d).
Proof.
  assert (forall p, halts (w_Write p)) as Hw.
  { intros p. apply halts_zoom. intros k. unfold sink_Write. by destruct (sk_faults k) as [|[[]|]]. }
  unfold Wire.WriteWithFlags. go_halts.
  - apply lift_halts. unfold PutUint32_BE. by case_match.
  - apply lift_halts. unfold set_index. by case_match.
Qed.

Lemma write_flags_halts f d : halts (write_flags (cb:=cb) (env:=env) f d).
Proof. apply halts_zoom, WriteWithFlags_halts. Qed.

Lemma WritePacket_halts `{!TotalLibrary} pk : halts (WritePacket (cb:=cb) (env:=env) pk).
Proof.
  unfold WritePacket, check_ctx, bufferPool_Get, headerPool_Get.
  assert (forall A (n : A), halts (pool_Get n)) as Hp by (intros A n [|]; done).
  pose proof write_flags_halts.
  go_halts; try (by apply halts_zoom); [apply Header_Write_halts | apply Marshal_halts].
Qed.

(** The writing methods leave the input alone. *)
Ltac same_input := solve [unfold no_more, unread; simpl; reflexivity].

Lemma write_flags_no_more f d : moves no_more (write_flags (cb:=cb) (env:=env) f d).
Proof. apply moves_zoom; intros; same_input. Qed.

Lemma WritePacket_no_more pk : moves no_more (WritePacket (cb:=cb) (env:=env) pk).
Proof.
  unfold WritePacket, check_ctx, bufferPool_Get, headerPool_Get.
  pose proof write_flags_no_more. conn_moves same_input.
Qed.

(** A successful [read] takes at least the header of a frame. *)
Lemma read_consumes s it s' : read s = (Ok it, s') -> (unread s' < unread s)%nat.
Proof.
  unfold read. intros Hr. apply bind_Ok_inv in Hr as (payload & s1 & Hz & Hr).
  unfold zoom in Hz. destruct (Wire.ReadPacket _) as [o in'] eqn:E. simplify_eq.
  apply ReadPacket_consumes in E as [E _].
  assert (no_more (upd_conn (set_conn_in in') s) s') as Hle.
  2:{ unfold no_more, unread in *. simpl in *. lia. }
  eapply moves_run; [|exact Hr].
  unfold headerPool_Get. destruct payload as [|f payload]; [go_moves|]. conn_moves same_input.
Qed.

(** A relation between states that looks at neither the pools, nor what is
    written, nor the fields the handlers of the sequence assign. *)
Record blind (R : relation CS) : Prop := {
  blind_preorder : PreOrder R;
  blind_pools : forall f s, R s (upd_pools f s);
  blind_writer : forall w s, R s (upd_conn (set_writer w) s);
  blind_expected : forall ids s, R s (upd_conn (set_expectedIds ids) s);
  blind_ids : forall r u s, R s (upd_conn (set_ids r u) s);
  blind_game : forall g s, R s (upd_conn (fun c => set_gameData (g c) c) s);
  blind_shield : forall i s, R s (upd_conn (set_shieldID i) s);
  blind_deferred : forall d s, R s (upd_conn (fun c => set_deferred (d c) c) s);
}.

Lemma blind_WritePacket R pk : blind R -> moves R (WritePacket (cb:=cb) (env:=env) pk).
Proof.
  intros []. unfold WritePacket, check_ctx, bufferPool_Get, headerPool_Get, write_flags.
  conn_moves ltac:(solve [auto]).
Qed.

(** The handlers move along such a relation when closing [connected] and
    calling back does. *)
Lemma blind_handlePacket R pk :
  blind R -> moves R (close_chan connected set_connected ;;; notify run_onConnect None) ->
  moves R (handlePacket run_onConnect zero_start pk).
Proof.
  intros HR Hn. pose proof (fun pk => blind_WritePacket R pk HR) as Hw. destruct HR.
  assert (forall it, moves R (deferPacket (cb:=cb) (env:=env) it)) as Hd by (intros it; by apply moves_modify).
  assert (forall ids, moves R (expect (cb:=cb) (env:=env) ids)) as He by (intros ids; by apply moves_modify).
  unfold handlePacket, handle_one, handleConnectionResponse, handleStartGame, handleItemRegistry,
    handleChunkRadiusUpdated, handlePlayStatus, set_Items, set_ChunkRadius.
  conn_moves ltac:(solve [auto]).
Qed.

Lemma no_more_blind : blind no_more.
Proof. split; [apply _ | unfold no_more, unread; simpl; reflexivity ..]. Qed.

Lemma read_halts `{!TotalLibrary} : halts (read (cb:=cb) (env:=env)).
Proof.
  unfold read, headerPool_Get. apply halts_bind.
  { apply halts_zoom. intros i. pose proof (ReadPacket_returns i). by destruct (Wire.ReadPacket i) as [[] ?]. }
  intros [|f payload]; [done|]. destruct (if negb _ then snappy_Decode payload else _) as [d|]; [|done].
  go_halts; [apply halts_zoom; by intros [|] | apply Marshal_halts].
Qed.

Lemma handlePacket_halts `{!TotalLibrary} pk :
  (forall fn e, halts (run_onConnect fn e)) -> halts (handlePacket run_onConnect zero_start pk).
Proof.
  intros Hcb. pose proof WritePacket_halts as Hw.
  assert (forall it, halts (deferPacket (cb:=cb) (env:=env) it)) as Hd by done.
  assert (forall ids, halts (expect (cb:=cb) (env:=env) ids)) as He by done.
  unfold handlePacket, handle_one, handleConnectionResponse, handleStartGame, handleItemRegistry,
    handleChunkRadiusUpdated, handlePlayStatus, close_chan, notify. go_halts.
Qed.

(** The recursion bound: one round of the loop for each frame that can still
    arrive. *)
Lemma ReadPacket_halts `{!TotalLibrary} fuel pick s :
  (forall fn e, halts (run_onConnect fn e)) -> (forall fn e, moves no_more (run_onConnect fn e)) ->
  (unread s < fuel)%nat -> (ReadPacket run_onConnect zero_start fuel pick s).1 <> NoFuel.
Proof.
  intros Hh Hm. revert s. induction fuel as [|fuel IH]; intros s Hf; [lia|].
  simpl. unfold bind at 1, gets.
  assert (halts (read_spawned (cb:=cb) (env:=env))) as Hs.
  { pose proof read_halts. unfold read_spawned. go_halts. }
  destruct (ctx (conn s)), (spawned (conn s)); [by destruct pick | done | apply Hs |].
  assert (halts (read_sequence run_onConnect zero_start)) as Hq.
  { pose proof read_halts. pose proof (fun pk => handlePacket_halts pk Hh). unfold read_sequence. go_halts. }
  specialize (Hq s). unfold bind at 1. destruct (read_sequence _ _ s) as [o s'] eqn:E. simpl in Hq.
  destruct o as [[]| | |]; try done. apply IH.
  unfold read_sequence in E. apply bind_Ok_inv in E as (it & s1 & Hr & Hi). apply read_consumes in Hr.
  assert (no_more s1 s') as Hle; [|unfold no_more in Hle; lia].
  eapply moves_run; [|exact Hi]. destruct it as [pk|d].
  - apply moves_bind; [apply _ | apply moves_attempt, blind_handlePacket; [apply no_more_blind|] | go_moves].
    unfold close_chan, notify. conn_moves same_input.
  - unfold deferPacket. conn_moves same_input.
Qed.

End ConnLife.

(** ** Interleavings

    A goroutine in [Conn.ReadPacket], one in [CloseWithError], and any number
    that spawn or write.  The callback only records what it is told; the rest
    of the proxy is that record.  A step of the reader is its [select], a
    [read] or the handling of an item; the steps of the closer are those of
    the body of [once.Do]. *)

Section Concurrent.
Context `{G : Gopher} `{P : !Protocols} `{Rt : Runtime}.
Variable zero_start : StartGame_fields.

Abbreviation log := (list (option error)).
Abbreviation CSL := (CS (cb:=unit) (env:=log)).

Definition record (_ : unit) (e : option error) : M CSL unit :=
  modify (fun s => mkCS (conn s) (pools s) (cenv s ++ [e])).

Inductive closer :=
  | CIdle
  | CEntered (err : error)
  | CChecked (err : error) (was_connected : bool)
  | CNotified (err : error)
  | CCancelled
  | CDone.

Inductive reader := RIdle | RReading | RGot (it : item) | RCrashed.

(** Where the reader goes with the outcome of a [read] or of a handler. *)
Definition after_read (o : outcome item) : reader :=
  match o with Ok it => RGot it | Panic _ => RCrashed | _ => RIdle end.
Definition after_handling {A} (o : outcome A) : reader :=
  match o with Panic _ => RCrashed | _ => RIdle end.

Definition world : Type := CSL * closer * reader.

Inductive step : world -> world -> Prop :=
  | close_enter s r err :
      once (conn s) = false ->
      step (s, CIdle, r) (upd_conn (set_once true) s, CEntered err, r)
  | close_check s r err :
      step (s, CEntered err, r) (s, CChecked err (connected (conn s)), r)
  | close_notify s r err b :
      step (s, CChecked err b, r)
        (if negb b then (notify record (Some err) s).2 else s, CNotified err, r)
  | close_cancel s r err :
      step (s, CNotified err, r)
        (upd_conn (fun c => set_ctx (match ctx c with None => Some err | s => s end) c) s, CCancelled, r)
  | close_conn s r :
      step (s, CCancelled, r) (upd_conn (set_conn_closed true) s, CDone, r)
  | read_select s c :
      ctx (conn s) = None -> spawned (conn s) = false ->
      step (s, c, RIdle) (s, c, RReading)
  | read_read s s' c o :
      read s = (o, s') -> step (s, c, RReading) (s', c, after_read o)
  | read_handle s s' c it o :
      handle_item record zero_start it s = (o, s') ->
      step (s, c, RGot it) (s', c, after_handling o)
  | read_spawned_step s s' c o :
      spawned (conn s) = true -> read_spawned s = (o, s') ->
      step (s, c, RIdle) (s', c, after_handling o)
  | spawn s s' c r o :
      DoSpawn s = (o, s') -> step (s, c, r) (s', c, r)
  | write s s' c r pk o :
      WritePacket pk s = (o, s') -> step (s, c, r) (s', c, r).

(** The steps of the closer, without interleaving, are [CloseWithError]. *)
Lemma close_steps s r err :
  once (conn s) = false ->
  rtc step (s, CIdle, r) ((CloseWithError record err s).2, CDone, r).
Proof.
  intros Ho. eapply rtc_l; [by apply (close_enter _ _ err)|]. eapply rtc_l; [apply close_check|].
  eapply rtc_l; [apply close_notify|]. eapply rtc_l; [apply close_cancel|].
  eapply rtc_l; [apply close_conn|].
  unfold CloseWithError, notify, record, bind, gets, modify. destruct s as [[] pl e]; simpl in *. subst.
  destruct connected, onConnect; reflexivity.
Qed.

(** The steps of the reader, without interleaving, are a round of the loop of
    [Conn.ReadPacket]. *)
Lemma read_steps s s' c :
  ctx (conn s) = None -> spawned (conn s) = false ->
  read_sequence record zero_start s = (Ok tt, s') ->
  rtc step (s, c, RIdle) (s', c, RIdle).
Proof.
  intros Hx Hs Hr. unfold read_sequence in Hr. apply bind_Ok_inv in Hr as (it & s1 & Hr & Hh).
  eapply rtc_l; [by apply read_select|]. eapply rtc_l; [by eapply read_read|]. simpl.
  apply (rtc_once _). assert (handle_item record zero_start it s1 = (Ok tt, s')) as Hi; [|by eapply read_handle in Hi].
  destruct it as [pk|d]; [|done]. simpl. unfold bind, attempt in Hh.
  by destruct (handlePacket _ _ _ _) as [[[]| | |] ?]; simplify_eq.
Qed.

Definition successes (l : log) : nat := length (filter (fun e => e = None) l).
Definition failures (l : log) : nat := length (filter (fun e => e <> None) l).

Lemma successes_app l k : successes (l ++ k) = (successes l + successes k)%nat.
Proof. unfold successes. by rewrite filter_app, length_app. Qed.

Lemma failures_app l k : failures (l ++ k) = (failures l + failures k)%nat.
Proof. unfold failures. by rewrite filter_app, length_app. Qed.

(** What the reader and the writers may do to what the callback is told: close
    [connected] once and report the success with it. *)
Definition reports : relation CSL := fun s s' =>
  onConnect (conn s') = onConnect (conn s) /\
  ((connected (conn s') = connected (conn s) /\ cenv s' = cenv s) \/
   (connected (conn s) = false /\ connected (conn s') = true /\
    cenv s' = cenv s ++ match onConnect (conn s) with Some _ => [None] | None => [] end)).

#[export] Instance reports_preorder : PreOrder reports.
Proof.
  split; [intros s; by split; [|left] |].
  intros s1 s2 s3 [E1 Hx1] [E2 Hx2]. split; [congruence|]. rewrite E1 in Hx2.
  destruct Hx1 as [[C1 L1]|(C1 & C1' & L1)], Hx2 as [[C2 L2]|(C2 & C2' & L2)];
    [left; split; congruence | right; split_and!; congruence ..].
Qed.

Lemma reports_blind : blind reports.
Proof. split; [apply _ | intros; by split; [|left] ..]. Qed.

Lemma reports_same f s :
  onConnect (conn (f s)) = onConnect (conn s) -> connected (conn (f s)) = connected (conn s) ->
  cenv (f s) = cenv s -> reports s (f s).
Proof. intros. split; [done|]. by left. Qed.

Lemma handle_item_reports it : moves reports (handle_item record zero_start it).
Proof.
  destruct it as [pk|d]; [apply blind_handlePacket; [apply reports_blind|] |];
    [|intros s; by split; [|left]].
  intros s. unfold close_chan, notify, bind, gets, modify, reports, record.
  destruct (connected (conn s)) eqn:E; simpl; [rewrite E; auto|].
  destruct (onConnect (conn s)) eqn:Eo; simpl; rewrite ?app_nil_r; auto 10.
Qed.

Lemma read_reports : moves reports (read (cb:=unit) (env:=log)).
Proof.
  unfold read, headerPool_Get. conn_moves ltac:(solve [by apply reports_same]).
Qed.

Lemma write_flags_reports f d : moves reports (write_flags (cb:=unit) (env:=log) f d).
Proof. apply moves_zoom. intros s w. by apply reports_same. Qed.

Lemma DoSpawn_reports : moves reports (DoSpawn (cb:=unit) (env:=log)).
Proof.
  pose proof (fun pk => blind_WritePacket reports pk reports_blind).
  unfold DoSpawn, check_ctx, close_chan. conn_moves ltac:(solve [by apply reports_same]).
Qed.

Lemma read_spawned_reports : moves reports (read_spawned (cb:=unit) (env:=log)).
Proof.
  pose proof read_reports. unfold read_spawned. conn_moves ltac:(solve [by apply reports_same]).
Qed.

(** What holds in every reachable world. *)
Definition told (w : world) : Prop :=
  let '(s, c, _) := w in
  onConnect (conn s) = Some tt /\
  successes (cenv s) = (if connected (conn s) then 1 else 0)%nat /\
  match c with
  | CIdle | CEntered _ => failures (cenv s) = 0%nat
  | CChecked _ b => failures (cenv s) = 0%nat /\ (b = true -> connected (conn s) = true)
  | _ => (failures (cenv s) <= 1)%nat
  end.

Lemma told_reports s s' c r r' : reports s s' -> told (s, c, r) -> told (s', c, r').
Proof.
  intros [Eo Hr] (Ho & Hs & Hf). split; [congruence|].
  destruct Hr as [[Ec El]|(Ec & Ec' & El)]; rewrite El.
  - rewrite Ec. done.
  - rewrite Ho, Ec', successes_app, failures_app, Hs, Ec. split; [done|].
    change (failures [None]) with 0%nat. rewrite Nat.add_0_r. destruct c; first [exact Hf | split; [apply Hf | done]].
Qed.

Lemma told_step w w' : step w w' -> told w -> told w'.
Proof.
  intros Hst Ht. destruct Hst as [s r err _|s r err|s r err b|s r err|s r|s c _ _|s s' c o E
    |s s' c it o E|s s' c o _ E|s s' c r o E|s s' c r pk o E];
    try (eapply told_reports; [|exact Ht]; eapply moves_run; [|exact E]);
    try (apply handle_item_reports || apply read_reports || apply read_spawned_reports
         || apply DoSpawn_reports || (apply blind_WritePacket, reports_blind)); try exact Ht;
    destruct Ht as (Ho & Hs & Hf); try done.
  destruct Hf as [Hf _]. destruct b; simpl; [split_and!; try done; lia|].
  unfold notify, bind, gets, record, modify. rewrite Ho. simpl.
  split; [done|]. rewrite successes_app, failures_app, Hs, Hf. simpl. split; [|done]. apply Nat.add_0_r.
Qed.

End Concurrent.

(** * Properties *)

Section Properties.
Context `{G : Gopher} `{P : !Protocols} `{Rt : Runtime} {cb env : Type}.
Variable run_onConnect : cb -> option error -> M (CS (cb:=cb) (env:=env)) unit.
Variable zero_start : StartGame_fields.
Implicit Types s : CS (cb:=cb) (env:=env).

(** C35: [Conn.ReadPacket] terminates: with a callback that returns and does
    not produce input, one more round of the recursion than there are unread
    bytes is enough for it to return a packet, return an error or panic, in
    every state of the connection. *)
Theorem ReadPacket_terminates `{!TotalLibrary} pick s fuel :
  (forall fn e, halts (run_onConnect fn e)) -> (forall fn e, moves no_more (run_onConnect fn e)) ->
  (length (flat (conn_in (conn s))) < fuel)%nat ->
  (ReadPacket run_onConnect zero_start fuel pick s).1 <> NoFuel.
Proof. intros. by apply ReadPacket_halts. Qed.

(** [n] calls of [ReadPacket] in a row. *)
Fixpoint read_many (n fuel : nat) (pick : bool) : M CS (list item) :=
  match n with
  | O => ret []
  | S n =>
      let! it := ReadPacket run_onConnect zero_start fuel pick in
      let! its := read_many n fuel pick in
      ret (it :: its)
  end.

(** Once [spawned] is closed on an open connection, the deferred packets
    come out of [ReadPacket] one per call, all of them and in the order of
    their arrival, before anything more is read from the server; after that
    every call is a [read]. *)
Theorem deferred_in_order s fuel pick :
  live s -> spawned (conn s) = true ->
  let s' := upd_conn (set_deferred []) s in
  read_many (length (deferredPackets (conn s))) (S fuel) pick s = (Ok (deferredPackets (conn s)), s') /\
  ReadPacket run_onConnect zero_start (S fuel) pick s' = read s'.
Proof.
  intros Hl Hs s'. split.
  - subst s'. remember (deferredPackets (conn s)) as d eqn:Hd. symmetry in Hd. revert s Hl Hs Hd.
    induction d as [|it d IH]; intros s Hl Hs Hd; cbn [length read_many].
    { unfold ret, upd_conn. destruct s as [[] ? ?]. simpl in Hd. by rewrite Hd. }
    rewrite (bind_eq_Ok _ _ _ it (upd_conn (set_deferred d) s)).
    + by rewrite (bind_eq_Ok _ _ _ _ _ (IH (upd_conn (set_deferred d) s) Hl Hs eq_refl)).
    + simpl. unfold bind at 1, gets. rewrite Hl, Hs. unfold read_spawned, bind, gets. by rewrite Hd.
  - simpl. unfold bind, gets. subst s'. simpl. unfold live in Hl. by rewrite Hl, Hs.
Qed.

Lemma WaitConnect_closed (c : Conn (cb:=cb)) ctx' cause o : ctx c = Some cause ->
  WaitConnect c ctx' o <->
  o = Err cause \/ (exists e, ctx' = Some e /\ o = Err e) \/ connected c = true /\ o = Ok tt.
Proof.
  intros Hc. split.
  - intros [e He|e He|Hd]; [left; congruence | right; left; eauto | by right; right].
  - intros [->|[(e & He & ->)|[Hd ->]]]; by constructor.
Qed.

(** [Write] uses nothing of the connection but its writer. *)
Lemma Write_any_context p x s :
  let f := upd_conn (fun c => set_conn_closed true (set_ctx x c)) in
  Write p (f s) = ((Write p s).1, f (Write p s).2).
Proof.
  intros f. assert (forall flags d, write_flags flags d (f s) = ((write_flags flags d s).1, f (write_flags flags d s).2)) as Hw.
  { intros flags d. unfold write_flags, zoom. simpl. by destruct (WriteWithFlags _ _ _). }
  unfold Write, bind, attempt. destruct (_ <? _); rewrite Hw; by destruct (write_flags _ _ s) as [[] ?].
Qed.

(** C29: closing.  A first [CloseWithError] runs the callback exactly when the
    sequence has not completed, then cancels the context with the error,
    unless it was cancelled before, and closes the transport.  After that
    writing a packet or a batch, connecting, spawning and, if the connection
    had not spawned, reading return that cause and change nothing, and closing
    again does nothing.  The other operations do not refuse.  Reading a
    connection that had spawned takes either case of its [select]: it returns
    the cause, or else the next deferred packet, or what a read of the
    transport gives.  [WaitConnect] returns, with that cause, that of its own
    context or, if the sequence had completed, success.  [Write] does not look
    at the context: it hands the transport what it would have handed it
    before. *)
Theorem close_refuses (err : error) s s1 :
  once (conn s) = false ->
  (if connected (conn s) then ret tt else notify run_onConnect (Some err)) (upd_conn (set_once true) s) = (Ok tt, s1) ->
  once (conn s1) = true ->
  let cause := default err (ctx (conn s1)) in
  let s2 := upd_conn (fun c => set_conn_closed true (set_ctx (Some cause) c)) s1 in
  CloseWithError run_onConnect err s = (Ok tt, s2) /\
  (forall pk, WritePacket pk s2 = (Err cause, s2)) /\
  (forall payloads, WriteBatch payloads s2 = (Err cause, s2)) /\
  DoConnect s2 = (Err cause, s2) /\ DoSpawn s2 = (Err cause, s2) /\
  (spawned (conn s2) = false -> forall fuel pick, ReadPacket run_onConnect zero_start (S fuel) pick s2 = (Err cause, s2)) /\
  (forall err', CloseWithError run_onConnect err' s2 = (Ok tt, s2)) /\
  (spawned (conn s2) = true -> forall fuel,
    ReadPacket run_onConnect zero_start (S fuel) true s2 = (Err cause, s2) /\
    ReadPacket run_onConnect zero_start (S fuel) false s2 =
      match deferredPackets (conn s2) with
      | pk :: rest => (Ok pk, upd_conn (set_deferred rest) s2)
      | [] => read s2
      end) /\
  (forall ctx' o, WaitConnect (conn s2) ctx' o <->
    o = Err cause \/ (exists e, ctx' = Some e /\ o = Err e) \/ connected (conn s2) = true /\ o = Ok tt) /\
  (forall p, Write p s2 = ((Write p s1).1, upd_conn (fun c => set_conn_closed true (set_ctx (Some cause) c)) (Write p s1).2)).
Proof.
  intros Ho Hn Ho1 cause s2. assert (check_ctx s2 = (Err cause, s2)) as Hc by by apply check_ctx_done.
  split_and!; try (intros; by apply bind_eq_Err).
  - unfold CloseWithError. unfold bind at 1, gets. rewrite Ho.
    unfold bind at 1. simpl. unfold bind at 1.
    assert ((if negb (connected (conn s)) then notify run_onConnect (Some err) else ret tt)
      (upd_conn (set_once true) s) = (Ok tt, s1)) as -> by (by destruct (connected (conn s))).
    unfold bind, modify, upd_conn. simpl. do 2 f_equal. subst s2 cause. unfold upd_conn. f_equal.
    by destruct (ctx (conn s1)).
  - intros Hs fuel pick. simpl. unfold bind, gets. simpl in *. by rewrite Hs.
  - intros err'. unfold CloseWithError, bind, gets. simpl. by rewrite Ho1.
  - intros Hs fuel. simpl. unfold bind, gets. simpl in *. rewrite Hs. split; [done|].
    unfold read_spawned, bind, gets. simpl. by destruct (deferredPackets (conn s1)).
  - intros ctx' o. apply WaitConnect_closed. reflexivity.
  - intros p. apply Write_any_context.
Qed.

End Properties.

Section SequenceProperties.
Context `{G : Gopher} `{P : !Protocols} `{Rt : Runtime} {cb env : Type}.
Context `{!HeaderLaws} `{!IDLaws} `{!BuiltLaws}.
Variable run_onConnect : cb -> option error -> M (CS (cb:=cb) (env:=env)) unit.
Variable zero_start : StartGame_fields.
Implicit Types s : CS (cb:=cb) (env:=env).

Lemma seq_run_app m its1 its2 a :
  seq_run zero_start m a (its1 ++ its2) =
  match seq_run zero_start m a its1 with Some a => seq_run zero_start m a its2 | None => None end.
Proof. revert a. induction its1 as [|it its1 IH]; intros a; simpl; [done|]. by destruct (seq_step _ _ _ _). Qed.

(** The proxy can be crashed by its server.  Without a callback, as during
    a login, the connection goes on reading until [DoSpawn]; a second
    PlayStatus that arrives before it, after any other packets, closes the
    closed channel [connected]: [ReadPacket] panics, outside any [recover]. *)
Theorem second_play_status_panics z s a payload payload2 rest st b st2 b2 :
  connecting z s a -> sq_phase a = AwaitStatus -> sq_connected a = false -> fz_onConnect z = None ->
  flat (conn_in (conn s)) = frame payload ++ frame payload2 ++ rest ->
  len payload < 2 ^ 32 -> len payload2 < 2 ^ 32 ->
  decodes (fz_protocol z) (fz_pool z) (sq_shield a) payload (Decoded (Gt (PlayStatus st b))) ->
  decodes (fz_protocol z) (fz_pool z) (sq_shield a) payload2 (Decoded (Gt (PlayStatus st2 b2))) ->
  forall fuel pick, exists s',
    ReadPacket run_onConnect zero_start (2 + fuel) pick s = (Panic "close of closed channel", s').
Proof.
  intros Hc Hp Hn Hcb Hf Hl1 Hl2 Hd1 Hd2 fuel pick.
  set (a1 := mkSeq AwaitStatus (sq_rid a) (sq_uid a) (sq_game a) (sq_shield a)
    (sq_deferred a ++ [Decoded (Gt (PlayStatus st b))]) (sq_requests a) true).
  destruct (read_sequence_step run_onConnect zero_start z s a a1 _ _ _ Hc Hf Hl1 Hd1) as (s1 & Hc1 & Hf1 & Hr1).
  { unfold seq_step. by rewrite Hp, Hn. }
  destruct (ReadPacket_frame _ _ _ Hf1 Hl2) as (in' & Hr & _).
  destruct (read_decodes s1 payload2 in' (Decoded (Gt (PlayStatus st2 b2))) Hr) as (hp & Hrd).
  { by rewrite (cg_protocol _ _ _ Hc1), (cg_pool _ _ _ Hc1), (cg_shield _ _ _ Hc1). }
  pose proof (handle_item_step run_onConnect zero_start z _ a1 (Decoded (Gt (PlayStatus st2 b2)))
    (connecting_read z s1 a1 in' hp Hc1)) as (s' & Hs').
  exists s'. cbn [Nat.add]. rewrite (ReadPacket_sequence _ _ _ _ _ _ _ Hc).
  rewrite (bind_eq_Ok _ _ _ tt s1).
  - rewrite (ReadPacket_sequence _ _ _ _ _ _ _ Hc1). apply bind_eq_Panic.
    unfold read_sequence. rewrite (bind_eq_Ok _ _ _ _ _ Hrd). apply bind_eq_Panic. unfold attempt.
    simpl in Hs'. by rewrite Hs'.
  - apply Hr1. rewrite bool_decide_false by (simpl; congruence).
    unfold notify, bind, gets. by rewrite (cg_onConnect _ _ _ Hc1), Hcb.
Qed.

(** What the payloads decode to depends on the protocol and its packets. *)
Lemma feeds_frozen (z z1 : frozen (cb:=cb) (env:=env)) a payloads its :
  fz_protocol z1 = fz_protocol z -> fz_pool z1 = fz_pool z ->
  feeds zero_start z a payloads its -> feeds zero_start z1 a payloads its.
Proof.
  intros E1 E2. assert (modern z1 = modern z) as Em by (unfold modern; by rewrite E1).
  revert its a. induction payloads as [|p ps IH]; intros [|it its] a; simpl; try done.
  intros (? & ? & Hx). rewrite E1, E2, Em. split_and!; [done | done |].
  destruct (seq_step _ _ _ _); [by apply IH | done].
Qed.

(** C39: a callback that is registered late is lost.  [TransferContext] calls
    [OnConnect] after [DoConnect]: when the reading goroutine has completed the
    sequence by then, the callback is never called, whatever the server sends
    short of another PlayStatus; the connection stays unspawned and defers
    everything. *)
Theorem late_callback_never_told z s a fn payloads its rest :
  connecting z s a -> sq_phase a = AwaitStatus -> sq_connected a = true ->
  flat (conn_in (conn s)) = concat (map frame payloads) ++ rest ->
  feeds zero_start z a payloads its -> Forall (other AwaitStatus) its ->
  exists s1 s', OnConnect fn s = (Ok tt, s1) /\
    flat (conn_in (conn s')) = rest /\
    onConnect (conn s') = Some fn /\ spawned (conn s') = false /\ cenv s' = cenv s /\
    deferredPackets (conn s') = deferredPackets (conn s) ++ its /\
    forall fuel pick, ReadPacket run_onConnect zero_start (length payloads + fuel) pick s1 =
      ReadPacket run_onConnect zero_start fuel pick s'.
Proof.
  intros Hc Hp Hcd Hf Hfd Ho. set (s1 := upd_conn (set_onConnect (Some fn)) s).
  set (z1 := mkFrozen (fz_protocol z) (fz_pool z) (Some fn) (fz_env z) (fz_sent z)).
  assert (connecting z1 s1 a) as Hc1 by (destruct Hc; by split).
  set (a' := mkSeq (sq_phase a) (sq_rid a) (sq_uid a) (sq_game a) (sq_shield a) (sq_deferred a ++ its)
    (sq_requests a) (sq_connected a)).
  assert (seq_run zero_start (modern z1) a its = Some a') as Hr.
  { rewrite <- (app_nil_r its), seq_run_others by (by rewrite Hp). done. }
  assert (feeds zero_start z1 a payloads its) as Hfd1.
  { by apply (feeds_frozen z z1). }
  destruct (sequence_refines run_onConnect zero_start z1 payloads its s1 a a' rest Hc1 Hf Hfd1 Hr eq_refl)
    as (s' & Hc' & Hf' & Hloop).
  exists s1, s'. split_and!; [done | done | apply Hc' | apply Hc' | | | done].
  - by rewrite (cg_env _ _ _ Hc'), (cg_env _ _ _ Hc).
  - by rewrite (cg_deferred _ _ _ Hc'), (cg_deferred _ _ _ Hc).
Qed.

End SequenceProperties.

Section ConcurrentProperties.
Context `{G : Gopher} `{P : !Protocols} `{Rt : Runtime}.
Variable zero_start : StartGame_fields.
Implicit Types s : CS (cb:=unit) (env:=list (option error)).

(** C21: however the goroutine that reads, one that closes and others that
    spawn or write are interleaved, the callback is told of a success at most
    once, exactly when [connected] has been closed, and of a failure at most
    once, and never of a failure when the closer found the sequence
    complete. *)
Theorem callback_at_most_once s0 w :
  onConnect (conn s0) = Some tt -> connected (conn s0) = false -> cenv s0 = [] ->
  rtc (step zero_start) (s0, CIdle, RIdle) w ->
  let '(s, c, _) := w in
  successes (cenv s) = (if connected (conn s) then 1 else 0)%nat /\
  (failures (cenv s) <= 1)%nat /\
  (forall err, c = CChecked err true -> failures (cenv s) = 0%nat).
Proof.
  intros Ho Hc He Hst.
  assert (told w) as Ht.
  { assert (told (s0, CIdle, RIdle)) as H0 by (split_and!; [done | by rewrite He, Hc | by rewrite He]).
    clear Ho Hc He. induction Hst as [|w1 w2 w3 H12 _ IH]; [done|]. apply IH. by eapply told_step. }
  destruct w as [[s c] r]. destruct Ht as (_ & Hs & Hf).
  split; [done|]. destruct c as [| |? []| | |]; simpl in *; split; try intros ? [=]; try apply Hf; try lia;
    destruct Hf; lia.
Qed.

(** But it can be told of both.  When the connection is closed while the
    PlayStatus that completes the sequence is being read, there is an
    interleaving in which the callback is told that the connection sequence
    has succeeded and then that it has failed. *)
Theorem success_then_failure `{!HeaderLaws} `{!IDLaws} `{!BuiltLaws} z s a payload rest st b (err : error) :
  connecting z s a -> sq_phase a = AwaitStatus -> sq_connected a = false ->
  fz_onConnect z = Some tt -> fz_env z = [] -> once (conn s) = false ->
  flat (conn_in (conn s)) = frame payload ++ rest -> len payload < 2 ^ 32 ->
  decodes (fz_protocol z) (fz_pool z) (sq_shield a) payload (Decoded (Gt (PlayStatus st b))) ->
  exists s', rtc (step zero_start) (s, CIdle, RIdle) (s', CDone, RIdle) /\
    cenv s' = [None; Some err] /\ connected (conn s') = true /\ conn_closed (conn s') = true.
Proof.
  intros Hc Hp Hn Hcb Hcenv Ho Hf Hl Hd.
  destruct (ReadPacket_frame _ _ _ Hf Hl) as (in' & Hr & _).
  set (s0 := upd_conn (set_once true) s).
  assert (connecting z s0 a) as Hc0 by (destruct Hc; by split).
  destruct (read_decodes s0 payload in' (Decoded (Gt (PlayStatus st b))) Hr) as (hp & Hrd).
  { by rewrite (cg_protocol _ _ _ Hc0), (cg_pool _ _ _ Hc0), (cg_shield _ _ _ Hc0). }
  set (s1 := mkCS _ _ _) in Hrd.
  pose proof (handle_item_step record zero_start z s1 a (Decoded (Gt (PlayStatus st b)))
    (connecting_read z s0 a in' hp Hc0)) as Hs.
  unfold seq_step in Hs. rewrite Hp, Hn in Hs. destruct Hs as (s2 & Hc2 & _ & Hh).
  rewrite bool_decide_false in Hh by (simpl; congruence).
  unfold notify, bind, gets, record, modify in Hh. rewrite (cg_onConnect _ _ _ Hc2), Hcb in Hh.
  eexists. split.
  - eapply rtc_l; [apply read_select; apply Hc|]. eapply rtc_l; [by apply (close_enter _ _ _ err)|].
    eapply rtc_l; [apply close_check|]. eapply rtc_l; [eapply read_read, Hrd|].
    eapply rtc_l; [eapply read_handle, Hh|]. eapply rtc_l; [apply close_notify|].
    eapply rtc_l; [apply close_cancel|]. eapply rtc_l; [apply close_conn|]. reflexivity.
  - fold s0. rewrite (cg_connected _ _ _ Hc0), Hn. unfold notify, bind, gets, record, modify. simpl.
    rewrite (cg_onConnect _ _ _ Hc2), Hcb. simpl. rewrite (cg_env _ _ _ Hc2), Hcenv.
    rewrite (cg_connected _ _ _ Hc2). done.
Qed.

End ConcurrentProperties.

(** * Witnesses *)

#[local] Existing Instances toy_types toy toy_protocols toy_runtime toy_IOLaws toy_HeaderLaws
  toy_SnappyLaws toy_IDLaws toy_BuiltLaws.

Definition toy_TotalLibrary : @TotalLibrary toy_types toy.
Proof.
  assert (forall n, halts (take_bytes n)) as Ht by (intros n s; unfold take_bytes; by case_match).
  assert (forall n d io x, halts (toy_number n d io x)) as Hn by (intros n d [] x; [done | simpl; go_halts]).
  assert (forall io x, halts (toy_slice io x)) as Hs by (intros [] x; [done | simpl; go_halts]).
  assert (forall io x, halts (toy_string io x)) as Hstr by (intros io x; unfold toy_string; go_halts).
  split; [|done]. intros io pk. change (halts (Marshal io pk)).
  destruct pk; simpl;
    unfold ConnectionRequest_Marshal, ConnectionResponse_Marshal, Flush_Marshal, Latency_Marshal,
      Transfer_Marshal, UpdateCache_Marshal; simpl; go_halts; done.
Defined.

#[local] Existing Instance toy_TotalLibrary.

Lemma ReadPacket_terminates_witness :
  (ReadPacket toy_callback toy_start 31 true (toy_cs (map frame (take 2 toy_answers)))).1 <> NoFuel.
Proof.
  apply (ReadPacket_terminates toy_callback toy_start true (toy_cs (map frame (take 2 toy_answers))) 31);
    [done | intros [] e s; reflexivity | vm_compute; lia].
Defined.

(** A spawned connection with two deferred packets. *)
Definition toy_spawned : CS (cb:=unit) (env:=unit) :=
  upd_conn (fun c => set_spawned true (set_deferred (toy_pre0 ++ toy_actor) c)) (toy_cs []).

Lemma deferred_in_order_witness :
  let s := toy_spawned in
  let s' := upd_conn (set_deferred []) s in
  read_many toy_callback toy_start 2 1 true s = (Ok (toy_pre0 ++ toy_actor), s') /\
  ReadPacket toy_callback toy_start 1 true s' = read s'.
Proof. intros s s'. apply (deferred_in_order toy_callback toy_start s 0 true); reflexivity. Defined.

Lemma close_refuses_witness :
  let s := toy_cs [] in
  let s1 := upd_conn (set_once true) s in
  let cause := default EOF (ctx (conn s1)) in
  let s2 := upd_conn (fun c => set_conn_closed true (set_ctx (Some cause) c)) s1 in
  CloseWithError toy_callback EOF s = (Ok tt, s2) /\
  (forall pk, WritePacket pk s2 = (Err cause, s2)) /\
  (forall payloads, WriteBatch payloads s2 = (Err cause, s2)) /\
  DoConnect s2 = (Err cause, s2) /\ DoSpawn s2 = (Err cause, s2) /\
  (spawned (conn s2) = false -> forall fuel pick, ReadPacket toy_callback toy_start (S fuel) pick s2 = (Err cause, s2)) /\
  (forall err', CloseWithError toy_callback err' s2 = (Ok tt, s2)) /\
  (spawned (conn s2) = true -> forall fuel,
    ReadPacket toy_callback toy_start (S fuel) true s2 = (Err cause, s2) /\
    ReadPacket toy_callback toy_start (S fuel) false s2 =
      match deferredPackets (conn s2) with
      | pk :: rest => (Ok pk, upd_conn (set_deferred rest) s2)
      | [] => read s2
      end) /\
  (forall ctx' o, WaitConnect (conn s2) ctx' o <->
    o = Err cause \/ (exists e, ctx' = Some e /\ o = Err e) \/ connected (conn s2) = true /\ o = Ok tt) /\
  (forall p, Write p s2 = ((Write p s1).1, upd_conn (fun c => set_conn_closed true (set_ctx (Some cause) c)) (Write p s1).2)).
Proof. intros s s1. apply (close_refuses toy_callback toy_start EOF s s1); reflexivity. Defined.

(** The end of the sequence. *)
Definition toy_last (onc : option unit) {env : Type} (e : env) (chunks : list (list byte)) :
    CS (cb:=unit) (env:=env) :=
  upd_conn (fun c => set_onConnect onc (set_expectedIds [2] c)) (toy_cs_env e chunks).
Definition toy_last_frozen (onc : option unit) {env : Type} (e : env) : frozen (cb:=unit) (env:=env) :=
  mkFrozen 800 (toy_packets 800 false) onc e [].
Definition toy_last_seq : seq := mkSeq AwaitStatus 0 0 None 0 [] 0 false.

Lemma toy_last_connecting onc {env : Type} (e : env) chunks :
  connecting (toy_last_frozen onc e) (toy_last onc e chunks) toy_last_seq.
Proof. split; first [done | by right | by (exists []; repeat constructor) | repeat constructor]. Qed.

Definition toy_status : list byte := toy_packet_payload 2 [].

Lemma toy_status_decodes : decodes 800 (toy_packets 800 false) 0 toy_status (Decoded (Gt (PlayStatus 3 tt))).
Proof. feeds_by_computation. Qed.

Lemma second_play_status_panics_witness :
  exists s',
    ReadPacket toy_callback toy_start (2 + 0) true
      (toy_last None tt [frame toy_status; frame toy_status]) = (Panic "close of closed channel", s').
Proof.
  apply (second_play_status_panics toy_callback toy_start (toy_last_frozen None tt) _ toy_last_seq
    toy_status toy_status [] 3 tt 3 tt);
    [apply toy_last_connecting | reflexivity | reflexivity | reflexivity | reflexivity | reflexivity | reflexivity
    | apply toy_status_decodes | apply toy_status_decodes].
Defined.

Lemma callback_at_most_once_witness :
  let s0 : CS (cb:=unit) (env:=list (option error)) := toy_last (Some tt) [] [] in
  let s := (CloseWithError record EOF s0).2 in
  successes (cenv s) = 0%nat /\ (failures (cenv s) <= 1)%nat /\
  (forall err, CDone = CChecked err true -> failures (cenv s) = 0%nat).
Proof.
  intros s0 s. apply (callback_at_most_once toy_start s0 (s, CDone, RIdle)); [reflexivity .. |].
  apply close_steps. reflexivity.
Defined.

Lemma success_then_failure_witness :
  exists s', rtc (step toy_start) (toy_last (Some tt) [] [frame toy_status], CIdle, RIdle) (s', CDone, RIdle) /\
    cenv s' = [None; Some EOF] /\ connected (conn s') = true /\ conn_closed (conn s') = true.
Proof.
  apply (success_then_failure toy_start (toy_last_frozen (Some tt) []) _ toy_last_seq toy_status [] 3 tt EOF);
    [apply toy_last_connecting | reflexivity .. | apply toy_status_decodes].
Defined.

Lemma late_callback_never_told_witness :
  let a := mkSeq AwaitStatus 0 0 None 0 [] 0 true in
  let s := upd_conn (set_connected true) (toy_last None tt [frame [Byte.x00; Byte.x61]]) in
  exists s1 s', OnConnect tt s = (Ok tt, s1) /\
    flat (conn_in (conn s')) = [] /\
    onConnect (conn s') = Some tt /\ spawned (conn s') = false /\ cenv s' = cenv s /\
    deferredPackets (conn s') = deferredPackets (conn s) ++ [Raw [Byte.x61]] /\
    forall fuel pick, ReadPacket toy_callback toy_start (1 + fuel) pick s1 = ReadPacket toy_callback toy_start fuel pick s'.
Proof.
  intros a s. apply (late_callback_never_told toy_callback toy_start (toy_last_frozen None tt) s a tt
    [[Byte.x00; Byte.x61]] [Raw [Byte.x61]] []);
    [| reflexivity | reflexivity | vm_compute; reflexivity | feeds_by_computation | repeat constructor].
  pose proof (toy_last_connecting None tt [frame [Byte.x00; Byte.x61]]) as Hc. by destruct Hc; split.
Defined.
