(* ===== verification/ConnSafe.v ===== *)
(** * ConnSafe: where a connection can panic

    A small program logic for the ways a computation can crash ([guarded]), and
    the operations of a connection in it: writing never panics, reading panics
    on an empty frame only, and a channel can be closed twice. *)

From S2P Require Import Prelude Wire Minecraft ServerPacket Conn ConnIO ConnLife.

Local Open Scope Z_scope.
Local Open Scope go_scope.

(** ** Crashes *)

Inductive crash := Panicked (why : string) | OutOfFuel.

Definition allows {A} (C : crash -> Prop) (o : outcome A) : Prop :=
  match o with Panic why => C (Panicked why) | NoFuel => C OutOfFuel | _ => True end.

(** Run from [s], [m] restores the invariant [I] however it ends, and crashes
    as [C] allows only. *)
Definition guarded {S A} (I : S -> Prop) (C : crash -> Prop) (m : M S A) (s : S) : Prop :=
  I (m s).2 /\ allows C (m s).1.

Definition never : crash -> Prop := fun _ => False.

Section guarded.
Context {S : Type} (I : S -> Prop) (C : crash -> Prop).

Lemma guarded_weaken {A} (C' : crash -> Prop) (m : M S A) s :
  (forall c, C' c -> C c) -> guarded I C' m s -> guarded I C m s.
Proof. intros Hc [H1 H2]. split; [done|]. unfold allows in *. destruct (m s).1; auto. Qed.

Lemma guarded_never {A} (m : M S A) s : guarded I never m s -> guarded I C m s.
Proof. by apply guarded_weaken. Qed.

Lemma guarded_stronger {A} (J : S -> Prop) (m : M S A) s :
  (forall s', J s' -> I s') -> guarded J C m s -> guarded I C m s.
Proof. intros HJ [H1 H2]. split; auto. Qed.

Lemma guarded_returns {A} (m : M S A) s : guarded I never m s -> returns (m s).1.
Proof. intros [_ H]. by destruct (m s).1. Qed.

Lemma guarded_ret {A} (a : A) s : I s -> guarded I C (ret a) s.
Proof. by split. Qed.

Lemma guarded_fail {A} e s : I s -> guarded I C (fail (A:=A) e) s.
Proof. by split. Qed.

Lemma guarded_panic {A} why s : I s -> C (Panicked why) -> guarded I C (panic (A:=A) why) s.
Proof. by split. Qed.

Lemma guarded_nofuel {A} s : I s -> C OutOfFuel -> guarded I C (nofuel (A:=A)) s.
Proof. by split. Qed.

Lemma guarded_gets {A} (f : S -> A) s : I s -> guarded I C (gets f) s.
Proof. by split. Qed.

Lemma guarded_modify f s : I (f s) -> guarded I C (modify f) s.
Proof. by split. Qed.

Lemma guarded_bind {A B} (m : M S A) (k : A -> M S B) s :
  guarded I C m s -> (forall a s', m s = (Ok a, s') -> I s' -> guarded I C (k a) s') ->
  guarded I C (bind m k) s.
Proof.
  unfold guarded, bind. intros [H1 H2] Hk. destruct (m s) as [[a|e|w|] s'] eqn:E; simpl in *; try done. by apply Hk.
Qed.

Lemma guarded_bind_gets {A B} (f : S -> A) (k : A -> M S B) s :
  guarded I C (k (f s)) s -> guarded I C (bind (gets f) k) s.
Proof. done. Qed.

Lemma guarded_bind_id {B} (k : S -> M S B) s : guarded I C (k s) s -> guarded I C (bind (gets id) k) s.
Proof. done. Qed.

Lemma guarded_attempt {A} (m : M S A) s : guarded I C m s -> guarded I C (attempt m) s.
Proof. unfold guarded, attempt. by destruct (m s) as [[] s']. Qed.

Lemma guarded_ignore {A} (m : M S A) s : guarded I C m s -> guarded I C (ignore m) s.
Proof. intros H. apply guarded_bind; [by apply guarded_attempt | by split]. Qed.

(** A panic that is recovered does not matter. *)
Lemma guarded_recovering {A} h (m : M S A) s :
  guarded I (fun c => match c with OutOfFuel => C c | _ => True end) m s -> guarded I C (recovering h m) s.
Proof. unfold guarded, recovering. by destruct (m s) as [[] s']. Qed.

Lemma guarded_deferring {A} f (m : M S A) s :
  guarded I C m s -> (forall s', I s' -> I (f s')) -> guarded I C (deferring f m) s.
Proof. unfold guarded, deferring. intros [H1 H2] Hf. destruct (m s) as [o s']. simpl in *. auto. Qed.

Lemma guarded_zoom {T A} (J : T -> Prop) (get : S -> T) put (m : M T A) s :
  guarded J C m (get s) -> (forall t, J t -> I (put t s)) -> guarded I C (zoom get put m) s.
Proof. unfold guarded, zoom. intros [H1 H2] Hp. destruct (m (get s)) as [o t]. simpl in *. auto. Qed.

Lemma guarded_on_local {T A} (m : M T A) t s :
  I s -> allows C (m t).1 -> guarded I C (on_local m t) s.
Proof. unfold guarded, on_local. by destruct (m t) as [[] ?]. Qed.

Lemma guarded_for_each {A} (f : A -> M S unit) xs s :
  (forall x s', I s' -> guarded I C (f x) s') -> I s -> guarded I C (for_each f xs) s.
Proof.
  intros Hf. revert s. induction xs as [|x xs IH]; intros s Hs; simpl; [by apply guarded_ret|].
  apply guarded_bind; [by apply Hf | intros _ s' _ Hs'; by apply IH].
Qed.

End guarded.

(** Follow the code; the state updates are left. *)
Ltac guard_step :=
  intros;
  lazymatch goal with
  | |- guarded _ _ (bind (gets id) _) _ => apply guarded_bind_id
  | |- guarded _ _ (bind (gets _) _) _ => apply guarded_bind_gets
  | |- guarded _ _ (bind _ _) _ => apply guarded_bind
  | |- guarded _ _ (attempt _) _ => apply guarded_attempt
  | |- guarded _ _ (ignore _) _ => apply guarded_ignore
  | |- guarded _ _ (recovering _ _) _ => apply guarded_recovering
  | |- guarded _ _ (deferring _ _) _ => apply guarded_deferring
  | |- guarded _ _ (for_each _ _) _ => apply guarded_for_each
  | |- guarded _ _ (on_local _ _) _ => apply guarded_on_local; [assumption|]
  | |- guarded _ _ (gets _) _ => apply guarded_gets; assumption
  | |- guarded _ _ (ret _) _ => apply guarded_ret; assumption
  | |- guarded _ _ (fail _) _ => apply guarded_fail; assumption
  | |- guarded _ _ (modify _) _ => apply guarded_modify
  | |- guarded _ _ (match ?o with _ => _ end) _ => destruct o eqn:?
  end.
Ltac guards := repeat first [ assumption | solve [auto] | guard_step ]; intros.

(** The library can write the proxy's packets without a panic. *)
Class WriterReturns `{Gopher} : Prop := {
  Header_Write_returns : forall h buf, returns (Header_Write h buf).1;
  writer_String_returns : forall pr sh x buf, returns (io_String (NewWriter_IO pr sh) x buf).1;
  writer_ByteSlice_returns : forall pr sh x buf, returns (io_ByteSlice (NewWriter_IO pr sh) x buf).1;
  writer_Int32_returns : forall pr sh x buf, returns (io_Int32 (NewWriter_IO pr sh) x buf).1;
  writer_Int64_returns : forall pr sh x buf, returns (io_Int64 (NewWriter_IO pr sh) x buf).1;
  RequestChunkRadius_returns : forall pr sh r b buf, returns (gt_Marshal (NewWriter_IO pr sh) (RequestChunkRadius r b) buf).1;
  ClientCacheStatus_returns : forall pr sh e b buf, returns (gt_Marshal (NewWriter_IO pr sh) (ClientCacheStatus e b) buf).1;
  SetLocalPlayerAsInitialised_returns : forall pr sh i b buf,
    returns (gt_Marshal (NewWriter_IO pr sh) (SetLocalPlayerAsInitialised i b) buf).1;
}.

Lemma allows_returns {A} C (o : outcome A) : returns o -> allows C o.
Proof. by destruct o. Qed.

Lemma returns_bind {S A B} (m : M S A) (k : A -> M S B) s :
  returns (m s).1 -> (forall a s', m s = (Ok a, s') -> returns (k a s').1) -> returns (bind m k s).1.
Proof. unfold bind. destruct (m s) as [[a|e|r|] s']; simpl; auto. Qed.

(** ** The operations of a connection *)

Section ConnSafe.
Context `{G : Gopher} `{P : !Protocols} `{Rt : Runtime} {cb env : Type} `{!WriterReturns}.
Implicit Types s : CS (cb:=cb) (env:=env).

(** What is known of the unread input and of the rest of the proxy. *)
Variable streams : source -> Prop.
Hypothesis streams_next : forall i, streams i -> streams (Wire.ReadPacket i).2.
Variable rest_ok : env -> Prop.

Record conn_ok s : Prop := {
  ok_writer : wf_writer (writer (conn s));
  ok_input : streams (conn_in (conn s));
  ok_rest : rest_ok (cenv s);
}.

(** An update that leaves writer, input and the rest alone. *)
Lemma conn_ok_update s s' :
  conn_ok s -> writer (conn s') = writer (conn s) -> conn_in (conn s') = conn_in (conn s) -> cenv s' = cenv s -> conn_ok s'.
Proof. intros [] H1' H2' H3'. split; congruence. Qed.

Ltac conn_ok := solve [eapply conn_ok_update; [eassumption | reflexivity ..]].

(** The packets the proxy writes to a server. *)
Definition writable (pk : packet) : Prop :=
  forall pr sh buf, returns (Marshal (NewWriter_IO pr sh) pk buf).1.

Lemma request_writable r : writable (SConnectionRequest r).
Proof.
  intros pr sh buf. simpl. unfold ConnectionRequest_Marshal.
  repeat (apply returns_bind; [first [apply writer_String_returns | apply writer_ByteSlice_returns
    | apply writer_Int32_returns | idtac] | intros ? ? _]); done.
Qed.

Lemma latency_writable l : writable (SLatency l).
Proof.
  intros pr sh buf. simpl. unfold Latency_Marshal.
  repeat (apply returns_bind; [first [apply writer_Int64_returns | idtac] | intros ? ? _]); done.
Qed.

Lemma gt_writable pk : (forall pr sh buf, returns (gt_Marshal (NewWriter_IO pr sh) pk buf).1) -> writable (Gt pk).
Proof. intros H' pr sh buf. simpl. apply returns_bind; [apply H' | done]. Qed.

Lemma check_ctx_safe s : conn_ok s -> guarded conn_ok never check_ctx s.
Proof. intros Hs. unfold check_ctx. guards. Qed.

Lemma pool_Get_safe {A} get put (n : A) s :
  conn_ok s -> (forall t, conn_ok (put t s)) -> guarded conn_ok never (zoom get put (pool_Get n)) s.
Proof. intros Hs Hp. apply (guarded_zoom _ _ (fun _ => True)); [|auto]. unfold pool_Get. by destruct (get s). Qed.

Lemma write_flags_safe f d s : conn_ok s -> guarded conn_ok never (write_flags f d) s.
Proof.
  intros [Hw Hi Hr]. unfold write_flags.
  apply (guarded_zoom _ _ wf_writer); [|intros t Ht; by split].
  destruct (WriteWithFlags_sends (byte_of_Z f) d _ Hw) as (bs & Hw' & _ & _ & Ho & _). split; [done|].
  by destruct (WriteWithFlags _ _ _).1.
Qed.

Lemma WritePacket_safe pk s : writable pk -> conn_ok s -> guarded conn_ok never (WritePacket pk) s.
Proof.
  intros Hpk Hs. unfold WritePacket. apply guarded_bind; [by apply check_ctx_safe | intros _ s1 _ H1'].
  apply guarded_bind; [apply pool_Get_safe; [done | intros; conn_ok] | intros buf s2 _ H2'].
  apply guarded_bind; [apply pool_Get_safe; [done | intros; conn_ok] | intros h s3 _ H3'].
  apply guarded_deferring; [|intros; conn_ok].
  apply guarded_bind; [apply guarded_on_local; [done|]; apply allows_returns, Header_Write_returns | intros [u b1] s4 _ H4'].
  apply guarded_bind; [by apply guarded_gets | intros c s5 _ H5'].
  apply guarded_bind; [apply guarded_on_local; [done|]; apply allows_returns, Hpk | intros [y b2] s6 _ H6'].
  case_match; by apply write_flags_safe.
Qed.

Lemma WriteBatch_safe payloads s : conn_ok s -> guarded conn_ok never (WriteBatch payloads) s.
Proof.
  intros Hs. unfold WriteBatch. apply guarded_bind; [by apply check_ctx_safe | intros _ s1 _ H1'].
  case_match; [by apply guarded_ret|].
  apply guarded_bind; [apply pool_Get_safe; [done | intros; conn_ok] | intros buf s2 _ H2'].
  apply guarded_deferring; [|intros; case_match; [conn_ok | done]]. case_match; by apply write_flags_safe.
Qed.

Lemma DoConnect_safe s : conn_ok s -> guarded conn_ok never DoConnect s.
Proof.
  intros Hs. unfold DoConnect. apply guarded_bind; [by apply check_ctx_safe | intros _ s1 _ H1'].
  guards. apply WritePacket_safe; [apply request_writable | done].
Qed.

(** ** What the session can crash on *)

(** The next frame, after some others, is empty. *)
Definition sends_empty_frame (i : source) : Prop :=
  exists j, rtc (fun i i' => i' = (Wire.ReadPacket i).2) i j /\ (Wire.ReadPacket j).1 = Ok [].

(** [C] allows the panics of the code. *)
Variable C : crash -> Prop.
Hypothesis C_closed : C (Panicked "close of closed channel").
Hypothesis C_empty : forall i, streams i -> (Wire.ReadPacket i).1 = Ok [] ->
  C (Panicked "runtime error: index out of range [0] with length 0").
Hypothesis C_fuel : C OutOfFuel.

Lemma close_chan_safe get set s :
  (forall c, writer (set true c) = writer c /\ conn_in (set true c) = conn_in c) ->
  conn_ok s -> guarded conn_ok C (close_chan get set) s.
Proof.
  intros Hset Hs. unfold close_chan. apply guarded_bind; [by apply guarded_gets | intros c s1 _ H1'].
  destruct (get c); [by apply guarded_panic|]. apply guarded_modify.
  destruct (Hset (conn s1)). by eapply conn_ok_update.
Qed.

Lemma DoSpawn_safe s : conn_ok s -> guarded conn_ok C DoSpawn s.
Proof.
  intros Hs. unfold DoSpawn. apply guarded_bind; [by apply guarded_never, check_ctx_safe | intros _ s1 _ H1'].
  apply guarded_bind; [by apply close_chan_safe | intros _ s2 _ H2'].
  guards; apply guarded_never, WritePacket_safe; try done; apply gt_writable; intros;
    first [apply ClientCacheStatus_returns | apply SetLocalPlayerAsInitialised_returns].
Qed.

Lemma read_safe s : conn_ok s -> guarded conn_ok C read s.
Proof.
  intros Hs. unfold read. apply guarded_bind.
  { unfold zoom. pose proof (ReadPacket_returns (conn_in (conn s))) as Hr. pose proof (streams_next _ (ok_input _ Hs)) as Hn.
    destruct Hs. unfold guarded. by destruct (Wire.ReadPacket _) as [[] ?]. }
  intros payload s1 E H1'. destruct payload as [|f payload].
  { apply guarded_panic; [done|]. apply (C_empty _ (ok_input _ Hs)). unfold zoom in E.
    by destruct (Wire.ReadPacket _) as [[] ?]; simplify_eq/=. }
  destruct (if negb _ then _ else _) as [d|err]; [|by apply guarded_fail].
  destruct (negb (negb _)); [by apply guarded_ret|].
  apply guarded_bind; [apply guarded_never, pool_Get_safe; [done | intros; conn_ok] | intros h s2 _ H2'].
  destruct (Header_Read h d) as [[err h'] buf]. apply guarded_recovering, guarded_deferring; [|intros; conn_ok].
  guards. by destruct (Marshal _ _ _).1.
Qed.

(** ** The connection sequence, for a callback that is as safe. *)
Variable run_onConnect : cb -> option error -> M (CS (cb:=cb) (env:=env)) unit.
Variable zero_start : StartGame_fields.
Hypothesis callback_safe : forall fn e s, conn_ok s -> guarded conn_ok C (run_onConnect fn e) s.

Lemma notify_safe e s : conn_ok s -> guarded conn_ok C (notify run_onConnect e) s.
Proof. intros Hs. unfold notify. guards. Qed.

Lemma CloseWithError_safe err s : conn_ok s -> guarded conn_ok C (CloseWithError run_onConnect err) s.
Proof.
  intros Hs. pose proof notify_safe. unfold CloseWithError. guards; conn_ok.
Qed.

Lemma handlePacket_safe pk s : conn_ok s -> guarded conn_ok C (handlePacket run_onConnect zero_start pk) s.
Proof.
  intros Hs. pose proof notify_safe as Hn.
  assert (forall pk s, writable pk -> conn_ok s -> guarded conn_ok C (WritePacket pk) s) as Hw
    by (intros; by apply guarded_never, WritePacket_safe).
  assert (forall r b, writable (Gt (RequestChunkRadius r b))) as Hr
    by (intros; apply gt_writable; intros; apply RequestChunkRadius_returns).
  assert (forall s, conn_ok s -> guarded conn_ok C (close_chan connected set_connected) s) as Hc
    by (intros; by apply close_chan_safe).
  unfold handlePacket, handle_one, handleConnectionResponse, handleStartGame, handleItemRegistry,
    handleChunkRadiusUpdated, handlePlayStatus, expect, deferPacket.
  guards; conn_ok.
Qed.

Lemma ReadPacket_safe fuel pick s : conn_ok s -> guarded conn_ok C (ReadPacket run_onConnect zero_start fuel pick) s.
Proof.
  pose proof read_safe as Hr. pose proof handlePacket_safe as Hh.
  assert (forall s, conn_ok s -> guarded conn_ok C read_spawned s) as Hsp by (intros; unfold read_spawned; guards; conn_ok).
  revert s. induction fuel as [|fuel IH]; intros s Hs; simpl; [by apply guarded_nofuel|].
  unfold read_sequence, deferPacket. guards; conn_ok.
Qed.

End ConnSafe.
