(* ===== verification/Batch.v ===== *)
(** * Batch: what the client sends, on its way to the server

    The packet contexts of [session/processor.go] with their pool, and
    [decodeAndCreateContext] and [handleClientBatch] of [session/handler.go].
    The processor is a parameter, a function on the contexts of a batch; the
    server is the connection of [Conn], to which the batch is written. *)

From S2P Require Import Prelude Wire Minecraft ServerPacket Conn Toy ConnIO.

Local Open Scope Z_scope.
Local Open Scope go_scope.

(** ** [Context] *)

Record Context := mkContext { Context_canceled : bool }.
Definition NewContext : Context := mkContext false.
Definition Cancel (c : Context) : Context := mkContext true.
Definition Cancelled (c : Context) : bool := Context_canceled c.

(** ** [Opts] (util/opts.go); [ClientDecode] is a set of ids *)

Record Opts := mkOpts {
  Addr : string;
  AutoLogin : bool;
  EnableAllClientDecode : bool;
  ClientDecode : gset Z;
  LatencyInterval : Z;
  ShutdownMessage : string;
  SyncProtocol : bool;
}.

Definition DefaultOpts : Opts := mkOpts ":19132" true false ∅ 3000 "Spectrum closed." false.

Section Batch.
Context `{G : Gopher} `{P : !Protocols} `{Rt : Runtime} {cb env : Type}.

(** ** [PacketContext] *)

(** [decoded] is [None] for the nil interface. *)
Record PacketContext := mkPacketContext {
  canceled : bool;
  modified : bool;
  raw : list byte;
  decoded : option packet;
}.

Definition fresh_context : PacketContext := mkPacketContext false false [] None.

Definition PacketContext_Cancel (c : PacketContext) := mkPacketContext true (modified c) (raw c) (decoded c).
Definition SetModified (c : PacketContext) := mkPacketContext (canceled c) true (raw c) (decoded c).

(** The operations of [pkCtxPool], over the contexts it holds.
    [NewPacketContext]: the flags are those of the pooled context. *)
Definition NewPacketContext (raw : list byte) (decoded : option packet) : M (list PacketContext) PacketContext :=
  let! ctx := pool_Get fresh_context in
  ret (mkPacketContext (canceled ctx) (modified ctx) raw decoded).

Definition ReturnPacketContext (ctx : PacketContext) : M (list PacketContext) unit :=
  modify (pool_Put (mkPacketContext false false [] None)).

(** The header [handleClient] keeps, the pool of contexts, the server. *)
Record BS := mkBS {
  header : Header hdr_rest;
  pkCtxPool : list PacketContext;
  server : CS (cb:=cb) (env:=env);
}.

Definition set_header h s := mkBS h (pkCtxPool s) (server s).
Definition set_pkCtxPool p s := mkBS (header s) p (server s).
Definition set_server c s := mkBS (header s) (pkCtxPool s) c.

(** Run an operation of the pool of contexts. *)
Definition ctx_pool {A} (m : M (list PacketContext) A) : M BS A := zoom pkCtxPool set_pkCtxPool m.

(** ** The client's side of a session *)

(** The client and the options of a session, as far as the handler uses
    them. *)
Record Session := mkSession { opts : Opts; client_proto : Proto }.

Variable s : Session.

(** [%T] of a packet. *)
Variable type_name : packet -> string.

(** [ProcessClient]: the contexts as the processor leaves them. *)
Variable ProcessClient : list PacketContext -> list PacketContext.

Definition isClientLatestVersion : bool := Proto_ID (client_proto s) =? CurrentProtocol.

(** Must this packet be decoded? *)
Definition decode_needed (id : Z) : bool :=
  EnableAllClientDecode (opts s) || bool_decide (id ∈ ClientDecode (opts s)) ||
  negb (SyncProtocol (opts s) || isClientLatestVersion).

(** [decodeAndCreateContext] *)
Definition decodeAndCreateContext (pool : gmap Z packet) (shieldID : Z) (payload : list byte)
    : M BS (option PacketContext) :=
  recovering (fun r => ErrNew ("panic while decoding packet from client batch: " +:+ r)) (
    let! st := gets header in
    let '(err, h, buf) := Header_Read st payload in
    modify (set_header h) ;;;
    match err with
    | Some _ => fail (ErrNew "failed to decode header")
    | None =>
        match pool !! PacketID h with
        | None => fail (ErrNew ("unknown packet with id " +:+ pretty (PacketID h)))
        | Some factory =>
            if negb (decode_needed (PacketID h)) then
              let! ctx := ctx_pool (NewPacketContext payload None) in ret (Some ctx)
            else
              let! (decodedPk, buf) := on_local (Marshal (NewReader_IO (client_proto s) shieldID true) factory) buf in
              if 0 <? len buf
              then fail (ErrNew (type_name decodedPk +:+ " had an extra " +:+ pretty (len buf) +:+ " bytes"))
              else if negb (SyncProtocol (opts s)) && negb isClientLatestVersion then
                match ConvertToLatest (client_proto s) decodedPk with
                | [] => ret None
                | upgraded :: _ => let! ctx := ctx_pool (NewPacketContext payload (Some upgraded)) in ret (Some ctx)
                end
              else
                let! ctx := ctx_pool (NewPacketContext payload (Some decodedPk)) in ret (Some ctx)
        end
    end).

(** The first loop of [handleClientBatch]. *)
Fixpoint decode_loop (pool : gmap Z packet) (shieldID : Z) (payloads : list (list byte))
    : M BS (list PacketContext) :=
  match payloads with
  | [] => ret []
  | payload :: payloads =>
      let! ctx := decodeAndCreateContext pool shieldID payload in
      let! ctxBatch := decode_loop pool shieldID payloads in
      ret (option_list ctx ++ ctxBatch)
  end.

(** The second loop: the payloads to forward. *)
Fixpoint encode_loop (proto : Proto) (shieldID : Z) (ctxBatch : list PacketContext) : M BS (list (list byte)) :=
  match ctxBatch with
  | [] => ret []
  | ctx :: ctxBatch =>
      if canceled ctx then
        ctx_pool (ReturnPacketContext ctx) ;;;
        encode_loop proto shieldID ctxBatch
      else if (bool_decide (decoded ctx = None) || negb (modified ctx)) && isClientLatestVersion then
        ctx_pool (ReturnPacketContext ctx) ;;;
        let! payloadBatch := encode_loop proto shieldID ctxBatch in
        ret (raw ctx :: payloadBatch)
      else
        match decoded ctx with
        | None => panic "runtime error: invalid memory address or nil pointer dereference"
        | Some pk =>
            modify (fun st => set_header (mkHeader (ID pk) (Header_rest (header st))) st) ;;;
            let! h := gets header in
            let! (_, buf) := on_local (ignore (Header_Write h)) [] in
            let! (_, buf) := on_local (Marshal (NewWriter_IO proto shieldID) pk) buf in
            let! payloadBatch := encode_loop proto shieldID ctxBatch in
            ret (buf :: payloadBatch)
        end
  end.

(** [handleClientBatch] *)
Definition handleClientBatch (pool : gmap Z packet) (shieldID : Z) (payloads : list (list byte)) : M BS unit :=
  recovering (fun r => ErrNew ("panic while handling batch: " +:+ r)) (
    let! ctxBatch := decode_loop pool shieldID payloads in
    let ctxBatch := ProcessClient ctxBatch in
    let proto := if SyncProtocol (opts s) then client_proto s else DefaultProtocol in
    let! payloadBatch := encode_loop proto shieldID ctxBatch in
    zoom server set_server (WriteBatch payloadBatch)).

(** ** Specification *)

(** The packet [decodeAndCreateContext] keeps of a payload with this header,
    whatever header was read before: [None] when it need not be decoded. *)
Definition accepted (pool : gmap Z packet) (shieldID : Z) (payload : list byte)
    (hd : Header hdr_rest * option packet) : Prop :=
  exists buf factory,
    (forall h0, Header_Read h0 payload = (None, hd.1, buf)) /\
    pool !! PacketID hd.1 = Some factory /\
    if decode_needed (PacketID hd.1) then
      exists pk, Marshal (NewReader_IO (client_proto s) shieldID true) factory buf = (Ok pk, []) /\
        hd.2 = (if negb (SyncProtocol (opts s)) && negb isClientLatestVersion
                then head (ConvertToLatest (client_proto s) pk) else Some pk) /\
        hd.2 <> None
    else hd.2 = None.

(** The context of a payload. *)
Definition context_of (payload : list byte) (hd : Header hdr_rest * option packet) : PacketContext :=
  mkPacketContext false false payload hd.2.

(** A context that is forwarded as it came. *)
Definition passes (ctx : PacketContext) : bool :=
  (bool_decide (decoded ctx = None) || negb (modified ctx)) && isClientLatestVersion.

Definition batch_proto : Proto := if SyncProtocol (opts s) then client_proto s else DefaultProtocol.

(** What is forwarded for a context, with the rest of the header [hr]: the raw
    payload, or the header and the fields of the packet. *)
Definition forwarded (shieldID : Z) (hr : hdr_rest) (ctx : PacketContext) (out : list byte) : Prop :=
  if passes ctx then out = raw ctx
  else exists pk henc enc,
    decoded ctx = Some pk /\ out = henc ++ enc /\
    (forall buf, Header_Write (mkHeader (ID pk) hr) buf = (Ok tt, buf ++ henc)) /\
    (forall buf, exists pk', Marshal (NewWriter_IO batch_proto shieldID) pk buf = (Ok pk', buf ++ enc)).

(** The pool holds contexts as [ReturnPacketContext] leaves them. *)
Definition clean (st : BS) : Prop := Forall (fun c => c = fresh_context) (pkCtxPool st).

(** * Lemmas *)

Lemma on_local_eq {S U A} (m : M U A) t a t' (st : S) :
  m t = (Ok a, t') -> on_local m t st = (Ok (a, t'), st).
Proof. unfold on_local. by intros ->. Qed.


Lemma NewPacketContext_clean raw dec st :
  clean st -> exists p, ctx_pool (NewPacketContext raw dec) st = (Ok (mkPacketContext false false raw dec), set_pkCtxPool p st) /\
    Forall (fun c => c = fresh_context) p.
Proof.
  unfold clean, ctx_pool, NewPacketContext, bind, zoom. destruct st as [h [|c p] sv]; simpl; intros Hc; [by eexists|].
  apply Forall_cons in Hc as [-> Hc]. by eexists.
Qed.

Lemma decode_accepted pool shieldID payload hd st :
  accepted pool shieldID payload hd -> clean st ->
  exists p, decodeAndCreateContext pool shieldID payload st = (Ok (Some (context_of payload hd)), mkBS hd.1 p (server st)) /\
    Forall (fun c => c = fresh_context) p.
Proof.
  intros (buf & factory & Hh & Hp & Hd) Hc. unfold decodeAndCreateContext, recovering, bind at 1, gets.
  rewrite Hh. unfold bind at 1, modify. rewrite Hp. unfold context_of.
  assert (clean (set_header hd.1 st)) as Hc' by done.
  destruct (decode_needed (PacketID hd.1)); cbn [negb].
  - destruct Hd as (pk & Hm & -> & Hne). unfold bind at 1, on_local. rewrite Hm.
    change (0 <? len (@nil byte)) with false. cbv beta iota.
    destruct (negb (SyncProtocol (opts s)) && negb isClientLatestVersion).
    + destruct (ConvertToLatest _ _) as [|u us]; [done|]. cbn [head].
      destruct (NewPacketContext_clean payload (Some u) _ Hc') as (p & Hn & Hp'). unfold bind. rewrite Hn. by exists p.
    + destruct (NewPacketContext_clean payload (Some pk) _ Hc') as (p & Hn & Hp'). unfold bind. rewrite Hn. by exists p.
  - destruct (NewPacketContext_clean payload None _ Hc') as (p & Hn & Hp'). unfold bind. rewrite Hn, Hd. by exists p.
Qed.

(** The header after decoding payloads with these headers. *)
Definition last_header (h : Header hdr_rest) (hds : list (Header hdr_rest * option packet)) : Header hdr_rest :=
  default h (fst <$> last hds).

Lemma last_header_cons h hd hds : last_header h (hd :: hds) = last_header hd.1 hds.
Proof. unfold last_header. rewrite last_cons. by destruct (last hds). Qed.

Lemma decode_loop_accepted pool shieldID payloads hds st :
  Forall2 (accepted pool shieldID) payloads hds -> clean st ->
  exists p, decode_loop pool shieldID payloads st =
    (Ok (zip_with context_of payloads hds), mkBS (last_header (header st) hds) p (server st)) /\
    Forall (fun c => c = fresh_context) p.
Proof.
  intros Ha. revert st. induction Ha as [|payload hd payloads hds Hp _ IH]; intros st Hc; simpl.
  - exists (pkCtxPool st). by destruct st.
  - destruct (decode_accepted _ _ _ _ _ Hp Hc) as (p & Hd & Hp').
    destruct (IH (mkBS hd.1 p (server st)) Hp') as (p' & Hl & Hp''). exists p'.
    rewrite (bind_eq_Ok _ _ _ _ _ Hd), (bind_eq_Ok _ _ _ _ _ Hl), last_header_cons. done.
Qed.

(** The first payload that does not decode ends the batch. *)
Lemma decode_loop_rejected pool shieldID payloads hds bad post st :
  Forall2 (accepted pool shieldID) payloads hds -> clean st ->
  (forall st', exists e st'', decodeAndCreateContext pool shieldID bad st' = (Err e, st'') /\ server st'' = server st') ->
  exists e st', decode_loop pool shieldID (payloads ++ bad :: post) st = (Err e, st') /\ server st' = server st.
Proof.
  intros Ha Hc Hbad. revert st Hc. induction Ha as [|payload hd payloads hds Hp _ IH]; intros st Hc; simpl.
  - destruct (Hbad st) as (e & st' & He & Hs). exists e, st'. by rewrite (bind_eq_Err _ _ _ _ _ He).
  - destruct (decode_accepted _ _ _ _ _ Hp Hc) as (p & Hd & Hp').
    destruct (IH (mkBS hd.1 p (server st)) Hp') as (e & st' & Hl & Hs). exists e, st'.
    by rewrite (bind_eq_Ok _ _ _ _ _ Hd), (bind_eq_Err _ _ _ _ _ Hl).
Qed.

Lemma clean_return st : clean st -> clean (set_pkCtxPool (fresh_context :: pkCtxPool st) st).
Proof. unfold clean. simpl. by constructor. Qed.

Definition uncancelled (ctxs : list PacketContext) : list PacketContext := filter (fun c => canceled c = false) ctxs.

Lemma encode_loop_forwards shieldID hr ctxs outs st :
  Forall2 (forwarded shieldID hr) (uncancelled ctxs) outs -> Header_rest (header st) = hr -> clean st ->
  exists h p, encode_loop batch_proto shieldID ctxs st = (Ok outs, mkBS h p (server st)) /\
    Header_rest h = hr /\ Forall (fun c => c = fresh_context) p.
Proof.
  revert outs st. induction ctxs as [|ctx ctxs IH]; intros outs st Hf Hh Hc; unfold uncancelled in *; simpl in *.
  { inversion Hf; subst. exists (header st), (pkCtxPool st). by destruct st. }
  rewrite filter_cons in Hf. destruct (canceled ctx); simpl in *.
  - destruct (IH outs (set_pkCtxPool (fresh_context :: pkCtxPool st) st) Hf Hh (clean_return st Hc)) as (h & p & He & Hr & Hp). by exists h, p.
  - apply Forall2_cons_inv_l in Hf as (out & outs' & Hout & Hf & ->). unfold forwarded in Hout.
    fold (passes ctx). destruct (passes ctx).
    + destruct (IH outs' (set_pkCtxPool (fresh_context :: pkCtxPool st) st) Hf Hh (clean_return st Hc)) as (h & p & He & Hr & Hp). exists h, p.
      unfold ctx_pool, ReturnPacketContext, modify, pool_Put, zoom. unfold bind at 1. rewrite (bind_eq_Ok _ _ _ _ _ He). by subst.
    + destruct Hout as (pk & henc & enc & Hd & -> & Hhw & Hm). rewrite Hd.
      set (st1 := set_header (mkHeader (ID pk) (Header_rest (header st))) st).
      destruct (IH outs' st1 Hf Hh Hc) as (h & p & He & Hr & Hp). exists h, p.
      unfold bind at 1, modify. fold st1. unfold bind at 1, gets.
      assert (header st1 = mkHeader (ID pk) hr) as -> by (simpl; by rewrite Hh).
      rewrite (bind_eq_Ok _ _ st1 _ _ (on_local_eq _ [] tt henc st1 (ignore_eq _ _ _ _ (Hhw []) I))).
      destruct (Hm henc) as (pk' & Hm').
      rewrite (bind_eq_Ok _ _ st1 _ _ (on_local_eq _ _ _ _ st1 Hm')).
      by rewrite (bind_eq_Ok _ _ _ _ _ He).
Qed.

Lemma handleClientBatch_forwards pool shieldID payloads hds outs st :
  Forall2 (accepted pool shieldID) payloads hds -> clean st ->
  Forall2 (forwarded shieldID (Header_rest (last_header (header st) hds)))
    (uncancelled (ProcessClient (zip_with context_of payloads hds))) outs ->
  exists h p, Forall (fun c => c = fresh_context) p /\ Header_rest h = Header_rest (last_header (header st) hds) /\
    handleClientBatch pool shieldID payloads st =
    recovering (fun r => ErrNew ("panic while handling batch: " +:+ r))
      (zoom server set_server (WriteBatch outs)) (mkBS h p (server st)).
Proof.
  intros Ha Hc Hf. destruct (decode_loop_accepted _ _ _ _ _ Ha Hc) as (p & Hd & Hp).
  destruct (encode_loop_forwards _ _ _ _ (mkBS (last_header (header st) hds) p (server st)) Hf eq_refl Hp)
    as (h & p' & He & Hr & Hp').
  exists h, p'. split; [done|]. split; [done|]. unfold handleClientBatch, recovering.
  rewrite (bind_eq_Ok _ _ _ _ _ Hd). fold batch_proto. by rewrite (bind_eq_Ok _ _ _ _ _ He).
Qed.

(** Contexts a processor left unmodified. *)
Lemma unmodified_raws (payloads : list (list byte)) ctxs :
  Forall2 (fun payload c => raw c = payload /\ modified c = false) payloads ctxs -> map raw ctxs = payloads.
Proof. induction 1 as [|x c xs cs [<- _] _ IH]; simpl; [done | by f_equal]. Qed.

Lemma unmodified_forwarded shieldID hr (payloads : list (list byte)) ctxs :
  isClientLatestVersion = true ->
  Forall2 (fun payload c => raw c = payload /\ modified c = false) payloads ctxs ->
  Forall2 (forwarded shieldID hr) (uncancelled ctxs) (map raw (uncancelled ctxs)).
Proof.
  intros Hv. unfold uncancelled. induction 1 as [|x c xs cs [_ Hm] _ IH]; simpl; [constructor|].
  rewrite filter_cons. case_decide; [|done]. simpl. constructor; [|done].
  unfold forwarded, passes. by rewrite Hm, Hv, orb_true_r.
Qed.

End Batch.

(** * Properties *)

Section Properties.
Context `{G : Gopher} `{P : !Protocols} `{Rt : Runtime} `{!SnappyLaws} {cb env : Type}.
Variables (s : Session) (type_name : packet -> string) (ProcessClient : list PacketContext -> list PacketContext).
Implicit Types st : BS (cb:=cb) (env:=env).

(** A batch from the client reaches the server.  When every payload has a
    readable header and a known id, and decodes where it must, then the server
    finds in one batch, in order, what is forwarded for each context the
    processor has not cancelled: the raw payload when the client is on the
    latest version and the packet was not decoded or not modified, and
    otherwise the packet's header and fields in the encoding of the server's
    protocol.  The sub-client ids of a header written anew are those of the
    last payload of the batch, whichever packet it heads. *)
Theorem client_batch_reaches_server pool shieldID payloads hds outs st (rest : list byte) :
  Forall2 (accepted s pool shieldID) payloads hds -> clean st ->
  Forall2 (forwarded s shieldID (Header_rest (last_header (header st) hds)))
    (uncancelled (ProcessClient (zip_with context_of payloads hds))) outs ->
  wf_cs (server st) -> live (server st) -> healthy_cs (server st) ->
  Forall (fun p => len p < 2 ^ 32) outs ->
  exists st' bytes,
    handleClientBatch s type_name ProcessClient pool shieldID payloads st = (Ok tt, st') /\
    clean st' /\ wf_cs (server st') /\
    sent (server st') = sent (server st) ++ bytes /\
    (outs = [] -> bytes = []) /\
    (outs <> [] -> len (batch_bytes outs) < 2 ^ 32 -> len bytes < 2 ^ 32 ->
     exists f data, peer_reads (bytes ++ rest) = Some (f, data, rest) /\
       Z.land f flagPacketIsBatch <> 0 /\ unbatch (length outs) data = Some outs).
Proof.
  intros Ha Hc Hf Hw Hl Hh Hlen.
  destruct (handleClientBatch_forwards s type_name ProcessClient pool shieldID _ _ _ _ Ha Hc Hf) as (h & p & Hp & _ & ->).
  destruct (WriteBatch_peer outs (server st) rest Hw Hl Hh Hlen)
    as (sv & bytes & Hrun & Hw' & _ & _ & Hsent & Hnil & Hpeer).
  exists (mkBS h p sv), bytes. split_and!; try done.
  - unfold recovering, zoom. simpl. by rewrite Hrun.
  - intros H1 H2 H3. destruct (Hpeer H1 H2 H3) as (f & data & Hr & Hb & _ & Hu). by exists f, data.
Qed.

(** C24: a client on the latest version whose packets the processor does not
    modify is served byte for byte: the server finds exactly the payloads the
    client sent, in order, less those the processor cancelled. *)
Theorem unmodified_batch_is_identity pool shieldID payloads hds st (rest : list byte) :
  let ctxs := ProcessClient (zip_with context_of payloads hds) in
  let outs := map raw (uncancelled ctxs) in
  isClientLatestVersion s = true -> Forall2 (accepted s pool shieldID) payloads hds -> clean st ->
  Forall2 (fun payload c => raw c = payload /\ modified c = false) payloads ctxs ->
  wf_cs (server st) -> live (server st) -> healthy_cs (server st) ->
  Forall (fun p => len p < 2 ^ 32) payloads -> len (batch_bytes outs) < 2 ^ 32 ->
  outs `sublist_of` payloads /\
  exists st' bytes,
    handleClientBatch s type_name ProcessClient pool shieldID payloads st = (Ok tt, st') /\
    sent (server st') = sent (server st) ++ bytes /\
    (outs = [] -> bytes = []) /\
    (outs <> [] -> len bytes < 2 ^ 32 ->
     exists f data, peer_reads (bytes ++ rest) = Some (f, data, rest) /\ unbatch (length outs) data = Some outs).
Proof.
  intros ctxs outs Hv Ha Hc Hp Hw Hl Hh Hlen Hb.
  assert (outs `sublist_of` payloads) as Hsub.
  { rewrite <- (unmodified_raws _ _ Hp). apply (fmap_sublist raw), sublist_filter. }
  split; [done|].
  pose proof (unmodified_forwarded s shieldID (Header_rest (last_header (header st) hds)) _ _ Hv Hp) as Hf.
  destruct (handleClientBatch_forwards s type_name ProcessClient pool shieldID _ _ _ _ Ha Hc Hf) as (h & p & Hp' & _ & ->).
  assert (Forall (fun p => len p < 2 ^ 32) outs) as Hlen'.
  { rewrite Forall_forall in *. intros x Hx. by apply Hlen, (sublist_subseteq _ _ Hsub). }
  destruct (WriteBatch_peer outs (server st) rest Hw Hl Hh Hlen')
    as (sv & bytes & Hrun & _ & _ & _ & Hsent & Hnil & Hpeer).
  exists (mkBS h p sv), bytes. split_and!; try done.
  - unfold recovering, zoom. cbn [server]. fold ctxs. fold outs. by rewrite Hrun.
  - intros Hne Hl2. destruct (Hpeer Hne Hb Hl2) as (f & data & Hr & _ & _ & Hu). by exists f, data.
Qed.

(** A batch is all or nothing: when a payload does not decode, because its
    header is unreadable, its id unknown, its decoder panics or leaves bytes
    over, the batch is an error and nothing of it is sent, not even the
    payloads before that one. *)
Theorem rejected_batch_sends_nothing pool shieldID payloads hds bad post st :
  Forall2 (accepted s pool shieldID) payloads hds -> clean st ->
  (forall h0 : Header hdr_rest, exists err h buf, Header_Read h0 bad = (err, h, buf) /\
     match err with
     | Some _ => True
     | None => match pool !! PacketID h with
       | None => True
       | Some factory => decode_needed s (PacketID h) = true /\
           match (Marshal (NewReader_IO (client_proto s) shieldID true) factory buf) with
           | (Ok _, extra) => 0 < len extra
           | (NoFuel, _) => False
           | _ => True
           end
       end
     end) ->
  exists e st', handleClientBatch s type_name ProcessClient pool shieldID (payloads ++ bad :: post) st = (Err e, st') /\
    server st' = server st.
Proof.
  intros Ha Hc Hbad.
  destruct (decode_loop_rejected s type_name pool shieldID payloads hds bad post st Ha Hc) as (e & st' & Hl & Hs).
  - intros st'. destruct (Hbad (header st')) as (err & h & buf & Hr & Hrest).
    unfold decodeAndCreateContext, recovering, bind at 1, gets. rewrite Hr. unfold bind at 1, modify.
    destruct err; [by eexists _, _|]. destruct (pool !! PacketID h) as [factory|]; [|by eexists _, _].
    destruct Hrest as [-> Hm]. cbn [negb]. unfold bind at 1, on_local.
    destruct (Marshal _ _ _) as [[pk|e|w|] extra]; [| by eexists _, _ | by eexists _, _ | done].
    rewrite (proj2 (Z.ltb_lt _ _) Hm). by eexists _, _.
  - exists e, st'. split; [|done]. unfold handleClientBatch, recovering. by rewrite (bind_eq_Err _ _ _ _ _ Hl).
Qed.

(** A session that synchronises protocols cannot serve a client on an
    older version: packets that are not selected for decoding are kept raw,
    and forwarding one dereferences its missing packet.  A batch that starts
    with such a packet ends in a panic, recovered as an error of the batch, and
    nothing of it is sent. *)
Theorem legacy_sync_batch_fails pool shieldID payload payloads hd hds st :
  let ctxs := zip_with context_of (payload :: payloads) (hd :: hds) in
  SyncProtocol (opts s) = true -> isClientLatestVersion s = false ->
  Forall2 (accepted s pool shieldID) (payload :: payloads) (hd :: hds) -> clean st ->
  decode_needed s (PacketID hd.1) = false -> ProcessClient ctxs = ctxs ->
  exists st', handleClientBatch s type_name ProcessClient pool shieldID (payload :: payloads) st
    = (Err (ErrNew "panic while handling batch: runtime error: invalid memory address or nil pointer dereference"), st') /\
    server st' = server st.
Proof.
  intros ctxs Hsync Hv Ha Hc Hdec Hproc.
  destruct (decode_loop_accepted s type_name _ _ _ _ _ Ha Hc) as (p & Hd & _). fold ctxs in Hd.
  assert (hd.2 = None) as Hnone.
  { apply Forall2_cons in Ha as [(buf & factory & _ & _ & Hd') _]. by rewrite Hdec in Hd'. }
  eexists (mkBS _ p (server st)). split; [|done]. unfold handleClientBatch, recovering.
  rewrite (bind_eq_Ok _ _ _ _ _ Hd), Hproc. subst ctxs. simpl. rewrite Hv, Hnone. reflexivity.
Qed.

End Properties.

(** * Witnesses *)

#[local] Existing Instances toy_types toy toy_protocols toy_runtime toy_SnappyLaws.

Definition toy_opts (sync : bool) : Opts := mkOpts "" true false {[ 503 ]} 3000 "" sync.
Definition toy_session : Session := mkSession (toy_opts false) 800.
Definition toy_type_name (_ : packet) : string := "packet".

(** A processor that marks every decoded packet as modified. *)
Definition toy_ProcessClient : list PacketContext -> list PacketContext :=
  map (fun c => match decoded c with Some _ => SetModified c | None => c end).

Definition toy_header (id : Z) (rest : byte) : Header hdr_rest := mkHeader id rest.
Definition toy_BS : BS (cb:=unit) (env:=unit) := mkBS (toy_header 0 Byte.x00) [] (toy_cs []).

(** An AddActor, which need not be decoded, and a Latency, which must. *)
Definition toy_actor_payload : list byte := [Byte.x0d; Byte.x00; Byte.x09].
Definition toy_latency_payload : list byte := le_bytes 2 503 ++ [Byte.x04] ++ le_bytes 8 12 ++ le_bytes 8 34.
Definition toy_payloads : list (list byte) := [toy_actor_payload; toy_latency_payload].
Definition toy_hds : list (Header hdr_rest * option packet) :=
  [(toy_header 13 Byte.x09, None); (toy_header 503 Byte.x04, Some (SLatency (mkLatency 12 34)))].

Lemma toy_accepted s : decode_needed s 13 = false -> decode_needed s 503 = true -> SyncProtocol (opts s) || isClientLatestVersion s = true ->
  Forall2 (accepted s (toy_packets 800 true) 0) toy_payloads toy_hds.
Proof.
  intros H1 H2 H3. constructor; [|constructor; [|constructor]];
    (do 2 eexists; split_and!; [intros []; vm_compute; reflexivity | vm_compute; reflexivity |]);
    cbn [toy_hds fst toy_header PacketID]; rewrite ?H1, ?H2; [done|].
  eexists; split_and!; [vm_compute; reflexivity | | done].
  by destruct (SyncProtocol (opts s)), (isClientLatestVersion s).
Qed.

Lemma client_batch_reaches_server_witness :
  exists st' bytes,
    let outs := [toy_actor_payload; toy_latency_payload] in
    handleClientBatch toy_session toy_type_name toy_ProcessClient (toy_packets 800 true) 0 toy_payloads toy_BS = (Ok tt, st') /\
    clean st' /\ wf_cs (server st') /\
    sent (server st') = sent (server toy_BS) ++ bytes /\
    (outs = [] -> bytes = []) /\
    (outs <> [] -> len (batch_bytes outs) < 2 ^ 32 -> len bytes < 2 ^ 32 ->
     exists f data, peer_reads (bytes ++ []) = Some (f, data, []) /\
       Z.land f flagPacketIsBatch <> 0 /\ unbatch (length outs) data = Some outs).
Proof.
  apply (client_batch_reaches_server toy_session toy_type_name toy_ProcessClient (toy_packets 800 true) 0
    toy_payloads toy_hds [toy_actor_payload; toy_latency_payload] toy_BS []).
  - apply toy_accepted; vm_compute; reflexivity.
  - constructor.
  - constructor; [reflexivity|]. constructor; [|constructor].
    exists (SLatency (mkLatency 12 34)), (le_bytes 2 503 ++ [Byte.x04]), (le_bytes 8 12 ++ le_bytes 8 34).
    split_and!; [reflexivity | reflexivity | intros buf; reflexivity |].
    intros buf. eexists. rewrite (assoc_L (++)). reflexivity.
  - repeat constructor.
  - reflexivity.
  - reflexivity.
  - repeat constructor.
Defined.

Lemma unmodified_batch_is_identity_witness :
  let ctxs := id (zip_with context_of toy_payloads toy_hds) in
  let outs := map raw (uncancelled ctxs) in
  outs `sublist_of` toy_payloads /\
  exists st' bytes,
    handleClientBatch toy_session toy_type_name id (toy_packets 800 true) 0 toy_payloads toy_BS = (Ok tt, st') /\
    sent (server st') = sent (server toy_BS) ++ bytes /\
    (outs = [] -> bytes = []) /\
    (outs <> [] -> len bytes < 2 ^ 32 ->
     exists f data, peer_reads (bytes ++ []) = Some (f, data, []) /\ unbatch (length outs) data = Some outs).
Proof.
  apply (unmodified_batch_is_identity toy_session toy_type_name id (toy_packets 800 true) 0 toy_payloads toy_hds toy_BS []);
    [reflexivity | apply toy_accepted; vm_compute; reflexivity | constructor | repeat constructor
    | repeat constructor | reflexivity | reflexivity | repeat constructor | vm_compute; reflexivity].
Defined.

Lemma rejected_batch_sends_nothing_witness :
  exists e st', handleClientBatch toy_session toy_type_name id (toy_packets 800 true) 0
      (toy_payloads ++ [Byte.x01] :: []) toy_BS = (Err e, st') /\
    server st' = server toy_BS.
Proof.
  apply (rejected_batch_sends_nothing toy_session toy_type_name id (toy_packets 800 true) 0 toy_payloads toy_hds
    [Byte.x01] [] toy_BS);
    [apply toy_accepted; vm_compute; reflexivity | constructor |].
  intros h0. exists (Some EOF), h0, []. split; reflexivity.
Defined.

Definition toy_legacy : Session := mkSession (toy_opts true) 700.

Lemma legacy_sync_batch_fails_witness :
  exists st', handleClientBatch toy_legacy toy_type_name id (toy_packets 800 true) 0 toy_payloads toy_BS
    = (Err (ErrNew "panic while handling batch: runtime error: invalid memory address or nil pointer dereference"), st') /\
    server st' = server toy_BS.
Proof.
  apply (legacy_sync_batch_fails toy_legacy toy_type_name id (toy_packets 800 true) 0 toy_actor_payload
    [toy_latency_payload] (toy_header 13 Byte.x09, None) [(toy_header 503 Byte.x04, Some (SLatency (mkLatency 12 34)))] toy_BS);
    [reflexivity | reflexivity | apply toy_accepted; vm_compute; reflexivity | constructor | reflexivity | reflexivity].
Defined.
