(* ===== verification/Tracker.v ===== *)
(** * Tracker: what the client has been shown

    [session/tracker.go]: the sets of entities, effects, boss bars, players and
    scoreboards a server has put on the client's screen, kept so that a
    transfer can take them off again.  The sets are [gset]s; the packets a
    clearing method hands to [s.client.WritePacket], whose error it drops, are
    recorded in the order of the calls.  [Each] visits a set in an unspecified
    order ([IterationOrder]). *)

From S2P Require Import Prelude Minecraft ServerPacket Conn Toy.

Local Open Scope Z_scope.
Local Open Scope go_scope.

Record tracker := mkTracker {
  bossBars : gset Z;
  effects : gset Z;
  entities : gset Z;
  players : gset (list byte);
  scoreboards : gset string;
}.

Definition newTracker : tracker := mkTracker ∅ ∅ ∅ ∅ ∅.

Definition set_bossBars x t := mkTracker x (effects t) (entities t) (players t) (scoreboards t).
Definition set_effects x t := mkTracker (bossBars t) x (entities t) (players t) (scoreboards t).
Definition set_entities x t := mkTracker (bossBars t) (effects t) x (players t) (scoreboards t).
Definition set_players x t := mkTracker (bossBars t) (effects t) (entities t) x (scoreboards t).
Definition set_scoreboards x t := mkTracker (bossBars t) (effects t) (entities t) (players t) x.

Section Tracker.
Context `{G : Gopher}.

(** The body of the loop over the entries of a PlayerList. *)
Definition handle_entry (ActionType : Z) (t : tracker) (entry : list byte * body) : tracker :=
  if ActionType =? const PlayerListActionAdd
  then set_players (players t ∪ {[ entry.1 ]}) t
  else set_players (players t ∖ {[ entry.1 ]}) t.

(** [handlePacket] *)
Definition handlePacket (t : tracker) (pk : packet) : tracker :=
  match pk with
  | Gt (AddActor id _) => set_entities (entities t ∪ {[ id ]}) t
  | Gt (AddItemActor id _) => set_entities (entities t ∪ {[ id ]}) t
  | Gt (AddPainting id _) => set_entities (entities t ∪ {[ id ]}) t
  | Gt (AddPlayer id _) => set_entities (entities t ∪ {[ id ]}) t
  | Gt (BossEvent id _ _) => set_bossBars (bossBars t ∪ {[ id ]}) t
  | Gt (MobEffect _ op ty _) =>
      if op =? const MobEffectAdd then set_effects (effects t ∪ {[ ty ]}) t
      else if op =? const MobEffectRemove then set_effects (effects t ∖ {[ ty ]}) t
      else t
  | Gt (PlayerList action entries) => foldl (handle_entry action) t entries
  | Gt (RemoveActor id _) => set_entities (entities t ∖ {[ id ]}) t
  | Gt (RemoveObjective name _) => set_scoreboards (scoreboards t ∖ {[ name ]}) t
  | Gt (SetDisplayObjective name _) => set_scoreboards (scoreboards t ∪ {[ name ]}) t
  | _ => t
  end.

(** ** Clearing *)

(** The tracker and the packets handed to the client. *)
Record TS := mkTS { tr : tracker; out : list packet }.

Definition upd_tr (f : tracker -> tracker) (s : TS) : TS := mkTS (f (tr s)) (out s).

(** [_ = s.client.WritePacket(pk)] *)
Definition client_WritePacket (pk : gt_packet) : M TS unit :=
  modify (fun s => mkTS (tr s) (out s ++ [Gt pk])).

Context `{IO : IterationOrder}.

(** The order of one [Each] over a set. *)
Definition each {A} `{Countable A} (X : gset A) : list A := visit (elements X).

Definition clearBossBars : M TS unit :=
  let! t := gets tr in
  for_each (fun i => client_WritePacket (BossEvent i (const BossEventHide) body_zero)) (each (bossBars t)) ;;;
  modify (upd_tr (set_bossBars ∅)).

(** [EntityRuntimeID] is that of the client's game data. *)
Definition clearEffects (EntityRuntimeID : Z) : M TS unit :=
  let! t := gets tr in
  for_each (fun i => client_WritePacket (MobEffect EntityRuntimeID (const MobEffectRemove) i body_zero))
    (each (effects t)) ;;;
  modify (upd_tr (set_effects ∅)).

Definition clearEntities : M TS unit :=
  let! t := gets tr in
  for_each (fun i => client_WritePacket (RemoveActor i body_zero)) (each (entities t)) ;;;
  modify (upd_tr (set_entities ∅)).

Definition clearPlayers : M TS unit :=
  let! t := gets tr in
  let entries := map (fun i => (i, body_zero)) (each (players t)) in
  modify (upd_tr (set_players ∅)) ;;;
  client_WritePacket (PlayerList (const PlayerListActionRemove) entries).

Definition clearScoreboards : M TS unit :=
  let! t := gets tr in
  for_each (fun i => client_WritePacket (RemoveObjective i body_zero)) (each (scoreboards t)) ;;;
  modify (upd_tr (set_scoreboards ∅)).

(** The critical section of [sendGameData] (session.go). *)
Definition clearAll (EntityRuntimeID : Z) : M TS unit :=
  clearEffects EntityRuntimeID ;;;
  clearEntities ;;;
  clearBossBars ;;;
  clearPlayers ;;;
  clearScoreboards.

(** ** Specification *)

(** What happens to an element of a set: it appears or disappears. *)
Definition event (A : Type) : Type := A * bool.

Definition entity_events (pk : packet) : list (event Z) :=
  match pk with
  | Gt (AddActor id _) | Gt (AddItemActor id _) | Gt (AddPainting id _) | Gt (AddPlayer id _) => [(id, true)]
  | Gt (RemoveActor id _) => [(id, false)]
  | _ => []
  end.

Definition effect_events (pk : packet) : list (event Z) :=
  match pk with
  | Gt (MobEffect _ op ty _) =>
      if op =? const MobEffectAdd then [(ty, true)]
      else if op =? const MobEffectRemove then [(ty, false)] else []
  | _ => []
  end.

(** No packet makes a boss bar disappear. *)
Definition boss_events (pk : packet) : list (event Z) :=
  match pk with Gt (BossEvent id _ _) => [(id, true)] | _ => [] end.

(** What is on the client's screen, as the client has it: a boss event that
    hides takes the boss bar off, and any other is counted as showing it; the
    rest is as in [handlePacket]. *)
Definition client_sees (t : tracker) (pk : packet) : tracker :=
  match pk with
  | Gt (BossEvent id ty _) =>
      if ty =? const BossEventHide then set_bossBars (bossBars t ∖ {[ id ]}) t
      else set_bossBars (bossBars t ∪ {[ id ]}) t
  | _ => handlePacket t pk
  end.

Definition seen_boss_events (pk : packet) : list (event Z) :=
  match pk with Gt (BossEvent id ty _) => [(id, negb (ty =? const BossEventHide))] | _ => [] end.

Definition player_events (pk : packet) : list (event (list byte)) :=
  match pk with
  | Gt (PlayerList action entries) => map (fun e => (e.1, action =? const PlayerListActionAdd)) entries
  | _ => []
  end.

Definition scoreboard_events (pk : packet) : list (event string) :=
  match pk with
  | Gt (RemoveObjective name _) => [(name, false)]
  | Gt (SetDisplayObjective name _) => [(name, true)]
  | _ => []
  end.

(** The last event of an element: is it there? *)
Fixpoint last_event {A} `{EqDecision A} (x : A) (es : list (event A)) : option bool :=
  match es with
  | [] => None
  | (y, b) :: es =>
      match last_event x es with
      | Some b' => Some b'
      | None => if decide (x = y) then Some b else None
      end
  end.

(** Constants of the library that differ. *)
Class ConstLaws : Prop := {
  MobEffect_ops : const MobEffectRemove <> const MobEffectAdd;
  PlayerList_actions : const PlayerListActionRemove <> const PlayerListActionAdd;
}.

(** * Lemmas *)

Definition apply_event {A} `{Countable A} (X : gset A) (e : event A) : gset A :=
  if e.2 then X ∪ {[ e.1 ]} else X ∖ {[ e.1 ]}.

Lemma elem_of_apply_events {A} `{Countable A} (x : A) es X :
  x ∈ foldl apply_event X es <-> default (bool_decide (x ∈ X)) (last_event x es) = true.
Proof.
  revert X. induction es as [|[y b] es IH]; intros X; simpl.
  - by rewrite bool_decide_eq_true.
  - rewrite IH. clear IH. destruct (last_event x es); [done|]. simpl.
    unfold apply_event. simpl. destruct (decide (x = y)) as [-> | Hne]; simpl;
      rewrite !bool_decide_eq_true; destruct b; rewrite ?elem_of_union, ?elem_of_difference, ?elem_of_singleton; intuition congruence.
Qed.

(** Each set follows its events. *)
Lemma sets_follow_events t pk :
  entities (handlePacket t pk) = foldl apply_event (entities t) (entity_events pk) /\
  effects (handlePacket t pk) = foldl apply_event (effects t) (effect_events pk) /\
  bossBars (handlePacket t pk) = foldl apply_event (bossBars t) (boss_events pk) /\
  players (handlePacket t pk) = foldl apply_event (players t) (player_events pk) /\
  scoreboards (handlePacket t pk) = foldl apply_event (scoreboards t) (scoreboard_events pk).
Proof.
  destruct pk as [| | | | | |[]]; simpl; try done.
  - by destruct (_ =? _); [|destruct (_ =? _)].
  - revert t. induction Entries as [|[u b] es IH]; intros t; simpl; [done|].
    destruct (IH (handle_entry ActionType t (u, b))) as (-> & -> & -> & -> & ->).
    unfold handle_entry, apply_event. simpl. by destruct (_ =? _).
Qed.

Lemma sets_follow_history pks t :
  let t' := foldl handlePacket t pks in
  entities t' = foldl apply_event (entities t) (concat (map entity_events pks)) /\
  effects t' = foldl apply_event (effects t) (concat (map effect_events pks)) /\
  bossBars t' = foldl apply_event (bossBars t) (concat (map boss_events pks)) /\
  players t' = foldl apply_event (players t) (concat (map player_events pks)) /\
  scoreboards t' = foldl apply_event (scoreboards t) (concat (map scoreboard_events pks)).
Proof.
  revert t. induction pks as [|pk pks IH]; intros t; simpl; [done|].
  destruct (IH (handlePacket t pk)) as (-> & -> & -> & -> & ->).
  destruct (sets_follow_events t pk) as (-> & -> & -> & -> & ->). by rewrite !foldl_app.
Qed.

(** The client sees at most what is tracked. *)
Record tracked_by (t seen : tracker) : Prop := {
  tb_entities : entities seen = entities t;
  tb_effects : effects seen = effects t;
  tb_players : players seen = players t;
  tb_scoreboards : scoreboards seen = scoreboards t;
  tb_bossBars : bossBars seen ⊆ bossBars t;
}.

Lemma handlePacket_tracked t seen pk :
  tracked_by t seen -> tracked_by (handlePacket t pk) (handlePacket seen pk).
Proof.
  intros [E1 E2 E3 E4 E5]. destruct (sets_follow_events t pk) as (He & Hf & Hb & Hp & Hs).
  destruct (sets_follow_events seen pk) as (He' & Hf' & Hb' & Hp' & Hs').
  split; rewrite ?He, ?He', ?Hf, ?Hf', ?Hp, ?Hp', ?Hs, ?Hs', ?E1, ?E2, ?E3, ?E4; [done..|].
  rewrite Hb, Hb'. destruct pk as [| | | | | |[]]; try done. simpl. unfold apply_event. simpl. set_solver.
Qed.

Lemma client_sees_tracked t seen pk :
  tracked_by t seen -> tracked_by (handlePacket t pk) (client_sees seen pk).
Proof.
  intros Ht. pose proof (handlePacket_tracked t seen pk Ht) as Hp.
  destruct pk as [| | | | | |[]]; try exact Hp. destruct Ht. simpl. destruct (_ =? _); split; simpl; set_solver.
Qed.

Lemma history_tracked pks t seen :
  tracked_by t seen -> tracked_by (foldl handlePacket t pks) (foldl client_sees seen pks).
Proof. revert t seen. induction pks; intros; simpl; auto using client_sees_tracked. Qed.

Lemma client_bossBars pks seen :
  bossBars (foldl client_sees seen pks) = foldl apply_event (bossBars seen) (concat (map seen_boss_events pks)).
Proof.
  revert seen. induction pks as [|pk pks IH]; intros seen; simpl; [done|]. rewrite foldl_app, IH. f_equal.
  destruct (sets_follow_events seen pk) as (_ & _ & Hb & _).
  destruct pk as [| | | | | |[]]; try exact Hb. simpl. unfold apply_event. simpl. by destruct (_ =? _).
Qed.

Lemma send_each {A} (f : A -> gt_packet) xs s :
  for_each (fun i => client_WritePacket (f i)) xs s = (Ok tt, mkTS (tr s) (out s ++ map (fun i => Gt (f i)) xs)).
Proof.
  revert s. induction xs as [|x xs IH]; intros s; simpl.
  - rewrite app_nil_r. by destruct s.
  - unfold bind. simpl. rewrite IH. simpl. by rewrite <- (assoc_L (++)).
Qed.

Lemma each_perm {A} `{Countable A} (X : gset A) : each X ≡ₚ elements X.
Proof. apply visit_perm. Qed.

(** The packets [clearAll] hands to the client, set by set. *)
Definition removals (rid : Z) (t : tracker) : list packet :=
  map (fun i => Gt (MobEffect rid (const MobEffectRemove) i body_zero)) (each (effects t)) ++
  map (fun i => Gt (RemoveActor i body_zero)) (each (entities t)) ++
  map (fun i => Gt (BossEvent i (const BossEventHide) body_zero)) (each (bossBars t)) ++
  [Gt (PlayerList (const PlayerListActionRemove) (map (fun i => (i, body_zero)) (each (players t))))] ++
  map (fun i => Gt (RemoveObjective i body_zero)) (each (scoreboards t)).

Ltac clear_eq f xs :=
  unfold bind at 1, gets; rewrite (bind_eq_Ok _ _ _ _ _ (send_each f xs _)); reflexivity.

Lemma clearBossBars_eq s :
  clearBossBars s = (Ok tt, mkTS (set_bossBars ∅ (tr s))
    (out s ++ map (fun i => Gt (BossEvent i (const BossEventHide) body_zero)) (each (bossBars (tr s))))).
Proof. unfold clearBossBars. clear_eq (fun i => BossEvent i (const BossEventHide) body_zero) (each (bossBars (tr s))). Qed.

Lemma clearEffects_eq rid s :
  clearEffects rid s = (Ok tt, mkTS (set_effects ∅ (tr s))
    (out s ++ map (fun i => Gt (MobEffect rid (const MobEffectRemove) i body_zero)) (each (effects (tr s))))).
Proof. unfold clearEffects. clear_eq (fun i => MobEffect rid (const MobEffectRemove) i body_zero) (each (effects (tr s))). Qed.

Lemma clearEntities_eq s :
  clearEntities s = (Ok tt, mkTS (set_entities ∅ (tr s))
    (out s ++ map (fun i => Gt (RemoveActor i body_zero)) (each (entities (tr s))))).
Proof. unfold clearEntities. clear_eq (fun i => RemoveActor i body_zero) (each (entities (tr s))). Qed.

Lemma clearScoreboards_eq s :
  clearScoreboards s = (Ok tt, mkTS (set_scoreboards ∅ (tr s))
    (out s ++ map (fun i => Gt (RemoveObjective i body_zero)) (each (scoreboards (tr s))))).
Proof. unfold clearScoreboards. clear_eq (fun i => RemoveObjective i body_zero) (each (scoreboards (tr s))). Qed.

Lemma clearPlayers_eq s :
  clearPlayers s = (Ok tt, mkTS (set_players ∅ (tr s))
    (out s ++ [Gt (PlayerList (const PlayerListActionRemove) (map (fun i => (i, body_zero)) (each (players (tr s)))))])).
Proof. reflexivity. Qed.

Lemma clearAll_eq rid s :
  clearAll rid s = (Ok tt, mkTS newTracker (out s ++ removals rid (tr s))).
Proof.
  unfold clearAll.
  rewrite (bind_eq_Ok _ _ _ _ _ (clearEffects_eq _ _)), (bind_eq_Ok _ _ _ _ _ (clearEntities_eq _)),
    (bind_eq_Ok _ _ _ _ _ (clearBossBars_eq _)).
  rewrite (bind_eq_Ok _ _ _ _ _ (clearPlayers_eq _)), clearScoreboards_eq.
  simpl. unfold removals. by rewrite <- !(assoc_L (++)).
Qed.

(** Events that all say the same. *)
Lemma last_event_const {A} `{EqDecision A} (x : A) b (es : list (event A)) :
  Forall (fun e => e.2 = b) es -> last_event x es = if bool_decide (x ∈ es.*1) then Some b else None.
Proof.
  induction 1 as [|[y b'] es Hb _ IH]; simpl in *; [done|]. subst b'. rewrite IH.
  destruct (decide (x = y)) as [-> | Hne]; repeat case_bool_decide; try done; exfalso;
    repeat match goal with Hx : context [_ ∈ _ :: _] |- _ => rewrite elem_of_cons in Hx end; intuition.
Qed.

Lemma apply_removals {A} `{Countable A} (X : gset A) es :
  Forall (fun e => e.2 = false) es -> (forall x, x ∈ X -> x ∈ es.*1) -> foldl apply_event X es = ∅.
Proof.
  intros Hes HX. apply set_eq. intros x. rewrite elem_of_apply_events, (last_event_const x false) by done.
  split; [|by intros ?%not_elem_of_empty].
  repeat case_bool_decide; simpl; intros [=]. exfalso. auto.
Qed.

(** The events of packets made from a list. *)
Lemma events_of_map {A B} (ev : packet -> list B) (f : A -> packet) (g : A -> list B) xs :
  (forall x, ev (f x) = g x) -> concat (map ev (map f xs)) = concat (map g xs).
Proof. intros E. f_equal. rewrite map_map. by apply map_ext. Qed.

Lemma concat_map_nil {A B} (xs : list A) : concat (map (fun _ => @nil B) xs) = [].
Proof. by induction xs. Qed.

Lemma concat_map_one {A B} (f : A -> B) xs : concat (map (fun x => [f x]) xs) = map f xs.
Proof. induction xs as [|x xs IH]; simpl; [done | by rewrite IH]. Qed.

Lemma move_front {A} (ks ls ms ns : list A) x : ks ++ ls ++ ms ++ [x] ++ ns ≡ₚ x :: ks ++ ls ++ ms ++ ns.
Proof. simpl. rewrite <- !Permutation_middle. done. Qed.

Lemma boss_events_true pks : Forall (fun e => e.2 = true) (concat (map boss_events pks)).
Proof. induction pks as [|[| | | | | |[]] pks IH]; simpl; try done. by constructor. Qed.

Lemma boss_names pks x :
  x ∈ (concat (map boss_events pks)).*1 <-> exists ty b, Gt (BossEvent x ty b) ∈ pks.
Proof.
  induction pks as [|pk pks IH]; simpl.
  - split; [by intros ?%not_elem_of_nil | by intros (? & ? & ?%not_elem_of_nil)].
  - rewrite fmap_app, elem_of_app, IH. setoid_rewrite elem_of_cons.
    split; [|by intros (ty & b & [<- | Hin]); [left; left | right; eauto]].
    intros [Hx | (ty & b & Hin)]; [|eauto]. destruct pk as [| | | | | |[]]; try by apply not_elem_of_nil in Hx.
    apply list_elem_of_singleton in Hx as ->. eauto.
Qed.

Lemma removed_all {A} `{Countable A} (X Y : gset A) :
  X ⊆ Y -> foldl apply_event X (map (fun i => (i, false)) (each Y)) = ∅.
Proof.
  intros HXY. apply apply_removals.
  - apply Forall_map, Forall_forall. done.
  - intros x Hx%HXY. rewrite <- list_fmap_compose. apply list_elem_of_fmap. exists x. split; [done|].
    by rewrite each_perm, elem_of_elements.
Qed.

Lemma added_again {A} `{Countable A} (X : gset A) :
  foldl apply_event X (map (fun i => (i, true)) (each X)) = X.
Proof.
  apply set_eq. intros x. rewrite elem_of_apply_events, (last_event_const x true) by by apply Forall_map, Forall_forall.
  assert (x ∈ (map (fun i => (i, true)) (each X)).*1 -> x ∈ X) as Hx.
  { rewrite <- list_fmap_compose, list_elem_of_fmap. intros (y & -> & Hy). by rewrite each_perm, elem_of_elements in Hy. }
  destruct (bool_decide_reflect (x ∈ (map (fun i => (i, true)) (each X)).*1)) as [Hin|]; simpl; [by split; auto|].
  by rewrite bool_decide_eq_true.
Qed.

Lemma removal_events `{!ConstLaws} rid t :
  concat (map entity_events (removals rid t)) = map (fun i => (i, false)) (each (entities t)) /\
  concat (map effect_events (removals rid t)) = map (fun i => (i, false)) (each (effects t)) /\
  concat (map player_events (removals rid t)) = map (fun i => (i, false)) (each (players t)) /\
  concat (map scoreboard_events (removals rid t)) = map (fun i => (i, false)) (each (scoreboards t)) /\
  concat (map seen_boss_events (removals rid t)) = map (fun i => (i, false)) (each (bossBars t)) /\
  concat (map boss_events (removals rid t)) = map (fun i => (i, true)) (each (bossBars t)).
Proof.
  pose proof (proj2 (Z.eqb_neq _ _) MobEffect_ops) as E1.
  pose proof (proj2 (Z.eqb_neq _ _) PlayerList_actions) as E2.
  unfold removals. rewrite !map_app, !concat_app, !map_map. simpl.
  rewrite E1, E2, !Z.eqb_refl, !concat_map_nil, !concat_map_one, !app_nil_r, ?map_map. done.
Qed.

(** What the tracker would make of the removals, and what the client does. *)
Lemma mirrored_removals `{!ConstLaws} rid t :
  let seen := foldl handlePacket t (removals rid t) in
  entities seen = ∅ /\ effects seen = ∅ /\ players seen = ∅ /\ scoreboards seen = ∅ /\ bossBars seen = bossBars t.
Proof.
  destruct (sets_follow_history (removals rid t) t) as (He & Hf & Hb & Hp & Hs).
  destruct (removal_events rid t) as (Ee & Ef & Ep & Es & _ & Eb). rewrite Ee in He. rewrite Ef in Hf.
  rewrite Ep in Hp. rewrite Es in Hs. rewrite Eb in Hb. simpl. rewrite He, Hf, Hp, Hs, !removed_all by done.
  by rewrite Hb, added_again.
Qed.

Lemma screen_cleared `{!ConstLaws} rid t seen :
  tracked_by t seen -> foldl client_sees seen (removals rid t) = newTracker.
Proof.
  intros Ht. destruct (history_tracked (removals rid t) t seen Ht) as [E1 E2 E3 E4 _].
  destruct (mirrored_removals rid t) as (He & Hf & Hp & Hs & _).
  pose proof (client_bossBars (removals rid t) seen) as Hb.
  destruct (removal_events rid t) as (_ & _ & _ & _ & Eb & _). rewrite Eb, removed_all in Hb by apply Ht.
  destruct (foldl client_sees seen (removals rid t)). simpl in *. unfold newTracker. congruence.
Qed.

End Tracker.

(** * Properties *)

Section Properties.
Context `{G : Gopher} `{IO : IterationOrder}.

(** C26: after any packets from the server, an entity, effect, player or
    scoreboard is tracked exactly when the last packet about it made it
    appear; a boss bar as soon as a boss event named it, whatever the
    event. *)
Theorem tracker_follows_packets (pks : list packet) :
  let t := foldl handlePacket newTracker pks in
  (forall id, id ∈ entities t <-> last_event id (concat (map entity_events pks)) = Some true) /\
  (forall ty, ty ∈ effects t <-> last_event ty (concat (map effect_events pks)) = Some true) /\
  (forall u, u ∈ players t <-> last_event u (concat (map player_events pks)) = Some true) /\
  (forall n, n ∈ scoreboards t <-> last_event n (concat (map scoreboard_events pks)) = Some true) /\
  (forall id, id ∈ bossBars t <-> exists ty b, Gt (BossEvent id ty b) ∈ pks).
Proof.
  intros t. destruct (sets_follow_history pks newTracker) as (He & Hf & Hb & Hp & Hs). fold t in He, Hf, Hb, Hp, Hs.
  assert (forall A `{Countable A} (x : A) es,
    x ∈ foldl apply_event ∅ es <-> last_event x es = Some true) as Hev.
  { intros A ? ? x es. rewrite elem_of_apply_events, bool_decide_false by set_solver.
    destruct (last_event x es) as [[]|]; naive_solver. }
  split_and!; intros x.
  - by rewrite He, Hev.
  - by rewrite Hf, Hev.
  - by rewrite Hp, Hev.
  - by rewrite Hs, Hev.
  - rewrite Hb, Hev, (last_event_const x true), <- boss_names by apply boss_events_true.
    by case_bool_decide.
Qed.

(** C25: a transfer takes everything off the screen.  Clearing hands the client
    one removal for each tracked effect, entity, boss bar and scoreboard and
    one player list with exactly the tracked players, whatever the order the
    sets are visited in, and leaves the tracker empty.  If the tracker has
    followed the packets of the servers from an empty one, then a client that
    has handled the same packets and handles the removals, hiding a boss bar
    when it is told to ([client_sees]; effects counted by their type), has no
    entity, effect, player, scoreboard or boss bar left.  The tracker's own
    rules would not say so: by [handlePacket] the removals leave no entities,
    effects, players or scoreboards, but every boss bar, since a boss event
    only ever adds one. *)
Theorem clearAll_removes_everything `{!ConstLaws} (rid : Z) (t : tracker) (o : list packet) :
  exists pks, clearAll rid (mkTS t o) = (Ok tt, mkTS newTracker (o ++ pks)) /\
  (exists entries, entries ≡ₚ map (fun u => (u, body_zero)) (elements (players t)) /\
    pks ≡ₚ Gt (PlayerList (const PlayerListActionRemove) entries) ::
      map (fun i => Gt (MobEffect rid (const MobEffectRemove) i body_zero)) (elements (effects t)) ++
      map (fun i => Gt (RemoveActor i body_zero)) (elements (entities t)) ++
      map (fun i => Gt (BossEvent i (const BossEventHide) body_zero)) (elements (bossBars t)) ++
      map (fun i => Gt (RemoveObjective i body_zero)) (elements (scoreboards t))) /\
  (let seen := foldl handlePacket t pks in
   entities seen = ∅ /\ effects seen = ∅ /\ players seen = ∅ /\ scoreboards seen = ∅ /\ bossBars seen = bossBars t) /\
  forall history, t = foldl handlePacket newTracker history ->
    foldl client_sees newTracker (history ++ pks) = newTracker.
Proof.
  exists (removals rid t). split; [apply clearAll_eq|]. split.
  - exists (map (fun i => (i, body_zero)) (each (players t))). split; [by apply Permutation_map, each_perm|].
    unfold removals. rewrite move_front. apply Permutation_skip. by rewrite !each_perm.
  - split; [apply mirrored_removals|]. intros history Ht. rewrite foldl_app. apply screen_cleared.
    rewrite Ht. by apply history_tracked.
Qed.

End Properties.

(** * Witnesses *)

Definition toy_ConstLaws : @ConstLaws toy_types toy.
Proof. by split. Defined.

(** Sets visited in the order of [elements]. *)
Definition in_order : IterationOrder := {| visit A l := l; visit_perm A l := Permutation_refl l |}.

#[local] Existing Instances toy_types toy toy_ConstLaws in_order.

Lemma clearAll_removes_everything_witness :
  let t := foldl handlePacket newTracker
    [Gt (BossEvent 1 0 body_zero); Gt (MobEffect 9 (const MobEffectAdd) 2 body_zero); Gt (AddActor 3 body_zero);
     Gt (AddPlayer 4 body_zero); Gt (PlayerList (const PlayerListActionAdd) [([Byte.x05], body_zero)]);
     Gt (SetDisplayObjective "score" body_zero)] in
  exists pks, clearAll 9 (mkTS t []) = (Ok tt, mkTS newTracker ([] ++ pks)) /\
  (exists entries, entries ≡ₚ map (fun u => (u, body_zero)) (elements (players t)) /\
    pks ≡ₚ Gt (PlayerList (const PlayerListActionRemove) entries) ::
      map (fun i => Gt (MobEffect 9 (const MobEffectRemove) i body_zero)) (elements (effects t)) ++
      map (fun i => Gt (RemoveActor i body_zero)) (elements (entities t)) ++
      map (fun i => Gt (BossEvent i (const BossEventHide) body_zero)) (elements (bossBars t)) ++
      map (fun i => Gt (RemoveObjective i body_zero)) (elements (scoreboards t))) /\
  (let seen := foldl handlePacket t pks in
   entities seen = ∅ /\ effects seen = ∅ /\ players seen = ∅ /\ scoreboards seen = ∅ /\ bossBars seen = bossBars t) /\
  forall history, t = foldl handlePacket newTracker history ->
    foldl client_sees newTracker (history ++ pks) = newTracker.
Proof. intros t. apply (clearAll_removes_everything 9 t []). Defined.
