(* ===== verification/Transport.v ===== *)
(** * Transport: one cached connection per server address

    [transport/quic.go] and [transport/spectral.go]: [Dial] opens a stream on
    the cached connection to an address, dialling one when there is none; a
    goroutine per connection waits for its end and takes it out of the cache
    when the cache still holds that very connection.  Connections are
    identified by numbers (pointer equality in the code); dialling and opening
    streams are the work of the QUIC and spectral libraries, whose results are
    arguments.  The mutex makes [Dial] and the critical section of a watcher
    one step each. *)

From S2P Require Import Prelude.

Local Open Scope go_scope.

Section Transport.
Context {stream : Type}.

Abbreviation conn_id := nat.

(** The cache, and the watchers that are waiting for the end of their
    connection. *)
Record Transport := mkTransport {
  connections : gmap string conn_id;
  watchers : list (conn_id * string);
}.

Definition set_connections v t := mkTransport v (watchers t).
Definition set_watchers v t := mkTransport (connections t) v.

(** The struct [Spectral] is the struct [QUIC] over another library. *)
Definition Spectral : Type := Transport.

(** [NewQUIC] and [NewSpectral] *)
Definition NewQUIC : Transport := mkTransport ∅ [].
Definition NewSpectral : Spectral := mkTransport ∅ [].

(** [QUIC.Dial]: [DialAddr] is the result of [quic.DialAddr], [OpenStreamSync]
    that of opening a stream on a connection. *)
Definition QUIC_Dial (DialAddr : conn_id + error) (OpenStreamSync : conn_id -> stream + error)
    (addr : string) : M Transport stream :=
  let! q := gets connections in
  let! conn :=
    match q !! addr with
    | Some conn => ret conn
    | None =>
        match DialAddr with
        | inr err => fail err
        | inl c =>
            modify (fun t => set_connections (<[addr := c]> (connections t)) t) ;;;
            modify (fun t => set_watchers (watchers t ++ [(c, addr)]) t) ;;;
            ret c
        end
    end in
  match OpenStreamSync conn with
  | inr err => modify (fun t => set_connections (delete addr (connections t)) t) ;;; fail err
  | inl stream => ret stream
  end.

(** [Spectral.Dial] *)
Definition Spectral_Dial (Dial : conn_id + error) (OpenStream : conn_id -> stream + error)
    (addr : string) : M Transport stream :=
  let! s := gets connections in
  let! conn :=
    match s !! addr with
    | Some conn => ret conn
    | None =>
        match Dial with
        | inr err => fail err
        | inl c =>
            modify (fun t => set_connections (<[addr := c]> (connections t)) t) ;;;
            modify (fun t => set_watchers (watchers t ++ [(c, addr)]) t) ;;;
            ret c
        end
    end in
  match OpenStream conn with
  | inr err => modify (fun t => set_connections (delete addr (connections t)) t) ;;; fail err
  | inl stream => ret stream
  end.

(** The goroutines, after [<-conn.Context().Done()]. *)
Definition QUIC_watcher (conn : conn_id) (addr : string) (t : Transport) : Transport :=
  match connections t !! addr with
  | Some found => if decide (found = conn) then set_connections (delete addr (connections t)) t else t
  | None => t
  end.

Definition Spectral_watcher (conn : conn_id) (addr : string) (t : Transport) : Transport :=
  match connections t !! addr with
  | Some found => if decide (found = conn) then set_connections (delete addr (connections t)) t else t
  | None => t
  end.

(** ** Histories *)

(** The transport in its surroundings: how many connections have been dialled,
    and which have ended. *)
Record world := mkWorld { wt : Transport; dialled : nat; ended : gset conn_id }.

(** A step: a [Dial] in which dialling gives a new connection or fails with
    [dial] and opening fails with [open] or gives a stream, the end of a
    connection, or a watcher whose connection has ended. *)
Inductive event :=
  | EDial (addr : string) (dial : option error) (open : stream + error)
  | EEnd (c : conn_id)
  | EWatch (c : conn_id) (addr : string).

Definition dial_result (w : world) (dial : option error) : conn_id + error :=
  match dial with Some e => inr e | None => inl (dialled w) end.

Definition count_dial (w : world) (addr : string) (dial : option error) : nat :=
  match connections (wt w) !! addr, dial with None, None => S (dialled w) | _, _ => dialled w end.

Definition estep (w : world) (e : event) : world :=
  match e with
  | EDial addr dial open =>
      mkWorld (QUIC_Dial (dial_result w dial) (fun _ => open) addr (wt w)).2
        (count_dial w addr dial) (ended w)
  | EEnd c => if decide (c < dialled w) then mkWorld (wt w) (dialled w) (ended w ∪ {[ c ]}) else w
  | EWatch c addr =>
      if decide ((c, addr) ∈ watchers (wt w) /\ c ∈ ended w)
      then mkWorld (set_watchers (filter (fun x => x <> (c, addr)) (watchers (wt w))) (QUIC_watcher c addr (wt w)))
             (dialled w) (ended w)
      else w
  end.

Definition erun : list event -> world := foldl estep (mkWorld NewQUIC 0 ∅).

(** * Lemmas *)

(** The two transports are the same program over different libraries. *)
Lemma Spectral_is_QUIC : Spectral_Dial = QUIC_Dial /\ Spectral_watcher = QUIC_watcher.
Proof. done. Qed.

(** The cache holds connections that were dialled, each with a watcher that
    waits for its end, and for one address only. *)
Record wf_world (w : world) : Prop := {
  ww_watched : forall addr c, connections (wt w) !! addr = Some c -> (c, addr) ∈ watchers (wt w);
  ww_dialled : forall c addr, (c, addr) ∈ watchers (wt w) -> c < dialled w;
  ww_addr : forall c addr addr', (c, addr) ∈ watchers (wt w) -> (c, addr') ∈ watchers (wt w) -> addr = addr';
}.

Lemma QUIC_Dial_eq r open addr t :
  QUIC_Dial r open addr t =
  let next c t' := match open c with
    | inl st => (Ok st, t')
    | inr err => (Err err, set_connections (delete addr (connections t')) t') end in
  match connections t !! addr with
  | Some c => next c t
  | None => match r with
      | inl c => next c (mkTransport (<[addr := c]> (connections t)) (watchers t ++ [(c, addr)]))
      | inr err => (Err err, t)
      end
  end.
Proof.
  unfold QUIC_Dial, bind, gets. destruct (connections t !! addr) as [c|].
  - simpl. by destruct (open c).
  - destruct r as [c|err]; [|done]. simpl. by destruct (open c).
Qed.

Lemma wf_forget w addr :
  wf_world w -> wf_world (mkWorld (set_connections (delete addr (connections (wt w))) (wt w)) (dialled w) (ended w)).
Proof. intros [H1 H2 H3]. split; simpl; [|done..]. intros a c [_ Hc]%lookup_delete_Some. by apply H1. Qed.

Lemma wf_dialled w addr :
  wf_world w ->
  wf_world (mkWorld (mkTransport (<[addr := dialled w]> (connections (wt w))) (watchers (wt w) ++ [(dialled w, addr)]))
    (S (dialled w)) (ended w)).
Proof.
  intros [H1 H2 H3]. split; simpl.
  - intros a c [[<- <-]|[_ Hc]]%lookup_insert_Some; apply elem_of_app; [right; by left | left; by apply H1].
  - intros c a [Hc|[= -> ->]%list_elem_of_singleton]%elem_of_app; [|lia]. apply H2 in Hc. lia.
  - intros c a a' [Hc|Hc%list_elem_of_singleton]%elem_of_app [Hc'|Hc'%list_elem_of_singleton]%elem_of_app;
      simplify_eq; [by eapply H3 | apply H2 in Hc; lia | apply H2 in Hc'; lia | done].
Qed.

Lemma wf_watched w c addr :
  wf_world w ->
  wf_world (mkWorld (set_watchers (filter (fun x => x <> (c, addr)) (watchers (wt w))) (QUIC_watcher c addr (wt w)))
    (dialled w) (ended w)).
Proof.
  intros [H1 H2 H3]. split; simpl.
  - intros a d Hd. unfold QUIC_watcher in Hd.
    assert (connections (wt w) !! a = Some d /\ (d, a) <> (c, addr)) as [Hd' Hne].
    { destruct (connections (wt w) !! addr) as [found|] eqn:E; [|split; [done|]; intros [= -> ->]; congruence].
      destruct (decide (found = c)) as [-> | Hf].
      - simpl in Hd. apply lookup_delete_Some in Hd as [Ha Hd]. split; [done|]. intros [= -> ->]. done.
      - split; [done|]. intros [= -> ->]. simplify_eq. }
    apply list_elem_of_filter. split; [done|]. by apply H1.
  - intros d a [_ Hd]%list_elem_of_filter. by eapply H2.
  - intros d a a' [_ Hd]%list_elem_of_filter [_ Hd']%list_elem_of_filter. by eapply H3.
Qed.

Lemma wf_step w e : wf_world w -> wf_world (estep w e).
Proof.
  intros Hw. destruct e as [addr dial open | c | c addr]; simpl.
  - rewrite QUIC_Dial_eq. unfold count_dial, dial_result.
    destruct (connections (wt w) !! addr) as [c|]; [|destruct dial as [err|]]; simpl.
    + destruct open; [by destruct w | by apply wf_forget].
    + by destruct w.
    + destruct open; [by apply wf_dialled|].
      exact (wf_forget _ addr (wf_dialled w addr Hw)).
  - case_decide; [|done]. destruct Hw. by split.
  - case_decide; [by apply wf_watched | done].
Qed.

Lemma wf_run es : wf_world (erun es).
Proof.
  unfold erun. assert (wf_world (mkWorld NewQUIC 0 ∅)) as H0.
  { split; [done | |]; intros ? ? *; by intros ?%not_elem_of_nil. }
  revert H0. generalize (mkWorld NewQUIC 0 ∅). induction es as [|e es IH]; intros w Hw; simpl; [done|].
  by apply IH, wf_step.
Qed.

(** Watching keeps the entries of other connections. *)
Lemma QUIC_watcher_lookup c addr a t :
  connections (QUIC_watcher c addr t) !! a =
  if decide (a = addr /\ connections t !! addr = Some c) then None else connections t !! a.
Proof.
  unfold QUIC_watcher. destruct (connections t !! addr) as [found|] eqn:E.
  - destruct (decide (found = c)) as [-> | Hne]; simpl.
    + destruct (decide (a = addr)) as [-> | Ha]; [rewrite lookup_delete_eq|rewrite lookup_delete_ne by done];
        case_decide as Hcase; naive_solver.
    + case_decide as Hcase; naive_solver.
  - case_decide as Hcase; naive_solver.
Qed.

(** All watchers of ended connections run. *)
Definition watch_all (ws : list (conn_id * string)) : list event := map (fun x => EWatch x.1 x.2) ws.

End Transport.

(** * Properties *)

Section Properties.
Context {stream : Type}.

(** [Dial] on both transports, on every branch.  With a cached connection
    nothing is dialled; otherwise a failure to dial is returned and changes
    nothing, and a new connection is cached for the address and watched.  A
    stream that opens is returned; a stream that does not open is an error
    that takes the connection, cached or new, out of the cache.  Other
    addresses are not affected. *)
Theorem Dial_spec (dial : nat + error) (open : nat -> stream + error) (addr : string) (t : Transport) :
  Spectral_Dial dial open addr t = QUIC_Dial dial open addr t /\
  let r := QUIC_Dial dial open addr t in
  (forall a, a <> addr -> connections r.2 !! a = connections t !! a) /\
  match connections t !! addr, dial with
  | Some c, _ =>
      watchers r.2 = watchers t /\
      match open c with
      | inl st => r = (Ok st, t)
      | inr err => r.1 = Err err /\ connections r.2 !! addr = None
      end
  | None, inr err => r = (Err err, t)
  | None, inl c =>
      watchers r.2 = watchers t ++ [(c, addr)] /\
      match open c with
      | inl st => r.1 = Ok st /\ connections r.2 !! addr = Some c
      | inr err => r.1 = Err err /\ connections r.2 !! addr = None
      end
  end.
Proof.
  split; [done|]. rewrite QUIC_Dial_eq. intros r. subst r.
  destruct (connections t !! addr) as [c|], dial as [d|err]; simpl;
    lazymatch goal with |- context [open ?x] => destruct (open x) | _ => idtac end; simpl;
    split_and!; try done; try (intros a Ha; by rewrite ?lookup_delete_ne, ?lookup_insert_ne by done);
    by rewrite ?lookup_delete_eq, ?lookup_insert_eq.
Qed.

(** C28: in every history of dials, failures, ended connections and watchers,
    a watcher never takes a newer connection out of the cache, and once the
    watchers of ended connections have run, each address has no entry or a
    connection that has not ended; the entries of connections that have not
    ended are still there. *)
Theorem watchers_clean_the_cache (es : list (event (stream:=stream))) :
  let w := erun es in
  let w' := foldl (estep (stream:=stream)) w (watch_all (watchers (wt w))) in
  (forall c addr c', connections (wt w) !! addr = Some c' -> c' <> c ->
     connections (QUIC_watcher c addr (wt w)) !! addr = Some c') /\
  (forall addr c, connections (wt w') !! addr = Some c <->
     connections (wt w) !! addr = Some c /\ c ∉ ended w).
Proof.
  intros w w'. split.
  { intros c addr c' Hc Hne. rewrite QUIC_watcher_lookup, Hc. case_decide as Hcase; naive_solver. }
  pose proof (wf_run es) as [Hw _ _]. fold w in Hw.
  assert (forall ws (v : world), ended v = ended w ->
    let v' := foldl (estep (stream:=stream)) v (watch_all ws) in
    ended v' = ended w /\
    forall addr c, connections (wt v') !! addr = Some c <->
      connections (wt v) !! addr = Some c /\ ~ ((c, addr) ∈ ws /\ (c, addr) ∈ watchers (wt v) /\ c ∈ ended w)) as Hrun.
  2:{ destruct (Hrun (watchers (wt w)) w eq_refl) as [_ Hl]. intros addr c. fold w' in Hl. rewrite (Hl addr c).
      split; intros [Hc Hn]; (split; [done|]); [intros He; apply Hn; auto | naive_solver]. }
  induction ws as [|[d b] ws IH]; intros v Hv; simpl.
  - split; [done|]. intros addr c. split; [intros Hc; split; [done|]; by intros [?%not_elem_of_nil _] | by intros [? _]].
  - case_decide as Hd; simpl.
    + destruct (IH (mkWorld (set_watchers (filter (fun x => x <> (d, b)) (watchers (wt v))) (QUIC_watcher d b (wt v)))
        (dialled v) (ended v)) Hv) as [He Hl]. split; [done|]. intros addr c. rewrite (Hl addr c). simpl.
      rewrite QUIC_watcher_lookup, elem_of_cons, list_elem_of_filter, Hv in *. case_decide as Hcase; naive_solver.
    + destruct (IH v Hv) as [He Hl]. split; [done|]. intros addr c. rewrite (Hl addr c), elem_of_cons, Hv in *.
      naive_solver.
Qed.

(** One connection per address: a [Dial] with a cached connection opens
    its stream on that connection, and a connection is never cached under two
    addresses. *)
Theorem one_connection_per_address (es : list (event (stream:=stream))) addr addr' c :
  let t := wt (erun es) in
  connections t !! addr = Some c -> connections t !! addr' = Some c -> addr = addr' /\ c < dialled (erun es).
Proof.
  intros t Hc Hc'. destruct (wf_run es) as [H1 H2 H3].
  apply H1 in Hc, Hc'. split; [by eapply H3 | by eapply H2].
Qed.

End Properties.

(** * Witnesses *)

Lemma one_connection_per_address_witness :
  "a"%string = "a"%string /\ 1 < dialled (erun (stream:=unit) [EDial "b" None (inl tt); EDial "a" None (inl tt)]).
Proof.
  apply (one_connection_per_address (stream:=unit) [EDial "b" None (inl tt); EDial "a" None (inl tt)]);
    vm_compute; reflexivity.
Defined.
