(* ===== verification/Session.v ===== *)
(** * Session: a player's session

    [session/session.go] and the handling of server packets in
    [session/handler.go]: login, transfer, fallback and close of one session
    over the server connections of [Conn], the tracker and the registry.

    The state is a [World]: the fields of the session, every server connection
    it has made, the package pools, and two records for what leaves the model,
    the calls of the client connection and the notifications of the processor.
    The client connection, the transport, the discovery and the objects a
    session's animation and processor can point to are parameters that may
    depend on the whole state.  An operation
    on a server connection runs with the rest of the world as its environment
    ([on_conn]), so that the callback of [TransferContext] ([on_connected])
    runs where the code runs it, inside that operation. *)

From S2P Require Import Prelude GoFloat Wire Registry Minecraft ServerPacket Conn Animation Batch Tracker.

Local Open Scope Z_scope.
Local Open Scope go_scope.

(** ** chunk.go: the empty chunks

    A sub-chunk of version 8 without layers, [n] biome sections of one biome
    and no border blocks. *)

Definition biome_section : list byte := [Byte.x03] ++ replicate 512 Byte.x00 ++ [Byte.x01; Byte.x00].
Definition empty_chunk (n : nat) : list byte :=
  [Byte.x08; Byte.x00] ++ concat (replicate n biome_section) ++ [Byte.x00].

Definition chunkEnd : list byte := empty_chunk 24.
Definition chunkNether : list byte := empty_chunk 16.
Definition chunkOverworld : list byte := empty_chunk 8.

(** ** server/discovery.go: servers at fixed addresses *)

Record StaticDiscovery := mkStaticDiscovery { sd_server : string; sd_fallbackServer : string }.

Definition NewStaticDiscovery (server fallbackServer : string) : StaticDiscovery :=
  mkStaticDiscovery server fallbackServer.
Definition StaticDiscovery_Discover (s : StaticDiscovery) : string + error := inl (sd_server s).
Definition StaticDiscovery_DiscoverFallback (s : StaticDiscovery) : string + error := inl (sd_fallbackServer s).

Section Session.
Context `{G : Gopher} `{P : !Protocols} `{Rt : Runtime} `{IO : IterationOrder} `{F : FloatConversion}.

Definition emptyChunk (dimension : Z) : list byte :=
  if dimension =? const DimensionEnd then chunkEnd
  else if dimension =? const DimensionNether then chunkNether
  else chunkOverworld.

(** ** The client connection *)

Inductive entity_flag := NoAI | Breathing | HasGravity.

(** The packets the session sends to the client, and the packets it forwards
    or the tracker makes ([Fwd]). *)
Inductive client_packet :=
  | Fwd (pk : packet)
  | Disconnect (Message : string)
  | SetActorData (EntityRuntimeID : Z) (flags : list entity_flag)
  | LevelChunk (Dimension x z SubChunkCount : Z) (RawPayload : list byte)
  | MovePlayer (EntityRuntimeID : Z) (Position : Vec3) (Pitch Yaw : float32) (Mode : Z)
  | LevelEvent (EventType EventData : Z)
  | SetDifficulty (Difficulty : Z)
  | SetPlayerGameType (GameType : Z)
  | GameRulesChanged (GameRules : list GameRule)
  | Animate (pk : animation_packet).

(** The calls of [s.client]. *)
Inductive client_call :=
  | client_WritePacket (pk : client_packet)
  | client_Write (payload : list byte)
  | client_Flush
  | client_StartGame (g : GameData)
  | client_Close.

(** What the processor is told, with the addresses of the transfer. *)
Inductive note :=
  | TransferFailure (origin target : string)
  | PostTransfer (origin target : string).

(** The callback [TransferContext] registers, by what it captures. *)
Record transfer_cb := mkTransferCb { cb_origin : string; cb_target : string }.

(** ** State *)

Record World := mkWorld {
  s_ctx : option error;   (* cause of the session's cancellation *)
  serverAddr : string;
  serverConn : option nat;   (* index into [conns] *)
  s_tracker : tracker;
  s_cache : list byte;
  s_latency : Z;
  inFallback : bool;
  s_once : bool;
  conns : list (Conn (cb:=transfer_cb));   (* every server connection made *)
  w_pools : Pools;   (* the pools of package server *)
  s_ctxPool : list PacketContext;
  client_out : list client_call;   (* what the client connection was asked *)
  s_registry : Registry;
  notes : list note;   (* what the processor was told *)
  s_processor : nat;   (* the current processor and animation, as pointers *)
  s_animation : nat;
}.

Definition set_s_ctx v w := mkWorld v (serverAddr w) (serverConn w) (s_tracker w) (s_cache w) (s_latency w) (inFallback w) (s_once w) (conns w) (w_pools w) (s_ctxPool w) (client_out w) (s_registry w) (notes w) (s_processor w) (s_animation w).
Definition set_serverAddr v w := mkWorld (s_ctx w) v (serverConn w) (s_tracker w) (s_cache w) (s_latency w) (inFallback w) (s_once w) (conns w) (w_pools w) (s_ctxPool w) (client_out w) (s_registry w) (notes w) (s_processor w) (s_animation w).
Definition set_serverConn v w := mkWorld (s_ctx w) (serverAddr w) v (s_tracker w) (s_cache w) (s_latency w) (inFallback w) (s_once w) (conns w) (w_pools w) (s_ctxPool w) (client_out w) (s_registry w) (notes w) (s_processor w) (s_animation w).
Definition set_s_tracker v w := mkWorld (s_ctx w) (serverAddr w) (serverConn w) v (s_cache w) (s_latency w) (inFallback w) (s_once w) (conns w) (w_pools w) (s_ctxPool w) (client_out w) (s_registry w) (notes w) (s_processor w) (s_animation w).
Definition set_s_cache v w := mkWorld (s_ctx w) (serverAddr w) (serverConn w) (s_tracker w) v (s_latency w) (inFallback w) (s_once w) (conns w) (w_pools w) (s_ctxPool w) (client_out w) (s_registry w) (notes w) (s_processor w) (s_animation w).
Definition set_s_latency v w := mkWorld (s_ctx w) (serverAddr w) (serverConn w) (s_tracker w) (s_cache w) v (inFallback w) (s_once w) (conns w) (w_pools w) (s_ctxPool w) (client_out w) (s_registry w) (notes w) (s_processor w) (s_animation w).
Definition set_inFallback v w := mkWorld (s_ctx w) (serverAddr w) (serverConn w) (s_tracker w) (s_cache w) (s_latency w) v (s_once w) (conns w) (w_pools w) (s_ctxPool w) (client_out w) (s_registry w) (notes w) (s_processor w) (s_animation w).
Definition set_s_once v w := mkWorld (s_ctx w) (serverAddr w) (serverConn w) (s_tracker w) (s_cache w) (s_latency w) (inFallback w) v (conns w) (w_pools w) (s_ctxPool w) (client_out w) (s_registry w) (notes w) (s_processor w) (s_animation w).
Definition set_conns v w := mkWorld (s_ctx w) (serverAddr w) (serverConn w) (s_tracker w) (s_cache w) (s_latency w) (inFallback w) (s_once w) v (w_pools w) (s_ctxPool w) (client_out w) (s_registry w) (notes w) (s_processor w) (s_animation w).
Definition set_w_pools v w := mkWorld (s_ctx w) (serverAddr w) (serverConn w) (s_tracker w) (s_cache w) (s_latency w) (inFallback w) (s_once w) (conns w) v (s_ctxPool w) (client_out w) (s_registry w) (notes w) (s_processor w) (s_animation w).
Definition set_s_ctxPool v w := mkWorld (s_ctx w) (serverAddr w) (serverConn w) (s_tracker w) (s_cache w) (s_latency w) (inFallback w) (s_once w) (conns w) (w_pools w) v (client_out w) (s_registry w) (notes w) (s_processor w) (s_animation w).
Definition set_client_out v w := mkWorld (s_ctx w) (serverAddr w) (serverConn w) (s_tracker w) (s_cache w) (s_latency w) (inFallback w) (s_once w) (conns w) (w_pools w) (s_ctxPool w) v (s_registry w) (notes w) (s_processor w) (s_animation w).
Definition set_s_registry v w := mkWorld (s_ctx w) (serverAddr w) (serverConn w) (s_tracker w) (s_cache w) (s_latency w) (inFallback w) (s_once w) (conns w) (w_pools w) (s_ctxPool w) (client_out w) v (notes w) (s_processor w) (s_animation w).
Definition set_notes v w := mkWorld (s_ctx w) (serverAddr w) (serverConn w) (s_tracker w) (s_cache w) (s_latency w) (inFallback w) (s_once w) (conns w) (w_pools w) (s_ctxPool w) (client_out w) (s_registry w) v (s_processor w) (s_animation w).
Definition set_s_processor v w := mkWorld (s_ctx w) (serverAddr w) (serverConn w) (s_tracker w) (s_cache w) (s_latency w) (inFallback w) (s_once w) (conns w) (w_pools w) (s_ctxPool w) (client_out w) (s_registry w) (notes w) v (s_animation w).
Definition set_s_animation v w := mkWorld (s_ctx w) (serverAddr w) (serverConn w) (s_tracker w) (s_cache w) (s_latency w) (inFallback w) (s_once w) (conns w) (w_pools w) (s_ctxPool w) (client_out w) (s_registry w) (notes w) (s_processor w) v.

(** [NewSession]: the cause of the client's context, if it is done already,
    and what the package pools and the registry hold.  Pointer 0 is the first
    processor, [NopProcessor], and the first animation, [Dimension]. *)
Definition NewSession (client_ctx : option error) (p : Pools) (cp : list PacketContext) (registry : Registry) : World :=
  mkWorld client_ctx "" None newTracker [] 0 false false [] p cp [] registry [] 0%nat 0%nat.

Abbreviation CSW := (CS (cb:=transfer_cb) (env:=World)).

(** ** processor.go

    The interface [Processor]: what a call makes of its arguments, with the
    context's [Cancelled] where the code asks for it, in the state in which it
    is called.  [ProcessTransferFailure] and [ProcessPostTransfer], after which
    the code looks at nothing, are [notes].  Processors do not call the session
    back. *)
Record Processor := mkProcessor {
  ProcessStartGame : World -> GameData -> GameData;
  ProcessServer : World -> PacketContext -> PacketContext;
  ProcessClient : World -> list PacketContext -> list PacketContext;
  ProcessFlush : World -> bool;
  ProcessPreTransfer : World -> string -> string -> bool * string * string;
  ProcessCache : World -> list byte -> bool * list byte;
  ProcessDisconnection : World -> string -> string;
}.

Definition NopProcessor : Processor := {|
  ProcessStartGame _ data := data;
  ProcessServer _ ctx := ctx;
  ProcessClient _ batch := batch;
  ProcessFlush _ := Cancelled NewContext;
  ProcessPreTransfer _ origin target := (Cancelled NewContext, origin, target);
  ProcessCache _ new := (Cancelled NewContext, new);
  ProcessDisconnection _ message := message
|}.

(** ** The animation

    An animation object: the packets [Play] and [Clear] send, in each state;
    the default one shows the dimension screen of [Animation], for the
    dimension in the client's game data.  That is the one the client logged in
    with: it does not follow the packets that change the client's dimension. *)
Record AnimationObject := mkAnimationObject {
  animation_Play : World -> GameData -> list client_packet;
  animation_Clear : World -> GameData -> list client_packet;
}.

Definition dimension_object (GameData_Dimension : World -> Z) : AnimationObject := {|
  animation_Play w g := map Animate (packets (Dimension_Play (GameData_Dimension w) g));
  animation_Clear w g := map Animate (packets (Dimension_Clear g))
|}.

(** ** Surroundings

    What a session does not decide: its options and client, the objects its
    pointers point to, and the answers of the client connection, the transport
    and the discovery, each in the state in which it is asked. *)
Class Surroundings := {
  session_opts : Opts;
  session_client : ClientInfo;
  XUID : string;
  self : sid;
  client_result : World -> client_call -> option error;   (* the error of the call *)
  client_cause : World -> client_call -> option error;    (* client.Context() done after the call *)
  client_EntityRuntimeID : World -> Z;                    (* client.GameData() *)
  GameData_Dimension : World -> Z;                        (* of client.GameData() too *)
  transport_Dial : World -> string -> source * sink + error;
  Discover : World -> string + error;
  DiscoverFallback : World -> string + error;
  processors : nat -> Processor;
  animations : nat -> AnimationObject;
}.

(** The objects of a new session. *)
Class DefaultObjects `{Surroundings} : Prop := {
  processor_0 : processors 0 = NopProcessor;
  animation_0 : animations 0 = dimension_object GameData_Dimension;
}.

Context `{Sur : !Surroundings}.
Variable zero_start : StartGame_fields.

(** [s.Processor()] and [s.animation] *)
Definition session_processor (w : World) : Processor := processors (s_processor w).
Definition session_animation (w : World) : AnimationObject := animations (s_animation w).

(** A call of the client connection. *)
Definition client_op (call : client_call) : M World unit := fun w =>
  let ctx := match s_ctx w with Some cause => Some cause | None => client_cause w call end in
  let w' := set_s_ctx ctx (set_client_out (client_out w ++ [call]) w) in
  match client_result w call with
  | None => (Ok tt, w')
  | Some err => (Err err, w')
  end.

(** [_ = s.client.WritePacket(pk)] *)
Definition send (pk : client_packet) : M World unit := ignore (client_op (client_WritePacket pk)).

Definition notify_processor (n : note) : M World unit := modify (fun w => set_notes (notes w ++ [n]) w).

(** An operation of a server connection. *)
Definition on_conn {A} (k : nat) (m : M CSW A) : M World A := fun w =>
  match conns w !! k with
  | None => (Panic "runtime error: invalid memory address or nil pointer dereference", w)
  | Some c =>
      let (o, s) := m (mkCS c (w_pools w) w) in
      (o, set_conns (<[k := conn s]> (conns (cenv s))) (set_w_pools (pools s) (cenv s)))
  end.

(** What the callback of a connection does to the session. *)
Definition in_world {A} (m : M World A) : M CSW A :=
  zoom cenv (fun w s => mkCS (conn s) (pools s) w) m.

(** [select { case <-s.ctx.Done(): return context.Cause(s.ctx) default: }] *)
Definition check_session : M World unit :=
  let! w := gets id in
  match s_ctx w with
  | Some cause => fail cause
  | None => ret tt
  end.

(** ** Sending game data *)

(** [sendMetadata] *)
Definition sendMetadata (noAI : bool) : M World unit :=
  let! w := gets id in
  send (SetActorData (client_EntityRuntimeID w) ((if noAI then [NoAI] else []) ++ [Breathing; HasGravity])).

(** The calls of the tracker, whose packets go to the client. *)
Definition clear_tracker : M World unit :=
  let! w := gets id in
  let (o, ts) := clearAll (client_EntityRuntimeID w) (mkTS (s_tracker w) []) in
  modify (set_s_tracker (tr ts)) ;;;
  for_each (fun pk => send (Fwd pk)) (out ts).

(** The loop over the chunks around a position. *)
Definition send_chunks (dimension chunkX chunkZ : Z) (chunk : list byte) : M World unit :=
  for_each (fun x =>
    for_each (fun z => send (LevelChunk dimension x z 1 chunk)) (seqZ (chunkZ - 4) 9)) (seqZ (chunkX - 4) 9).

(** [sendGameData] *)
Definition sendGameData (gameData : GameData) : M World unit :=
  let g := gd_start gameData in
  let chunk := emptyChunk (sg_Dimension g) in
  let pos := sg_PlayerPosition g in
  let chunkX := Z.shiftr (int32_of_float (X pos)) 4 in
  let chunkZ := Z.shiftr (int32_of_float (Z' pos)) 4 in
  send_chunks (sg_Dimension g) chunkX chunkZ chunk ;;;
  clear_tracker ;;;
  send (MovePlayer (gd_EntityRuntimeID gameData) pos (sg_Pitch g) (sg_Yaw g) (const MoveModeReset)) ;;;
  send (LevelEvent (const LevelEventStopRaining) 10000) ;;;
  send (LevelEvent (const LevelEventStopThunderstorm) 0) ;;;
  send (SetDifficulty (u32 (sg_Difficulty g))) ;;;
  send (SetPlayerGameType (sg_PlayerGameMode g)) ;;;
  send (GameRulesChanged (sg_GameRules g)).

(** ** The callback of a transfer

    The function literal in [TransferContext], on the connection [conn]. *)
Definition on_connected (cb : transfer_cb) (err : option error) : M CSW unit :=
  match err with
  | Some _ => in_world (notify_processor (TransferFailure (cb_origin cb) (cb_target cb)))
  | None =>
      let! c := gets conn in
      let gameData := gameData_of zero_start c in
      in_world (let! w := gets id in for_each send (animation_Play (session_animation w) w gameData)) ;;;
      in_world (sendGameData gameData) ;;;
      let! r := attempt DoSpawn in
      match r with
      | inr _ => in_world (notify_processor (TransferFailure (cb_origin cb) (cb_target cb)))
      | inl _ =>
          in_world (
            modify (set_inFallback false) ;;;
            (let! w := gets id in for_each send (animation_Clear (session_animation w) w gameData)) ;;;
            notify_processor (PostTransfer (cb_origin cb) (cb_target cb)))
      end
  end.

(** ** Connecting to servers *)

(** [dial] after the check of the context: the section under [serverMu]. *)
Definition dial_locked (addr : string) : M World nat :=
  let! w := gets id in
  (match serverConn w with
   | Some k => on_conn k (Conn.Close on_connected)
   | None => ret tt
   end) ;;;
  let! w := gets id in
  match transport_Dial w addr with
  | inr err => fail err
  | inl (conn_in, conn_out) =>
      let c := NewConn conn_in conn_out session_client (SyncProtocol session_opts) (s_cache w) in
      modify (fun w => set_conns (conns w ++ [c]) w) ;;;
      modify (set_serverAddr addr) ;;;
      modify (set_serverConn (Some (length (conns w)))) ;;;
      ret (length (conns w))
  end.

(** [dial] *)
Definition dial (addr : string) : M World nat := check_session ;;; dial_locked addr.

(** [TransferContext], up to the call of [OnConnect]. *)
Definition transfer_dial (origin addr : string) : M World nat :=
  sendMetadata true ;;;
  let! r := attempt (dial addr) in
  match r with
  | inr err =>
      notify_processor (TransferFailure origin addr) ;;;
      fail (ErrWrap "dialer failed" err)
  | inl conn =>
      let! r := attempt (on_conn conn DoConnect) in
      match r with
      | inr err =>
          notify_processor (TransferFailure origin addr) ;;;
          fail (ErrWrap "connection sequence failed failed" err)
      | inl _ => ret conn
      end
  end.

(** [TransferContext] *)
Definition TransferContext (addr : string) : M World unit :=
  let! w := gets id in
  let '(canceled, origin, addr) := ProcessPreTransfer (session_processor w) w (serverAddr w) addr in
  if (canceled : bool) then fail (ErrNew "processor failed")
  else
    let! conn := transfer_dial origin addr in
    on_conn conn (OnConnect (mkTransferCb origin addr)).

(** [Transfer] and [TransferTimeout]: the timeout only reaches the transport,
    whose answer is [transport_Dial]. *)
Definition Transfer (addr : string) : M World unit := TransferContext addr.
Definition TransferTimeout (addr : string) (duration : Z) : M World unit := TransferContext addr.

(** [SetAnimation] and [SetProcessor] *)
Definition SetAnimation (animation : nat) : M World unit := modify (set_s_animation animation).
Definition SetProcessor (processor : nat) : M World unit := modify (set_s_processor processor).

(** [fallback] *)
Definition fallback : M World unit :=
  check_session ;;;
  let! w := gets id in
  if inFallback w then fail (ErrNew "already in fallback")
  else
    modify (set_inFallback true) ;;;
    let! w := gets id in
    match DiscoverFallback w with
    | inr err => fail (ErrWrap "discovery failed" err)
    | inl addr =>
        let! r := attempt (Transfer addr) in
        match r with
        | inr err => fail (ErrWrap "transfer failed" err)
        | inl _ => ret tt
        end
    end.

(** [CloseWithError] of the session *)
Definition Session_CloseWithError (err : error) : M World unit :=
  let! w := gets id in
  if s_once w then ret tt
  else
    modify (set_s_once true) ;;;
    let! w := gets id in
    let message := ProcessDisconnection (session_processor w) w (error_text err) in
    send (Disconnect message) ;;;
    ignore (client_op client_Close) ;;;
    let! w := gets id in
    (match serverConn w with
     | Some k => on_conn k (Conn.CloseWithError on_connected err)
     | None => ret tt
     end) ;;;
    modify (fun w => set_s_ctx (match s_ctx w with None => Some err | c => c end) w) ;;;
    modify (fun w => set_s_registry (RemoveSession XUID (s_registry w)) w).

(** [Disconnect] and [Close] *)
Definition Session_Disconnect (message : string) : M World unit := Session_CloseWithError (ErrNew message).
Definition Session_Close : M World unit := Session_CloseWithError (ErrNew "closed by application").

(** [SetCache] *)
Definition SetCache (cache : list byte) : M World unit :=
  let! w := gets id in
  let '(canceled, cache) := ProcessCache (session_processor w) w cache in
  if (canceled : bool) then ret tt else modify (set_s_cache cache).

(** ** Login

    [LoginContext] in two parts: up to [WaitConnect], and after it, with the
    result [WaitConnect] returned. *)
Definition login_start : M World nat :=
  let! w := gets id in
  match Discover w with
  | inr err => fail err
  | inl addr =>
      let! conn := dial addr in
      on_conn conn DoConnect ;;;
      ret conn
  end.

Definition login_finish (conn : nat) (waited : outcome unit) : M World unit :=
  match waited with
  | Err err =>
      on_conn conn (Conn.CloseWithError on_connected (ErrWrap "connection sequence failed" err)) ;;;
      fail err
  | _ =>
      let! w := gets id in
      let! gameData := on_conn conn (let! c := gets Conn.conn in ret (gameData_of zero_start c)) in
      let gameData := ProcessStartGame (session_processor w) w gameData in
      client_op (client_StartGame gameData) ;;;
      on_conn conn DoSpawn ;;;
      modify (fun w => set_s_registry (AddSession XUID self (s_registry w)) w)
  end.

(** [LoginContext], given what [WaitConnect] returns, and the two ways to call
    it: the deadlines they set end in that result and in [transport_Dial]. *)
Definition LoginContext (waited : outcome unit) : M World unit :=
  let! conn := login_start in
  login_finish conn waited.

Definition Login (waited : outcome unit) : M World unit := LoginContext waited.
Definition LoginTimeout (duration : Z) (waited : outcome unit) : M World unit := LoginContext waited.

(** ** handleServer (handler.go)

    The parts of the loop's body; the result says whether the loop goes on. *)

(** After [server.ReadPacket] failed. *)
Definition handle_read_error (server : nat) (err : error) : M World bool :=
  let! w := gets id in
  if negb (bool_decide (serverConn w = Some server)) then ret true
  else
    on_conn server (Conn.CloseWithError on_connected (ErrWrap "failed to read packet from server" err)) ;;;
    let! r := attempt fallback in
    match r with
    | inl _ => ret true
    | inr err =>
        Session_CloseWithError (ErrWrap "fallback failed" err) ;;;
        ret false
    end.

(** A call of the client after which a failure ends the session. *)
Definition forward (call : client_call) (failure : string) : M World bool :=
  let! r := attempt (client_op call) in
  match r with
  | inl _ => ret true
  | inr err =>
      Session_CloseWithError (ErrWrap failure err) ;;;
      ret false
  end.

(** [ctx := NewPacketContext(raw, decoded); s.Processor().ProcessServer(ctx)] *)
Definition process_server (raw : list byte) (decoded : option packet) : M World PacketContext :=
  let! ctx := zoom s_ctxPool set_s_ctxPool (NewPacketContext raw decoded) in
  let! w := gets id in
  ret (ProcessServer (session_processor w) w ctx).

(** The type switch on what was read.  A processor may change the packet in
    place. *)
Definition handle_server_item (it : item) : M World bool :=
  match it with
  | Decoded (SFlush _) =>
      let! w := gets id in
      if ProcessFlush (session_processor w) w then ret true
      else forward client_Flush "failed to flush client's buffer"
  | Decoded (SLatency pk) => modify (set_s_latency (Latency_Latency pk)) ;;; ret true
  | Decoded (STransfer pk) => ignore (Transfer (Transfer_Addr pk)) ;;; ret true
  | Decoded (SUpdateCache pk) => SetCache (UpdateCache_Cache pk) ;;; ret true
  | Decoded pk =>
      let! ctx := process_server [] (Some pk) in
      if canceled ctx then ret true
      else
        let pk := default pk (decoded ctx) in
        let latest := if SyncProtocol session_opts then ConvertToLatest (client_Proto session_client) pk else [pk] in
        modify (fun w => set_s_tracker (foldl Tracker.handlePacket (s_tracker w) latest) w) ;;;
        forward (client_WritePacket (Fwd pk)) "failed to write packet to client"
  | Raw payload =>
      let! ctx := process_server payload None in
      if canceled ctx then ret true
      else forward (client_Write (raw ctx)) "failed to write packet to client"
  end.

(** One round of [handleServer]. *)
Definition handleServer_round (fuel : nat) (pick : bool) : M World bool :=
  let! w := gets id in
  match s_ctx w with
  | Some cause => Session_CloseWithError cause ;;; ret false
  | None =>
      match serverConn w with
      | None => panic "runtime error: invalid memory address or nil pointer dereference"
      | Some server =>
          let! r := attempt (on_conn server (Conn.ReadPacket on_connected zero_start fuel pick)) in
          match r with
          | inr err => handle_read_error server err
          | inl it => handle_server_item it
          end
      end
  end.

(** [handleServer]: so many rounds of its loop, each with the choice its
    [select] in [ReadPacket] takes; the result says whether it still runs. *)
Fixpoint handleServer (rounds fuel : nat) (pick : nat -> bool) : M World bool :=
  match rounds with
  | O => ret true
  | S rounds =>
      let! go_on := handleServer_round fuel (pick rounds) in
      if (go_on : bool) then handleServer rounds fuel pick else ret false
  end.

End Session.
