(* ===== verification/SessionLoops.v ===== *)
(** * SessionLoops: the goroutines that serve the client

    [handleClient] and [handleLatency] (session/handler.go), round by round,
    over the world of [Session].  The batches are those of [Batch], run on the
    session's server connection ([on_server]). *)

From S2P Require Import Prelude GoFloat Wire Registry Minecraft ServerPacket Conn Batch Tracker Session.

Local Open Scope Z_scope.
Local Open Scope go_scope.

Section Loops.
Context `{G : Gopher} `{P : !Protocols} `{Rt : Runtime} `{IO : IterationOrder} `{F : FloatConversion}.
Context `{Sur : !Surroundings}.
Variable zero_start : StartGame_fields.

(** [%T] of a packet. *)
Variable type_name : packet -> string.

Abbreviation BSW := (BS (cb:=transfer_cb) (env:=World)).

(** ** handleClient *)

(** The search for the shield among the items of the client's game data. *)
Fixpoint client_shieldID (Items : list ItemEntry) : Z :=
  match Items with
  | [] => 0
  | item :: Items =>
      if bool_decide (Item_Name item = "minecraft:shield"%string) then i32 (Item_RuntimeID item)
      else client_shieldID Items
  end.

(** The client and options of the session, for [Batch]. *)
Definition batch_session : Batch.Session := Batch.mkSession session_opts (client_Proto session_client).

(** A computation over the header of the goroutine, the pool of contexts and
    the server connection [k]; the header is returned. *)
Definition on_server {A} (k : nat) (h : Header hdr_rest) (m : M BSW A) : M World (A * Header hdr_rest) := fun w =>
  match conns w !! k with
  | None => (Panic "runtime error: invalid memory address or nil pointer dereference", w)
  | Some c =>
      let (o, st) := m (mkBS h (s_ctxPool w) (mkCS c (w_pools w) w)) in
      let s := server st in
      let w' := set_s_ctxPool (pkCtxPool st) (set_conns (<[k := conn s]> (conns (cenv s))) (set_w_pools (pools s) (cenv s))) in
      match o with
      | Ok a => (Ok (a, header st), w')
      | Err err => (Err err, w')
      | Panic why => (Panic why, w')
      | NoFuel => (NoFuel, w')
      end
  end.

(** One round of [handleClient], with what [ReadBatchBytes] returned; the
    result is the header for the next round, if the loop goes on.  The
    goroutine is started after the first [dial], so that there always is a
    server connection. *)
Definition handleClient_round (pool : gmap Z packet) (shieldID : Z) (h : Header hdr_rest)
    (batch : list (list byte) + error) : M World (option (Header hdr_rest)) :=
  let! w := gets id in
  match s_ctx w with
  | Some cause => Session_CloseWithError zero_start cause ;;; ret None
  | None =>
      match batch with
      | inr err =>
          Session_CloseWithError zero_start (ErrWrap "failed to read packet from client" err) ;;;
          ret None
      | inl payloads =>
          match serverConn w with
          | None => panic "runtime error: invalid memory address or nil pointer dereference"
          | Some k =>
              let! r := attempt (on_server k h
                (handleClientBatch batch_session type_name (ProcessClient (session_processor w) w) pool shieldID payloads)) in
              match r with
              | inl (_, h) => ret (Some h)
              | inr err =>
                  on_conn k (Conn.CloseWithError (on_connected zero_start) (ErrWrap "failed to write packet to server" err)) ;;;
                  ret None
              end
          end
      end
  end.

(** [handleClient]: what the goroutine sets up, then its rounds, with the
    results of [ReadBatchBytes] in order. *)
Fixpoint handleClient_loop (pool : gmap Z packet) (shieldID : Z) (h : Header hdr_rest)
    (batches : list (list (list byte) + error)) : M World unit :=
  match batches with
  | [] => ret tt
  | batch :: batches =>
      let! r := handleClient_round pool shieldID h batch in
      match r with
      | Some h => handleClient_loop pool shieldID h batches
      | None => ret tt
      end
  end.

Definition handleClient (Items : list ItemEntry) (batches : list (list (list byte) + error)) : M World unit :=
  let header := mkHeader 0 hdr_zero in
  let pool := Packets (client_Proto session_client) true in
  let shieldID := client_shieldID Items in
  handleClient_loop pool shieldID header batches.

(** ** handleLatency *)

(** The ticker of the goroutine, which is made before its loop, outside of any
    [recover].  The duration is an [int64] of nanoseconds, the product wraps
    around; [time.NewTicker] panics on one that is not positive. *)
Definition latency_duration (interval : Z) : Z := i64 (1000000 * interval).

Definition latency_ticker (interval : Z) : M World unit :=
  if latency_duration interval <=? 0 then panic "non-positive interval for NewTicker" else ret tt.

(** A tick, with the client's latency and the time in milliseconds. *)
Definition latency_tick (latency now : Z) : M World unit :=
  let! w := gets id in
  match serverConn w with
  | None => panic "runtime error: invalid memory address or nil pointer dereference"
  | Some k => ignore (on_conn k (WritePacket (SLatency (mkLatency (i64 (latency * 2)) now))))
  end.

(** One round.  When both cases of the [select] are ready [pick] says whether
    it takes the first. *)
Definition handleLatency_round (pick : bool) (latency now : Z) : M World bool :=
  let! w := gets id in
  match s_ctx w with
  | Some cause =>
      if pick then Session_CloseWithError zero_start cause ;;; ret false
      else latency_tick latency now ;;; ret true
  | None => latency_tick latency now ;;; ret true
  end.

(** Its rounds, with what the [select] picks, the client's latency and the time
    at each. *)
Fixpoint handleLatency_loop (ticks : list (bool * Z * Z)) : M World unit :=
  match ticks with
  | [] => ret tt
  | (pick, latency, now) :: ticks =>
      let! go_on := handleLatency_round pick latency now in
      if (go_on : bool) then handleLatency_loop ticks else ret tt
  end.

(** [handleLatency]: the ticker, then the rounds. *)
Definition handleLatency (interval : Z) (ticks : list (bool * Z * Z)) : M World unit :=
  latency_ticker interval ;;;
  handleLatency_loop ticks.

Lemma handleLatency_panics interval ticks w :
  latency_duration interval <= 0 ->
  handleLatency interval ticks w = (Panic "non-positive interval for NewTicker", w).
Proof. intros Hi. unfold handleLatency, latency_ticker. by rewrite (proj2 (Z.leb_le _ _) Hi). Qed.

Lemma handleLatency_default ticks w :
  handleLatency (LatencyInterval DefaultOpts) ticks w = handleLatency_loop ticks w.
Proof. reflexivity. Qed.

(** [Session.Latency]: the client's latency and the server's. *)
Definition Session_Latency (latency : Z) (w : World) : Z := i64 (i64 (latency * 2) + s_latency w).

End Loops.
