(* ===== verification/SessionSteps.v ===== *)
(** * SessionSteps: the operations of a session as steps

    What the goroutines of a session do, interleaved ([session_op], [perform],
    [run_ops]), and the relations between states that every step respects
    ([SessionRelation]): an instance checks the primitive effects, and the
    operations of [Session] and [SessionLoops] are built from those. *)

From S2P Require Import Prelude GoFloat Wire Registry Minecraft ServerPacket Conn.
From S2P Require Import Batch Tracker Session SessionLoops.

Local Open Scope Z_scope.
Local Open Scope go_scope.

Section Steps.
Context `{G : Gopher} `{P : !Protocols} `{Rt : Runtime} `{IO : IterationOrder} `{F : FloatConversion}.
Context `{Sur : !Surroundings}.
Variable zero_start : StartGame_fields.
Variable type_name : packet -> string.
Implicit Types w : World.

Abbreviation CSW := (CS (cb:=transfer_cb) (env:=World)).

(** ** Steps

    Whole operations, the parts of those that wait, and everything another
    goroutine may do with a connection it holds, current or not. *)
Inductive session_op :=
  | OpLogin
  | OpLoginFinish (k : nat) (waited : outcome unit)
  | OpTransfer (addr : string)
  | OpDial (addr : string)
  | OpDialLocked (addr : string)
  | OpFallback
  | OpClose (err : error)
  | OpSetCache (cache : list byte)
  | OpSetAnimation (animation : nat)
  | OpSetProcessor (processor : nat)
  | OpServerRound (fuel : nat) (pick : bool)
  | OpReadError (k : nat) (err : error)
  | OpServerItem (it : item)
  | OpConnect (k : nat)
  | OpOnConnect (k : nat) (cb : transfer_cb)
  | OpRead (k : nat) (fuel : nat) (pick : bool)
  | OpSpawn (k : nat)
  | OpCloseConn (k : nat) (err : error)
  | OpWritePacket (k : nat) (pk : packet)
  | OpWriteBatch (k : nat) (payloads : list (list byte))
  | OpClient (call : client_call)
  | OpClientRound (pool : gmap Z packet) (shieldID : Z) (h : Header hdr_rest) (batch : list (list byte) + error)
  | OpLatencyStart
  | OpLatencyRound (pick : bool) (latency now : Z).

Definition perform (op : session_op) : M World unit :=
  match op with
  | OpLogin => ignore (login_start zero_start)
  | OpLoginFinish k waited => ignore (login_finish zero_start k waited)
  | OpTransfer addr => ignore (Transfer zero_start addr)
  | OpDial addr => ignore (dial zero_start addr)
  | OpDialLocked addr => ignore (dial_locked zero_start addr)
  | OpFallback => ignore (fallback zero_start)
  | OpClose err => Session_CloseWithError zero_start err
  | OpSetCache cache => SetCache cache
  | OpSetAnimation animation => SetAnimation animation
  | OpSetProcessor processor => SetProcessor processor
  | OpServerRound fuel pick => ignore (handleServer_round zero_start fuel pick)
  | OpReadError k err => ignore (handle_read_error zero_start k err)
  | OpServerItem it => ignore (handle_server_item zero_start it)
  | OpConnect k => ignore (on_conn k DoConnect)
  | OpOnConnect k cb => on_conn k (OnConnect cb)
  | OpRead k fuel pick => ignore (on_conn k (Conn.ReadPacket (on_connected zero_start) zero_start fuel pick))
  | OpSpawn k => ignore (on_conn k DoSpawn)
  | OpCloseConn k err => on_conn k (Conn.CloseWithError (on_connected zero_start) err)
  | OpWritePacket k pk => ignore (on_conn k (WritePacket pk))
  | OpWriteBatch k payloads => ignore (on_conn k (WriteBatch payloads))
  | OpClient call => ignore (client_op call)
  | OpClientRound pool shieldID h batch =>
      ignore (handleClient_round zero_start type_name pool shieldID h batch)
  | OpLatencyStart => latency_ticker (LatencyInterval session_opts)
  | OpLatencyRound pick latency now => ignore (handleLatency_round zero_start pick latency now)
  end.

Definition run_ops (ops : list session_op) w : World := foldl (fun w op => (perform op w).2) w ops.

(** ** Relations all steps respect *)

(** What a session does to its connections. *)
Inductive conn_op : forall A, M CSW A -> Prop :=
  | conn_connect : conn_op unit DoConnect
  | conn_spawn : conn_op unit DoSpawn
  | conn_callback cb : conn_op unit (OnConnect cb)
  | conn_close err : conn_op unit (Conn.CloseWithError (on_connected zero_start) err)
  | conn_read fuel pick : conn_op item (Conn.ReadPacket (on_connected zero_start) zero_start fuel pick)
  | conn_write pk : conn_op unit (WritePacket pk)
  | conn_batch payloads : conn_op unit (WriteBatch payloads)
  | conn_game : conn_op GameData (let! c := gets Conn.conn in ret (gameData_of zero_start c)).

Class SessionRelation (R : relation World) : Prop := {
  sr_preorder :: PreOrder R;
  sr_client : forall call, moves R (client_op call);
  sr_conn : forall A k (m : M CSW A), conn_op A m -> moves R (on_conn k m);
  sr_dial : forall addr, moves R (dial_locked zero_start addr);
  sr_batch : forall k h pc pool shieldID payloads,
    moves R (on_server k h (handleClientBatch batch_session type_name pc pool shieldID payloads));
  sr_notes : forall n w, R w (set_notes (notes w ++ [n]) w);
  sr_tracker : forall t w, R w (set_s_tracker t w);
  sr_cache : forall v w, R w (set_s_cache v w);
  sr_latency : forall v w, R w (set_s_latency v w);
  sr_context : forall raw decoded, moves R (zoom s_ctxPool set_s_ctxPool (NewPacketContext raw decoded));
  sr_pointers : forall v w, R w (set_s_processor v w) /\ R w (set_s_animation v w);
  sr_fallback : forall w, R w (set_inFallback true w);
  sr_once : forall w, R w (set_s_once true w);
  sr_end : forall err w, R w (set_s_ctx (match s_ctx w with None => Some err | c => c end) w);
  sr_login : forall w, R w (set_s_registry (AddSession XUID self (s_registry w)) w);
  sr_logout : forall w, R w (set_s_registry (RemoveSession XUID (s_registry w)) w);
}.

Section Respected.
Context (R : relation World) `{!SessionRelation R}.

Create HintDb session discriminated.
#[local] Hint Resolve sr_client sr_dial : session.
#[local] Hint Extern 1 (R _ _) => first [apply sr_notes | apply sr_tracker | apply sr_cache | apply sr_latency
  | apply sr_fallback | apply sr_once | apply sr_end | apply sr_login | apply sr_logout] : session.
#[local] Hint Extern 2 (moves _ (on_conn _ _)) => apply sr_conn; constructor : session.

Ltac session_moves := repeat first [ solve [eauto with session] | progress go_moves_step | progress intros ].

Lemma send_moves pk : moves R (send pk).
Proof. unfold send. session_moves. Qed.

Lemma dial_moves addr : moves R (dial zero_start addr).
Proof. unfold dial, check_session. session_moves. Qed.

Lemma SetCache_moves cache : moves R (SetCache cache).
Proof. unfold SetCache. session_moves. Qed.

Lemma Session_CloseWithError_moves err : moves R (Session_CloseWithError zero_start err).
Proof. pose proof send_moves. unfold Session_CloseWithError. session_moves. Qed.

Lemma Transfer_moves addr : moves R (Transfer zero_start addr).
Proof.
  pose proof send_moves. pose proof dial_moves.
  unfold Transfer, TransferContext, transfer_dial, sendMetadata, notify_processor. session_moves.
Qed.

Lemma fallback_moves : moves R (fallback zero_start).
Proof. pose proof Transfer_moves. unfold fallback, check_session. session_moves. Qed.

Lemma login_start_moves : moves R (login_start zero_start).
Proof. pose proof dial_moves. unfold login_start. session_moves. Qed.

Lemma login_finish_moves k waited : moves R (login_finish zero_start k waited).
Proof. unfold login_finish. session_moves. Qed.

Lemma handle_read_error_moves k err : moves R (handle_read_error zero_start k err).
Proof.
  pose proof fallback_moves. pose proof Session_CloseWithError_moves. unfold handle_read_error. session_moves.
Qed.

Lemma handle_server_item_moves it : moves R (handle_server_item zero_start it).
Proof.
  pose proof Session_CloseWithError_moves. pose proof Transfer_moves. pose proof SetCache_moves.
  assert (forall call f, moves R (forward zero_start call f)) by (unfold forward; intros; session_moves).
  assert (forall r d, moves R (process_server r d)).
  { intros. unfold process_server. pose proof sr_context. session_moves. }
  unfold handle_server_item. session_moves.
Qed.

Lemma handleServer_round_moves fuel pick : moves R (handleServer_round zero_start fuel pick).
Proof.
  pose proof handle_server_item_moves. pose proof handle_read_error_moves. pose proof Session_CloseWithError_moves.
  unfold handleServer_round. session_moves.
Qed.

Lemma handleClient_round_moves pool shieldID h batch :
  moves R (handleClient_round zero_start type_name pool shieldID h batch).
Proof.
  pose proof Session_CloseWithError_moves. pose proof sr_batch. unfold handleClient_round. session_moves.
Qed.

Lemma handleLatency_round_moves pick latency now : moves R (handleLatency_round zero_start pick latency now).
Proof.
  pose proof Session_CloseWithError_moves. unfold handleLatency_round, latency_tick. session_moves.
Qed.

Lemma latency_ticker_moves interval : moves R (latency_ticker interval).
Proof. unfold latency_ticker. session_moves. Qed.

Lemma perform_moves op : moves R (perform op).
Proof.
  assert (forall k, moves R (SetProcessor k) /\ moves R (SetAnimation k)) as Hp.
  { intros k. split; apply moves_modify; intros w; destruct (sr_pointers k w); done. }
  destruct op; simpl; try (apply moves_ignore; [apply _|]);
    auto using Transfer_moves, dial_moves, sr_dial, fallback_moves, Session_CloseWithError_moves, SetCache_moves,
      login_start_moves, login_finish_moves, handleServer_round_moves, handleClient_round_moves,
      latency_ticker_moves, handleLatency_round_moves, handle_read_error_moves, handle_server_item_moves, sr_client;
    first [apply sr_conn; constructor | apply Hp].
Qed.

Lemma run_ops_moves ops w : R w (run_ops ops w).
Proof.
  revert w. induction ops as [|op ops IH]; intros w; [reflexivity|]. simpl. etrans; [apply perform_moves | apply IH].
Qed.

End Respected.
End Steps.
