(* ===== verification/SessionProps.v ===== *)
(** * SessionProps: what a session guarantees

    The client connection only records what it is asked; what [sendGameData]
    sends, and which chunks; the spawn and the callback of a transfer; the toy
    surroundings of the witnesses. *)

From S2P Require Import Prelude GoFloat Wire Registry Minecraft ServerPacket Conn Toy ConnIO ConnSeq ConnLife.
From S2P Require Import Batch Tracker Session.

Local Open Scope Z_scope.
Local Open Scope go_scope.

(** ** Coordinates *)

(** The chunk of a coordinate: the floor of a sixteenth of it. *)
Definition chunk_of (f : float32) : option Z :=
  match f with
  | S754_zero _ => Some 0
  | S754_finite s m e => Some (Z.shiftl (signed s (Zpos m)) (e - 4))
  | _ => None
  end.

(** A coordinate whose integral part is an int32. *)
Definition fits_int32 (f : float32) : Prop :=
  match f with
  | S754_finite s m e => - 2 ^ 31 <= signed s (trunc_mantissa m e) < 2 ^ 31
  | _ => True
  end.

Lemma shiftl_floor m e : 0 <= m ->
  - (Z.shiftl m e) - 1 <= Z.shiftl (- m) e <= - (Z.shiftl m e).
Proof.
  intros Hm. destruct (Z.le_gt_cases 0 e) as [He|He].
  - rewrite !Z.shiftl_mul_pow2 by lia. lia.
  - rewrite !(Z.shiftl_div_pow2 _ e) by lia. assert (0 < 2 ^ (- e)) as Hp by (apply Z.pow_pos_nonneg; lia).
    revert Hp. generalize (2 ^ (- e)). intros p Hp. pose proof (Z.div_mod m p). pose proof (Z.mod_pos_bound m p Hp).
    pose proof (Z.div_mod (- m) p). pose proof (Z.mod_pos_bound (- m) p Hp). nia.
Qed.

(** [int32(x) >> 4] is the chunk of [x], or the next one when [x] is negative:
    the conversion rounds towards zero, the shift down. *)
Lemma chunk_of_int32 `{FloatConversion} f c :
  fits_int32 f -> chunk_of f = Some c -> c <= Z.shiftr (int32_of_float f) 4 <= c + 1.
Proof.
  destruct f as [s|s| |s m e]; try done; [intros _ [= <-]; change (0 <= 0 <= 1); lia|].
  intros Hf [= <-]. unfold int32_of_float, int_of_float, fits_int32 in *. cbv zeta. change (32 - 1) with 31.
  destruct (_ && _) eqn:E; [|apply andb_false_iff in E as [E%Z.leb_gt|E%Z.ltb_ge]; lia].
  assert (forall a, Z.shiftl a (e - 4) = Z.shiftl a e / 16) as Hs.
  { intros a. change 16 with (2 ^ 4). rewrite <- (Z.shiftr_div_pow2 (Z.shiftl a e) 4) by lia.
    apply Z.bits_inj'. intros n Hn. rewrite Z.shiftr_spec, !Z.shiftl_spec by lia. f_equal. lia. }
  rewrite Z.shiftr_div_pow2 by lia. rewrite Hs. unfold signed, trunc_mantissa. change (2 ^ 4) with 16.
  destruct s; [|lia]. pose proof (shiftl_floor (Zpos m) e ltac:(lia)) as H'.
  revert H'. generalize (Z.shiftl (- Zpos m) e), (Z.shiftl (Zpos m) e). intros b a ?. Z.to_euclidean_division_equations; lia.
Qed.

Lemma chunk_coordinate_range `{FloatConversion} f : - 2 ^ 27 <= Z.shiftr (int32_of_float f) 4 < 2 ^ 27.
Proof.
  rewrite Z.shiftr_div_pow2 by lia. change (2 ^ 4) with 16. pose proof (int32_of_float_range f).
  split; [apply Z.div_le_lower_bound | apply Z.div_lt_upper_bound]; lia.
Qed.

Section Frames.
Context `{G : Gopher} `{P : !Protocols} `{Rt : Runtime} `{IO : IterationOrder} `{F : FloatConversion}.
Context `{Sur : !Surroundings}.
Variable zero_start : StartGame_fields.
Implicit Types w : World.

Abbreviation CSW := (CS (cb:=transfer_cb) (env:=World)).

(** ** The client connection only records

    [beside]: nothing changes but what the client was asked, the tracker and
    the cause of the session's cancellation. *)
Record beside w w' : Prop := {
  bs_addr : serverAddr w' = serverAddr w;
  bs_conn : serverConn w' = serverConn w;
  bs_cache : s_cache w' = s_cache w;
  bs_latency : s_latency w' = s_latency w;
  bs_fallback : inFallback w' = inFallback w;
  bs_once : s_once w' = s_once w;
  bs_conns : conns w' = conns w;
  bs_pools : w_pools w' = w_pools w;
  bs_ctxPool : s_ctxPool w' = s_ctxPool w;
  bs_registry : s_registry w' = s_registry w;
  bs_notes : notes w' = notes w;
  bs_processor : s_processor w' = s_processor w;
  bs_animation : s_animation w' = s_animation w;
}.

#[export] Instance beside_preorder : PreOrder beside.
Proof.
  split; [by intros w; split |].
  intros w1 w2 w3 [] []. split; congruence.
Qed.

(** A computation that asks the client for these calls, in this order, and
    returns. *)
Definition asks (m : M World unit) (cs : World -> list client_call) : Prop := forall w,
  exists w', m w = (Ok tt, w') /\ beside w w' /\ s_tracker w' = s_tracker w /\
    client_out w' = client_out w ++ cs w.

Lemma send_asks pk : asks (send pk) (fun _ => [client_WritePacket pk]).
Proof.
  intros w. unfold send, ignore, attempt, bind, client_op.
  destruct (client_result w _); eexists; by split_and!.
Qed.

Lemma asks_seq m1 m2 cs1 cs2 :
  asks m1 (fun _ => cs1) -> asks m2 (fun _ => cs2) -> asks (m1 ;;; m2) (fun _ => cs1 ++ cs2).
Proof.
  intros H1 H2 w. destruct (H1 w) as (w1 & E1 & B1 & T1 & O1). destruct (H2 w1) as (w2 & E2 & B2 & T2 & O2).
  exists w2. rewrite (bind_eq_Ok _ _ _ _ _ E1). split_and!; [done | by etrans | congruence |].
  by rewrite O2, O1, (assoc_L (++)).
Qed.

Lemma for_each_asks {A} (f : A -> M World unit) (cs : A -> list client_call) xs :
  (forall x, asks (f x) (fun _ => cs x)) -> asks (for_each f xs) (fun _ => concat (map cs xs)).
Proof.
  intros Hf. induction xs as [|x xs IH]; simpl.
  - intros w. exists w. by rewrite app_nil_r.
  - by apply asks_seq.
Qed.

(** The chunks [sendGameData] sends: the squares of a 9 by 9 area, once
    each. *)
Definition chunk_calls (dimension chunkX chunkZ : Z) : list client_call :=
  concat (map (fun x => concat (map (fun z =>
    [client_WritePacket (LevelChunk dimension x z 1 (emptyChunk dimension))]) (seqZ (chunkZ - 4) 9))) (seqZ (chunkX - 4) 9)).

Lemma send_chunks_asks d x z : asks (send_chunks d x z (emptyChunk d)) (fun _ => chunk_calls d x z).
Proof.
  unfold send_chunks, chunk_calls. apply for_each_asks. intros a. apply for_each_asks. intros b. apply send_asks.
Qed.

(** The chunks sent, by their coordinates. *)
Definition chunk_coords (chunkX chunkZ : Z) : list (Z * Z) := list_prod (seqZ (chunkX - 4) 9) (seqZ (chunkZ - 4) 9).

Lemma chunk_calls_coords d x z :
  chunk_calls d x z = map (fun c => client_WritePacket (LevelChunk d c.1 c.2 1 (emptyChunk d))) (chunk_coords x z).
Proof. reflexivity. Qed.

Lemma elem_of_chunk_coords x z a b :
  (a, b) ∈ chunk_coords x z <-> x - 4 <= a <= x + 4 /\ z - 4 <= b <= z + 4.
Proof.
  unfold chunk_coords. rewrite list_elem_of_In, in_prod_iff, <- !list_elem_of_In, !elem_of_seqZ. lia.
Qed.

Lemma NoDup_chunk_coords x z : NoDup (chunk_coords x z).
Proof.
  unfold chunk_coords. generalize (seqZ (z - 4) 9), (NoDup_seqZ (z - 4) 9). intros zs Hzs.
  generalize (seqZ (x - 4) 9), (NoDup_seqZ (x - 4) 9). intros xs Hxs.
  induction Hxs as [|a xs Ha _ IH]; simpl; [constructor|]. apply NoDup_app. split_and!; [| | done].
  - by apply (NoDup_fmap_2 (pair a)).
  - intros c (b & <- & _)%list_elem_of_In%in_map_iff [Hc _]%list_elem_of_In%in_prod_iff. by apply Ha, list_elem_of_In.
Qed.

(** What [sendGameData] sends, with the client's runtime id and the tracker at
    that time. *)
Definition game_data_calls (rid : Z) (t : tracker) (gameData : GameData) : list client_call :=
  let g := gd_start gameData in
  let pos := sg_PlayerPosition g in
  chunk_calls (sg_Dimension g) (Z.shiftr (int32_of_float (X pos)) 4) (Z.shiftr (int32_of_float (Z' pos)) 4) ++
  map (fun pk => client_WritePacket (Fwd pk)) (removals rid t) ++
  map client_WritePacket
    [MovePlayer (gd_EntityRuntimeID gameData) pos (sg_Pitch g) (sg_Yaw g) (const MoveModeReset);
     LevelEvent (const LevelEventStopRaining) 10000;
     LevelEvent (const LevelEventStopThunderstorm) 0;
     SetDifficulty (u32 (sg_Difficulty g));
     SetPlayerGameType (sg_PlayerGameMode g);
     GameRulesChanged (sg_GameRules g)].

Lemma concat_singletons {A B} (f : A -> B) xs : concat (map (fun x => [f x]) xs) = map f xs.
Proof. induction xs as [|x xs IH]; simpl; [done | by rewrite IH]. Qed.

Lemma send_all_asks {A} (f : A -> client_packet) xs :
  asks (for_each (fun x => send (f x)) xs) (fun _ => map (fun x => client_WritePacket (f x)) xs).
Proof.
  pose proof (for_each_asks (fun x => send (f x)) _ xs (fun x => send_asks (f x))) as H.
  by rewrite concat_singletons in H.
Qed.

Lemma sendGameData_eq gameData w :
  exists w' rid, sendGameData gameData w = (Ok tt, w') /\ beside w w' /\ s_tracker w' = newTracker /\
    client_out w' = client_out w ++ game_data_calls rid (s_tracker w) gameData.
Proof.
  unfold sendGameData.
  destruct (send_chunks_asks (sg_Dimension (gd_start gameData))
    (Z.shiftr (int32_of_float (X (sg_PlayerPosition (gd_start gameData)))) 4)
    (Z.shiftr (int32_of_float (Z' (sg_PlayerPosition (gd_start gameData)))) 4) w) as (w1 & E1 & B1 & T1 & O1).
  rewrite (bind_eq_Ok _ _ _ _ _ E1). set (rid := client_EntityRuntimeID w1).
  set (w2 := set_s_tracker newTracker w1).
  destruct (send_all_asks Fwd (removals rid (s_tracker w1)) w2) as (w3 & E3 & B3 & T3 & O3).
  rewrite (bind_eq_Ok _ _ _ tt w3).
  2:{ unfold clear_tracker, bind at 1, gets, id. rewrite clearAll_eq. exact E3. }
  destruct (asks_seq _ _ _ _ (send_asks (MovePlayer (gd_EntityRuntimeID gameData) (sg_PlayerPosition (gd_start gameData))
      (sg_Pitch (gd_start gameData)) (sg_Yaw (gd_start gameData)) (const MoveModeReset)))
    (asks_seq _ _ _ _ (send_asks (LevelEvent (const LevelEventStopRaining) 10000))
    (asks_seq _ _ _ _ (send_asks (LevelEvent (const LevelEventStopThunderstorm) 0))
    (asks_seq _ _ _ _ (send_asks (SetDifficulty (u32 (sg_Difficulty (gd_start gameData)))))
    (asks_seq _ _ _ _ (send_asks (SetPlayerGameType (sg_PlayerGameMode (gd_start gameData))))
      (send_asks (GameRulesChanged (sg_GameRules (gd_start gameData))))))))  w3) as (w4 & E4 & B4 & T4 & O4).
  exists w4, rid. split; [exact E4|]. split.
  - transitivity w1; [done|]. transitivity w2; [by split|]. by transitivity w3.
  - split; [by rewrite T4, T3|]. rewrite O4, O3. simpl. rewrite O1, T1. unfold game_data_calls.
    by rewrite <- !(assoc_L (++)).
Qed.

(** ** The callback of a transfer *)

Lemma in_world_eq {A} (m : M World A) (s : CSW) a w' :
  m (cenv s) = (Ok a, w') -> in_world m s = (Ok a, mkCS (conn s) (pools s) w').
Proof. unfold in_world, zoom. by intros ->. Qed.

(** The frame of one of the packets the proxy makes for a server. *)
Definition built_frame (pk : gt_packet) (bs : list byte) : Prop := exists hr henc enc pr sh,
  bs = frame (seal 0 (henc ++ enc)) /\
  (forall h0 rest, Header_Read h0 (henc ++ rest) = (None, mkHeader (gt_packet_ID pk) hr, rest)) /\
  gt_Marshal (NewWriter_IO pr sh) pk [] = (Ok pk, enc).

Lemma built_sent `{!HeaderLaws} `{!IDLaws} `{!BuiltLaws} pk (s : CSW) :
  match pk with ClientCacheStatus _ b | SetLocalPlayerAsInitialised _ b => b = body_zero | _ => False end ->
  wf_cs s -> live s -> healthy_cs s ->
  exists wr p bs, let s' := mkCS (set_writer wr (conn s)) p (cenv s) in
    WritePacket (Gt pk) s = (Ok tt, s') /\ wf_cs s' /\ live s' /\ healthy_cs s' /\
    sent s' = sent s ++ bs /\ built_frame pk bs.
Proof.
  intros Hpk Hs Hl Hh.
  destruct (built_codec (protocol (conn s)) (shieldID (conn s)) pk) as (enc & He); [by destruct pk|].
  destruct (Header_codec (mkHeader (gt_packet_ID pk) (Header_rest (pooled_header s)))) as (henc & Hw & Hr).
  { pose proof gt_ID_range as Hid. destruct pk; try done; simpl; [specialize (Hid KClientCacheStatus)
      | specialize (Hid KSetLocalPlayerAsInitialised)]; lia. }
  destruct (WritePacket_sends (Gt pk) s henc enc) as (o & wr & p & Hrun & Hp & _ & Hsd); [done | done | done | |].
  { intros buf. simpl. by rewrite (bind_eq_Ok _ _ _ _ _ (He buf)). }
  destruct (sends_connected _ _ _ _ _ Hsd Hh Hl Hp) as (-> & Hs' & Hl' & Hh' & Hsent).
  exists wr, p, (frame (seal 0 (henc ++ enc))). split_and!; try done.
  by exists (Header_rest (pooled_header s)), henc, enc, (protocol (conn s)), (shieldID (conn s)).
Qed.

Lemma DoSpawn_eq `{!HeaderLaws} `{!IDLaws} `{!BuiltLaws} (s : CSW) :
  wf_cs s -> live s -> healthy_cs s -> spawned (conn s) = false ->
  exists wr p bs1 bs2, let s' := mkCS (set_writer wr (set_spawned true (conn s))) p (cenv s) in
    DoSpawn s = (Ok tt, s') /\ wf_cs s' /\ live s' /\ healthy_cs s' /\
    sent s' = sent s ++ bs1 ++ bs2 /\
    built_frame (ClientCacheStatus (client_ClientCacheEnabled (client (conn s))) body_zero) bs1 /\
    built_frame (SetLocalPlayerAsInitialised (runtimeID (conn s)) body_zero) bs2.
Proof.
  intros Hs Hl Hh Hsp. set (s0 := upd_conn (set_spawned true) s).
  destruct (built_sent (ClientCacheStatus (client_ClientCacheEnabled (client (conn s))) body_zero) s0)
    as (w1 & p1 & bs1 & E1 & Hs1 & Hl1 & Hh1 & Hb1 & Hf1); [done..|].
  destruct (built_sent (SetLocalPlayerAsInitialised (runtimeID (conn s)) body_zero)
    (mkCS (set_writer w1 (conn s0)) p1 (cenv s0))) as (w2 & p2 & bs2 & E2 & Hs2 & Hl2 & Hh2 & Hb2 & Hf2); [done..|].
  exists w2, p2, bs1, bs2. split_and!; try done.
  - unfold DoSpawn. rewrite (bind_eq_Ok _ _ _ _ _ (check_ctx_live s Hl)).
    rewrite (bind_eq_Ok _ _ _ tt s0) by (unfold close_chan, bind, gets; by rewrite Hsp).
    unfold bind at 1, gets. rewrite (bind_eq_Ok _ _ _ _ _ E1). unfold bind, gets. exact E2.
  - etrans; [exact Hb2|]. cbv zeta in Hb1. rewrite Hb1. by rewrite <- (assoc_L (++)).
Qed.

Lemma on_connected_completes `{!HeaderLaws} `{!IDLaws} `{!BuiltLaws} cb (s : CSW) :
  let g := gameData_of zero_start (conn s) in
  wf_cs s -> live s -> healthy_cs s -> spawned (conn s) = false ->
  exists s' w1 rid bs1 bs2,
    on_connected zero_start cb None s = (Ok tt, s') /\
    (exists wr, conn s' = set_writer wr (set_spawned true (conn s)) /\ healthy wr) /\
    sent s' = sent s ++ bs1 ++ bs2 /\
    built_frame (ClientCacheStatus (client_ClientCacheEnabled (client (conn s))) body_zero) bs1 /\
    built_frame (SetLocalPlayerAsInitialised (runtimeID (conn s)) body_zero) bs2 /\
    let w := cenv s in let w' := cenv s' in
    client_out w' = client_out w ++ map client_WritePacket (animation_Play (session_animation w) w g)
      ++ game_data_calls rid (s_tracker w) g ++ map client_WritePacket (animation_Clear (session_animation w) w1 g) /\
    s_tracker w' = newTracker /\ inFallback w' = false /\
    notes w' = notes w ++ [PostTransfer (cb_origin cb) (cb_target cb)] /\
    conns w' = conns w /\ serverConn w' = serverConn w /\ s_registry w' = s_registry w.
Proof.
  intros g Hs Hl Hh Hsp. set (w := cenv s).
  destruct (send_all_asks (fun x => x) (animation_Play (session_animation w) w g) w) as (wa & Ea & Ba & Ta & Oa).
  destruct (sendGameData_eq g wa) as (wb & rid & Eb & Bb & Tb & Ob).
  destruct (DoSpawn_eq (mkCS (conn s) (pools s) wb) Hs Hl Hh Hsp) as (wr & p & bs1 & bs2 & Ed & _ & _ & Hh' & Hsent & Hf1 & Hf2).
  set (w1 := set_inFallback false wb).
  assert (session_animation w1 = session_animation w) as Ha.
  { unfold session_animation. change (s_animation w1) with (s_animation wb). by rewrite (bs_animation _ _ Bb), (bs_animation _ _ Ba). }
  destruct (send_all_asks (fun x => x) (animation_Clear (session_animation w1) w1 g) w1) as (wc & Ec & Bc & Tc & Oc).
  set (w2 := set_notes (notes wc ++ [PostTransfer (cb_origin cb) (cb_target cb)]) wc).
  exists (mkCS (set_writer wr (set_spawned true (conn s))) p w2), w1, rid, bs1, bs2. split.
  - unfold on_connected, bind at 1, gets. fold g.
    rewrite (bind_eq_Ok _ _ _ _ _ (in_world_eq (let! w := gets id in for_each send (animation_Play (session_animation w) w g)) s tt wa Ea)).
    rewrite (bind_eq_Ok _ _ _ _ _ (in_world_eq (sendGameData g) (mkCS (conn s) (pools s) wa) tt wb Eb)).
    rewrite (bind_eq_Ok _ _ _ _ _ (attempt_eq_Ok _ _ _ _ Ed)).
    apply in_world_eq. simpl cenv. unfold bind at 1, modify. fold w1.
    rewrite (bind_eq_Ok _ _ _ tt wc) by exact Ec. reflexivity.
  - split; [by eexists|]. split; [exact Hsent|]. do 2 (split; [done|]). cbv zeta. split_and!.
    + change (client_out wc = client_out w ++ map client_WritePacket (animation_Play (session_animation w) w g)
        ++ game_data_calls rid (s_tracker w) g ++ map client_WritePacket (animation_Clear (session_animation w) w1 g)).
      rewrite Oc, Ha. change (client_out w1) with (client_out wb). rewrite Ob, Oa, Ta.
      by rewrite <- !(assoc_L (++)).
    + change (s_tracker wc = newTracker). by rewrite Tc.
    + change (inFallback wc = false). by rewrite (bs_fallback _ _ Bc).
    + change (notes wc ++ [PostTransfer (cb_origin cb) (cb_target cb)]
        = notes w ++ [PostTransfer (cb_origin cb) (cb_target cb)]).
      by rewrite (bs_notes _ _ Bc : notes wc = notes wb), (bs_notes _ _ Bb), (bs_notes _ _ Ba).
    + change (conns wc = conns w). by rewrite (bs_conns _ _ Bc : conns wc = conns wb), (bs_conns _ _ Bb), (bs_conns _ _ Ba).
    + change (serverConn wc = serverConn w). by rewrite (bs_conn _ _ Bc : serverConn wc = serverConn wb), (bs_conn _ _ Bb), (bs_conn _ _ Ba).
    + change (s_registry wc = s_registry w). by rewrite (bs_registry _ _ Bc : s_registry wc = s_registry wb), (bs_registry _ _ Bb), (bs_registry _ _ Ba).
Qed.

(** C8: a transfer completes.  When the connection sequence of a transfer's
    new connection succeeds, its callback, over a working connection, sends the
    client in this order the packets of the animation, an empty chunk for each
    of the 81 squares around the player's position in the new world, one
    removal for everything the tracker knows, the player's position, the
    weather, difficulty, game mode and game rules, and the end of the
    animation; it sends the server ClientCacheStatus and
    SetLocalPlayerAsInitialised with the player's new runtime id and lets
    [ReadPacket] deliver.  The tracker is empty, another fallback is allowed,
    the processor is told once of the transfer, and nothing else of the session
    changes; errors of the client connection change none of this. *)
Theorem transfer_completes `{!HeaderLaws} `{!IDLaws} `{!BuiltLaws} cb (s : CSW) :
  let g := gameData_of zero_start (conn s) in
  wf_cs s -> live s -> healthy_cs s -> spawned (conn s) = false ->
  exists s' w1 rid bs1 bs2,
    on_connected zero_start cb None s = (Ok tt, s') /\
    spawned (conn s') = true /\ live s' /\
    sent s' = sent s ++ bs1 ++ bs2 /\
    built_frame (ClientCacheStatus (client_ClientCacheEnabled (client (conn s))) body_zero) bs1 /\
    built_frame (SetLocalPlayerAsInitialised (runtimeID (conn s)) body_zero) bs2 /\
    let w := cenv s in let w' := cenv s' in
    client_out w' = client_out w ++ map client_WritePacket (animation_Play (session_animation w) w g)
      ++ game_data_calls rid (s_tracker w) g ++ map client_WritePacket (animation_Clear (session_animation w) w1 g) /\
    s_tracker w' = newTracker /\ inFallback w' = false /\
    notes w' = notes w ++ [PostTransfer (cb_origin cb) (cb_target cb)] /\
    conns w' = conns w /\ serverConn w' = serverConn w /\ s_registry w' = s_registry w.
Proof.
  intros g Hs Hl Hh Hsp.
  destruct (on_connected_completes cb s Hs Hl Hh Hsp) as (s' & w1 & rid & bs1 & bs2 & E & (wr & Hc & _) & Hrest).
  exists s', w1, rid, bs1, bs2. split; [done|]. unfold live. rewrite Hc. by repeat (split; [done|]).
Qed.

(** C32: the empty chunks a client gets before the new world.  For every game
    data [sendGameData] sends 81 distinct chunks, whose coordinates are int32
    (the loops do not overflow) and which are the first packets it sends; when
    the player's position fits, they contain the player's own chunk and at least
    three chunks around it in every direction (not four: the conversion of a
    negative coordinate rounds up). *)
Theorem chunks_surround_player gameData w :
  let g := gd_start gameData in
  let pos := sg_PlayerPosition g in
  exists w' cs rest,
    sendGameData gameData w = (Ok tt, w') /\
    client_out w' = client_out w ++
      map (fun c => client_WritePacket (LevelChunk (sg_Dimension g) c.1 c.2 1 (emptyChunk (sg_Dimension g)))) cs ++ rest /\
    length cs = 81%nat /\ NoDup cs /\
    Forall (fun c => - 2 ^ 31 <= c.1 < 2 ^ 31 /\ - 2 ^ 31 <= c.2 < 2 ^ 31) cs /\
    (forall call, call ∈ rest -> forall d x z n bs, call <> client_WritePacket (LevelChunk d x z n bs)) /\
    (fits_int32 (X pos) -> fits_int32 (Z' pos) ->
     forall x z, chunk_of (X pos) = Some x -> chunk_of (Z' pos) = Some z ->
     forall a b, x - 3 <= a <= x + 3 -> z - 3 <= b <= z + 3 -> (a, b) ∈ cs).
Proof.
  intros g pos. destruct (sendGameData_eq gameData w) as (w' & rid & E & _ & _ & Hout).
  exists w', (chunk_coords (Z.shiftr (int32_of_float (X pos)) 4) (Z.shiftr (int32_of_float (Z' pos)) 4)). eexists.
  split; [exact E|]. split.
  { rewrite Hout. unfold game_data_calls. cbv zeta. rewrite chunk_calls_coords. reflexivity. }
  split; [reflexivity|]. split; [apply NoDup_chunk_coords|]. split; [|split].
  - apply Forall_forall. intros [a b] [Ha Hb]%elem_of_chunk_coords. simpl.
    pose proof (chunk_coordinate_range (X pos)). pose proof (chunk_coordinate_range (Z' pos)). lia.
  - intros call Hc d x z n bs ->. apply elem_of_app in Hc as [Hc|Hc].
    + by apply list_elem_of_In, in_map_iff in Hc as (pk & ? & _).
    + simpl in Hc. rewrite !elem_of_cons, elem_of_nil in Hc. intuition discriminate.
  - intros Hx Hz x z Ex Ez a b Ha Hb. apply elem_of_chunk_coords.
    pose proof (chunk_of_int32 _ _ Hx Ex). pose proof (chunk_of_int32 _ _ Hz Ez). lia.
Qed.

End Frames.

(** * Witnesses *)

#[local] Existing Instances toy_types toy toy_protocols toy_runtime toy_HeaderLaws toy_IDLaws toy_BuiltLaws.

Definition toy_order : IterationOrder := {| visit A l := l; visit_perm A l := reflexivity l |}.
Definition toy_floats : FloatConversion := {| out_of_range _ _ := 0 |}.

#[local] Existing Instances toy_order toy_floats.

(** A session with a client that accepts everything, a transport that reaches
    every address, one fallback server and a processor that does nothing. *)
Definition toy_session : Surroundings := {|
  session_opts := DefaultOpts;
  session_client := toy_client;
  XUID := "1";
  self := 0%nat;
  client_result _ _ := None;
  client_cause _ _ := None;
  client_EntityRuntimeID _ := 1;
  transport_Dial _ _ := inl (mkSource [] EOF, mkSink [] []);
  Discover _ := StaticDiscovery_Discover (NewStaticDiscovery "lobby" "fallback");
  DiscoverFallback _ := StaticDiscovery_DiscoverFallback (NewStaticDiscovery "lobby" "fallback");
  GameData_Dimension _ := 0;
  processors _ := NopProcessor;
  animations _ := dimension_object (fun _ => 0)
|}.

#[local] Existing Instance toy_session.

Definition toy_world : World := NewSession None (mkPools [] [] []) [] NewRegistry.

Lemma transfer_completes_witness :
  let cb := mkTransferCb "lobby" "arena" in
  let s : CS (cb:=transfer_cb) (env:=World) := toy_cs_env toy_world [] in
  let g := gameData_of toy_start (conn s) in
  exists s' w1 rid bs1 bs2,
    on_connected toy_start cb None s = (Ok tt, s') /\
    spawned (conn s') = true /\ live s' /\
    sent s' = sent s ++ bs1 ++ bs2 /\
    built_frame (ClientCacheStatus (client_ClientCacheEnabled (client (conn s))) body_zero) bs1 /\
    built_frame (SetLocalPlayerAsInitialised (runtimeID (conn s)) body_zero) bs2 /\
    let w := cenv s in let w' := cenv s' in
    client_out w' = client_out w ++ map client_WritePacket (animation_Play (session_animation w) w g)
      ++ game_data_calls rid (s_tracker w) g ++ map client_WritePacket (animation_Clear (session_animation w) w1 g) /\
    s_tracker w' = newTracker /\ inFallback w' = false /\
    notes w' = notes w ++ [PostTransfer (cb_origin cb) (cb_target cb)] /\
    conns w' = conns w /\ serverConn w' = serverConn w /\ s_registry w' = s_registry w.
Proof.
  intros cb s g. apply (transfer_completes toy_start cb s); [repeat constructor | reflexivity ..].
Defined.

(** Half a block to the west of the origin: chunk -1, taken for chunk 0. *)
Example negative_chunk :
  chunk_of (f32_ratio (-1) 2) = Some (-1) /\ Z.shiftr (int32_of_float (f32_ratio (-1) 2)) 4 = 0.
Proof. by vm_compute. Qed.

Lemma chunks_surround_player_witness :
  let gameData := gameData_of (cb:=transfer_cb) toy_start (conn (toy_cs_env (env:=World) toy_world [])) in
  let pos := sg_PlayerPosition (gd_start gameData) in
  exists w' cs rest,
    sendGameData gameData toy_world = (Ok tt, w') /\
    client_out w' = client_out toy_world ++
      map (fun c => client_WritePacket (LevelChunk (sg_Dimension (gd_start gameData)) c.1 c.2 1
        (emptyChunk (sg_Dimension (gd_start gameData))))) cs ++ rest /\
    forall x z, chunk_of (X pos) = Some x -> chunk_of (Z' pos) = Some z ->
    forall a b, x - 3 <= a <= x + 3 -> z - 3 <= b <= z + 3 -> (a, b) ∈ cs.
Proof.
  intros gameData pos.
  destruct (chunks_surround_player gameData toy_world) as (w' & cs & rest & E & Ho & _ & _ & _ & _ & H).
  exists w', cs, rest. split; [exact E|]. split; [exact Ho|]. apply H; vm_compute; try split; congruence.
Defined.
