(* ===== verification/SessionScreen.v ===== *)
(** * SessionScreen: what a player sees of a transfer

    [NewSession] gives a session the animation [Dimension] of [Animation] and
    the processor that does nothing; here the callback of a transfer with that
    animation, packet by packet. *)

From S2P Require Import Prelude GoFloat Wire Registry Minecraft ServerPacket Conn Toy Animation ConnIO ConnSeq ConnLife.
From S2P Require Import Batch Tracker Session SessionProps.

Local Open Scope Z_scope.
Local Open Scope go_scope.

Section Screen.
Context `{G : Gopher} `{P : !Protocols} `{Rt : Runtime} `{IO : IterationOrder} `{F : FloatConversion}.
Context `{Sur : !Surroundings} `{!DefaultObjects} `{!HeaderLaws} `{!IDLaws} `{!BuiltLaws}.
Variable zero_start : StartGame_fields.
Implicit Types w : World.

(** The packets of the dimension screen: before the new world, and after. *)
Definition screen_on (dimension : Z) (pos : Vec3) : list animation_packet :=
  [ChangeDimension dimension pos; StopSound true; PlayerAction (const PlayerActionDimensionChangeDone)].
Definition screen_off (pos : Vec3) : list animation_packet :=
  SendPlayStatus (const PlayStatusPlayerSpawn) :: screen_on (const DimensionOverworld) pos ++
  [SendPlayStatus (const PlayStatusPlayerSpawn)].

(** The dimension the client is sent to first. *)
Definition other_dimension (d : Z) : Z :=
  if d =? const DimensionNether then const DimensionEnd else const DimensionNether.

Lemma other_dimension_differs `{!DimensionLaws} d :
  other_dimension d <> d /\ other_dimension d <> const DimensionOverworld.
Proof.
  pose proof nether_overworld. pose proof end_overworld. pose proof end_nether.
  unfold other_dimension. destruct (Z.eqb_spec d (const DimensionNether)); split; congruence.
Qed.

Lemma other_dimension_is d cur :
  other_dimension d = cur <->
  d <> const DimensionNether /\ cur = const DimensionNether \/ d = const DimensionNether /\ cur = const DimensionEnd.
Proof. unfold other_dimension. destruct (Z.eqb_spec d (const DimensionNether)); naive_solver. Qed.

(** ** The dimension the client is in

    Every ChangeDimension moves the client, and so does the start of its game.
    A server's ChangeDimension passes through the proxy as a packet or a
    payload it does not inspect: [packet_dimension] and [payload_dimension] are
    what the client makes of those. *)
Variable packet_dimension : Z -> body -> option Z.
Variable payload_dimension : list byte -> option Z.

Definition moves_to (call : client_call) : option Z :=
  match call with
  | client_WritePacket (Animate (ChangeDimension d _)) => Some d
  | client_WritePacket (Fwd (Gt (OtherPacket id rest))) => packet_dimension id rest
  | client_Write payload => payload_dimension payload
  | client_StartGame g => Some (sg_Dimension (gd_start g))
  | _ => None
  end.

Definition dimension_in (start : Z) (calls : list client_call) : Z :=
  foldl (fun d call => default d (moves_to call)) start calls.

Lemma dimension_stays start calls : Forall (fun call => moves_to call = None) calls -> dimension_in start calls = start.
Proof. induction 1 as [|call calls Hc _ IH]; [done|]. unfold dimension_in. simpl. by rewrite Hc. Qed.

Lemma dimension_app start calls1 calls2 :
  dimension_in start (calls1 ++ calls2) = dimension_in (dimension_in start calls1) calls2.
Proof. apply foldl_app. Qed.

(** The removals and the new game data do not move the client. *)
Lemma game_data_stays rid t g : Forall (fun call => moves_to call = None) (game_data_calls rid t g).
Proof.
  unfold game_data_calls, chunk_calls, removals. rewrite !map_app, !Forall_app, !map_map.
  split_and!; try (apply Forall_forall; intros x (? & <- & _)%list_elem_of_In%in_map_iff; done);
    repeat constructor.
Qed.

Lemma default_animation w w1 g :
  s_animation w = 0%nat ->
  animation_Play (session_animation w) w g =
    map Animate (screen_on (other_dimension (GameData_Dimension w)) (sg_PlayerPosition (gd_start g))) /\
  animation_Clear (session_animation w) w1 g = map Animate (screen_off (sg_PlayerPosition (gd_start g))).
Proof. intros Ha. unfold session_animation. by rewrite Ha, animation_0. Qed.

(** C33: what the player of a session sees whose animation was never changed.
    When a transfer completes, the client is sent to a dimension that is
    neither the overworld nor the one in the client's game data; in it the
    client gets the empty chunks of the new server's dimension, loses
    everything the tracker knows of the old server and gets the new game data;
    and then it is sent to the overworld, where it stays.  That is all the
    client is sent, in this order, and the session is on the new server.  The
    second change of dimension is always a real one.  The first need not be:
    the game data does not follow the ChangeDimension packets of the servers.
    With [cur] the dimension the client is in ([dimension_in], over everything
    the client was sent, whatever the servers' own packets do), the client is
    sent to the dimension it is in exactly when it is in the nether and its game
    data names another dimension, or in the end and its game data names the
    nether. *)
Theorem default_transfer_screen `{!DimensionLaws} (cb : transfer_cb) (s : CS (cb:=transfer_cb) (env:=World)) (start : Z) :
  wf_cs s -> live s -> healthy_cs s -> spawned (conn s) = false -> s_animation (cenv s) = 0%nat ->
  let w := cenv s in
  let g := gameData_of zero_start (conn s) in
  let pos := sg_PlayerPosition (gd_start g) in
  let d := other_dimension (GameData_Dimension w) in
  let cur := dimension_in start (client_out w) in
  d <> GameData_Dimension w /\ d <> const DimensionOverworld /\
  (d = cur <-> GameData_Dimension w <> const DimensionNether /\ cur = const DimensionNether \/
    GameData_Dimension w = const DimensionNether /\ cur = const DimensionEnd) /\
  exists s' rid,
    on_connected zero_start cb None s = (Ok tt, s') /\ spawned (conn s') = true /\
    client_out (cenv s') = client_out w ++
      map (fun pk => client_WritePacket (Animate pk)) (screen_on d pos) ++
      game_data_calls rid (s_tracker w) g ++
      map (fun pk => client_WritePacket (Animate pk)) (screen_off pos) /\
    dimension_in start (client_out w ++ map (fun pk => client_WritePacket (Animate pk)) (screen_on d pos) ++
      game_data_calls rid (s_tracker w) g) = d /\
    dimension_in start (client_out (cenv s')) = const DimensionOverworld /\
    s_tracker (cenv s') = newTracker.
Proof.
  intros Hs Hl Hh Hsp Ha w g pos d cur. destruct (other_dimension_differs (GameData_Dimension w)) as [H1' H2'].
  split; [exact H1'|]. split; [exact H2'|]. split; [apply other_dimension_is|].
  destruct (on_connected_completes zero_start cb s Hs Hl Hh Hsp)
    as (s' & w1 & rid & bs1 & bs2 & E & (wr & Hc & _) & _ & _ & _ & Hout & Ht & _).
  destruct (default_animation w w1 g Ha) as [Hp Hcl]. fold w g in Hout. rewrite Hp, Hcl in Hout.
  rewrite !map_map in Hout.
  exists s', rid. split; [exact E|]. split; [by rewrite Hc|]. split; [exact Hout|]. split; [|split; [|exact Ht]].
  - by rewrite !dimension_app, (dimension_stays _ _ (game_data_stays _ _ _)).
  - by rewrite Hout, !dimension_app.
Qed.

End Screen.

(** * Witness *)

#[local] Existing Instances toy_types toy toy_protocols toy_runtime toy_HeaderLaws toy_IDLaws toy_BuiltLaws.
#[local] Existing Instances toy_order toy_floats toy_session.

Lemma toy_defaults : DefaultObjects.
Proof. by split. Qed.

(** A ChangeDimension to the nether, among the packets the proxy does not
    inspect. *)
Definition toy_packet_dimension (id : Z) (_ : @body toy_types) : option Z :=
  if id =? 61 then Some (const DimensionNether) else None.

(** The client of a session, as a server has sent it to the nether. *)
Definition toy_nether : CS (cb:=transfer_cb) (env:=World) :=
  toy_cs_env (set_client_out [client_WritePacket (Fwd (Gt (OtherPacket 61 tt)))] toy_world) [].

(** The player is in the nether and is sent to the nether. *)
Lemma default_transfer_screen_witness :
  let cb := mkTransferCb "lobby" "arena" in
  let s := toy_nether in
  let dimension_in := dimension_in toy_packet_dimension (fun _ => None) in
  let start := const DimensionOverworld in
  dimension_in start (client_out (cenv s)) = other_dimension (GameData_Dimension (cenv s)) /\
  (let w := cenv s in
  let g := gameData_of toy_start (conn s) in
  let pos := sg_PlayerPosition (gd_start g) in
  let d := other_dimension (GameData_Dimension w) in
  let cur := dimension_in start (client_out w) in
  d <> GameData_Dimension w /\ d <> const DimensionOverworld /\
  (d = cur <-> GameData_Dimension w <> const DimensionNether /\ cur = const DimensionNether \/
    GameData_Dimension w = const DimensionNether /\ cur = const DimensionEnd) /\
  exists s' rid,
    on_connected toy_start cb None s = (Ok tt, s') /\ spawned (conn s') = true /\
    client_out (cenv s') = client_out w ++
      map (fun pk => client_WritePacket (Animate pk)) (screen_on d pos) ++
      game_data_calls rid (s_tracker w) g ++
      map (fun pk => client_WritePacket (Animate pk)) (screen_off pos) /\
    dimension_in start (client_out w ++ map (fun pk => client_WritePacket (Animate pk)) (screen_on d pos) ++
      game_data_calls rid (s_tracker w) g) = d /\
    dimension_in start (client_out (cenv s')) = const DimensionOverworld /\
    s_tracker (cenv s') = newTracker).
Proof.
  assert (DimensionLaws) as Hd by (split; discriminate). pose proof toy_defaults as Hdef.
  intros cb s dimension_in start. split; [reflexivity|].
  apply (default_transfer_screen toy_start toy_packet_dimension (fun _ => None) cb s start);
    [repeat constructor | reflexivity ..].
Defined.
