(* ===== verification/SessionLife.v ===== *)
(** * SessionLife: the life of a session's server connections

    The steps of [SessionSteps] keep a session's connections tidy: at most one
    of them is open, however the operations are interleaved. *)

From S2P Require Import Prelude GoFloat Wire Registry Minecraft ServerPacket Conn Toy ConnIO ConnSeq ConnLife.
From S2P Require Import Batch Tracker Session SessionLoops SessionSteps SessionProps.

Local Open Scope Z_scope.
Local Open Scope go_scope.

Section Life.
Context `{G : Gopher} `{P : !Protocols} `{Rt : Runtime} `{IO : IterationOrder} `{F : FloatConversion}.
Context `{Sur : !Surroundings}.
Variable zero_start : StartGame_fields.
Implicit Types w : World.

Abbreviation CSW := (CS (cb:=transfer_cb) (env:=World)).
Abbreviation SConn := (Conn (cb:=transfer_cb)).

(** ** One server connection at a time *)

(** Closing is complete. *)
Definition settled (c : SConn) : Prop := once c = true -> conn_closed c = true /\ ctx c <> None.

(** Every connection but the current one is closed. *)
Record tidy w : Prop := {
  ty_settled : forall k c, conns w !! k = Some c -> settled c;
  ty_others : forall k c, conns w !! k = Some c -> serverConn w <> Some k -> once c = true;
  ty_current : forall k, serverConn w = Some k -> is_Some (conns w !! k);
}.

(** The session's side of an operation on a connection. *)
Definition same_conns : relation World := fun w w' =>
  conns w' = conns w /\ serverConn w' = serverConn w /\ s_registry w' = s_registry w.

#[export] Instance same_conns_preorder : PreOrder same_conns.
Proof. split; unfold same_conns; [done | intros ???; intuition congruence]. Qed.

(** A session is registered at most as itself. *)
Definition registers : relation World := fun w w' => forall x j,
  sessions (s_registry w') !! x = Some j ->
  sessions (s_registry w) !! x = Some j \/ (x = XUID /\ j = self).

#[export] Instance registers_preorder : PreOrder registers.
Proof.
  split; [intros w x j; by left|]. intros w1 w2 w3 H1 H2 x j [Hx|Hx]%H2; [by apply H1 | by right].
Qed.

(** What an operation may do to the session. *)
Record sound w w' : Prop := {
  sd_tidy : tidy w -> tidy w';
  sd_registers : registers w w';
}.

#[export] Instance sound_preorder : PreOrder sound.
Proof.
  split; [intros w; by split|]. intros w1 w2 w3 [] []. split; [by auto | by etrans].
Qed.

(** What an operation on a connection may do. *)
Record inner (s s' : CSW) : Prop := {
  in_conns : same_conns (cenv s) (cenv s');
  in_settled : settled (conn s) -> settled (conn s');
  in_once : once (conn s) = true -> once (conn s') = true;
}.

#[export] Instance inner_preorder : PreOrder inner.
Proof. split; [intros s; by split | intros s1 s2 s3 [] []; split; [by etrans | by auto..]]. Qed.

Lemma inner_blind : blind inner.
Proof. split; [apply _ | intros; by split ..]. Qed.

Lemma tidy_update k c w (s : CSW) w' :
  tidy w -> conns w !! k = Some c -> inner (mkCS c (w_pools w) w) s ->
  conns w' = <[k := conn s]> (conns (cenv s)) -> serverConn w' = serverConn (cenv s) -> tidy w'.
Proof.
  intros [H1 H2 H3] Hk [(Hc & Hv & _) Hs Ho] Hc' Hv'. simpl in *. split; rewrite Hc', ?Hv', Hc, ?Hv.
  - intros j d [[-> [<- _]]|[_ Hd]]%list_lookup_insert_Some; [eauto | by eapply H1].
  - intros j d [[<- [<- _]]|[_ Hd]]%list_lookup_insert_Some; eauto.
  - intros j Hj. apply lookup_lt_is_Some. rewrite length_insert. by apply lookup_lt_is_Some, H3.
Qed.

Lemma sound_update k c w (s : CSW) w' :
  conns w !! k = Some c -> inner (mkCS c (w_pools w) w) s ->
  conns w' = <[k := conn s]> (conns (cenv s)) -> serverConn w' = serverConn (cenv s) ->
  s_registry w' = s_registry (cenv s) -> sound w w'.
Proof.
  intros Hk Hi Hc Hv Hr. split; [intros Hw; by apply (tidy_update k c w s)|].
  intros x j. rewrite Hr, (proj2 (proj2 (in_conns _ _ Hi))). by left.
Qed.

Lemma moves_on_conn {A} k (m : M CSW A) : moves inner m -> moves sound (on_conn k m).
Proof.
  intros Hm w. unfold on_conn. destruct (conns w !! k) as [c|] eqn:Hk; [|done].
  specialize (Hm (mkCS c (w_pools w) w)). destruct (m _) as [o s]. by apply (sound_update k c w s).
Qed.

Lemma sound_same w w' : same_conns w w' -> sound w w'.
Proof.
  intros (Hc & Hv & Hr). split; [intros [H1 H2 H3]; split; rewrite Hc, ?Hv; eauto|]. intros x j. rewrite Hr. by left.
Qed.

Lemma sound_add w : sound w (set_s_registry (AddSession XUID self (s_registry w)) w).
Proof.
  split; [by intros []|]. intros x j Hx.
  apply (lookup_insert_Some (sessions (s_registry w)) XUID x) in Hx as [[<- <-]|[_ Hx]]; [by right | by left].
Qed.

Lemma sound_remove x w : sound w (set_s_registry (RemoveSession x (s_registry w)) w).
Proof. split; [by intros []|]. intros y j Hy.
  apply (lookup_delete_Some (sessions (s_registry w)) x y) in Hy as [_ Hy]. by left. Qed.

(** Operations of the session that leave the connections alone. *)
Lemma client_op_same call : moves same_conns (client_op call).
Proof. intros w. unfold client_op. by destruct (client_result w call). Qed.

Ltac same_moves := go_moves; try (apply client_op_same); try done; try (intros ?; by split).

Lemma send_same pk : moves same_conns (send pk).
Proof. unfold send. pose proof client_op_same. same_moves. Qed.

Lemma notify_processor_same n : moves same_conns (notify_processor n).
Proof. by apply moves_modify. Qed.

Lemma clear_tracker_same : moves same_conns clear_tracker.
Proof.
  pose proof send_same. unfold clear_tracker. apply moves_bind; [apply _ | by apply moves_gets; apply _ |].
  intros w. destruct (clearAll _ _). same_moves.
Qed.

Lemma sendGameData_same g : moves same_conns (sendGameData g).
Proof.
  pose proof send_same. pose proof clear_tracker_same. unfold sendGameData, send_chunks. same_moves.
Qed.

Lemma in_world_inner {A} (m : M World A) : moves same_conns m -> moves inner (in_world m).
Proof.
  intros Hm s. unfold in_world, zoom. specialize (Hm (cenv s)). destruct (m _) as [o w']. by split.
Qed.

(** Operations of a connection. *)
Lemma WritePacket_inner pk : moves inner (WritePacket pk).
Proof. apply blind_WritePacket, inner_blind. Qed.

Ltac inner_moves := conn_moves ltac:(solve [by split]).

Lemma WriteBatch_inner payloads : moves inner (WriteBatch payloads).
Proof. unfold WriteBatch, check_ctx, batchPool_Get, write_flags. inner_moves. Qed.

Lemma WriteBatch_env payloads : moves (same cenv) (WriteBatch (cb:=transfer_cb) (env:=World) payloads).
Proof. unfold WriteBatch, check_ctx, batchPool_Get, write_flags. conn_moves ltac:(done). Qed.

Lemma DoConnect_inner : moves inner DoConnect.
Proof. pose proof WritePacket_inner. unfold DoConnect, check_ctx. inner_moves. Qed.

Lemma DoSpawn_inner : moves inner DoSpawn.
Proof. pose proof WritePacket_inner. unfold DoSpawn, check_ctx, close_chan. inner_moves. Qed.

Lemma OnConnect_inner cb : moves inner (OnConnect cb).
Proof. unfold OnConnect. inner_moves. Qed.

Lemma on_connected_inner cb err : moves inner (on_connected zero_start cb err).
Proof.
  pose proof DoSpawn_inner. pose proof sendGameData_same. pose proof send_same.
  pose proof notify_processor_same. unfold on_connected.
  destruct err; [by apply in_world_inner|].
  go_moves; try intros [_|_]; apply in_world_inner; same_moves.
Qed.

Lemma told_inner e (pre : M CSW unit) :
  moves inner pre -> moves inner (pre ;;; notify (on_connected zero_start) e).
Proof. intros Hp. pose proof on_connected_inner. unfold notify. inner_moves. Qed.

Lemma read_inner : moves inner (read (cb:=transfer_cb) (env:=World)).
Proof. unfold read, headerPool_Get. inner_moves. Qed.

Lemma ReadPacket_inner fuel pick : moves inner (Conn.ReadPacket (on_connected zero_start) zero_start fuel pick).
Proof.
  pose proof read_inner as Hr. induction fuel as [|fuel IH]; [go_moves|]. simpl.
  apply moves_bind; [apply _ | by apply moves_gets; apply _ | intros c].
  assert (moves inner read_spawned) as Hs by (unfold read_spawned; inner_moves).
  assert (moves inner (read_sequence (on_connected zero_start) zero_start)) as Hq.
  { unfold read_sequence. apply moves_bind; [apply _ | done | intros [pk|d]].
    - apply moves_bind; [apply _ | apply moves_attempt, blind_handlePacket; [apply inner_blind|] | go_moves].
      apply told_inner. unfold close_chan. inner_moves.
    - unfold deferPacket. inner_moves. }
  destruct (ctx c), (spawned c); [destruct pick; go_moves | go_moves | done | by apply moves_bind; [apply _ | |]].
Qed.

(** Closing a connection, exactly. *)
Definition closed_conn (err : error) (c : SConn) : SConn :=
  if once c then c
  else set_conn_closed true (set_ctx (Some (default err (ctx c))) (set_once true c)).

Definition told (c : SConn) w : World :=
  if once c || connected c then w
  else match onConnect c with
       | Some cb => set_notes (notes w ++ [TransferFailure (cb_origin cb) (cb_target cb)]) w
       | None => w
       end.

Lemma CloseWithError_eq err (s : CSW) :
  Conn.CloseWithError (on_connected zero_start) err s
    = (Ok tt, mkCS (closed_conn err (conn s)) (pools s) (told (conn s) (cenv s))).
Proof.
  unfold Conn.CloseWithError, notify, closed_conn, told, bind, gets, modify.
  destruct s as [[] p e]; simpl. destruct once; [done|]. destruct connected, ctx, onConnect; done.
Qed.

Lemma closed_once err c : once (closed_conn err c) = true.
Proof. unfold closed_conn. by destruct (once c) eqn:E. Qed.

Lemma closed_settled err c : settled c -> settled (closed_conn err c).
Proof. unfold closed_conn, settled. destruct (once c) eqn:E; [by rewrite E|]. simpl. intros _ _. by split. Qed.

Lemma told_same c w : same_conns w (told c w).
Proof. unfold told, same_conns. by destruct (_ || _), (onConnect c). Qed.

Lemma CloseWithError_inner err : moves inner (Conn.CloseWithError (on_connected zero_start) err).
Proof.
  intros s. rewrite CloseWithError_eq. split; simpl; [apply told_same | apply closed_settled | intros _; apply closed_once].
Qed.

Lemma on_conn_close k c err w :
  conns w !! k = Some c ->
  on_conn k (Conn.CloseWithError (on_connected zero_start) err) w
    = (Ok tt, set_conns (<[k := closed_conn err c]> (conns w)) (told c w)).
Proof.
  intros Hk. unfold on_conn. rewrite Hk, CloseWithError_eq. simpl. f_equal.
  unfold told. destruct (_ || _); [by destruct w|]. by destruct (onConnect c), w.
Qed.

(** ** Every operation keeps the connections tidy *)

Lemma same_conns_tidy {A} (m : M World A) : moves same_conns m -> moves sound m.
Proof. intros Hm w. by apply sound_same. Qed.

(** The session after its server connection is closed. *)
Definition closed_server (err : error) w : World :=
  match serverConn w with
  | Some k =>
      match conns w !! k with
      | Some c => set_conns (<[k := closed_conn err c]> (conns w)) (told c w)
      | None => w
      end
  | None => w
  end.

(** The session's connection exists. *)
Definition current_exists w : Prop := forall k, serverConn w = Some k -> is_Some (conns w !! k).

Lemma close_server_eq err w :
  current_exists w ->
  (let! w := gets id in
   match serverConn w with
   | Some k => on_conn k (Conn.CloseWithError (on_connected zero_start) err)
   | None => ret tt
   end) w = (Ok tt, closed_server err w).
Proof.
  intros Hv. unfold bind, gets, id, closed_server. destruct (serverConn w) as [k|] eqn:Hk; [|done].
  destruct (Hv k Hk) as [c Hc]. by rewrite (on_conn_close k c _ w Hc), Hc.
Qed.

(** [dial], exactly. *)
Definition closed_current w : World := closed_server (ErrNew "closed by application") w.

Definition dialled addr (ci : source) (co : sink) w : World :=
  set_serverConn (Some (length (conns w))) (set_serverAddr addr (set_conns
    (conns w ++ [NewConn ci co session_client (SyncProtocol session_opts) (s_cache w)]) w)).

Lemma dial_locked_eq addr w :
  current_exists w ->
  dial_locked zero_start addr w =
    let w1 := closed_current w in
    match transport_Dial w1 addr with
    | inr err => (Err err, w1)
    | inl (ci, co) => (Ok (length (conns w1)), dialled addr ci co w1)
    end.
Proof.
  intros Hv. unfold dial_locked, bind at 1, gets, id.
  pose proof (close_server_eq (ErrNew "closed by application") w Hv) as Hc. unfold bind at 1, gets, id in Hc.
  unfold Conn.Close. rewrite (bind_eq_Ok _ _ _ _ _ Hc). unfold bind. fold (closed_current w).
  by destruct (transport_Dial _ addr) as [[ci co]|err].
Qed.

Lemma dial_eq addr w :
  dial zero_start addr w =
    match s_ctx w with Some cause => (Err cause, w) | None => dial_locked zero_start addr w end.
Proof. unfold dial, check_session, bind at 1 2, gets, id. by destruct (s_ctx w). Qed.

(** After its server connection was closed every connection of the session
    is. *)
Lemma closed_server_tidy err w : tidy w -> tidy (closed_server err w) /\
  forall k c, conns (closed_server err w) !! k = Some c -> once c = true.
Proof.
  intros Hw. unfold closed_server. destruct Hw as [H1 H2 H3]. destruct (serverConn w) as [k|] eqn:Hv.
  - destruct (H3 k eq_refl) as [c Hc]. rewrite Hc. split; [|intros j d].
    + pose proof (moves_on_conn k _ (CloseWithError_inner err) w) as Ht.
      rewrite (on_conn_close k c _ w Hc) in Ht. apply Ht. split; rewrite ?Hv; eauto.
    + simpl. intros [[<- [<- _]]|[Hn Hd]]%list_lookup_insert_Some; [apply closed_once|].
      eapply H2; [done | congruence].
  - split; [split; rewrite ?Hv; eauto|]. intros k c Hc. by eapply H2.
Qed.

Lemma dial_locked_registers addr : moves registers (dial_locked zero_start addr).
Proof.
  assert (forall k, moves registers (on_conn k (Conn.Close (on_connected zero_start)))) as Hc.
  { intros k w. apply sd_registers, moves_on_conn, CloseWithError_inner. }
  unfold dial_locked. go_moves; intros ? ? ?; by left.
Qed.

Lemma dial_locked_tidy addr : moves sound (dial_locked zero_start addr).
Proof.
  intros w. split; [|apply dial_locked_registers]. revert w.
  intros w Hw. rewrite (dial_locked_eq addr w (ty_current w Hw)). cbv zeta.
  destruct (closed_server_tidy (ErrNew "closed by application") w Hw) as [[H1 H2 H3] Ho].
  destruct (transport_Dial _ addr) as [[ci co]|err]; [|by split].
  split; simpl.
  - intros k c [Hc|[_ Hc]]%lookup_app_Some; [eauto|].
    apply list_lookup_singleton_Some in Hc as [_ <-]. done.
  - intros k c [Hc|[Hl Hc]]%lookup_app_Some Hne; [eauto|].
    apply list_lookup_singleton_Some in Hc as [Hk _]. destruct Hne. f_equal. lia.
  - intros k [= <-]. rewrite lookup_app_r, Nat.sub_diag by done. by eexists.
Qed.

(** ** Steps *)

Variable type_name : packet -> string.

(** A batch works on the server connection only. *)
Definition server_inner : relation (BS (cb:=transfer_cb) (env:=World)) :=
  fun st st' => inner (server st) (server st') /\ cenv (server st') = cenv (server st).

#[export] Instance server_inner_preorder : PreOrder server_inner.
Proof. split; [by intros st | intros x y z [H1 H2] [H3 H4]; split; [by etrans | congruence]]. Qed.

Lemma handleClientBatch_inner s pc pool shieldID payloads :
  moves server_inner (handleClientBatch s type_name pc pool shieldID payloads).
Proof.
  assert (forall r d, moves server_inner (ctx_pool (NewPacketContext r d))) as Hn
    by (intros; by apply moves_zoom).
  assert (forall c, moves server_inner (ctx_pool (ReturnPacketContext c))) as Hr
    by (intros; by apply moves_zoom).
  assert (forall p, moves server_inner (decodeAndCreateContext s type_name pool shieldID p)) as Hd
    by (intros; unfold decodeAndCreateContext; conn_moves ltac:(done)).
  assert (forall ps, moves server_inner (decode_loop s type_name pool shieldID ps)) as Hl
    by (intros ps; induction ps; simpl; go_moves).
  assert (forall proto cs, moves server_inner (encode_loop s proto shieldID cs)) as He.
  { intros proto cs. induction cs as [|c cs IH]; simpl; conn_moves ltac:(done). }
  assert (forall p, moves server_inner (zoom server set_server (WriteBatch p))) as Hw.
  { intros p st. unfold zoom. pose proof (WriteBatch_inner p (server st)) as H1. pose proof (WriteBatch_env p (server st)) as H2.
    by destruct (WriteBatch p (server st)). }
  unfold handleClientBatch. go_moves.
Qed.

Lemma on_server_tidy {A} k h (m : M (BS (cb:=transfer_cb) (env:=World)) A) :
  moves server_inner m -> moves sound (on_server k h m).
Proof.
  intros Hm w. unfold on_server. destruct (conns w !! k) as [c|] eqn:Hk; [|done].
  specialize (Hm (mkBS h (s_ctxPool w) (mkCS c (w_pools w) w))). destruct (m _) as [o st].
  destruct Hm as [Hi _]. simpl in Hi. by destruct o; apply (sound_update k c w (server st)).
Qed.

(** Every operation is sound. *)
#[export] Instance sound_steps : SessionRelation zero_start type_name sound.
Proof.
  split; try (intros; by apply sound_same).
  - apply _.
  - intros call. apply same_conns_tidy, client_op_same.
  - intros A k m Hm. apply moves_on_conn. destruct Hm; auto using DoConnect_inner, DoSpawn_inner, OnConnect_inner,
      CloseWithError_inner, ReadPacket_inner, WritePacket_inner, WriteBatch_inner. go_moves.
  - apply dial_locked_tidy.
  - intros. apply on_server_tidy, handleClientBatch_inner.
  - intros. apply moves_zoom. intros. by apply sound_same.
  - intros v w. split; by apply sound_same.
  - apply sound_add.
  - apply sound_remove.
Qed.

End Life.

Section Tidy.
Context `{G : Gopher} `{P : !Protocols} `{Rt : Runtime} `{IO : IterationOrder} `{F : FloatConversion}.
Context `{Sur : !Surroundings}.
Variable zero_start : StartGame_fields.

(** The operations that do not depend on [type_name]. *)
Lemma client_op_tidy call : moves sound (client_op call).
Proof. apply same_conns_tidy, client_op_same. Qed.

Lemma Session_CloseWithError_tidy err : moves sound (Session_CloseWithError zero_start err).
Proof. apply (Session_CloseWithError_moves zero_start (fun _ => EmptyString) sound). Qed.

Lemma Transfer_tidy addr : moves sound (Transfer zero_start addr).
Proof. apply (Transfer_moves zero_start (fun _ => EmptyString) sound). Qed.

Lemma fallback_tidy : moves sound (fallback zero_start).
Proof. apply (fallback_moves zero_start (fun _ => EmptyString) sound). Qed.

Lemma login_tidy :
  moves sound (login_start zero_start) /\
  forall k waited, moves sound (login_finish zero_start k waited).
Proof.
  split; [apply (login_start_moves zero_start (fun _ => EmptyString) sound)
         | apply (login_finish_moves zero_start (fun _ => EmptyString) sound)].
Qed.

End Tidy.

Section OneOpen.
Context `{G : Gopher} `{P : !Protocols} `{Rt : Runtime} `{IO : IterationOrder} `{F : FloatConversion}.
Context `{Sur : !Surroundings}.
Variable zero_start : StartGame_fields.
Variable type_name : packet -> string.
Implicit Types w : World.

Lemma perform_tidy op : moves sound (perform zero_start type_name op).
Proof. apply perform_moves, _. Qed.

Lemma run_ops_tidy ops w : tidy w -> tidy (run_ops zero_start type_name ops w).
Proof. apply sd_tidy, (run_ops_moves zero_start type_name sound). Qed.

Lemma NewSession_tidy ctx p cp r : tidy (NewSession ctx p cp r).
Proof. by split. Qed.

(** C1: one server connection at a time.  However logins, transfers,
    fallbacks, closes, and reads, writes, spawns and closes on connections the
    goroutines still hold are interleaved, from a new session on every
    connection that is not closed, or whose context is not cancelled, is the
    session's current one: a transfer never leaves the connection it replaces
    behind, and the session's connection always exists. *)
Theorem one_open_connection client_ctx p cp registry ops :
  let w := run_ops zero_start type_name ops (NewSession client_ctx p cp registry) in
  (forall k c, conns w !! k = Some c -> conn_closed c = false \/ ctx c = None -> serverConn w = Some k) /\
  (forall k, serverConn w = Some k -> is_Some (conns w !! k)).
Proof.
  intros w. destruct (run_ops_tidy ops _ (NewSession_tidy client_ctx p cp registry)) as [H1 H2 H3].
  split; [|exact H3]. intros k c Hk Ho. destruct (decide (serverConn w = Some k)) as [|Hn]; [done|].
  destruct (H1 k c Hk (H2 k c Hk Hn)). intuition congruence.
Qed.

End OneOpen.
