(* ===== verification/SessionOutcomes.v ===== *)
(** * SessionOutcomes: what the operations of a session do

    Closing a session, transfers on every branch, the fallback after a lost
    server, and the loop that serves the client; each from every state the operations of [SessionLife] can reach. *)

From S2P Require Import Prelude GoFloat Wire Registry Minecraft ServerPacket Conn Toy ConnIO ConnSeq ConnLife.
From S2P Require Import Batch Tracker Session SessionLoops SessionSteps SessionProps SessionLife.

Local Open Scope Z_scope.
Local Open Scope go_scope.

Section Outcomes.
Context `{G : Gopher} `{P : !Protocols} `{Rt : Runtime} `{IO : IterationOrder} `{F : FloatConversion}.
Context `{Sur : !Surroundings}.
Variable zero_start : StartGame_fields.
Variable type_name : packet -> string.
Implicit Types w : World.

Abbreviation CSW := (CS (cb:=transfer_cb) (env:=World)).
Abbreviation SConn := (Conn (cb:=transfer_cb)).

(** ** Closing a session *)

(** The world after a call of the client. *)
Definition asked (call : client_call) w : World := (client_op call w).2.

Lemma send_eq pk w : send pk w = (Ok tt, asked (client_WritePacket pk) w).
Proof. unfold send, ignore, attempt, bind, asked, client_op. by destruct (client_result w _). Qed.

Lemma ignore_client_op call w : ignore (client_op call) w = (Ok tt, asked call w).
Proof. unfold ignore, attempt, bind, asked, client_op. by destruct (client_result w _). Qed.

Lemma asked_beside call w : beside w (asked call w) /\ s_tracker (asked call w) = s_tracker w /\
  client_out (asked call w) = client_out w ++ [call].
Proof. unfold asked, client_op. by destruct (client_result w _). Qed.

(** The disconnection message and the end of the client connection. *)
Definition client_gone (err : error) w : World :=
  let w0 := set_s_once true w in
  asked client_Close (asked (client_WritePacket (Disconnect (ProcessDisconnection (session_processor w0) w0 (error_text err)))) w0).

Definition closed_session (err : error) w : World :=
  let w1 := closed_server err (client_gone err w) in
  set_s_registry (RemoveSession XUID (s_registry w1)) (set_s_ctx (Some (default err (s_ctx w1))) w1).

Lemma client_gone_conns err w : same_conns w (client_gone err w).
Proof.
  unfold client_gone. etrans; [|apply (client_op_same client_Close)].
  etrans; [|apply (client_op_same (client_WritePacket _))]. done.
Qed.

Lemma Session_CloseWithError_eq err w :
  current_exists w -> s_once w = false ->
  Session_CloseWithError zero_start err w = (Ok tt, closed_session err w).
Proof.
  intros Hv Ho. unfold Session_CloseWithError, bind at 1, gets, id. rewrite Ho.
  unfold bind at 1, modify at 1, bind at 1, gets. rewrite (bind_eq_Ok _ _ _ _ _ (send_eq _ _)).
  rewrite (bind_eq_Ok _ _ _ _ _ (ignore_client_op client_Close _)).
  change (asked client_Close _) with (client_gone err w).
  assert (current_exists (client_gone err w)) as Hv'.
  { destruct (client_gone_conns err w) as (Hc & Hs & _). intros k. rewrite Hs, Hc. apply Hv. }
  pose proof (close_server_eq zero_start err _ Hv') as Hc. unfold bind at 1, gets, id in Hc.
  unfold bind at 1, gets. rewrite (bind_eq_Ok _ _ _ _ _ Hc). unfold closed_session, bind, modify. simpl.
  by destruct (s_ctx _).
Qed.

(** The fields closing the server connection leaves alone. *)
Lemma closed_server_frame err w :
  let w' := closed_server err w in
  serverConn w' = serverConn w /\ serverAddr w' = serverAddr w /\ s_tracker w' = s_tracker w /\
  s_cache w' = s_cache w /\ inFallback w' = inFallback w /\ s_once w' = s_once w /\ s_ctx w' = s_ctx w /\
  client_out w' = client_out w /\ s_registry w' = s_registry w /\ length (conns w') = length (conns w).
Proof.
  unfold closed_server. destruct (serverConn w) as [k|] eqn:Hv; [|done].
  destruct (conns w !! k) as [c|]; [|done]. unfold told.
  by destruct (once c || connected c), (onConnect c); simpl; rewrite length_insert.
Qed.

Lemma closed_session_done err w :
  tidy w -> s_once w = false ->
  let w' := closed_session err w in
  s_once w' = true /\ is_Some (s_ctx w') /\
  (forall k c, conns w' !! k = Some c -> conn_closed c = true /\ ctx c <> None).
Proof.
  intros Hw Ho w'. pose proof (sd_tidy _ _ (sound_same _ _ (client_gone_conns err w)) Hw) as Hg.
  destruct (closed_server_tidy zero_start err _ Hg) as [Ht Hall].
  destruct (closed_server_frame err (client_gone err w)) as (_ & _ & _ & _ & _ & Hso & _).
  split_and!.
  - change (s_once (closed_server err (client_gone err w)) = true). rewrite Hso. unfold client_gone.
    by rewrite !(bs_once _ _ (proj1 (asked_beside _ _))).
  - by eexists.
  - intros k c Hk. apply (ty_settled _ Ht k c Hk). by eapply Hall.
Qed.

Lemma closed_session_out err w :
  client_out (closed_session err w) = client_out w ++
    [client_WritePacket (Disconnect (ProcessDisconnection (session_processor (set_s_once true w)) (set_s_once true w) (error_text err))); client_Close].
Proof.
  destruct (closed_server_frame err (client_gone err w)) as (_ & _ & _ & _ & _ & _ & _ & Hout & _).
  change (client_out (closed_session err w)) with (client_out (closed_server err (client_gone err w))). rewrite Hout.
  unfold client_gone. rewrite !(proj2 (proj2 (asked_beside _ _))). by rewrite <- (assoc_L (++)).
Qed.

Lemma closed_session_registry err w :
  s_registry (closed_server err (client_gone err w)) = s_registry w.
Proof.
  destruct (closed_server_frame err (client_gone err w)) as (_ & _ & _ & _ & _ & _ & _ & _ & -> & _).
  apply (client_gone_conns err w).
Qed.

(** An operation that leaves its connection and everything else as it was. *)
Lemma on_conn_same {A} (m : M CSW A) k c o w :
  conns w !! k = Some c -> m (mkCS c (w_pools w) w) = (o, mkCS c (w_pools w) w) -> on_conn k m w = (o, w).
Proof. intros Hc Hm. unfold on_conn. rewrite Hc, Hm. simpl. rewrite list_insert_id by done. by destruct w. Qed.

(** A tick of the latency loop on a closed connection. *)
Lemma latency_tick_closed latency now w :
  serverConn w <> None -> (forall k, serverConn w = Some k -> is_Some (conns w !! k)) ->
  (forall k c, conns w !! k = Some c -> conn_closed c = true /\ ctx c <> None) ->
  latency_tick latency now w = (Ok tt, w).
Proof.
  intros Hv Hcur Hall. unfold latency_tick. rewrite (bind_eq_Ok (gets id) _ w w w eq_refl).
  destruct (serverConn w) as [k|]; [|done]. destruct (Hcur k eq_refl) as [c Hc].
  destruct (Hall k c Hc) as [_ Hx]. destruct (ctx c) as [e|] eqn:Hctx; [|done].
  unfold ignore, bind, attempt. rewrite (on_conn_same _ k c (Err e) w Hc); [done|].
  unfold WritePacket. by rewrite (bind_eq_Err _ _ _ _ _ (check_ctx_done (mkCS c (w_pools w) w) e Hctx)).
Qed.

(** C10: closing a session.  In every reachable state of an open session,
    [CloseWithError] sends the client one Disconnect with the message the
    processor leaves and closes it, closes the server connection, so that none
    of the session's connections is open, cancels the session's context and
    takes its player out of the registry.  From then on the session is inert:
  closing again, dialling, falling back and a round of any of its goroutines
    change nothing; the loops over the server and the client end in their next
    round, the latency loop in the first round whose [select] looks at the
    context: until then its ticks fail and are not reported. *)
Theorem session_closes client_ctx p cp registry ops err :
  let w := run_ops zero_start type_name ops (NewSession client_ctx p cp registry) in
  s_once w = false ->
  exists w', Session_CloseWithError zero_start err w = (Ok tt, w') /\
    client_out w' = client_out w ++
      [client_WritePacket (Disconnect (ProcessDisconnection (session_processor (set_s_once true w)) (set_s_once true w) (error_text err))); client_Close] /\
    GetSession XUID (s_registry w') = None /\
    (forall k c, conns w' !! k = Some c -> conn_closed c = true /\ ctx c <> None) /\
    (forall err', Session_CloseWithError zero_start err' w' = (Ok tt, w')) /\
    exists cause, s_ctx w' = Some cause /\ (forall addr, dial zero_start addr w' = (Err cause, w')) /\
      fallback zero_start w' = (Err cause, w') /\
      (forall fuel pick, handleServer_round zero_start fuel pick w' = (Ok false, w')) /\
      (forall pool shieldID h batch, handleClient_round zero_start type_name pool shieldID h batch w' = (Ok None, w')) /\
      (forall latency now, handleLatency_round zero_start true latency now w' = (Ok false, w')) /\
      (forall latency now, serverConn w' <> None -> handleLatency_round zero_start false latency now w' = (Ok true, w')).
Proof.
  intros w Ho. assert (tidy w) as Hw by apply (run_ops_tidy zero_start type_name), NewSession_tidy.
  destruct (closed_session_done err w Hw Ho) as (Ho' & [cause Hx] & Hall). set (w' := closed_session err w) in *.
  assert (forall err', Session_CloseWithError zero_start err' w' = (Ok tt, w')) as Hagain.
  { intros err'. unfold Session_CloseWithError, bind, gets, id. by rewrite Ho'. }
  pose proof (Session_CloseWithError_eq err w (ty_current w Hw) Ho) as Hclose. fold w' in Hclose.
  assert (tidy w') as Hw' by (pose proof (sd_tidy _ _ (Session_CloseWithError_tidy zero_start err w) Hw) as Ht; by rewrite Hclose in Ht).
  exists w'. split_and!; [exact Hclose | | | exact Hall | exact Hagain |].
  - apply closed_session_out.
  - apply (lookup_delete_eq (sessions _)).
  - exists cause. split_and!; [done | | | | | |].
    + intros addr. by rewrite (dial_eq zero_start), Hx.
    + unfold fallback, check_session, bind at 1 2, gets, id. by rewrite Hx.
    + intros fuel pick. unfold handleServer_round. rewrite (bind_eq_Ok (gets id) _ w' w' w' eq_refl), Hx.
      by rewrite (bind_eq_Ok _ _ _ _ _ (Hagain cause)).
    + intros pool shieldID h batch. unfold handleClient_round. rewrite (bind_eq_Ok (gets id) _ w' w' w' eq_refl), Hx.
      by rewrite (bind_eq_Ok _ _ _ _ _ (Hagain cause)).
    + intros latency now. unfold handleLatency_round. rewrite (bind_eq_Ok (gets id) _ w' w' w' eq_refl), Hx.
      by rewrite (bind_eq_Ok _ _ _ _ _ (Hagain cause)).
    + intros latency now Hv. unfold handleLatency_round. rewrite (bind_eq_Ok (gets id) _ w' w' w' eq_refl), Hx.
      by rewrite (bind_eq_Ok _ _ _ _ _ (latency_tick_closed latency now w' Hv (ty_current _ Hw') Hall)).
Qed.

(** ** Transfers *)

Definition metadata_call w : client_call :=
  client_WritePacket (SetActorData (client_EntityRuntimeID w) [NoAI; Breathing; HasGravity]).

Definition failed (origin target : string) w : World := set_notes (notes w ++ [TransferFailure origin target]) w.

Lemma Transfer_eq addr w :
  Transfer zero_start addr w =
    let '(canceled, origin, target) := ProcessPreTransfer (session_processor w) w (serverAddr w) addr in
    if (canceled : bool) then (Err (ErrNew "processor failed"), w)
    else
      match dial zero_start target (asked (metadata_call w) w) with
      | (Ok n, w1) =>
          match on_conn n DoConnect w1 with
          | (Ok _, w2) => on_conn n (OnConnect (mkTransferCb origin target)) w2
          | (Err err, w2) => (Err (ErrWrap "connection sequence failed failed" err), failed origin target w2)
          | (Panic why, w2) => (Panic why, w2)
          | (NoFuel, w2) => (NoFuel, w2)
          end
      | (Err err, w1) => (Err (ErrWrap "dialer failed" err), failed origin target w1)
      | (Panic why, w1) => (Panic why, w1)
      | (NoFuel, w1) => (NoFuel, w1)
      end.
Proof.
  unfold Transfer, TransferContext, bind at 1, gets, id.
  destruct (ProcessPreTransfer (session_processor w) w (serverAddr w) addr) as [[[] origin] target]; [done|].
  unfold transfer_dial, sendMetadata, bind, gets, id. rewrite send_eq. unfold attempt.
  change (asked (client_WritePacket (SetActorData _ _)) w) with (asked (metadata_call w) w).
  destruct (dial _ _ _) as [[n|err|why|] w1]; try done.
  by destruct (on_conn n DoConnect w1) as [[[]|err|why|] w2].
Qed.

(** What [DoConnect] leaves alone. *)
Definition fresh_part (s : CSW) :=
  (cenv s, (onConnect (conn s), connected (conn s), spawned (conn s), once (conn s), conn_closed (conn s)),
    (ctx (conn s), deferredPackets (conn s), conn_in (conn s))).

Lemma DoConnect_fresh : moves (same fresh_part) DoConnect.
Proof.
  unfold DoConnect, WritePacket, check_ctx, bufferPool_Get, headerPool_Get, write_flags.
  conn_moves ltac:(solve [done]).
Qed.

Lemma on_conn_last {A} (m : M CSW A) w (cs : list SConn) c o s :
  conns w = cs ++ [c] -> m (mkCS c (w_pools w) w) = (o, s) -> cenv s = w ->
  on_conn (length cs) m w = (o, set_conns (cs ++ [conn s]) (set_w_pools (pools s) w)).
Proof.
  intros Hc Hm He. unfold on_conn. rewrite Hc, lookup_app_r, Nat.sub_diag by done. simpl. rewrite Hm, He, Hc.
  by rewrite insert_app_r_alt, Nat.sub_diag by done.
Qed.

(** A successful transfer, so far: connected and waiting for the sequence. *)
Record transferring (origin target : string) w w' : Prop := {
  tf_current : serverConn w' = Some (length (conns w));
  tf_addr : serverAddr w' = target;
  tf_conn : exists c, conns w' !! length (conns w) = Some c /\
    onConnect c = Some (mkTransferCb origin target) /\ connected c = false /\ spawned c = false /\
    conn_closed c = false /\ ctx c = None /\ deferredPackets c = [];
  tf_old : forall k d, k <> length (conns w) -> conns w' !! k = Some d -> conn_closed d = true;
  tf_out : client_out w' = client_out w ++ [metadata_call w];
  tf_tracker : s_tracker w' = s_tracker w;
  tf_fallback : inFallback w' = inFallback w;
  tf_once : s_once w' = s_once w;
}.

(** A transfer that failed after it began. *)
Record transfer_failed (origin target : string) w w' : Prop := {
  tl_notes : last (notes w') = Some (TransferFailure origin target);
  tl_out : client_out w' = client_out w ++ [metadata_call w];
  tl_tracker : s_tracker w' = s_tracker w;
  tl_fallback : inFallback w' = inFallback w;
  tl_once : s_once w' = s_once w;
}.

Lemma last_failed origin target w : last (notes (failed origin target w)) = Some (TransferFailure origin target).
Proof. apply last_snoc. Qed.

Lemma Transfer_cases addr w :
  tidy w ->
  let '(canceled, origin, target) := ProcessPreTransfer (session_processor w) w (serverAddr w) addr in
  match Transfer zero_start addr w with
  | (Ok _, w') => canceled = false /\ transferring origin target w w'
  | (Err err, w') =>
      if (canceled : bool) then err = ErrNew "processor failed" /\ w' = w
      else transfer_failed origin target w w'
  | (_, w') => canceled = false /\ serverConn w' = Some (length (conns w))
  end.
Proof.
  intros Hw. rewrite Transfer_eq. destruct (ProcessPreTransfer (session_processor w) w (serverAddr w) addr) as [[[] origin] target]; [done|].
  set (w0 := asked (metadata_call w) w). destruct (asked_beside (metadata_call w) w) as (Hb & Ht & Ho). fold w0 in Hb, Ht, Ho.
  assert (tidy w0) as Hw0 by (apply (sd_tidy _ _ (client_op_tidy (metadata_call w) w) Hw)).
  rewrite (dial_eq zero_start). destruct (s_ctx w0) as [cause|].
  { split; simpl; [apply last_failed | done | done | apply (bs_fallback _ _ Hb) | apply (bs_once _ _ Hb)]. }
  rewrite (dial_locked_eq zero_start target w0 (ty_current w0 Hw0)). cbv zeta.
  destruct (closed_server_frame (ErrNew "closed by application") w0) as (_ & _ & Htr & _ & Hf & Hon & _ & Hout & _ & Hlen).
  destruct (closed_server_tidy zero_start (ErrNew "closed by application") w0 Hw0) as [Ht1 Hall].
  fold (closed_current w0) in Htr, Hf, Hon, Hout, Hlen, Ht1, Hall. set (w1 := closed_current w0) in *.
  rewrite (bs_conns _ _ Hb) in Hlen. rewrite (bs_fallback _ _ Hb) in Hf. rewrite (bs_once _ _ Hb) in Hon.
  destruct (transport_Dial w1 target) as [[ci co]|err].
  2:{ split; simpl; [apply last_failed | congruence..]. }
  set (w2 := dialled target ci co w1). set (c := NewConn (cb:=transfer_cb) ci co session_client (SyncProtocol session_opts) (s_cache w1)).
  pose proof (DoConnect_fresh (mkCS c (w_pools w2) w2)) as Hfr. destruct (DoConnect _) as [o s] eqn:Hd.
  injection Hfr as Henv H1 H2 H3 H4 H5 H6 H7 H8.
  rewrite (on_conn_last DoConnect w2 (conns w1) c o s) by done.
  destruct o as [[]|err| |]; [| | split; [done | simpl; by rewrite Hlen] ..].
  - set (w3 := set_conns _ _). assert (OnConnect (mkTransferCb origin target) (mkCS (conn s) (w_pools w3) w3)
      = (Ok tt, mkCS (set_onConnect (Some (mkTransferCb origin target)) (conn s)) (w_pools w3) w3)) as Hoc by done.
    rewrite (on_conn_last (OnConnect (mkTransferCb origin target)) w3 (conns w1) (conn s) _ _ eq_refl Hoc eq_refl).
    split; [done|]. split; try (simpl; congruence).
    + simpl. eexists. rewrite <- Hlen, lookup_app_r, Nat.sub_diag by done. split; [done|]. by split_and!.
    + simpl. intros k d Hk [Hd'|[Hl Hd']]%lookup_app_Some.
      * apply (ty_settled _ Ht1 k d Hd'). by eapply Hall.
      * apply list_lookup_singleton_Some in Hd' as [? _]. lia.
  - split; simpl; [apply last_failed | congruence..].
Qed.

(** C9: the outcomes of a transfer.  In every reachable state: the processor
    may refuse it, and then nothing at all happens; otherwise the client is
    told once not to move, and either the processor is told of the failure
    with the addresses it chose, as its last notification, or the session's
    connection is a new, open one at the target, which is waiting for the
    connection sequence with the transfer's callback registered, and every
    older connection is closed.  The tracker and the fallback flag change only
    when the sequence completes. *)
Theorem transfer_outcomes client_ctx p cp registry ops addr :
  let w := run_ops zero_start type_name ops (NewSession client_ctx p cp registry) in
  let '(canceled, origin, target) := ProcessPreTransfer (session_processor w) w (serverAddr w) addr in
  match Transfer zero_start addr w with
  | (Ok _, w') => canceled = false /\ transferring origin target w w'
  | (Err err, w') =>
      if (canceled : bool) then err = ErrNew "processor failed" /\ w' = w
      else transfer_failed origin target w w'
  | (_, w') => canceled = false /\ serverConn w' = Some (length (conns w))
  end.
Proof. apply Transfer_cases, (run_ops_tidy zero_start type_name), NewSession_tidy. Qed.

(** ** The fallback *)

Lemma fallback_cases w :
  tidy w -> s_ctx w = None -> s_once w = false ->
  match fallback zero_start w with
  | (Ok _, w') => inFallback w = false /\ inFallback w' = true /\ s_once w' = false /\
      serverConn w' = Some (length (conns w)) /\
      exists c, conns w' !! length (conns w) = Some c /\ conn_closed c = false /\ is_Some (onConnect c)
  | (Err _, w') => s_once w' = false /\ (inFallback w = true -> w' = w)
  | (_, w') => inFallback w = false
  end.
Proof.
  intros Hw Hx Ho. unfold fallback, check_session, bind at 1 2, gets, id. rewrite Hx. simpl. unfold bind at 1.
  destruct (inFallback w) eqn:Hf; [done|]. unfold bind at 1, modify. unfold bind at 1.
  set (w0 := set_inFallback true w).
  destruct (DiscoverFallback w0) as [addr|err]; [|done].
  assert (tidy w0) as Hw0 by by (apply (sd_tidy w); [apply sound_same|]).
  pose proof (Transfer_cases addr w0 Hw0) as Ht. unfold bind, attempt.
  destruct (ProcessPreTransfer (session_processor w0) w0 (serverAddr w0) addr) as [[canceled origin] target].
  destruct (Transfer zero_start addr w0) as [[[]|err|why|] w'].
  - destruct Ht as [_ [H1 _ (c & Hc & Hcb & _ & _ & Hcl & _) _ _ _ H2 H3]]. split_and!; try done.
    + by rewrite H3.
    + exists c. by rewrite Hcb.
  - split; [|done]. destruct canceled; [by destruct Ht as [_ ->] | by rewrite (tl_once _ _ _ _ Ht)].
  - done.
  - done.
Qed.

(** C12: a lost server.  When reading from the current server fails, in any
    reachable state of an open session, either the session goes on with a new
    open connection to a fallback server, or it is closed with all its
    connections and leaves the registry.  It falls back only once until a
    transfer completes: when a fallback is already under way the session is
    closed.  A failure of a connection that has been replaced is ignored. *)
Theorem lost_server client_ctx p cp registry ops k err :
  let w := run_ops zero_start type_name ops (NewSession client_ctx p cp registry) in
  s_ctx w = None -> s_once w = false ->
  match handle_read_error zero_start k err w with
  | (Ok true, w') =>
      (serverConn w <> Some k /\ w' = w) \/
      (serverConn w = Some k /\ inFallback w = false /\ inFallback w' = true /\
       exists n c, n <> k /\ serverConn w' = Some n /\ conns w' !! n = Some c /\
         conn_closed c = false /\ is_Some (onConnect c))
  | (Ok false, w') => serverConn w = Some k /\ s_once w' = true /\ is_Some (s_ctx w') /\
      GetSession XUID (s_registry w') = None /\
      (forall k c, conns w' !! k = Some c -> conn_closed c = true /\ ctx c <> None)
  | (_, w') => inFallback w = false
  end.
Proof.
  intros w Hx Ho. assert (tidy w) as Hw by apply (run_ops_tidy zero_start type_name), NewSession_tidy.
  unfold handle_read_error, bind at 1, gets, id.
  destruct (bool_decide_reflect (serverConn w = Some k)) as [Hv|Hv]; [|by left].
  set (err1 := ErrWrap _ err). set (w1 := closed_server err1 w).
  destruct (closed_server_frame err1 w) as (_ & _ & _ & _ & Hf & Ho1 & Hx1 & _ & _ & Hlen).
  destruct (closed_server_tidy zero_start err1 w Hw) as [Hw1 _]. fold w1 in Hf, Ho1, Hx1, Hlen, Hw1.
  destruct (ty_current w Hw k Hv) as [c0 Hc0].
  assert (on_conn k (Conn.CloseWithError (on_connected zero_start) err1) w = (Ok tt, w1)) as Hclose.
  { rewrite (on_conn_close zero_start k c0 _ w Hc0). unfold w1, closed_server. by rewrite Hv, Hc0. }
  change (negb true) with false. cbv iota. rewrite (bind_eq_Ok _ _ _ _ _ Hclose). rewrite Hx in Hx1. rewrite Ho in Ho1.
  pose proof (fallback_cases w1 Hw1 Hx1 Ho1) as Hfb. pose proof (sd_tidy _ _ (fallback_tidy zero_start w1) Hw1) as Hw2.
  unfold bind at 1, attempt. destruct (fallback zero_start w1) as [[[]|err2|why|] w2]; simpl in Hw2; [| |congruence..].
  - right. destruct Hfb as (Hf1 & Hf2 & _ & Hs & c & Hc & Hcl & Hcb). split_and!; [done | congruence | done |].
    exists (length (conns w1)), c. split_and!; try done. rewrite Hlen. apply lookup_lt_Some in Hc0. lia.
  - destruct Hfb as [Ho2 _]. rewrite (bind_eq_Ok _ _ _ _ _ (Session_CloseWithError_eq _ w2 (ty_current w2 Hw2) Ho2)).
    destruct (closed_session_done (ErrWrap "fallback failed" err2) w2 Hw2 Ho2) as (H1 & H2 & H3).
    split_and!; try done. apply (lookup_delete_eq (sessions _)).
Qed.

(** ** The client's goroutine *)

(** A computation on the server connection changes that connection and the
    pools. *)
Lemma on_server_frame {A} k h (m : M (BS (cb:=transfer_cb) (env:=World)) A) c w o w' :
  moves server_inner m -> conns w !! k = Some c -> on_server k h m w = (o, w') ->
  exists p ps c', w' = set_s_ctxPool p (set_conns (<[k := c']> (conns w)) (set_w_pools ps w)).
Proof.
  intros Hm Hk. unfold on_server. rewrite Hk.
  specialize (Hm (mkBS h (s_ctxPool w) (mkCS c (w_pools w) w))). destruct (m _) as [r st].
  destruct Hm as [_ He]. simpl in He. intros E. exists (pkCtxPool st), (pools (server st)), (conn (server st)).
  rewrite He in E. by destruct r; injection E as _ <-.
Qed.

(** The session is closed, and all its connections. *)
Definition all_closed w : Prop := forall k c, conns w !! k = Some c -> conn_closed c = true /\ ctx c <> None.

Lemma closing_closes err w :
  tidy w -> s_once w = false ->
  exists w', Session_CloseWithError zero_start err w = (Ok tt, w') /\
    s_once w' = true /\ is_Some (s_ctx w') /\ all_closed w'.
Proof.
  intros Hw Ho. exists (closed_session err w). split; [|by apply closed_session_done].
  exact (Session_CloseWithError_eq err w (ty_current w Hw) Ho).
Qed.

(** C17: the client's loop on every branch.  In every reachable state of a
    session that is not closed, a round of [handleClient] closes the session
    when its context is done or the client cannot be read.  Otherwise either
    the batch is forwarded, and the loop goes on with nothing but the current
    connection and the pools changed; or, when the batch fails (one payload
    that does not decode is enough), the current server connection is closed
    and the loop ends although the session stays open and registered and the
    client is not told.  Its server loop will fall back ([lost_server]), but
    nothing reads the client any more. *)
Theorem client_loop_outcomes client_ctx p cp registry ops pool shieldID h batch :
  let w := run_ops zero_start type_name ops (NewSession client_ctx p cp registry) in
  s_once w = false ->
  let '(o, w') := handleClient_round zero_start type_name pool shieldID h batch w in
  match s_ctx w, batch, o with
  | None, inl _, Ok (Some h') =>
      s_once w' = false /\ s_ctx w' = None /\ serverConn w' = serverConn w /\ client_out w' = client_out w /\
      (forall k, serverConn w <> Some k -> conns w' !! k = conns w !! k)
  | None, inl _, Ok None =>
      s_once w' = false /\ s_ctx w' = None /\ serverConn w' = serverConn w /\ client_out w' = client_out w /\
      s_registry w' = s_registry w /\ all_closed w'
  | None, inl _, Panic _ => serverConn w = None /\ w' = w
  | None, inl _, Err _ => False
  | None, inl _, NoFuel => is_Some (serverConn w)
  | _, _, _ => o = Ok None /\ s_once w' = true /\ is_Some (s_ctx w') /\ all_closed w'
  end.
Proof.
  intros w Ho. assert (tidy w) as Hw by apply (run_ops_tidy zero_start type_name), NewSession_tidy.
  destruct (handleClient_round _ _ _ _ _ _ _) as [r w'] eqn:E0. unfold handleClient_round in E0.
  rewrite (bind_eq_Ok (gets id) _ w w w eq_refl) in E0. destruct (s_ctx w) as [cause|] eqn:Hx.
  { destruct (closing_closes cause w Hw Ho) as (w1 & E & H'). rewrite (bind_eq_Ok _ _ _ _ _ E) in E0.
    destruct batch; injection E0 as <- <-; by split. }
  destruct batch as [payloads|err].
  2:{ destruct (closing_closes (ErrWrap "failed to read packet from client" err) w Hw Ho) as (w1 & E & H').
      rewrite (bind_eq_Ok _ _ _ _ _ E) in E0. injection E0 as <- <-. by split. }
  destruct (serverConn w) as [k|] eqn:Hv; [|by injection E0 as <- <-]. destruct (ty_current w Hw k Hv) as [c Hc].
  revert E0. set (m := handleClientBatch _ _ _ _ _ _). assert (moves server_inner m) as Hm by apply (handleClientBatch_inner type_name).
  pose proof (sd_tidy _ _ (on_server_tidy k h m Hm w) Hw) as Ht.
  destruct (on_server k h m w) as [o w1] eqn:E. destruct (on_server_frame k h m c w o w1 Hm Hc E) as (p1 & ps1 & c1 & Hw1).
  unfold bind at 1, attempt. rewrite E. destruct o as [[[] h']|err|why|].
  - intros [= <- <-]. rewrite Hw1. simpl. split_and!; try done. intros j Hj. rewrite list_lookup_insert_ne by congruence. done.
  - set (err1 := ErrWrap _ err). assert (conns w1 !! k = Some c1) as Hc1.
    { rewrite Hw1. simpl. apply list_lookup_insert_eq. by eapply lookup_lt_Some. }
    rewrite (bind_eq_Ok _ _ _ _ _ (on_conn_close zero_start k c1 err1 w1 Hc1)). intros [= <- <-].
    assert (serverConn w1 = Some k) as Hv1 by (by rewrite Hw1).
    destruct (closed_server_tidy zero_start err1 w1 Ht) as [Ht2 Hall]. destruct (closed_server_frame err1 w1) as (G1 & _ & _ & _ & _ & G2 & G3 & G4 & G5 & _).
    unfold closed_server in *. rewrite Hv1, Hc1 in *. split_and!; try (rewrite ?G2, ?G3, ?G4, ?G5, Hw1; done); [by rewrite G1|].
    intros j d Hd. apply (ty_settled _ Ht2 j d Hd). by eapply Hall.
  - intros _. exfalso. unfold on_server in E. rewrite Hc in E. unfold m, handleClientBatch, recovering in E.
    destruct (bind _ _ _) as [[] ?]; discriminate.
  - intros [= <- <-]. by eexists.
Qed.

End Outcomes.

(** * Witnesses *)

#[local] Existing Instances toy_types toy toy_protocols toy_runtime toy_order toy_floats toy_session.

Lemma session_closes_witness :
  let w := run_ops toy_start toy_type_name [OpLogin] toy_world in
  s_once w = false /\
  exists w', Session_CloseWithError toy_start EOF w = (Ok tt, w') /\
    client_out w' = client_out w ++
      [client_WritePacket (Disconnect (ProcessDisconnection (session_processor (set_s_once true w)) (set_s_once true w) (error_text EOF))); client_Close] /\
    GetSession XUID (s_registry w') = None /\
    (forall k c, conns w' !! k = Some c -> conn_closed c = true /\ ctx c <> None) /\
    (forall err', Session_CloseWithError toy_start err' w' = (Ok tt, w')) /\
    exists cause, s_ctx w' = Some cause /\ (forall addr, dial toy_start addr w' = (Err cause, w')) /\
      fallback toy_start w' = (Err cause, w') /\
      (forall fuel pick, handleServer_round toy_start fuel pick w' = (Ok false, w')) /\
      (forall pool shieldID h batch, handleClient_round toy_start toy_type_name pool shieldID h batch w' = (Ok None, w')) /\
      (forall latency now, handleLatency_round toy_start true latency now w' = (Ok false, w')) /\
      (forall latency now, serverConn w' <> None -> handleLatency_round toy_start false latency now w' = (Ok true, w')).
Proof.
  intros w. split; [vm_compute; reflexivity|].
  apply (session_closes toy_start toy_type_name None (mkPools [] [] []) [] NewRegistry [OpLogin] EOF). vm_compute. reflexivity.
Defined.

Lemma lost_server_witness :
  let w := run_ops toy_start toy_type_name [OpLogin] toy_world in
  match handle_read_error toy_start 0 EOF w with
  | (Ok true, w') =>
      (serverConn w <> Some 0%nat /\ w' = w) \/
      (serverConn w = Some 0%nat /\ inFallback w = false /\ inFallback w' = true /\
       exists n c, n <> 0%nat /\ serverConn w' = Some n /\ conns w' !! n = Some c /\
         conn_closed c = false /\ is_Some (onConnect c))
  | (Ok false, w') => serverConn w = Some 0%nat /\ s_once w' = true /\ is_Some (s_ctx w') /\
      GetSession XUID (s_registry w') = None /\
      (forall k c, conns w' !! k = Some c -> conn_closed c = true /\ ctx c <> None)
  | (_, w') => inFallback w = false
  end.
Proof.
  intros w. apply (lost_server toy_start toy_type_name None (mkPools [] [] []) [] NewRegistry [OpLogin] 0 EOF);
    vm_compute; reflexivity.
Defined.

Lemma client_loop_outcomes_witness :
  let w := run_ops toy_start toy_type_name [OpLogin] toy_world in
  let pool := toy_packets 800 true in
  let h := toy_header 0 Byte.x00 in
  let batch := inl [[Byte.x01]] in
  let '(o, w') := handleClient_round toy_start toy_type_name pool 0 h batch w in
  match s_ctx w, batch, o with
  | None, inl _, Ok (Some h') =>
      s_once w' = false /\ s_ctx w' = None /\ serverConn w' = serverConn w /\ client_out w' = client_out w /\
      (forall k, serverConn w <> Some k -> conns w' !! k = conns w !! k)
  | None, inl _, Ok None =>
      s_once w' = false /\ s_ctx w' = None /\ serverConn w' = serverConn w /\ client_out w' = client_out w /\
      s_registry w' = s_registry w /\ all_closed w'
  | None, inl _, Panic _ => serverConn w = None /\ w' = w
  | None, inl _, Err _ => False
  | None, inl _, NoFuel => is_Some (serverConn w)
  | _, _, _ => o = Ok None /\ s_once w' = true /\ is_Some (s_ctx w') /\ all_closed w'
  end.
Proof.
  intros w pool h batch.
  apply (client_loop_outcomes toy_start toy_type_name None (mkPools [] [] []) [] NewRegistry [OpLogin]
    pool 0 h batch). vm_compute. reflexivity.
Defined.
