(* ===== verification/SessionLeak.v ===== *)
(** * SessionLeak: closing a session against a dial that is under way

    [dial] looks at the session's context before it takes [serverMu] and not
    again.  Here what is left when the session is closed in between, and which
    operations can still close it. *)

From S2P Require Import Prelude GoFloat Wire Registry Minecraft ServerPacket Conn Toy ConnIO ConnSeq ConnLife.
From S2P Require Import Batch Tracker Session SessionLoops SessionSteps SessionProps SessionLife SessionOutcomes.

Local Open Scope Z_scope.
Local Open Scope go_scope.

Section Leak.
Context `{G : Gopher} `{P : !Protocols} `{Rt : Runtime} `{IO : IterationOrder} `{F : FloatConversion}.
Context `{Sur : !Surroundings}.
Variable zero_start : StartGame_fields.
Variable type_name : packet -> string.
Implicit Types w : World.

Abbreviation CSW := (CS (cb:=transfer_cb) (env:=World)).

(** ** A closed session with an open connection *)

Definition open_at (n : nat) w : Prop :=
  exists c, conns w !! n = Some c /\ conn_closed c = false /\ ctx c = None.

Record abandoned (n : nat) w : Prop := {
  ab_once : s_once w = true;
  ab_ctx : is_Some (s_ctx w);
  ab_current : serverConn w = Some n;
  ab_open : open_at n w;
}.

(** The operations that leave it so: all but finishing a login on it, a read
    of it that fails, closing it, and another dial that has passed the check
    of the context. *)
Definition spares (n : nat) (op : session_op) : Prop :=
  match op with
  | OpDialLocked _ => False
  | OpLoginFinish k _ | OpReadError k _ | OpCloseConn k _ => k <> n
  | _ => True
  end.

(** What an operation of the session does that is not on a connection. *)
Record aside w w' : Prop := {
  as_conns : conns w' = conns w;
  as_current : serverConn w' = serverConn w;
  as_once : s_once w = true -> s_once w' = true;
  as_ctx : is_Some (s_ctx w) -> is_Some (s_ctx w');
}.

#[export] Instance aside_preorder : PreOrder aside.
Proof. split; [by split | intros w1 w2 w3 [] []; split; [congruence.. | auto | auto]]. Qed.

(** What an operation on a connection does that does not close it. *)
Record unclosing (s s' : CSW) : Prop := {
  uc_aside : aside (cenv s) (cenv s');
  uc_closed : conn_closed (conn s') = conn_closed (conn s);
  uc_ctx : ctx (conn s') = ctx (conn s);
}.

#[export] Instance unclosing_preorder : PreOrder unclosing.
Proof. split; [by split | intros s1 s2 s3 [] []; split; [by etrans | congruence..]]. Qed.

Lemma unclosing_blind : blind unclosing.
Proof. split; [apply _ | intros; by split ..]. Qed.

Lemma client_op_aside call : moves aside (client_op call).
Proof. intros w. unfold client_op. by destruct (client_result w call); split; simpl; try done; intros [? ->]. Qed.

Ltac aside_moves := go_moves; try (apply client_op_aside); try done; try (intros ?; by split).

Lemma send_aside pk : moves aside (send pk).
Proof. unfold send. pose proof client_op_aside. aside_moves. Qed.

Lemma notify_processor_aside x : moves aside (notify_processor x).
Proof. by apply moves_modify. Qed.

Lemma sendGameData_aside g : moves aside (sendGameData g).
Proof.
  pose proof send_aside. unfold sendGameData, send_chunks, clear_tracker.
  go_moves; try done; try (intros ?; by split).
Qed.

Lemma in_world_unclosing {A} (m : M World A) : moves aside m -> moves unclosing (in_world m).
Proof. intros Hm s. unfold in_world, zoom. specialize (Hm (cenv s)). destruct (m _) as [o w']. by split. Qed.

(** ** The operations of a connection *)

Ltac unclosing_moves := conn_moves ltac:(solve [by split]).

Lemma WritePacket_unclosing pk : moves unclosing (WritePacket pk).
Proof. apply blind_WritePacket, unclosing_blind. Qed.

Lemma DoSpawn_unclosing : moves unclosing DoSpawn.
Proof. pose proof WritePacket_unclosing. unfold DoSpawn, check_ctx, close_chan. unclosing_moves. Qed.

Lemma on_connected_unclosing cb err : moves unclosing (on_connected zero_start cb err).
Proof.
  pose proof DoSpawn_unclosing. pose proof sendGameData_aside. pose proof send_aside.
  pose proof notify_processor_aside. unfold on_connected. destruct err; [by apply in_world_unclosing|].
  go_moves; try intros [_|_]; apply in_world_unclosing; aside_moves.
Qed.

Lemma ReadPacket_unclosing fuel pick : moves unclosing (Conn.ReadPacket (on_connected zero_start) zero_start fuel pick).
Proof.
  pose proof on_connected_unclosing.
  assert (forall pk, moves unclosing (Conn.handlePacket (on_connected zero_start) zero_start pk)) as Hp.
  { intros pk. apply blind_handlePacket; [apply unclosing_blind|]. unfold close_chan, notify. unclosing_moves. }
  assert (moves unclosing (read (cb:=transfer_cb) (env:=World))) as Hr by (unfold read, headerPool_Get; unclosing_moves).
  induction fuel as [|fuel IH]; [apply moves_nofuel, _|]. simpl. unfold read_spawned, read_sequence, deferPacket.
  unclosing_moves.
Qed.

Lemma WriteBatch_unclosing payloads : moves unclosing (WriteBatch payloads).
Proof. unfold WriteBatch, check_ctx, batchPool_Get, write_flags. unclosing_moves. Qed.

Lemma DoConnect_unclosing : moves unclosing DoConnect.
Proof. pose proof WritePacket_unclosing. unfold DoConnect, check_ctx. unclosing_moves. Qed.

Lemma OnConnect_unclosing cb : moves unclosing (OnConnect cb).
Proof. unfold OnConnect. unclosing_moves. Qed.

Lemma aside_abandoned n w w' : aside w w' -> keeps (abandoned n) w w'.
Proof. intros [E1 E2 E3 E4] []. split; [auto | auto | congruence | unfold open_at; by rewrite E1]. Qed.

Lemma on_conn_spares {A} n k (m : M CSW A) : moves unclosing m -> moves (keeps (abandoned n)) (on_conn k m).
Proof.
  intros Hm w [H1' H2' H3' (c & Hc & Hcl & Hx)]. unfold on_conn. destruct (conns w !! k) as [d|] eqn:Hk; [|by split; try exists c].
  specialize (Hm (mkCS d (w_pools w) w)). destruct (m _) as [o s]. destruct Hm as [[E1 E2 E3 E4] E5 E6]. simpl in *.
  split; simpl; [auto | auto | congruence |]. unfold open_at. simpl. rewrite E1.
  destruct (decide (k = n)) as [->|Hne]; [|by exists c; rewrite list_lookup_insert_ne].
  exists (conn s). rewrite list_lookup_insert_eq by (by eapply lookup_lt_Some). split; [done|]. rewrite E5, E6. by simplify_eq.
Qed.

Lemma close_other_spares n k err :
  k <> n -> moves (keeps (abandoned n)) (on_conn k (Conn.CloseWithError (on_connected zero_start) err)).
Proof.
  intros Hne w Hw. destruct (conns w !! k) as [d|] eqn:Hk; [|unfold on_conn; by rewrite Hk].
  rewrite (on_conn_close zero_start k d err w Hk). destruct Hw as [H1' H2' H3' (c & Hc & Ho)]. simpl.
  unfold told. split; [by destruct (_ || _), (onConnect d) .. |]. unfold open_at. simpl. exists c.
  by rewrite list_lookup_insert_ne.
Qed.

(** ** The operations of the session *)

Lemma close_again n err w : abandoned n w -> Session_CloseWithError zero_start err w = (Ok tt, w).
Proof. intros []. unfold Session_CloseWithError, bind, gets, id. by rewrite ab_once0. Qed.

Lemma server_round_ends n fuel pick w : abandoned n w -> handleServer_round zero_start fuel pick w = (Ok false, w).
Proof.
  intros Hw. destruct (ab_ctx _ _ Hw) as [cause Hx]. unfold handleServer_round.
  rewrite (bind_eq_Ok (gets id) _ w w w eq_refl), Hx. by rewrite (bind_eq_Ok _ _ _ _ _ (close_again n cause w Hw)).
Qed.

Lemma client_round_ends n pool shieldID h batch w :
  abandoned n w -> handleClient_round zero_start type_name pool shieldID h batch w = (Ok None, w).
Proof.
  intros Hw. destruct (ab_ctx _ _ Hw) as [cause Hx]. unfold handleClient_round.
  rewrite (bind_eq_Ok (gets id) _ w w w eq_refl), Hx. by rewrite (bind_eq_Ok _ _ _ _ _ (close_again n cause w Hw)).
Qed.

Section Spared.
Variable n : nat.
Abbreviation spared := (keeps (abandoned n)).

Lemma aside_spares {A} (m : M World A) : moves aside m -> moves spared m.
Proof. intros Hm w. apply aside_abandoned, Hm. Qed.

Lemma close_spares err : moves spared (Session_CloseWithError zero_start err).
Proof. intros w Hw. by rewrite (close_again n err w Hw). Qed.

Lemma dial_spares addr : moves spared (dial zero_start addr).
Proof. intros w Hw. destruct (ab_ctx _ _ Hw) as [cause Hx]. by rewrite dial_eq, Hx. Qed.

Create HintDb leak discriminated.
#[local] Hint Resolve client_op_aside send_aside notify_processor_aside close_spares dial_spares : leak.
#[local] Hint Resolve aside_spares on_conn_spares DoConnect_unclosing OnConnect_unclosing WritePacket_unclosing : leak.
#[local] Hint Resolve WriteBatch_unclosing DoSpawn_unclosing ReadPacket_unclosing : leak.
#[local] Hint Extern 1 (spared _ _) => apply aside_abandoned; by split : leak.

Ltac leak_moves := repeat first [ solve [eauto with leak] | progress go_moves_step | progress intros ].

Lemma Transfer_spares addr : moves spared (Transfer zero_start addr).
Proof. unfold Transfer, TransferContext, transfer_dial, sendMetadata. leak_moves. Qed.

Lemma fallback_spares : moves spared (fallback zero_start).
Proof. pose proof Transfer_spares. unfold fallback, check_session. leak_moves. Qed.

Lemma login_start_spares : moves spared (login_start zero_start).
Proof. unfold login_start. leak_moves. Qed.

Lemma login_finish_spares k waited : k <> n -> moves spared (login_finish zero_start k waited).
Proof.
  intros Hk. pose proof (fun err => close_other_spares n k err Hk).
  assert (moves unclosing (let! c := gets Conn.conn in ret (gameData_of zero_start c))) by go_moves.
  unfold login_finish. leak_moves.
Qed.

Lemma SetCache_spares cache : moves spared (SetCache cache).
Proof. unfold SetCache. leak_moves. Qed.

Lemma handle_server_item_spares it : moves spared (handle_server_item zero_start it).
Proof.
  pose proof Transfer_spares. pose proof SetCache_spares.
  assert (forall call f, moves spared (forward zero_start call f)) by (unfold forward; intros; leak_moves).
  assert (forall r d, moves spared (process_server r d)).
  { intros. unfold process_server. apply moves_bind; [apply _ | | intros; leak_moves].
    apply moves_zoom. intros. apply aside_abandoned. by split. }
  unfold handle_server_item. leak_moves.
Qed.

Lemma handle_read_error_spares k err : k <> n -> moves spared (handle_read_error zero_start k err).
Proof.
  intros Hk w Hw. unfold handle_read_error. rewrite (bind_eq_Ok (gets id) _ w w w eq_refl), (ab_current _ _ Hw).
  rewrite bool_decide_false by congruence. done.
Qed.

Lemma handleLatency_round_spares pick latency now : moves spared (handleLatency_round zero_start pick latency now).
Proof. unfold handleLatency_round, latency_tick. leak_moves. Qed.

Lemma perform_spares op : spares n op -> moves spared (perform zero_start type_name op).
Proof.
  pose proof Transfer_spares. pose proof SetCache_spares. pose proof handle_server_item_spares.
  pose proof handleLatency_round_spares. pose proof fallback_spares. pose proof login_start_spares.
  pose proof handle_read_error_spares. pose proof login_finish_spares. pose proof (close_other_spares n).
  assert (forall fuel pick, moves spared (handleServer_round zero_start fuel pick)).
  { intros fuel pick w Hw. by rewrite (server_round_ends n fuel pick w Hw). }
  assert (forall pool shieldID h batch, moves spared (handleClient_round zero_start type_name pool shieldID h batch)).
  { intros pool shieldID h batch w Hw. by rewrite (client_round_ends n pool shieldID h batch w Hw). }
  intros Hop. destruct op; simpl in *; try done; unfold SetAnimation, SetProcessor, latency_ticker; leak_moves.
Qed.

Lemma run_ops_spares ops w : Forall (spares n) ops -> abandoned n w -> abandoned n (run_ops zero_start type_name ops w).
Proof.
  revert w. induction ops as [|op ops IH]; intros w; [done|]. intros [Hop Hops]%Forall_cons Hw.
  apply IH; [done|]. by apply perform_spares.
Qed.

End Spared.

(** A login on such a connection. *)
Lemma login_gives_up n w c waited :
  tidy w -> abandoned n w -> conns w !! n = Some c -> connected c = false -> WaitConnect c (s_ctx w) waited ->
  exists cause w' c', s_ctx w = Some cause /\ waited = Err cause /\
    login_finish zero_start n waited w = (Err cause, w') /\ conns w' !! n = Some c' /\ conn_closed c' = true.
Proof.
  intros Hw [_ [cause Hx] _ (d & Hd & Hcl & Hcx)] Hc Hn Hwait. rewrite Hc in Hd. simplify_eq.
  assert (once d = false) as Ho.
  { destruct (once d) eqn:Ho; [|done]. destruct (ty_settled _ Hw n d Hc Ho). congruence. }
  assert (waited = Err cause) as -> by (inversion Hwait; congruence).
  eexists cause, _, _. split; [done|]. split; [done|]. unfold login_finish.
  rewrite (bind_eq_Ok _ _ _ _ _ (on_conn_close zero_start n d _ w Hc)). split; [done|]. simpl.
  split; [by apply list_lookup_insert_eq; eapply lookup_lt_Some|]. unfold closed_conn. by rewrite Ho.
Qed.

(** C38: closing does not stop a dial that is under way.  [dial] looks at the
    session's context before it takes [serverMu] and not again: when the
    session is closed in between, and the transport still dials (the context
    given to [TransferContext] need not be the session's), the closed session
    is left with an open server connection.  Closing the session again and the
    rounds of the goroutines over the server and the client change nothing, and
    the connection stays open whatever further operations of the session and
    its goroutines interleave, the rest of the transfer included.  The
    exceptions ([spares]) are closing that very connection, a read of it that
    fails, a login on it, and another dial that has passed the check.  A login
    does not leave it open: as long as the connection sequence has not
    completed, [WaitConnect] on a context derived from the session's returns
    the cause of the close, and [LoginContext] closes the connection. *)
Theorem close_races_dial client_ctx p cp registry ops err addr :
  let w := run_ops zero_start type_name ops (NewSession client_ctx p cp registry) in
  s_ctx w = None -> s_once w = false -> (forall w, exists ci co, transport_Dial w addr = inl (ci, co)) ->
  exists w1 n w2,
    check_session w = (Ok tt, w) /\ Session_CloseWithError zero_start err w = (Ok tt, w1) /\
    dial_locked zero_start addr w1 = (Ok n, w2) /\
    s_once w2 = true /\ serverConn w2 = Some n /\ open_at n w2 /\
    (forall err', Session_CloseWithError zero_start err' w2 = (Ok tt, w2)) /\
    (forall fuel pick, handleServer_round zero_start fuel pick w2 = (Ok false, w2)) /\
    (forall pool shieldID h batch, handleClient_round zero_start type_name pool shieldID h batch w2 = (Ok None, w2)) /\
    forall more, Forall (spares n) more ->
    let w3 := run_ops zero_start type_name more w2 in
    open_at n w3 /\
    forall c waited, conns w3 !! n = Some c -> connected c = false -> WaitConnect c (s_ctx w3) waited ->
      exists cause w4 c4, s_ctx w3 = Some cause /\ waited = Err cause /\
        login_finish zero_start n waited w3 = (Err cause, w4) /\
        conns w4 !! n = Some c4 /\ conn_closed c4 = true.
Proof.
  intros w Hx Ho Hd. assert (tidy w) as Hw by apply (run_ops_tidy zero_start type_name), NewSession_tidy.
  pose proof (Session_CloseWithError_eq zero_start err w (ty_current w Hw) Ho) as Hc.
  destruct (closed_session_done zero_start err w Hw Ho) as (Ho1 & [cause Hx1] & _). set (w1 := closed_session err w) in *.
  assert (tidy w1) as Hw1.
  { pose proof (sd_tidy _ _ (Session_CloseWithError_tidy zero_start err w) Hw) as Ht. by rewrite Hc in Ht. }
  destruct (closed_server_frame (ErrNew "closed by application") w1) as (_ & _ & _ & _ & _ & Ho2 & Hx2 & _).
  fold (closed_current w1) in Ho2, Hx2. destruct (Hd (closed_current w1)) as (ci & co & Hdial).
  set (w2 := dialled addr ci co (closed_current w1)). set (n := length (conns (closed_current w1))).
  assert (dial_locked zero_start addr w1 = (Ok n, w2)) as Ed.
  { rewrite (dial_locked_eq zero_start addr w1 (ty_current w1 Hw1)). cbv zeta. by rewrite Hdial. }
  assert (tidy w2) as Hw2.
  { pose proof (sd_tidy _ _ (dial_locked_tidy zero_start addr w1) Hw1) as Ht. by rewrite Ed in Ht. }
  assert (abandoned n w2) as Ha.
  { split; [change (s_once (closed_current w1) = true); congruence | | done |].
    - exists cause. change (s_ctx (closed_current w1) = Some cause). congruence.
    - eexists. split; [simpl; by rewrite lookup_app_r, Nat.sub_diag by done | done]. }
  exists w1, n, w2. split_and!; [| exact Hc | exact Ed | apply Ha | apply Ha | apply Ha | | | |].
  - unfold check_session, bind, gets, id. by rewrite Hx.
  - intros err'. by apply (close_again n).
  - intros fuel pick. by apply (server_round_ends n).
  - intros pool shieldID h batch. by apply (client_round_ends n).
  - intros more Hm w3. pose proof (run_ops_spares n more w2 Hm Ha) as Ha3. split; [apply Ha3|].
    intros c waited Hc3. apply login_gives_up; [by apply (run_ops_tidy zero_start type_name) | done | done].
Qed.

End Leak.

(** * Witness *)

#[local] Existing Instances toy_types toy toy_protocols toy_runtime toy_order toy_floats toy_session.

Lemma close_races_dial_witness :
  let w := run_ops toy_start toy_type_name [OpLogin] toy_world in
  exists w1 n w2,
    check_session w = (Ok tt, w) /\ Session_CloseWithError toy_start EOF w = (Ok tt, w1) /\
    dial_locked toy_start "arena" w1 = (Ok n, w2) /\
    s_once w2 = true /\ serverConn w2 = Some n /\ open_at n w2 /\
    (forall err', Session_CloseWithError toy_start err' w2 = (Ok tt, w2)) /\
    (forall fuel pick, handleServer_round toy_start fuel pick w2 = (Ok false, w2)) /\
    (forall pool shieldID h batch, handleClient_round toy_start toy_type_name pool shieldID h batch w2 = (Ok None, w2)) /\
    forall more, Forall (spares n) more ->
    let w3 := run_ops toy_start toy_type_name more w2 in
    open_at n w3 /\
    forall c waited, conns w3 !! n = Some c -> connected c = false -> WaitConnect c (s_ctx w3) waited ->
      exists cause w4 c4, s_ctx w3 = Some cause /\ waited = Err cause /\
        login_finish toy_start n waited w3 = (Err cause, w4) /\
        conns w4 !! n = Some c4 /\ conn_closed c4 = true.
Proof.
  intros w. apply (close_races_dial toy_start toy_type_name None (mkPools [] [] []) [] NewRegistry [OpLogin] EOF "arena");
    [vm_compute; reflexivity | vm_compute; reflexivity |].
  intros w'. eexists _, _. reflexivity.
Defined.
