(* ===== verification/SessionHistory.v ===== *)
(** * SessionHistory: what stays true of a session

    A second relation all steps respect ([extends]): records only grow, what is
    closed stays closed, and a cause is given once.  What a goroutine has seen
    of the session is still true when it runs again, whatever the others did in
    between. *)

From S2P Require Import Prelude GoFloat Wire Registry Minecraft ServerPacket Conn Toy ConnIO ConnSeq ConnLife.
From S2P Require Import Batch Tracker Session SessionLoops SessionSteps SessionProps.

Local Open Scope Z_scope.
Local Open Scope go_scope.

Section History.
Context `{G : Gopher} `{P : !Protocols} `{Rt : Runtime} `{IO : IterationOrder} `{F : FloatConversion}.
Context `{Sur : !Surroundings}.
Variable zero_start : StartGame_fields.
Variable type_name : packet -> string.
Implicit Types w : World.

Abbreviation CSW := (CS (cb:=transfer_cb) (env:=World)).
Abbreviation SConn := (Conn (cb:=transfer_cb)).

(** A connection and itself later: its context is cancelled with one cause for
    good, [once], [connected] and [spawned] and its stream are closed for good,
    and what was sent stays sent. *)
Record later (c c' : SConn) : Prop := {
  lt_ctx : forall cause, ctx c = Some cause -> ctx c' = Some cause;
  lt_once : once c = true -> once c' = true;
  lt_closed : conn_closed c = true -> conn_closed c' = true;
  lt_connected : connected c = true -> connected c' = true;
  lt_spawned : spawned c = true -> spawned c' = true;
  lt_client : client c' = client c /\ protocol c' = protocol c /\ pool c' = pool c;
  lt_sent : wf_writer (writer c) ->
    wf_writer (writer c') /\ sk_data (wr_w (writer c)) `prefix_of` sk_data (wr_w (writer c'));
}.

#[export] Instance later_preorder : PreOrder later.
Proof.
  split; [by intros c; split|].
  intros c1 c2 c3 [A1 A2 A3 A4 A5 A6 A7] [B1 B2 B3 B4 B5 B6 B7]. split; auto.
  - intuition congruence.
  - intros Hw. destruct (A7 Hw) as [Hw2 H1]. destruct (B7 Hw2) as [Hw3 H2]. split; [done | by etrans].
Qed.

(** A session and itself later. *)
Record extends w w' : Prop := {
  ex_ctx : forall cause, s_ctx w = Some cause -> s_ctx w' = Some cause;
  ex_once : s_once w = true -> s_once w' = true;
  ex_out : client_out w `prefix_of` client_out w';
  ex_notes : notes w `prefix_of` notes w';
  ex_conns : forall k c, conns w !! k = Some c -> exists c', conns w' !! k = Some c' /\ later c c';
  ex_current : forall k, serverConn w = Some k -> is_Some (conns w !! k) ->
    exists k', serverConn w' = Some k' /\ (k <= k')%nat /\ is_Some (conns w' !! k');
}.

#[export] Instance extends_preorder : PreOrder extends.
Proof.
  split.
  - intros w. split; try done; [intros k c Hc; by exists c | intros k Hk Hc; by exists k].
  - intros w1 w2 w3 [A1 A2 A3 A4 A5 A6] [B1 B2 B3 B4 B5 B6]. split; auto; try (by etrans).
    + intros k c Hc. destruct (A5 k c Hc) as (c2 & Hc2 & L2). destruct (B5 k c2 Hc2) as (c3 & Hc3 & L3).
      exists c3. split; [done | by etrans].
    + intros k Hk Hc. destruct (A6 k Hk Hc) as (k2 & Hk2 & Hle & Hc2). destruct (B6 k2 Hk2 Hc2) as (k3 & Hk3 & Hle' & Hc3).
      exists k3. split_and!; [done | lia | done].
Qed.

(** An update that leaves the connections alone. *)
Lemma extends_update w w' :
  (forall cause, s_ctx w = Some cause -> s_ctx w' = Some cause) -> (s_once w = true -> s_once w' = true) ->
  client_out w `prefix_of` client_out w' -> notes w `prefix_of` notes w' ->
  conns w' = conns w -> serverConn w' = serverConn w -> extends w w'.
Proof.
  intros ? ? ? ? Hc Hs. split; try done; rewrite Hc, ?Hs; [intros k c Hk; by exists c | intros k Hk Hx; by exists k].
Qed.

Ltac extends := intros; apply extends_update; simpl; try done; try (by intros ? ->); by apply prefix_app_r.

(** An operation of a connection. *)
Definition grows : relation CSW := fun s s' => later (conn s) (conn s') /\ extends (cenv s) (cenv s').

#[export] Instance grows_preorder : PreOrder grows.
Proof. split; [intros s; by split | intros s1 s2 s3 [] []; split; by etrans]. Qed.

Lemma on_conn_extends {A} k (m : M CSW A) : moves grows m -> moves extends (on_conn k m).
Proof.
  intros Hm w. unfold on_conn. destruct (conns w !! k) as [c|] eqn:Hk; [|done].
  destruct (Hm (mkCS c (w_pools w) w)) as [Hl [E1 E2 E3 E4 E5 E6]]. destruct (m _) as [o s]. simpl in *.
  split; simpl; try done.
  - intros j d Hj. destruct (decide (j = k)) as [->|Hne].
    + assert (d = c) as -> by congruence. exists (conn s). split; [|done].
      destruct (E5 k c Hk) as (c' & Hc' & _). apply list_lookup_insert_eq. by eapply lookup_lt_Some.
    + rewrite list_lookup_insert_ne by done. by apply E5.
  - intros j Hj Hx. destruct (E6 j Hj Hx) as (j' & ? & ? & ?). exists j'. split_and!; [done | done|].
    by apply list_lookup_insert_is_Some.
Qed.

(** ** What the callback of a transfer does *)

Lemma client_op_extends call : moves extends (client_op call).
Proof.
  intros w. unfold client_op. destruct (client_result w call); apply extends_update; simpl; try done;
    (by intros ? ->) || by apply prefix_app_r.
Qed.

Ltac extends_moves := repeat first [ solve [auto] | progress go_moves_step | progress intros ]; try extends.

Lemma send_extends pk : moves extends (send pk).
Proof. pose proof client_op_extends. unfold send. extends_moves. Qed.

Lemma sendGameData_extends g : moves extends (sendGameData g).
Proof.
  pose proof send_extends. unfold sendGameData, send_chunks, clear_tracker. extends_moves.
Qed.

Lemma in_world_grows {A} (m : M World A) : moves extends m -> moves grows (in_world m).
Proof. intros Hm s. unfold in_world, zoom. specialize (Hm (cenv s)). destruct (m _) as [o w']. by split. Qed.

(** ** Operations of a connection *)

(** An update of fields that may change. *)
Lemma grows_update (s s' : CSW) : later (conn s) (conn s') -> cenv s' = cenv s -> grows s s'.
Proof. intros Hl He. split; [done | by rewrite He]. Qed.

Ltac grows :=
  intros; try case_match; (apply grows_update; [split; simpl; try done; try (by intros ? ->) | done]).
Ltac grow_case := lazymatch goal with
  | |- moves _ (zoom _ _ _) => apply moves_zoom
  | |- moves _ (match ?o with _ => _ end) => destruct o
  end.
Ltac grow_moves :=
  repeat first [ solve [auto] | progress go_moves_step | grow_case | progress intros ]; try grows.

Lemma write_flags_grows f d : moves grows (write_flags f d).
Proof.
  intros s. unfold write_flags, zoom.
  pose proof (WriteWithFlags_sends (byte_of_Z f) d (writer (conn s))) as Hs.
  destruct (WriteWithFlags _ _ _) as [o w]. apply grows_update; [|done]. split; simpl; try done.
  intros Hw. destruct (Hs Hw) as (bs & Hw' & Hd & _). simpl in *. split; [done|]. rewrite Hd. by apply prefix_app_r.
Qed.

Lemma WritePacket_grows pk : moves grows (WritePacket pk).
Proof.
  pose proof write_flags_grows. unfold WritePacket, check_ctx, bufferPool_Get, headerPool_Get. grow_moves.
Qed.

Lemma WriteBatch_grows payloads : moves grows (WriteBatch payloads).
Proof.
  pose proof write_flags_grows. unfold WriteBatch, check_ctx, batchPool_Get. grow_moves.
Qed.

Lemma DoConnect_grows : moves grows DoConnect.
Proof. pose proof WritePacket_grows. unfold DoConnect, check_ctx. grow_moves. Qed.

Lemma DoSpawn_grows : moves grows DoSpawn.
Proof. pose proof WritePacket_grows. unfold DoSpawn, check_ctx, close_chan. grow_moves. Qed.

Lemma on_connected_grows cb err : moves grows (on_connected zero_start cb err).
Proof.
  pose proof send_extends. pose proof sendGameData_extends. pose proof DoSpawn_grows.
  assert (forall n, moves extends (notify_processor n)) by (unfold notify_processor; extends_moves).
  unfold on_connected. destruct err; [by apply in_world_grows|].
  grow_moves; apply in_world_grows; extends_moves.
Qed.

Lemma notify_grows e : moves grows (notify (on_connected zero_start) e).
Proof. pose proof on_connected_grows. unfold notify. grow_moves. Qed.

Lemma CloseWithError_grows err : moves grows (Conn.CloseWithError (on_connected zero_start) err).
Proof. pose proof notify_grows. unfold Conn.CloseWithError. grow_moves. Qed.

Lemma handlePacket_grows pk : moves grows (Conn.handlePacket (on_connected zero_start) zero_start pk).
Proof.
  pose proof notify_grows. pose proof WritePacket_grows.
  unfold Conn.handlePacket, handle_one, handleConnectionResponse, handleStartGame, handleItemRegistry,
    handleChunkRadiusUpdated, handlePlayStatus, expect, deferPacket, close_chan. grow_moves.
Qed.

Lemma read_grows : moves grows (read (cb:=transfer_cb) (env:=World)).
Proof. unfold read, headerPool_Get. grow_moves. Qed.

Lemma ReadPacket_grows fuel pick : moves grows (Conn.ReadPacket (on_connected zero_start) zero_start fuel pick).
Proof.
  pose proof read_grows. pose proof handlePacket_grows.
  induction fuel as [|fuel IH]; [apply moves_nofuel, _|]. simpl. unfold read_spawned, read_sequence, deferPacket. grow_moves.
Qed.

(** ** Every step *)

(** A batch works on the server connection only. *)
Definition batch_grows : relation (BS (cb:=transfer_cb) (env:=World)) := fun st st' => grows (server st) (server st').

#[export] Instance batch_grows_preorder : PreOrder batch_grows.
Proof. split; [by intros st; split | intros x y z H1 H2; unfold batch_grows in *; by etrans]. Qed.

Lemma handleClientBatch_grows s pc pool shieldID payloads :
  moves batch_grows (handleClientBatch s type_name pc pool shieldID payloads).
Proof.
  assert (forall st st', server st' = server st -> batch_grows st st') as Hsame by (unfold batch_grows; by intros ? ? ->).
  assert (forall r d, moves batch_grows (ctx_pool (NewPacketContext r d))) as Hn
    by (intros; apply moves_zoom; intros; by apply Hsame).
  assert (forall c, moves batch_grows (ctx_pool (ReturnPacketContext c))) as Hr
    by (intros; apply moves_zoom; intros; by apply Hsame).
  assert (forall p, moves batch_grows (decodeAndCreateContext s type_name pool shieldID p)) as Hd.
  { intros. unfold decodeAndCreateContext. conn_moves ltac:(done). }
  assert (forall ps, moves batch_grows (decode_loop s type_name pool shieldID ps)) as Hl
    by (intros ps; induction ps; simpl; go_moves).
  assert (forall proto cs, moves batch_grows (encode_loop s proto shieldID cs)) as He.
  { intros proto cs. induction cs as [|c cs IH]; simpl; conn_moves ltac:(done). }
  assert (forall p, moves batch_grows (zoom server set_server (WriteBatch p))) as Hw.
  { intros p st. unfold zoom. pose proof (WriteBatch_grows p (server st)) as H1. by destruct (WriteBatch p (server st)). }
  unfold handleClientBatch. go_moves.
Qed.

Lemma on_server_extends {A} k h (m : M (BS (cb:=transfer_cb) (env:=World)) A) :
  moves batch_grows m -> moves extends (on_server k h m).
Proof.
  intros Hm w.
  pose proof (on_conn_extends k (fun s : CSW => let (o, st) := m (mkBS h (s_ctxPool w) s) in (o, server st))) as Hc.
  destruct (Hc ltac:(intros s; specialize (Hm (mkBS h (s_ctxPool w) s)); by destruct (m _)) w) as [].
  unfold on_conn, on_server in *. destruct (conns w !! k) as [c|] eqn:Hk; [|done].
  destruct (m _) as [o st]. simpl in *. by destruct o; split.
Qed.

Lemma dial_locked_extends addr : moves extends (dial_locked zero_start addr).
Proof.
  assert (forall k, moves extends (on_conn k (Conn.Close (on_connected zero_start)))) as Hc
    by (intros k; apply on_conn_extends, CloseWithError_grows).
  unfold dial_locked. apply moves_bind; [apply _ | by apply moves_gets, _ | intros w0].
  apply moves_bind; [apply _ | destruct (serverConn w0); [done | apply moves_ret, _] | intros _ w1].
  unfold bind at 1, gets, id. destruct (transport_Dial w1 addr) as [[ci co]|err]; [|reflexivity].
  unfold bind, modify. simpl. split; simpl; try done.
  - intros k c Hk. exists c. split; [by apply lookup_app_l_Some | done].
  - intros k Hk Hx. exists (length (conns w1)). split_and!; [done | | rewrite lookup_app_r, Nat.sub_diag by done; by eexists].
    apply lookup_lt_is_Some in Hx. lia.
Qed.

#[export] Instance extends_steps : SessionRelation zero_start type_name extends.
Proof.
  split; try (intros; extends).
  - apply _.
  - apply client_op_extends.
  - intros A k m Hm. apply on_conn_extends. destruct Hm;
      auto using DoConnect_grows, DoSpawn_grows, CloseWithError_grows, ReadPacket_grows, WritePacket_grows, WriteBatch_grows.
    + unfold OnConnect. grow_moves.
    + grow_moves.
  - apply dial_locked_extends.
  - intros. apply on_server_extends, handleClientBatch_grows.
  - intros. apply moves_zoom. extends.
  - intros v w. split; extends.
Qed.

(** C4: nothing of a session is undone.  Whatever operations of the session and
    of its goroutines come between two moments, in any interleaving: the cause
    a context was cancelled with, of the session and of each connection, is
    still the same, so that it is given once; what was closed, connected or
    spawned still is; every connection is still there, with its client and
    protocol, and the bytes sent on it, the calls of the client and the
    notifications of the processor are continued and never taken back; and the
    current connection is never replaced by an older one. *)
Theorem nothing_undone ops w : extends w (run_ops zero_start type_name ops w).
Proof. apply run_ops_moves, _. Qed.

End History.
