(* ===== verification/SessionSafe.v ===== *)
(** * SessionSafe: where a session can panic

    Every operation of a session in the logic of [ConnSafe]: of all that is
    called, only an empty frame of a server, the second closing of a channel and
    a latency interval that is not positive panic. *)

From S2P Require Import Prelude GoFloat Wire Registry Minecraft ServerPacket Conn Toy ConnIO ConnSeq ConnLife ConnSafe.
From S2P Require Import Batch Tracker Session SessionLoops SessionSteps SessionProps SessionLife SessionOutcomes.

Local Open Scope Z_scope.
Local Open Scope go_scope.

Section Safe.
Context `{G : Gopher} `{P : !Protocols} `{Rt : Runtime} `{IO : IterationOrder} `{F : FloatConversion}.
Context `{!WriterReturns} `{Sur : !Surroundings}.
Variable zero_start : StartGame_fields.
Variable type_name : packet -> string.
Implicit Types w : World.
Abbreviation CSW := (CS (cb:=transfer_cb) (env:=World)).

(** The input of a server the session has dialled, after some frames. *)
Definition dialled_from (i : source) : Prop :=
  exists w addr ci co, transport_Dial w addr = inl (ci, co) /\ rtc (fun i i' => i' = (Wire.ReadPacket i).2) ci i.

Lemma dialled_next i : dialled_from i -> dialled_from (Wire.ReadPacket i).2.
Proof. intros (w & addr & ci & co & Hd & Hr). exists w, addr, ci, co. split; [done|]. by eapply rtc_r. Qed.

(** The three panics. *)
Definition known_crash (c : crash) : Prop :=
  match c with
  | OutOfFuel => True
  | Panicked why =>
      why = "close of closed channel" \/
      why = "non-positive interval for NewTicker" /\ latency_duration (LatencyInterval session_opts) <= 0 \/
      why = "runtime error: index out of range [0] with length 0" /\
      exists w addr ci co, transport_Dial w addr = inl (ci, co) /\ sends_empty_frame ci
  end%string.

Lemma empty_frame_known i : dialled_from i -> (Wire.ReadPacket i).1 = Ok [] ->
  known_crash (Panicked "runtime error: index out of range [0] with length 0").
Proof. intros (w & addr & ci & co & Hd & Hr) Hi. right. right. split; [done|]. exists w, addr, ci, co. split; [done|]. by exists i. Qed.

(** At least [n] connections, each with a sound writer and the input of a
    server; the current one is among them. *)
Record world_ok (n : nat) w : Prop := {
  wo_writer : forall k c, conns w !! k = Some c -> wf_writer (writer c);
  wo_input : forall k c, conns w !! k = Some c -> dialled_from (conn_in c);
  wo_current : forall k, serverConn w = Some k -> is_Some (conns w !! k);
  wo_length : (n <= length (conns w))%nat;
}.

Lemma world_ok_update n w w' :
  world_ok n w -> conns w' = conns w -> serverConn w' = serverConn w -> world_ok n w'.
Proof. intros [] H1' H2'. split; rewrite ?H1', ?H2'; done. Qed.

Ltac world_ok :=
  match goal with H : world_ok ?n _ |- world_ok ?n _ => solve [apply (world_ok_update _ _ _ H); reflexivity] end.

Abbreviation safe n m := (forall w, world_ok n w -> guarded (world_ok n) known_crash m w).
Abbreviation conn_safe n m := (forall s : CSW, conn_ok dialled_from (world_ok n) s -> guarded (conn_ok dialled_from (world_ok n)) known_crash m s).

Lemma on_conn_safe {A} n k (m : M CSW A) w :
  conn_safe n m -> world_ok n w -> is_Some (conns w !! k) -> guarded (world_ok n) known_crash (on_conn k m) w.
Proof.
  intros Hm Hw [c Hc]. unfold guarded, on_conn. rewrite Hc.
  destruct (Hm (mkCS c (w_pools w) w)) as [[H1' H2' H3'] Ho].
  { split; [by eapply wo_writer | by eapply wo_input | done]. }
  destruct (m _) as [o s]. simpl in *. split; [|done]. destruct H3'. split; simpl.
  - by intros j d [[_ [<- _]]|[_ Hd]]%list_lookup_insert_Some; [|eapply wo_writer0].
  - by intros j d [[_ [<- _]]|[_ Hd]]%list_lookup_insert_Some; [|eapply wo_input0].
  - intros j Hj. by apply list_lookup_insert_is_Some, wo_current0.
  - by rewrite length_insert.
Qed.

Lemma named_exists n k w : world_ok n w -> (k < n)%nat -> is_Some (conns w !! k).
Proof. intros [] Hk. apply lookup_lt_is_Some. lia. Qed.

(** ** What the callback of a transfer runs *)

Lemma client_op_safe n call : safe n (client_op call).
Proof. intros w Hw. unfold client_op, guarded. destruct (client_result w call); split; done || world_ok. Qed.

Lemma asked_safe n call w : world_ok n w -> world_ok n (asked call w).
Proof. intros Hw. destruct (client_op_same call w) as (H1' & H2' & _). by apply (world_ok_update n w). Qed.

Lemma send_safe n pk : safe n (send pk).
Proof. intros w Hw. pose proof client_op_safe. unfold send. guards. Qed.

Lemma clear_tracker_safe n : safe n clear_tracker.
Proof.
  intros w Hw. pose proof send_safe. unfold clear_tracker.
  apply guarded_bind; [by apply guarded_gets | intros w1 w2 _ H2']. destruct (clearAll _ _). guards. world_ok.
Qed.

Lemma sendGameData_safe n g : safe n (sendGameData g).
Proof.
  intros w Hw. pose proof send_safe. pose proof clear_tracker_safe. unfold sendGameData, send_chunks. guards; world_ok.
Qed.

Lemma in_world_safe {A} n (m : M World A) : safe n m -> conn_safe n (in_world m).
Proof.
  intros Hm s Hs. unfold in_world. apply (guarded_zoom _ _ (world_ok n)); [apply Hm, Hs|].
  intros w Hw. destruct Hs. by split.
Qed.

(** ** Operations of the current connection *)

Lemma WritePacket_conn n pk : writable pk -> conn_safe n (WritePacket pk).
Proof. intros Hpk s Hs. by apply guarded_never, WritePacket_safe. Qed.

Lemma WriteBatch_conn n payloads : conn_safe n (WriteBatch payloads).
Proof. intros s Hs. by apply guarded_never, WriteBatch_safe. Qed.

Lemma DoConnect_conn n : conn_safe n DoConnect.
Proof. intros s Hs. by apply guarded_never, DoConnect_safe. Qed.

Lemma DoSpawn_conn n : conn_safe n DoSpawn.
Proof. intros s Hs. apply DoSpawn_safe; [by left | done]. Qed.

Lemma OnConnect_conn n cb : conn_safe n (OnConnect cb).
Proof. intros s []. unfold OnConnect. by apply guarded_modify; split. Qed.

Lemma notify_processor_safe n x : safe n (notify_processor x).
Proof. intros w Hw. unfold notify_processor. apply guarded_modify. world_ok. Qed.

Lemma on_connected_conn n cb err : conn_safe n (on_connected zero_start cb err).
Proof.
  intros s Hs. pose proof notify_processor_safe. pose proof DoSpawn_conn. pose proof sendGameData_safe.
  pose proof send_safe. unfold on_connected. destruct err; [apply in_world_safe; auto|].
  guards; apply in_world_safe; try done; intros; guards; world_ok.
Qed.

Lemma CloseWithError_conn n err : conn_safe n (Conn.CloseWithError (on_connected zero_start) err).
Proof. intros s Hs. apply CloseWithError_safe; [|done]. intros. by apply on_connected_conn. Qed.

Lemma ReadPacket_conn n fuel pick : conn_safe n (Conn.ReadPacket (on_connected zero_start) zero_start fuel pick).
Proof.
  intros s Hs. apply ReadPacket_safe; try done; [apply dialled_next | by left | apply empty_frame_known |].
  intros. by apply on_connected_conn.
Qed.

(** ** Operations of the session *)

Lemma check_session_safe n : safe n check_session.
Proof. intros w Hw. unfold check_session. guards. Qed.

Lemma close_current_safe n err w :
  world_ok n w -> guarded (world_ok n) known_crash
    (match serverConn w with Some k => on_conn k (Conn.CloseWithError (on_connected zero_start) err) | None => ret tt end) w.
Proof.
  intros Hw. destruct (serverConn w) as [k|] eqn:Hk; [|by apply guarded_ret].
  apply on_conn_safe; [apply CloseWithError_conn | done | by eapply wo_current].
Qed.

Lemma Session_CloseWithError_safe n err : safe n (Session_CloseWithError zero_start err).
Proof.
  intros w Hw. pose proof client_op_safe. pose proof send_safe. unfold Session_CloseWithError.
  apply guarded_bind_id. destruct (s_once w); [by apply guarded_ret|].
  apply guarded_bind; [apply guarded_modify; world_ok | intros _ w1 _ H1'].
  apply guarded_bind_id.
  apply guarded_bind; [by auto | intros _ w2 _ H2']. apply guarded_bind; [by apply guarded_ignore; auto | intros _ w3 _ H3'].
  apply guarded_bind_id.
  apply guarded_bind; [by apply close_current_safe | intros _ w4 _ H4'].
  guards; world_ok.
Qed.

(** A dialled connection exists. *)
Lemma dial_locked_safe n addr w :
  world_ok n w -> guarded (world_ok n) known_crash (dial_locked zero_start addr) w /\
    forall k w', dial_locked zero_start addr w = (Ok k, w') -> world_ok (S k) w'.
Proof.
  intros Hw. unfold guarded. rewrite (dial_locked_eq zero_start addr w (wo_current _ _ Hw)). cbv zeta.
  assert (world_ok n (closed_current w)) as H1'.
  { unfold closed_current. pose proof (close_current_safe n (ErrNew "closed by application") w Hw) as [H' _].
    pose proof (close_server_eq zero_start (ErrNew "closed by application") w (wo_current _ _ Hw)) as Hc.
    unfold bind, gets, id in Hc. by rewrite Hc in H'. }
  set (w1 := closed_current w) in *.
  destruct (transport_Dial w1 addr) as [[ci co]|err] eqn:Hd; [|by split_and!].
  assert (forall m, (m <= S (length (conns w1)))%nat -> world_ok m (dialled addr ci co w1)) as Hall.
  { intros m Hm. destruct H1'. split; simpl.
    - intros k c [Hc|[_ Hc]]%lookup_app_Some; [by eapply wo_writer0|].
      apply list_lookup_singleton_Some in Hc as [_ <-]. done.
    - intros k c [Hc|[_ Hc]]%lookup_app_Some; [by eapply wo_input0|].
      apply list_lookup_singleton_Some in Hc as [_ <-]. by exists w1, addr, ci, co.
    - intros k [= <-]. rewrite lookup_app_r, Nat.sub_diag by done. by eexists.
    - rewrite length_app. simpl. lia. }
  split; [split; [apply Hall; destruct H1'; lia | done]|]. intros k w' [= <- <-]. by apply Hall.
Qed.

Lemma dial_safe n addr w :
  world_ok n w -> guarded (world_ok n) known_crash (dial zero_start addr) w /\
    forall k w', dial zero_start addr w = (Ok k, w') -> world_ok (S k) w'.
Proof.
  intros Hw. unfold guarded. rewrite dial_eq. destruct (s_ctx w); [by split_and!|]. by apply dial_locked_safe.
Qed.

Lemma world_ok_le m n w : (m <= n)%nat -> world_ok n w -> world_ok m w.
Proof. intros Hm []. split; try done. lia. Qed.

Lemma world_ok_all n w : world_ok n w -> world_ok (length (conns w)) w.
Proof. intros []. by split. Qed.

(** [Transfer] *)
Lemma Transfer_safe n addr : safe n (Transfer zero_start addr).
Proof.
  intros w Hw. unfold guarded. rewrite Transfer_eq.
  destruct (ProcessPreTransfer _ _ _ _) as [[canceled origin] target]. destruct canceled; [by split|].
  set (w0 := asked _ w). assert (world_ok n w0) as H0' by apply (asked_safe n (metadata_call w) w Hw).
  destruct (dial_safe n target w0 H0') as [[H1' H2'] Hk]. destruct (dial _ target w0) as [[k|err|why|] w1]; simpl in *;
    [|split; [world_ok | done] | done | done].
  specialize (Hk k w1 eq_refl). pose proof (named_exists _ k w1 Hk ltac:(lia)) as Hex.
  destruct (on_conn_safe n k DoConnect w1 (DoConnect_conn n) H1' Hex) as [H3' H4'].
  destruct (on_conn_safe (S k) k DoConnect w1 (DoConnect_conn (S k)) Hk Hex) as [H5' _].
  destruct (on_conn k DoConnect w1) as [[[]|err|why|] w2]; simpl in *; [|split; [world_ok | done] | done | done].
  apply (on_conn_safe n k); [apply OnConnect_conn | done | apply (named_exists _ k w2 H5'); lia].
Qed.

Lemma fallback_safe n : safe n (fallback zero_start).
Proof.
  intros w Hw. pose proof check_session_safe. pose proof Transfer_safe. unfold fallback. guards; world_ok.
Qed.

Lemma SetCache_safe n cache : safe n (SetCache cache).
Proof.
  intros w Hw. unfold SetCache. apply guarded_bind_id. destruct (ProcessCache _ _ _) as [canceled cache'].
  guards; world_ok.
Qed.

(** Login *)
Lemma login_start_safe n : safe n (login_start zero_start).
Proof.
  intros w Hw. unfold login_start. apply guarded_bind_id. destruct (Discover w) as [addr|]; [|by apply guarded_fail].
  destruct (dial_safe n addr w Hw) as [Hd Hk]. apply guarded_bind; [done | intros k w1 E H1'].
  apply guarded_bind; [|intros; by apply guarded_ret].
  apply on_conn_safe; [apply DoConnect_conn | done | apply (named_exists (S k)); [by apply Hk | lia]].
Qed.

Lemma login_start_named k w w' : world_ok 0 w -> login_start zero_start w = (Ok k, w') -> world_ok (S k) w'.
Proof.
  intros Hw. unfold login_start. rewrite (bind_eq_Ok (gets id) _ w w w eq_refl).
  destruct (Discover w) as [addr|]; [|done]. destruct (dial_safe 0 addr w Hw) as [_ Hk].
  intros (k1 & w1 & Hd & (u & w2 & Hc & E)%bind_Ok_inv)%bind_Ok_inv. injection E as <- <-.
  specialize (Hk k1 w1 Hd).
  destruct (on_conn_safe (S k1) k1 DoConnect w1 (DoConnect_conn _) Hk) as [H' _]; [apply (named_exists _ k1 w1 Hk); lia|].
  by rewrite Hc in H'.
Qed.

Lemma login_finish_safe n k waited w :
  world_ok n w -> (k < n)%nat -> guarded (world_ok n) known_crash (login_finish zero_start k waited) w.
Proof.
  intros Hw Hk. unfold login_finish. pose proof client_op_safe.
  assert (forall A (m : M CSW A), conn_safe n m -> safe n (on_conn k m)) as Hc
    by (intros; apply on_conn_safe; [done.. | by eapply named_exists]).
  pose proof (Hc _ _ (DoSpawn_conn n)). pose proof (fun err => Hc _ _ (CloseWithError_conn n err)).
  assert (safe n (on_conn k (let! c := gets Conn.conn in ret (gameData_of zero_start c)))) by (apply Hc; intros; guards).
  guards; world_ok.
Qed.

(** The server loop *)
Lemma handle_read_error_safe n k err w :
  world_ok n w -> (k < n)%nat -> guarded (world_ok n) known_crash (handle_read_error zero_start k err) w.
Proof.
  intros Hw Hk. unfold handle_read_error. pose proof fallback_safe. pose proof Session_CloseWithError_safe.
  assert (safe n (on_conn k (Conn.CloseWithError (on_connected zero_start) (ErrWrap "failed to read packet from server" err)))).
  { intros w' Hw'. apply on_conn_safe; [apply CloseWithError_conn | done | by eapply named_exists]. }
  guards.
Qed.

Lemma forward_safe n call failure : safe n (forward zero_start call failure).
Proof. intros w Hw. pose proof client_op_safe. pose proof Session_CloseWithError_safe. unfold forward. guards. Qed.

Lemma process_server_safe n r d : safe n (process_server r d).
Proof.
  intros w Hw. unfold process_server. apply guarded_bind; [|intros; guards].
  apply (guarded_zoom _ _ (fun _ => True)); [|intros; world_ok].
  unfold NewPacketContext, guarded, bind, pool_Get. by destruct (s_ctxPool w).
Qed.

Lemma handle_server_item_safe n it : safe n (handle_server_item zero_start it).
Proof.
  intros w Hw. pose proof forward_safe. pose proof process_server_safe. pose proof Transfer_safe. pose proof SetCache_safe.
  unfold handle_server_item. guards; world_ok.
Qed.

Lemma handleServer_round_safe n fuel pick w :
  world_ok n w -> serverConn w <> None -> guarded (world_ok n) known_crash (handleServer_round zero_start fuel pick) w.
Proof.
  intros Hw Hv. apply (guarded_stronger _ _ (world_ok (length (conns w)))).
  { intros w'. apply world_ok_le, Hw. }
  apply world_ok_all in Hw. set (m := length (conns w)) in *.
  pose proof Session_CloseWithError_safe. pose proof handle_server_item_safe. pose proof handle_read_error_safe.
  unfold handleServer_round. apply guarded_bind_id. destruct (s_ctx w); [guards|].
  destruct (serverConn w) as [k|] eqn:Hk; [|done]. pose proof (wo_current _ _ Hw k Hk) as Hex.
  assert (k < m)%nat by by apply lookup_lt_is_Some.
  apply guarded_bind; [|guards]. apply guarded_attempt, on_conn_safe; [apply ReadPacket_conn | done | done].
Qed.

(** The loops over the client: the batch recovers its own panics. *)
Definition batch_ok n (st : BS (cb:=transfer_cb) (env:=World)) : Prop :=
  conn_ok dialled_from (world_ok n) (server st).

Lemma handleClientBatch_safe n s pc pool shieldID payloads st :
  batch_ok n st -> guarded (batch_ok n) known_crash (handleClientBatch s type_name pc pool shieldID payloads) st.
Proof.
  intros Hst. set (C := fun _ : crash => True). assert (forall A (o : outcome A), allows C o) as HC by (by intros A []).
  assert (forall r d st, batch_ok n st -> guarded (batch_ok n) C (ctx_pool (NewPacketContext r d)) st) as Hn.
  { intros r d st' H'. apply (guarded_zoom _ _ (fun _ => True)); [by split | done]. }
  assert (forall c st, batch_ok n st -> guarded (batch_ok n) C (ctx_pool (ReturnPacketContext c)) st) as Hr.
  { intros c st' H'. apply (guarded_zoom _ _ (fun _ => True)); [by split | done]. }
  assert (forall p st, batch_ok n st -> guarded (batch_ok n) C (decodeAndCreateContext s type_name pool shieldID p) st) as Hd.
  { intros p st' H'. unfold decodeAndCreateContext. apply guarded_recovering, (guarded_weaken _ _ C), guarded_bind_gets; [by intros []|].
    destruct (Header_Read _ _) as [[err h] buf]. guards; done. }
  assert (forall ps st, batch_ok n st -> guarded (batch_ok n) C (decode_loop s type_name pool shieldID ps) st) as Hl.
  { intros ps. induction ps; intros st' H'; simpl; guards. }
  assert (forall proto cs st, batch_ok n st -> guarded (batch_ok n) C (encode_loop s proto shieldID cs) st) as He.
  { intros proto cs. induction cs as [|c cs IH]; intros st' H'; simpl; [by apply guarded_ret|]. guards; done. }
  assert (forall p st, batch_ok n st -> guarded (batch_ok n) C (zoom server set_server (WriteBatch p)) st) as Hw.
  { intros p st' H'. apply (guarded_zoom _ _ (conn_ok dialled_from (world_ok n))); [|done].
    apply (guarded_never _ C). by apply WriteBatch_safe. }
  unfold handleClientBatch. apply guarded_recovering, (guarded_weaken _ _ C); [by intros []|]. guards.
Qed.

Lemma on_server_safe {A} n k h (m : M (BS (cb:=transfer_cb) (env:=World)) A) w :
  (forall st, batch_ok n st -> guarded (batch_ok n) known_crash m st) ->
  world_ok n w -> is_Some (conns w !! k) -> guarded (world_ok n) known_crash (on_server k h m) w.
Proof.
  intros Hm Hw Hk.
  (* the batch as an operation of the connection *)
  set (mc := fun s : CSW => let (o, st) := m (mkBS h (s_ctxPool w) s) in (o, server st)).
  assert (conn_safe n mc) as Hmc.
  { intros s Hs. destruct (Hm (mkBS h (s_ctxPool w) s) Hs) as [H1' H2']. unfold guarded, mc. by destruct (m _). }
  destruct (on_conn_safe n k mc w Hmc Hw Hk) as [H1' H2']. unfold on_conn, mc in H1', H2'. unfold guarded, on_server.
  destruct Hk as [c Hc]. rewrite Hc in *. destruct (m _) as [o st]. simpl in *.
  split; [|by destruct o]. destruct o; by apply (world_ok_update _ _ _ H1').
Qed.

Lemma handleClient_round_safe n pool shieldID h batch w :
  world_ok n w -> serverConn w <> None ->
  guarded (world_ok n) known_crash (handleClient_round zero_start type_name pool shieldID h batch) w.
Proof.
  intros Hw Hv. apply (guarded_stronger _ _ (world_ok (length (conns w)))).
  { intros w'. apply world_ok_le, Hw. }
  apply world_ok_all in Hw. set (m := length (conns w)) in *.
  pose proof Session_CloseWithError_safe. unfold handleClient_round. apply guarded_bind_id.
  destruct (s_ctx w); [guards|]. destruct batch as [payloads|err]; [|guards].
  destruct (serverConn w) as [k|] eqn:Hk; [|done]. pose proof (wo_current _ _ Hw k Hk) as Hex.
  assert (k < m)%nat by by apply lookup_lt_is_Some.
  apply guarded_bind.
  { apply guarded_attempt, on_server_safe; [|done..]. intros. by apply handleClientBatch_safe. }
  intros [[[] h']|err] w1 _ H1'; [by apply guarded_ret|].
  apply guarded_bind; [|intros; by apply guarded_ret].
  apply on_conn_safe; [apply CloseWithError_conn | done | by eapply named_exists].
Qed.

Lemma handleLatency_round_safe n pick latency now w :
  world_ok n w -> serverConn w <> None ->
  guarded (world_ok n) known_crash (handleLatency_round zero_start pick latency now) w.
Proof.
  intros Hw Hv. pose proof Session_CloseWithError_safe.
  assert (guarded (world_ok n) known_crash (latency_tick latency now) w) as Ht.
  { unfold latency_tick. apply guarded_bind_id. destruct (serverConn w) as [k|] eqn:Hk; [|done].
    apply guarded_ignore, on_conn_safe; [apply WritePacket_conn, latency_writable | done | by eapply wo_current]. }
  unfold handleLatency_round. guards.
Qed.

Lemma latency_ticker_safe n : safe n (latency_ticker (LatencyInterval session_opts)).
Proof.
  intros w Hw. unfold latency_ticker. destruct (Z.leb_spec (latency_duration (LatencyInterval session_opts)) 0); [|guards].
  split; [done|]. right. by left.
Qed.

(** ** Any operation *)

(** The goroutines run once there is a server; an operation of a connection
    has one, and writes the packets of the proxy. *)
Definition enabled (op : session_op) w : Prop :=
  match op with
  | OpServerRound _ _ | OpClientRound _ _ _ _ | OpLatencyRound _ _ _ => serverConn w <> None
  | OpLoginFinish k _ | OpReadError k _ | OpConnect k | OpOnConnect k _ | OpRead k _ _ | OpSpawn k
  | OpCloseConn k _ | OpWriteBatch k _ => is_Some (conns w !! k)
  | OpWritePacket k pk => is_Some (conns w !! k) /\ writable pk
  | _ => True
  end.

Fixpoint enabled_run (ops : list session_op) w : Prop :=
  match ops with
  | [] => True
  | op :: ops => enabled op w /\ enabled_run ops (perform zero_start type_name op w).2
  end.

Lemma perform_safe op w :
  world_ok 0 w -> enabled op w -> guarded (world_ok 0) known_crash (perform zero_start type_name op) w.
Proof.
  intros Hw He. assert (forall k, is_Some (conns w !! k) -> (k < length (conns w))%nat) as Hlt by (intros; by apply lookup_lt_is_Some).
  pose proof (world_ok_all _ _ Hw) as Hall.
  assert (forall w', world_ok (length (conns w)) w' -> world_ok 0 w') as Hle by (intros; eapply world_ok_le; [|done]; lia).
  destruct op; simpl in *; try apply guarded_ignore;
    auto using login_start_safe, Transfer_safe, fallback_safe, Session_CloseWithError_safe, SetCache_safe, client_op_safe,
      handle_server_item_safe, handleServer_round_safe, handleClient_round_safe, latency_ticker_safe, handleLatency_round_safe,
      on_conn_safe, DoConnect_conn, OnConnect_conn, ReadPacket_conn, DoSpawn_conn, CloseWithError_conn, WriteBatch_conn.
  - apply (guarded_stronger _ _ _ _ _ Hle), login_finish_safe; auto.
  - by apply dial_safe.
  - by apply dial_locked_safe.
  - apply guarded_modify. world_ok.
  - apply guarded_modify. world_ok.
  - apply (guarded_stronger _ _ _ _ _ Hle), handle_read_error_safe; auto.
  - destruct He as [Hk Hpk]. apply on_conn_safe; [by apply WritePacket_conn | done | done].
Qed.

Lemma NewSession_ok client_ctx p cp registry : world_ok 0 (NewSession client_ctx p cp registry).
Proof. split; simpl; done || lia. Qed.

Lemma run_ops_ok ops w : world_ok 0 w -> enabled_run ops w -> world_ok 0 (run_ops zero_start type_name ops w).
Proof.
  revert w. induction ops as [|op ops IH]; intros w Hw He; [done|]. destruct He as [H1' H2'].
  apply IH; [by apply perform_safe | done].
Qed.

End Safe.

(** * The toy library *)


Lemma toy_WriterReturns : @WriterReturns toy_types toy.
Proof. by split. Qed.
