(* ===== verification/SessionPools.v ===== *)
(** * SessionPools: what a session gives back to the pools

    The buffers, batches and packet contexts of the [sync.Pool]s are shared by
    all connections and sessions of the proxy.  Every step of a session gives
    back only empty ones ([keeps_clean]), so that what one player's packet left
    behind is never found by another's. *)

From S2P Require Import Prelude GoFloat Wire Registry Minecraft ServerPacket Conn Toy ConnIO ConnSeq ConnLife.
From S2P Require Import Batch Tracker Session SessionLoops SessionSteps SessionProps.

Local Open Scope Z_scope.
Local Open Scope go_scope.

Section Clean.
Context `{T : MCTypes} `{G : !Gopher} `{P : !Protocols} `{Rt : Runtime} `{IO : IterationOrder} `{F : FloatConversion}.

Definition fresh_contexts (l : list PacketContext) : Prop := Forall (fun c => c = fresh_context) l.

(** Every writer has its scratch slices. *)
Definition clean_conns (l : list (Conn (cb:=transfer_cb))) : Prop := Forall (fun c => wf_writer (writer c)) l.

(** What a session keeps besides the pools of package [server]. *)
Definition clean_rest (w : World) : Prop := fresh_contexts (s_ctxPool w) /\ clean_conns (conns w).
Definition clean_world (w : World) : Prop := wf_pools (w_pools w) /\ clean_rest w.

Section Session.
Context `{Sur : !Surroundings}.
Variable zero_start : StartGame_fields.
Variable type_name : packet -> string.
Implicit Types w : World.

Abbreviation CSW := (CS (cb:=transfer_cb) (env:=World)).

(** What an operation of a session and of a connection keeps. *)
Definition keeps_clean : relation World := fun w w' => clean_world w -> clean_world w'.
Definition neat : relation CSW := fun s s' => wf_cs s /\ clean_rest (cenv s) -> wf_cs s' /\ clean_rest (cenv s').

#[export] Instance keeps_clean_preorder : PreOrder keeps_clean.
Proof. split; unfold keeps_clean; auto. Qed.
#[export] Instance neat_preorder : PreOrder neat.
Proof. split; unfold neat; auto. Qed.

Lemma on_conn_clean {A} k (m : M CSW A) : moves neat m -> moves keeps_clean (on_conn k m).
Proof.
  intros Hm w. unfold on_conn. destruct (conns w !! k) as [c|] eqn:Hk; [|done]. intros (Hp & Hx & Hc).
  specialize (Hm (mkCS c (w_pools w) w)). destruct (m _) as [o s].
  destruct Hm as [[Hw' Hp'] [Hx' Hc']].
  { split; [split; [by apply (Forall_lookup_1 _ _ _ _ Hc Hk) | done] | done]. }
  split; [done|]. split; [done|]. by apply Forall_insert.
Qed.

(** ** Operations of a connection *)

(** Updates of fields that do not matter here. *)
Ltac neat := intros; try case_match; by unfold neat.
Ltac neat_case := lazymatch goal with |- moves _ (match ?o with _ => _ end) => destruct o end.
Ltac neat_moves := repeat first [ solve [auto] | progress go_moves_step | neat_case | progress intros ]; try neat.

(** Taking from a pool leaves a part of it. *)
Lemma pool_Get_Forall {A} (Q : A -> Prop) new p : Forall Q p -> Forall Q (pool_Get new p).2.
Proof. by destruct 1. Qed.

Lemma bufferPool_Get_neat : moves neat bufferPool_Get.
Proof. intros s. unfold bufferPool_Get, zoom. intros [[Hw [Hb Hb']] Hr].
  pose proof (pool_Get_Forall _ [] _ Hb). by destruct (pool_Get _ _). Qed.

Lemma batchPool_Get_neat : moves neat batchPool_Get.
Proof. intros s. unfold batchPool_Get, zoom. intros [[Hw [Hb Hb']] Hr].
  pose proof (pool_Get_Forall _ (mkBuffer [] maxBatchPooledSize) _ Hb'). by destruct (pool_Get _ _). Qed.

Lemma headerPool_Get_neat : moves neat headerPool_Get.
Proof. apply moves_zoom. neat. Qed.

Lemma write_flags_neat f d : moves neat (write_flags f d).
Proof.
  intros s. unfold write_flags, zoom. intros [[Hw Hp] Hr].
  destruct (WriteWithFlags_sends (byte_of_Z f) d (writer (conn s)) Hw) as (bs & Hw' & _). by destruct (WriteWithFlags _ _ _).
Qed.

Lemma WritePacket_neat pk : moves neat (WritePacket pk).
Proof.
  pose proof write_flags_neat. pose proof bufferPool_Get_neat. pose proof headerPool_Get_neat.
  unfold WritePacket, check_ctx. neat_moves. intros [[Hw [Hb Hb']] Hr]. split; [|done].
  split; [done|]. split; [by constructor | done].
Qed.

Lemma WriteBatch_neat payloads : moves neat (WriteBatch payloads).
Proof.
  pose proof write_flags_neat. pose proof batchPool_Get_neat. unfold WriteBatch, check_ctx. neat_moves.
  match goal with |- context [buf_cap ?b =? _] => destruct (Z.eqb_spec (buf_cap b) maxBatchPooledSize) as [->|]; [|done] end.
  intros [[Hw [Hb Hb']] Hr]. split; [|done]. split; [done|]. split; [done | by constructor].
Qed.

Lemma DoConnect_neat : moves neat DoConnect.
Proof. pose proof WritePacket_neat. unfold DoConnect, check_ctx. neat_moves. Qed.

Lemma DoSpawn_neat : moves neat DoSpawn.
Proof. pose proof WritePacket_neat. unfold DoSpawn, check_ctx, close_chan. neat_moves. Qed.

(** ** The callback of a transfer *)

(** What the session does meanwhile leaves contexts and connections alone. *)
Definition same_rest : relation World := fun w w' => s_ctxPool w' = s_ctxPool w /\ conns w' = conns w.

#[export] Instance same_rest_preorder : PreOrder same_rest.
Proof. split; unfold same_rest; [done | intros ???; intuition congruence]. Qed.

Lemma in_world_neat {A} (m : M World A) : moves same_rest m -> moves neat (in_world m).
Proof.
  intros Hm s. unfold in_world, zoom. specialize (Hm (cenv s)). destruct (m _) as [o w]. destruct Hm as [Hx Hc].
  unfold neat, clean_rest. simpl in *. by rewrite Hx, Hc.
Qed.

Ltac rest_moves := repeat first [ solve [auto] | progress go_moves_step | neat_case | progress intros ]; try by split.

Lemma send_rest pk : moves same_rest (send pk).
Proof.
  unfold send. apply moves_ignore; [apply _|]. intros w. unfold client_op. by destruct (client_result _ _).
Qed.

Lemma sendGameData_rest g : moves same_rest (sendGameData g).
Proof. pose proof send_rest. unfold sendGameData, send_chunks, clear_tracker. rest_moves. Qed.

Lemma on_connected_neat cb err : moves neat (on_connected zero_start cb err).
Proof.
  pose proof send_rest. pose proof sendGameData_rest. pose proof DoSpawn_neat.
  unfold on_connected, notify_processor. neat_moves; apply in_world_neat; rest_moves.
Qed.

Lemma CloseWithError_neat err : moves neat (Conn.CloseWithError (on_connected zero_start) err).
Proof. pose proof on_connected_neat. unfold Conn.CloseWithError, notify. neat_moves. Qed.

Lemma handlePacket_neat pk : moves neat (Conn.handlePacket (on_connected zero_start) zero_start pk).
Proof.
  pose proof on_connected_neat. pose proof WritePacket_neat.
  unfold Conn.handlePacket, handle_one, handleConnectionResponse, handleStartGame, handleItemRegistry,
    handleChunkRadiusUpdated, handlePlayStatus, expect, deferPacket, close_chan, notify. neat_moves.
Qed.

Lemma read_neat : moves neat (read (cb:=transfer_cb) (env:=World)).
Proof.
  pose proof headerPool_Get_neat. unfold read. neat_moves. apply moves_zoom. neat.
Qed.

Lemma ReadPacket_neat fuel pick : moves neat (Conn.ReadPacket (on_connected zero_start) zero_start fuel pick).
Proof.
  pose proof read_neat. pose proof handlePacket_neat.
  induction fuel as [|fuel IH]; [apply moves_nofuel, _|]. simpl. unfold read_spawned, read_sequence, deferPacket. neat_moves.
Qed.

(** ** Batches and steps *)

Definition batch_neat : relation (BS (cb:=transfer_cb) (env:=World)) := fun st st' =>
  fresh_contexts (pkCtxPool st) /\ wf_cs (server st) /\ clean_rest (cenv (server st)) ->
  fresh_contexts (pkCtxPool st') /\ wf_cs (server st') /\ clean_rest (cenv (server st')).

#[export] Instance batch_neat_preorder : PreOrder batch_neat.
Proof. split; unfold batch_neat; auto. Qed.

Lemma ctx_pool_neat {A} (m : M (list PacketContext) A) :
  (forall l, fresh_contexts l -> fresh_contexts (m l).2) -> moves batch_neat (ctx_pool m).
Proof.
  intros Hm st. unfold ctx_pool, zoom. intros (Hx & H). specialize (Hm _ Hx). by destruct (m _).
Qed.

Lemma NewPacketContext_fresh r d l : fresh_contexts l -> fresh_contexts (NewPacketContext r d l).2.
Proof. unfold NewPacketContext, bind, fresh_contexts. by destruct 1. Qed.

Lemma ReturnPacketContext_fresh c l : fresh_contexts l -> fresh_contexts (ReturnPacketContext c l).2.
Proof. by constructor. Qed.

Lemma handleClientBatch_neat s pc pool shieldID payloads :
  moves batch_neat (handleClientBatch s type_name pc pool shieldID payloads).
Proof.
  assert (forall r d, moves batch_neat (ctx_pool (NewPacketContext r d))) as Hn
    by (intros; apply ctx_pool_neat, NewPacketContext_fresh).
  assert (forall c, moves batch_neat (ctx_pool (ReturnPacketContext c))) as Hr
    by (intros; apply ctx_pool_neat, ReturnPacketContext_fresh).
  assert (forall p, moves batch_neat (decodeAndCreateContext s type_name pool shieldID p)) as Hd.
  { intros. unfold decodeAndCreateContext. conn_moves ltac:(by unfold batch_neat). }
  assert (forall ps, moves batch_neat (decode_loop s type_name pool shieldID ps)) as Hl
    by (intros ps; induction ps; simpl; go_moves).
  assert (forall proto cs, moves batch_neat (encode_loop s proto shieldID cs)) as He.
  { intros proto cs. induction cs as [|c cs IH]; simpl; conn_moves ltac:(by unfold batch_neat). }
  assert (forall p, moves batch_neat (zoom server set_server (WriteBatch p))) as Hw.
  { intros p st [Hx Hs]. unfold zoom. pose proof (WriteBatch_neat p (server st) Hs) as H1. by destruct (WriteBatch p (server st)). }
  unfold handleClientBatch. go_moves.
Qed.

Lemma on_server_clean {A} k h (m : M (BS (cb:=transfer_cb) (env:=World)) A) :
  moves batch_neat m -> moves keeps_clean (on_server k h m).
Proof.
  intros Hm w. unfold on_server. destruct (conns w !! k) as [c|] eqn:Hk; [|done]. intros (Hp & Hx & Hc).
  specialize (Hm (mkBS h (s_ctxPool w) (mkCS c (w_pools w) w))). destruct (m _) as [o st].
  destruct Hm as (Hx' & [Hw' Hp'] & [_ Hc']).
  { split; [done|]. split; [split; [by apply (Forall_lookup_1 _ _ _ _ Hc Hk) | done] | done]. }
  simpl in *. destruct o; (split; [done|]; split; [done|]; by apply Forall_insert).
Qed.

Lemma dial_locked_clean addr : moves keeps_clean (dial_locked zero_start addr).
Proof.
  unfold dial_locked. apply moves_bind; [apply _ | by apply moves_gets, _ | intros w0].
  apply moves_bind; [apply _ | destruct (serverConn w0); [apply on_conn_clean, CloseWithError_neat | apply moves_ret, _] |].
  intros _ w. unfold bind at 1, gets, id. destruct (transport_Dial w addr) as [[ci co]|err]; [|done].
  intros (Hp & Hx & Hc). split; [done|]. split; [done|]. apply Forall_app. split; [done|]. by repeat constructor.
Qed.

#[export] Instance clean_steps : SessionRelation zero_start type_name keeps_clean.
Proof.
  split; try (intros; by unfold keeps_clean).
  - apply _.
  - intros call w. unfold client_op, keeps_clean. by destruct (client_result w call).
  - intros A k m Hm. apply on_conn_clean. destruct Hm;
      auto using DoConnect_neat, DoSpawn_neat, CloseWithError_neat, ReadPacket_neat, WritePacket_neat, WriteBatch_neat.
    + unfold OnConnect. neat_moves.
    + neat_moves.
  - apply dial_locked_clean.
  - intros. apply on_server_clean, handleClientBatch_neat.
  - intros r d w (Hp & Hx & Hc). unfold zoom. pose proof (NewPacketContext_fresh r d _ Hx). by destruct (NewPacketContext _ _ _).
Qed.

End Session.

End Clean.
