(* ===== verification/SessionTransfer.v ===== *)
(** * SessionTransfer: a transfer from end to end

    [Transfer], the connection sequence and the callback composed: against a
    server that answers, a transfer completes in one round of [handleServer]. *)

From S2P Require Import Prelude GoFloat Wire Registry Minecraft ServerPacket Conn Toy ConnIO ConnSeq ConnLife.
From S2P Require Import Batch Tracker Session SessionLoops SessionSteps SessionProps SessionLife SessionOutcomes.

Local Open Scope Z_scope.
Local Open Scope go_scope.

Section Transfer.
Context `{G : Gopher} `{P : !Protocols} `{Rt : Runtime} `{IO : IterationOrder} `{F : FloatConversion}.
Context `{Sur : !Surroundings} `{!IOLaws} `{!HeaderLaws} `{!IDLaws} `{!BuiltLaws}.
Variable zero_start : StartGame_fields.
Implicit Types w : World.

Abbreviation CSW := (CS (cb:=transfer_cb) (env:=World)).

(** The protocol spoken with servers. *)
Definition server_protocol : Proto :=
  if SyncProtocol session_opts then client_Proto session_client else DefaultProtocol.

(** The ConnectionRequest of the session. *)
Definition session_request (cd idd : list byte) (cache : list byte) : packet :=
  SConnectionRequest (mkConnectionRequest (client_RemoteAddr session_client) cd idd (Proto_ID server_protocol) cache).

(** The session can encode its request and speaks a protocol of its servers. *)
Definition request_ok w : Prop :=
  exists cd idd, client_ClientData session_client = inl cd /\ client_IdentityData session_client = inl idd /\
    marshalable (session_request cd idd (s_cache w)).
Definition sync_ok : Prop := SyncProtocol session_opts = false \/ forall pk, ConvertToLatest server_protocol pk = [pk].

(** A session that reaches [target] over a working stream when it dials. *)
Record can_dial (target : string) (ci : source) w : Prop := {
  cd_current : current_exists w;
  cd_pools : wf_pools (w_pools w);
  cd_open : s_ctx w = None;
  cd_dial : transport_Dial (closed_current w) target = inl (ci, mkSink [] []);
  cd_request : request_ok w;
  cd_sync : sync_ok;
}.

Lemma closed_server_pools err w : w_pools (closed_server err w) = w_pools w.
Proof.
  unfold closed_server. destruct (serverConn w) as [k|]; [|done]. destruct (conns w !! k) as [c|]; [|done].
  unfold told. by destruct (once c || connected c), (onConnect c).
Qed.

(** After [dial] and [DoConnect] the new connection, the last one, is at the
    start of the sequence. *)
Lemma dial_connecting target ci w :
  can_dial target ci w ->
  exists w2 w3 cs c bs, let n := length (conns w) in
    dial zero_start target w = (Ok n, w2) /\ on_conn n DoConnect w2 = (Ok tt, w3) /\
    length cs = n /\ conns w3 = cs ++ [c] /\ serverConn w3 = Some n /\ s_ctx w3 = None /\
    client_out w3 = client_out w /\ s_tracker w3 = s_tracker w /\ s_registry w3 = s_registry w /\ conn_in c = ci /\
    connecting (mkFrozen server_protocol (Packets server_protocol false) None w3 bs) (mkCS c (w_pools w3) w3) seq_init.
Proof.
  intros [Hv Hp Hx Hd (cd & idd & Hcd & Hid & Hm) Hsync].
  destruct (closed_server_frame (ErrNew "closed by application") w) as (_ & _ & Htr & Hca & _ & _ & Hcx & Hout & Hreg & Hlen).
  pose proof (closed_server_pools (ErrNew "closed by application") w) as Hpo.
  fold (closed_current w) in Htr, Hca, Hcx, Hout, Hreg, Hlen, Hpo. set (w1 := closed_current w) in *.
  set (w2 := dialled target ci (mkSink [] []) w1).
  assert (dial zero_start target w = (Ok (length (conns w1)), w2)) as Hdial.
  { rewrite dial_eq, Hx, (dial_locked_eq zero_start target w Hv). cbv zeta. fold w1. by rewrite Hd. }
  destruct (DoConnect_connecting (cb:=transfer_cb) ci session_client (SyncProtocol session_opts) (s_cache w1) cd idd
    (w_pools w2) w2) as (s1 & data & h & Hdo & _ & _ & Hin & Hc); [by rewrite <- Hpo in Hp | done | done | done | by rewrite Hca |].
  pose proof (cg_env _ _ _ Hc) as Henv. simpl in Henv.
  pose proof (on_conn_last DoConnect w2 (conns w1) _ _ s1 eq_refl Hdo Henv) as Hconn. set (w3 := set_conns _ _) in Hconn.
  exists w2, w3, (conns w1), (conn s1), (sent s1). cbv zeta. rewrite <- Hlen.
  split_and!; try done; [simpl; congruence ..|]. destruct Hc. by split.
Qed.

(** A session that can transfer to [target]: it stays open when the client is
    told not to move. *)
Record can_transfer (addr origin target : string) (ci : source) w : Prop := {
  ct_current : current_exists w;
  ct_pools : wf_pools (w_pools w);
  ct_processor : ProcessPreTransfer (session_processor w) w (serverAddr w) addr = (false, origin, target);
  ct_open : s_ctx (asked (metadata_call w) w) = None;
  ct_dial : transport_Dial (closed_current (asked (metadata_call w) w)) target = inl (ci, mkSink [] []);
  ct_request : request_ok w;
  ct_sync : sync_ok;
}.

(** After [Transfer] the new connection is at the start of the sequence. *)
Lemma Transfer_connecting addr origin target ci w :
  can_transfer addr origin target ci w ->
  exists w' c z, let n := length (conns w) in let s := mkCS c (w_pools w') w' in
    Transfer zero_start addr w = (Ok tt, w') /\
    serverConn w' = Some n /\ conns w' !! n = Some c /\ s_ctx w' = None /\
    client_out w' = client_out w ++ [metadata_call w] /\ s_tracker w' = s_tracker w /\
    conn_in c = ci /\ fz_protocol z = server_protocol /\ fz_pool z = Packets server_protocol false /\
    fz_onConnect z = Some (mkTransferCb origin target) /\ fz_env z = w' /\ connecting z s seq_init.
Proof.
  intros [Hv Hp Hpr Hx Hd Hreq Hsync]. set (w0 := asked (metadata_call w) w) in *.
  destruct (asked_beside (metadata_call w) w) as (Hb & Ht & Ho). fold w0 in Hb, Ht, Ho.
  destruct (dial_connecting target ci w0) as (w2 & w3 & cs & c & bs & Hdial & Hconn & Hn & Hcs & Hs & Hx3 & Ho3 & Ht3 & _ & Hin & Hc).
  { split; try done; [|by rewrite (bs_pools _ _ Hb) | unfold request_ok; by rewrite (bs_cache _ _ Hb)].
    intros k. rewrite (bs_conn _ _ Hb), (bs_conns _ _ Hb). apply Hv. }
  rewrite (bs_conns _ _ Hb) in *.
  set (c' := set_onConnect (Some (mkTransferCb origin target)) c).
  pose proof (on_conn_last (OnConnect (mkTransferCb origin target)) w3 cs c (Ok tt)
    (mkCS c' (w_pools w3) w3) Hcs eq_refl eq_refl) as Hon. rewrite Hn in Hon. set (w4 := set_conns _ _) in Hon.
  exists w4, c', (mkFrozen server_protocol (Packets server_protocol false) (Some (mkTransferCb origin target)) w4 bs).
  cbv zeta. split_and!; try done.
  - rewrite Transfer_eq, Hpr. cbv zeta. fold w0. by rewrite Hdial, Hconn.
  - simpl. by rewrite <- Hn, lookup_app_r, Nat.sub_diag by done.
  - simpl. congruence.
  - simpl. congruence.
  - destruct Hc. by split.
Qed.

(** The items a server answers a transfer with: the packets of the sequence
    with others in between. *)
Record answers := mkAnswers {
  an_pre0 : list item; an_response : ConnectionResponse;
  an_pre1 : list item; an_start : StartGame_fields; an_start_body : body;
  an_pre2 : list item; an_items : list ItemEntry; an_items_body : body;
  an_pre3 : list item; an_radius : Z; an_radius_body : body;
  an_pre4 : list item; an_status : Z; an_status_body : body;
}.

Definition an_chunk (a : answers) : item := Decoded (Gt (ChunkRadiusUpdated (an_radius a) (an_radius_body a))).
Definition an_play (a : answers) : item := Decoded (Gt (PlayStatus (an_status a) (an_status_body a))).

Definition an_all (a : answers) : list item :=
  an_pre0 a ++ Decoded (SConnectionResponse (an_response a)) :: an_pre1 a ++
  Decoded (Gt (StartGame (an_start a) (an_start_body a))) :: an_pre2 a ++
  Decoded (Gt (ItemRegistry (an_items a) (an_items_body a))) :: an_pre3 a ++ an_chunk a :: an_pre4 a ++ [an_play a].

(** What the client is still to receive after the sequence. *)
Definition an_deferred (a : answers) : list item :=
  an_pre0 a ++ an_pre1 a ++ an_pre2 a ++ an_pre3 a ++ [an_chunk a] ++ an_pre4 a ++ [an_play a].

Definition an_game (a : answers) : GameData :=
  mkGameData (an_start a) (UniqueID (an_response a)) (RuntimeID (an_response a)) (an_items a) (an_radius a).

Definition answers_ok (a : answers) : Prop :=
  Forall (other AwaitResponse) (an_pre0 a) /\ Forall (other AwaitStart) (an_pre1 a) /\
  Forall (other AwaitItems) (an_pre2 a) /\ Forall (other AwaitRadius) (an_pre3 a) /\
  Forall (other AwaitStatus) (an_pre4 a).

(** The payloads decode to the answers. *)
Definition answered (a : answers) (payloads : list (list byte)) : Prop := forall e : World,
  feeds (cb:=transfer_cb) zero_start (mkFrozen server_protocol (Packets server_protocol false) None e [])
    seq_init payloads (an_all a).

Lemma read_spawned_first first others (s : CSW) fuel pick :
  live s -> spawned (conn s) = true -> deferredPackets (conn s) = first :: others ->
  Conn.ReadPacket (on_connected zero_start) zero_start (S fuel) pick s =
    (Ok first, upd_conn (set_deferred others) s).
Proof. intros Hl Hs Hd. simpl. unfold bind at 1, gets. rewrite Hl, Hs. unfold read_spawned, bind, gets. by rewrite Hd. Qed.

(** The connection speaks the servers' protocol, knows the shield's id and
    accepts bytes. *)
Definition ready (a : answers) (c : Conn (cb:=transfer_cb)) : Prop :=
  protocol c = server_protocol /\ pool c = Packets server_protocol false /\
  shieldID c = shield_of 0 (an_items a) /\ healthy (writer c).

(** [ReadPacket] on the new connection: the whole sequence and the callback. *)
Lemma sequence_and_callback z (s : CSW) cb a payloads rest first others :
  connecting z s seq_init -> fz_protocol z = server_protocol -> fz_pool z = Packets server_protocol false ->
  fz_onConnect z = Some cb -> (776 <=? Proto_ID server_protocol) = true ->
  answers_ok a -> answered a payloads -> flat (conn_in (conn s)) = concat (map frame payloads) ++ rest ->
  an_deferred a = first :: others ->
  exists s' w1 rid,
    (forall fuel pick, Conn.ReadPacket (on_connected zero_start) zero_start (length payloads + S fuel) pick s = (Ok first, s')) /\
    flat (conn_in (conn s')) = rest /\ spawned (conn s') = true /\ connected (conn s') = true /\
    ctx (conn s') = None /\ gameData (conn s') = Some (an_game a) /\ deferredPackets (conn s') = others /\
    ready a (conn s') /\
    let w := cenv s in let w' := cenv s' in
    client_out w' = client_out w ++ map client_WritePacket (animation_Play (session_animation w) w (an_game a))
      ++ game_data_calls rid (s_tracker w) (an_game a) ++ map client_WritePacket (animation_Clear (session_animation w) w1 (an_game a)) /\
    s_tracker w' = newTracker /\ inFallback w' = false /\
    notes w' = notes w ++ [PostTransfer (cb_origin cb) (cb_target cb)] /\
    conns w' = conns w /\ serverConn w' = serverConn w.
Proof.
  intros Hc Hpr Hpl Hcb Hm (Ho0 & Ho1 & Ho2 & Ho3 & Ho4) Hfd Hf Hdef.
  assert (feeds zero_start z seq_init payloads (an_all a)) as Hfd' by by eapply (feeds_frozen zero_start _ z), (Hfd (cenv s)).
  destruct (sequence_completes (on_connected zero_start) zero_start z payloads s rest _ _ _ _ _ _ _ _ _ _ _ _ _ _
    Hc ltac:(unfold modern; by rewrite Hpr) Ho0 Ho1 Ho2 Ho3 Ho4 Hfd' Hf) as (s5 & Hc5 & Hf5 & Hloop).
  assert (gameData_of zero_start (conn s5) = an_game a) as Hg by (unfold gameData_of; by rewrite (cg_game _ _ _ Hc5)).
  destruct (on_connected_completes zero_start cb s5 (cg_wf _ _ _ Hc5) (cg_live _ _ _ Hc5) (cg_healthy _ _ _ Hc5)
    (cg_spawned _ _ _ Hc5)) as (s6 & w1 & rid & bs1 & bs2 & E & (wr & Hconn & Hh) & _ & _ & _ & Hrest).
  rewrite Hg, (cg_env _ _ _ Hc5), <- (cg_env _ _ _ Hc) in Hrest. cbv zeta in Hrest.
  destruct Hrest as (Q1 & Q2 & Q3 & Q4 & Q5 & Q6 & _).
  exists (upd_conn (set_deferred others) s6), w1, rid. split.
  - intros fuel pick. rewrite (Hloop (S fuel) pick s6).
    2:{ unfold notify, bind, gets. by rewrite (cg_onConnect _ _ _ Hc5), Hcb. }
    apply read_spawned_first; [| by rewrite Hconn | rewrite Hconn; simpl; by rewrite (cg_deferred _ _ _ Hc5)].
    unfold live. rewrite Hconn. apply (cg_live _ _ _ Hc5).
  - simpl. rewrite Hconn. simpl. split_and!; try done; [apply (cg_connected _ _ _ Hc5) | apply (cg_live _ _ _ Hc5)
      | apply (cg_game _ _ _ Hc5) |].
    split_and!; [rewrite <- Hpr; apply (cg_protocol _ _ _ Hc5) | rewrite <- Hpl; apply (cg_pool _ _ _ Hc5)
      | apply (cg_shield _ _ _ Hc5) | done].
Qed.

(** The transfer is complete, with the first of the new server's other packets
    still to be handled: the session's world was [w] before, [w1] after
    [Transfer] and is [w2] now. *)
Record arrived (origin target : string) (a : answers) (rest : list byte) (others : list item) w w1 w2 : Prop := {
  ar_client : exists w3 rid,
    client_out w2 = client_out w ++ [metadata_call w] ++ map client_WritePacket (animation_Play (session_animation w1) w1 (an_game a))
      ++ game_data_calls rid (s_tracker w) (an_game a) ++ map client_WritePacket (animation_Clear (session_animation w1) w3 (an_game a));
  ar_server : exists c, serverConn w2 = Some (length (conns w)) /\ conns w2 !! length (conns w) = Some c /\
    spawned c = true /\ connected c = true /\ ctx c = None /\ gameData c = Some (an_game a) /\
    deferredPackets c = others /\ flat (conn_in c) = rest /\ ready a c;
  ar_session : s_tracker w2 = newTracker /\ inFallback w2 = false /\ last (notes w2) = Some (PostTransfer origin target);
}.

(** A round that reads an item. *)
Lemma round_reads n fuel pick it w1 w2 :
  s_ctx w1 = None -> serverConn w1 = Some n ->
  on_conn n (Conn.ReadPacket (on_connected zero_start) zero_start fuel pick) w1 = (Ok it, w2) ->
  handleServer_round zero_start fuel pick w1 = handle_server_item zero_start it w2.
Proof.
  intros Hx Hs Hon. unfold handleServer_round. rewrite (bind_eq_Ok (gets id) _ w1 w1 w1 eq_refl), Hx, Hs.
  by rewrite (bind_eq_Ok _ _ _ _ _ (attempt_eq_Ok _ _ _ _ Hon)).
Qed.

(** [Transfer] and the next [ReadPacket] against such a server. *)
Lemma transfer_arrives addr origin target ci w a payloads rest first others :
  can_transfer addr origin target ci w -> (776 <=? Proto_ID server_protocol) = true ->
  answers_ok a -> answered a payloads -> flat ci = concat (map frame payloads) ++ rest ->
  an_deferred a = first :: others ->
  exists w1 w2,
    Transfer zero_start addr w = (Ok tt, w1) /\
    s_ctx w1 = None /\ serverConn w1 = Some (length (conns w)) /\
    (forall fuel pick, on_conn (length (conns w))
      (Conn.ReadPacket (on_connected zero_start) zero_start (length payloads + S fuel) pick) w1 = (Ok first, w2)) /\
    arrived origin target a rest others w w1 w2.
Proof.
  intros Ht Hm Ha Hfd Hf Hdef.
  destruct (Transfer_connecting addr origin target ci w Ht)
    as (w1 & c & z & E & Hs & Hk & Hx & Ho & Htr & Hin & Zp & Zl & Zc & Ze & Hc). rewrite <- Hin in Hf.
  destruct (sequence_and_callback z (mkCS c (w_pools w1) w1) (mkTransferCb origin target) a payloads rest first others
    Hc Zp Zl Zc Hm Ha Hfd Hf Hdef) as (s' & w3 & rid & Hrd & Hf' & Hsp & Hcd & Hcx & Hg & Hd & Hrdy & Q1 & Q2 & Q3 & Q4 & Q5 & Q6).
  set (n := length (conns w)) in *. simpl in Q1, Q4, Q5, Q6.
  set (w2 := set_conns (<[n := conn s']> (conns (cenv s'))) (set_w_pools (pools s') (cenv s'))).
  exists w1, w2. split; [exact E|]. do 2 (split; [done|]). split.
  - intros fuel pick. unfold on_conn. by rewrite Hk, Hrd.
  - split; [exists w3, rid | exists (conn s'); split_and!; try done | split_and!; try done].
    + change (client_out w2) with (client_out (cenv s')). by rewrite Q1, Ho, Htr, <- (assoc_L (++)).
    + change (serverConn (cenv s') = Some n). congruence.
    + change (conns w2) with (<[n := conn s']> (conns (cenv s'))). rewrite Q5.
      apply list_lookup_insert_eq. by eapply lookup_lt_Some.
    + change (notes w2) with (notes (cenv s')). rewrite Q4. apply last_snoc.
Qed.

(** [Transfer] and the next round of [handleServer] against such a server. *)
Lemma transfer_answered addr origin target ci w a payloads rest first others :
  can_transfer addr origin target ci w -> (776 <=? Proto_ID server_protocol) = true ->
  answers_ok a -> answered a payloads -> flat ci = concat (map frame payloads) ++ rest ->
  an_deferred a = first :: others ->
  exists w1 w2,
    Transfer zero_start addr w = (Ok tt, w1) /\
    (forall fuel pick, handleServer_round zero_start (length payloads + S fuel) pick w1 = handle_server_item zero_start first w2) /\
    arrived origin target a rest others w w1 w2.
Proof.
  intros Ht Hm Ha Hfd Hf Hdef.
  destruct (transfer_arrives addr origin target ci w a payloads rest first others Ht Hm Ha Hfd Hf Hdef)
    as (w1 & w2 & E & Hx & Hs & Hon & Harr).
  exists w1, w2. split; [exact E|]. split; [|exact Harr]. intros fuel pick. by apply (round_reads (length (conns w))).
Qed.

(** C5: a transfer to a server that answers completes.  When the transport
    reaches the target and the server there answers the connection sequence,
    in whatever way its answers are interleaved with other packets, [Transfer]
    succeeds and the next round of [handleServer], with fuel for the frames the
    server has sent, completes it: the client has been sent, after what it had
    before, the request not to move, the animation, the empty chunks, the
    removal of everything tracked, the new game data and the end of the
    animation; the connection is spawned with the server's game data; the
    tracker is empty, another fallback is allowed, and the processor is told of
    the transfer.  That round then hands the client the first of the packets
    that arrived meanwhile, and all others wait in order. *)
Theorem transfer_to_answering_server addr origin target ci w a payloads rest first others :
  can_transfer addr origin target ci w -> (776 <=? Proto_ID server_protocol) = true ->
  answers_ok a -> answered a payloads -> flat ci = concat (map frame payloads) ++ rest ->
  an_deferred a = first :: others ->
  exists w1 w2 w3 c rid,
    Transfer zero_start addr w = (Ok tt, w1) /\
    (forall fuel pick, handleServer_round zero_start (length payloads + S fuel) pick w1 = handle_server_item zero_start first w2) /\
    client_out w2 = client_out w ++ [metadata_call w] ++ map client_WritePacket (animation_Play (session_animation w1) w1 (an_game a))
      ++ game_data_calls rid (s_tracker w) (an_game a) ++ map client_WritePacket (animation_Clear (session_animation w1) w3 (an_game a)) /\
    serverConn w2 = Some (length (conns w)) /\ conns w2 !! length (conns w) = Some c /\
    spawned c = true /\ connected c = true /\ ctx c = None /\ gameData c = Some (an_game a) /\
    deferredPackets c = others /\ flat (conn_in c) = rest /\
    s_tracker w2 = newTracker /\ inFallback w2 = false /\ last (notes w2) = Some (PostTransfer origin target).
Proof.
  intros Ht Hm Ha Hfd Hf Hdef.
  destruct (transfer_answered addr origin target ci w a payloads rest first others Ht Hm Ha Hfd Hf Hdef)
    as (w1 & w2 & E & Hr & [(w3 & rid & Hc) (c & Hs) Ht2]).
  exists w1, w2, w3, c, rid. intuition.
Qed.

End Transfer.

(** * Witness

    The toy server answers as in [ConnSeq]. *)

#[local] Existing Instances toy_types toy toy_protocols toy_runtime toy_IOLaws toy_HeaderLaws toy_IDLaws toy_BuiltLaws.
#[local] Existing Instances toy_order toy_floats.

Definition answering_source : source := mkSource (map frame toy_answers) EOF.

(** The session of [SessionProps], with a transport that reaches that server. *)
Definition answering_session : Surroundings := {|
  session_opts := DefaultOpts;
  session_client := toy_client;
  XUID := "1";
  self := 0%nat;
  client_result _ _ := None;
  client_cause _ _ := None;
  client_EntityRuntimeID _ := 1;
  transport_Dial _ _ := inl (answering_source, mkSink [] []);
  Discover _ := StaticDiscovery_Discover (NewStaticDiscovery "lobby" "fallback");
  DiscoverFallback _ := StaticDiscovery_DiscoverFallback (NewStaticDiscovery "lobby" "fallback");
  GameData_Dimension _ := 0;
  processors _ := NopProcessor;
  animations _ := dimension_object (fun _ => 0)
|}.

#[local] Existing Instance answering_session.

Definition toy_answered : answers :=
  mkAnswers toy_pre0 toy_response [] toy_start tt toy_actor toy_items tt [] 16 tt toy_actor 3 tt.

Lemma toy_request_ok : request_ok toy_world.
Proof.
  exists [Byte.x7b; Byte.x7d], [Byte.x7b; Byte.x7d]. split_and!; vm_compute; intuition congruence.
Qed.

Lemma toy_answers_ok : answers_ok toy_answered.
Proof.
  unfold answers_ok; split_and!; first [by constructor | constructor; [vm_compute; discriminate || exact I | constructor]].
Qed.

Lemma toy_answers_given : answered toy_start toy_answered toy_answers.
Proof.
  intros e. unfold an_all, an_chunk, an_play, toy_answered.
  cbn [an_pre0 an_response an_pre1 an_start an_start_body an_pre2 an_items an_items_body an_pre3 an_radius
    an_radius_body an_pre4 an_status an_status_body]. feeds_by_computation.
Qed.

Lemma transfer_to_answering_server_witness :
  exists w1 w2 w3 c rid,
    let a := toy_answered in
    Transfer toy_start "arena" toy_world = (Ok tt, w1) /\
    (forall fuel pick, handleServer_round toy_start (length toy_answers + S fuel) pick w1
      = handle_server_item toy_start (Raw [Byte.x61]) w2) /\
    client_out w2 = client_out toy_world ++ [metadata_call toy_world] ++ map client_WritePacket (animation_Play (session_animation w1) w1 (an_game a))
      ++ game_data_calls rid (s_tracker toy_world) (an_game a) ++ map client_WritePacket (animation_Clear (session_animation w1) w3 (an_game a)) /\
    serverConn w2 = Some (length (conns toy_world)) /\ conns w2 !! length (conns toy_world) = Some c /\
    spawned c = true /\ connected c = true /\ ctx c = None /\ gameData c = Some (an_game a) /\
    deferredPackets c = tl (an_deferred a) /\ flat (conn_in c) = [] /\
    s_tracker w2 = newTracker /\ inFallback w2 = false /\ last (notes w2) = Some (PostTransfer "" "arena").
Proof.
  apply (transfer_to_answering_server toy_start "arena" "" "arena" answering_source toy_world toy_answered toy_answers []
    (Raw [Byte.x61]) (tl (an_deferred toy_answered))).
  - split; [done | repeat constructor | reflexivity | reflexivity | reflexivity | exact toy_request_ok | by left].
  - reflexivity.
  - exact toy_answers_ok.
  - exact toy_answers_given.
  - vm_compute. reflexivity.
  - reflexivity.
Defined.
