(* ===== verification/SessionFallback.v ===== *)
(** * SessionFallback: a lost server, from end to end

    [handleServer] and [fallback] composed with the connection sequence: when
    the connection to a server breaks and the fallback server answers, two
    rounds bring the player there. *)

From S2P Require Import Prelude GoFloat Wire Registry Minecraft ServerPacket Conn Toy ConnIO ConnSeq ConnLife.
From S2P Require Import Batch Tracker Session SessionLoops SessionSteps SessionProps SessionLife SessionOutcomes SessionTransfer.

Local Open Scope Z_scope.
Local Open Scope go_scope.

Section Fallback.
Context `{G : Gopher} `{P : !Protocols} `{Rt : Runtime} `{IO : IterationOrder} `{F : FloatConversion}.
Context `{Sur : !Surroundings} `{!IOLaws} `{!HeaderLaws} `{!IDLaws} `{!BuiltLaws}.
Variable zero_start : StartGame_fields.
Implicit Types w : World.

(** The cause a connection that broke is closed with. *)
Definition read_failed (err : error) : error := ErrWrap "failed to read packet from server" err.

(** A session whose server [k] is lost, when it asks for a fallback. *)
Definition falling (err : error) w : World := set_inFallback true (closed_server (read_failed err) w).

Lemma handle_read_error_falls k c err addr w o w1 :
  serverConn w = Some k -> conns w !! k = Some c -> s_ctx w = None -> inFallback w = false ->
  DiscoverFallback (falling err w) = inl addr -> Transfer zero_start addr (falling err w) = (Ok o, w1) ->
  handle_read_error zero_start k err w = (Ok true, w1).
Proof.
  intros Hs Hk Hx Hf Hd Ht. unfold handle_read_error.
  rewrite (bind_eq_Ok (gets id) _ w w w eq_refl), Hs, bool_decide_eq_true_2 by done. cbn [negb].
  destruct (closed_server_frame (read_failed err) w) as (_ & _ & _ & _ & Hf1 & _ & Hx1 & _).
  assert (on_conn k (Conn.CloseWithError (on_connected zero_start) (read_failed err)) w
    = (Ok tt, closed_server (read_failed err) w)) as Hclose.
  { rewrite (on_conn_close zero_start k c _ w Hk). unfold closed_server. by rewrite Hs, Hk. }
  rewrite (bind_eq_Ok _ _ _ _ _ Hclose). set (w0 := closed_server (read_failed err) w) in *.
  assert (fallback zero_start w0 = (Ok tt, w1)) as Hfb; [|by rewrite (bind_eq_Ok _ _ _ _ _ (attempt_eq_Ok _ _ _ _ Hfb))].
  unfold fallback, check_session. rewrite Hx in Hx1. rewrite Hf in Hf1.
  rewrite (bind_eq_Ok _ _ w0 tt w0) by (unfold bind, gets, id; by rewrite Hx1).
  rewrite (bind_eq_Ok (gets id) _ w0 w0 w0 eq_refl), Hf1.
  change (set_inFallback true w0) with (falling err w) in *.
  rewrite (bind_eq_Ok _ _ w0 tt (falling err w) eq_refl), (bind_eq_Ok (gets id) _ _ _ _ eq_refl).
  unfold id. rewrite Hd. destruct o. by rewrite (bind_eq_Ok _ _ _ _ _ (attempt_eq_Ok _ _ _ _ Ht)).
Qed.

(** C7: a player whose server is lost ends on the fallback server.  When a read
    from the current connection fails, whatever the error, and the discovery
    names a fallback server that is reachable and answers the connection
    sequence, its answers interleaved with other packets in any way, then this
    round of [handleServer] closes the broken connection and goes on, and the
    next one completes the transfer: the client has been sent the sequence of a
    transfer with the fallback server's game data, after all it had before and
    with no disconnection; the session is on the spawned connection to that
    server with nothing of what it sent lost; and another loss can fall back
    again. *)
Theorem fallback_to_answering_server k c err fuel pick addr origin target ci w w' a payloads rest first others :
  s_ctx w = None -> serverConn w = Some k ->
  on_conn k (Conn.ReadPacket (on_connected zero_start) zero_start fuel pick) w = (Err err, w') ->
  s_ctx w' = None -> serverConn w' = Some k -> conns w' !! k = Some c -> inFallback w' = false ->
  DiscoverFallback (falling err w') = inl addr ->
  can_transfer addr origin target ci (falling err w') -> (776 <=? Proto_ID server_protocol) = true ->
  answers_ok a -> answered zero_start a payloads -> flat ci = concat (map frame payloads) ++ rest ->
  an_deferred a = first :: others ->
  exists w1 w2,
    handleServer_round zero_start fuel pick w = (Ok true, w1) /\
    (forall fuel' pick', handleServer_round zero_start (length payloads + S fuel') pick' w1 = handle_server_item zero_start first w2) /\
    client_out (falling err w') = client_out w' /\ conns (falling err w') !! k = Some (closed_conn (read_failed err) c) /\
    arrived origin target a rest others (falling err w') w1 w2.
Proof.
  intros Hx Hs Hread Hx' Hs' Hk' Hf Hd Hcan Hm Ha Hans Hci Hdef.
  destruct (transfer_answered zero_start addr origin target ci (falling err w') a payloads rest first others
    Hcan Hm Ha Hans Hci Hdef) as (w1 & w2 & E & Hr & Harr).
  exists w1, w2. split; [|split; [exact Hr|]].
  - unfold handleServer_round. rewrite (bind_eq_Ok (gets id) _ w w w eq_refl), Hx, Hs.
    rewrite (bind_eq_Ok _ _ _ _ _ (attempt_eq_Err _ _ _ _ Hread)).
    by apply (handle_read_error_falls k c err addr w' tt).
  - destruct (closed_server_frame (read_failed err) w') as (_ & _ & _ & _ & _ & _ & _ & Ho & _).
    split_and!; [exact Ho | | exact Harr]. unfold falling, closed_server. rewrite Hs', Hk'. simpl.
    apply list_lookup_insert_eq. by eapply lookup_lt_Some.
Qed.

End Fallback.

(** * Witness

    The server "lobby" says nothing and ends its stream; the fallback server
    answers. *)

#[local] Existing Instances toy_types toy toy_protocols toy_runtime toy_IOLaws toy_HeaderLaws toy_IDLaws toy_BuiltLaws.
#[local] Existing Instances toy_order toy_floats.

Definition losing_session : Surroundings :=
  let s := answering_session in {|
  session_opts := session_opts;
  session_client := session_client;
  XUID := XUID;
  self := self;
  client_result := client_result;
  client_cause := client_cause;
  client_EntityRuntimeID := client_EntityRuntimeID;
  transport_Dial _ addr := inl (if decide (addr = "fallback") then answering_source else mkSource [] EOF, mkSink [] []);
  Discover := Discover;
  DiscoverFallback := DiscoverFallback;
  GameData_Dimension := GameData_Dimension;
  processors := processors;
  animations := animations
|}.

#[local] Existing Instance losing_session.

Abbreviation lobby_world := (run_ops toy_start toy_type_name [OpLogin] toy_world).
Abbreviation lobby_read := (on_conn 0 (Conn.ReadPacket (on_connected toy_start) toy_start 1 true) lobby_world).
Abbreviation lobby_error := (ErrWrap "failed to read packet length" EOF).
Abbreviation lobby_conn := (match conns lobby_read.2 !! 0%nat with Some c => c
  | None => NewConn answering_source (mkSink [] []) toy_client false [] end).

Lemma lobby_lost : lobby_read.1 = Err lobby_error.
Proof. vm_compute. reflexivity. Qed.

Lemma lobby_conn_there : conns lobby_read.2 !! 0%nat = Some lobby_conn.
Proof.
  assert (match conns lobby_read.2 !! 0%nat with Some _ => true | None => false end = true) as H by (vm_compute; reflexivity).
  by destruct (conns lobby_read.2 !! 0%nat).
Qed.

Lemma lobby_can_transfer :
  can_transfer "fallback" "lobby" "fallback" answering_source (falling lobby_error lobby_read.2).
Proof.
  split.
  - intros k Hk. apply lookup_lt_is_Some. revert Hk. vm_compute. intros [= <-]. lia.
  - vm_compute. repeat constructor.
  - vm_compute. reflexivity.
  - vm_compute. reflexivity.
  - vm_compute. reflexivity.
  - exists [Byte.x7b; Byte.x7d], [Byte.x7b; Byte.x7d]. split_and!; vm_compute; intuition congruence.
  - by left.
Qed.

Lemma fallback_to_answering_server_witness :
  exists w1 w2,
    handleServer_round toy_start 1 true lobby_world = (Ok true, w1) /\
    (forall fuel' pick', handleServer_round toy_start (length toy_answers + S fuel') pick' w1
      = handle_server_item toy_start (Raw [Byte.x61]) w2) /\
    client_out (falling lobby_error lobby_read.2) = client_out lobby_read.2 /\
    conns (falling lobby_error lobby_read.2) !! 0%nat = Some (closed_conn (read_failed lobby_error) lobby_conn) /\
    arrived "lobby" "fallback" toy_answered [] (tl (an_deferred toy_answered)) (falling lobby_error lobby_read.2) w1 w2.
Proof.
  apply (fallback_to_answering_server toy_start 0 lobby_conn lobby_error 1 true "fallback" "lobby" "fallback" answering_source
    lobby_world lobby_read.2 toy_answered toy_answers [] (Raw [Byte.x61]) (tl (an_deferred toy_answered))).
  - vm_compute. reflexivity.
  - vm_compute. reflexivity.
  - pose proof lobby_lost as Hl. by destruct lobby_read as [o w']; simpl in *; subst o.
  - vm_compute. reflexivity.
  - vm_compute. reflexivity.
  - exact lobby_conn_there.
  - vm_compute. reflexivity.
  - vm_compute. reflexivity.
  - exact lobby_can_transfer.
  - reflexivity.
  - exact toy_answers_ok.
  - exact toy_answers_given.
  - vm_compute. reflexivity.
  - reflexivity.
Defined.
