(* ===== verification/SessionLogin.v ===== *)
(** * SessionLogin: a login from end to end

    [LoginContext] and [handleServer] composed: against a server that answers,
    a client that starts its game is logged in, spawned and registered. *)

From S2P Require Import Prelude GoFloat Wire Registry Minecraft ServerPacket Conn Toy ConnIO ConnSeq ConnLife.
From S2P Require Import Batch Tracker Session SessionLoops SessionSteps SessionProps SessionLife SessionOutcomes SessionTransfer.

Local Open Scope Z_scope.
Local Open Scope go_scope.

Section Login.
Context `{G : Gopher} `{P : !Protocols} `{Rt : Runtime} `{IO : IterationOrder} `{F : FloatConversion}.
Context `{Sur : !Surroundings} `{!IOLaws} `{!HeaderLaws} `{!IDLaws} `{!BuiltLaws}.
Variable zero_start : StartGame_fields.
Implicit Types w : World.

Abbreviation CSW := (CS (cb:=transfer_cb) (env:=World)).

(** [ReadPacket] on a connection without a callback: the sequence, and then
    it waits for more. *)
Lemma sequence_without_callback z (s : CSW) a payloads rest :
  connecting z s seq_init -> fz_protocol z = server_protocol -> fz_pool z = Packets server_protocol false ->
  fz_onConnect z = None -> (776 <=? Proto_ID server_protocol) = true ->
  answers_ok a -> answered zero_start a payloads -> flat (conn_in (conn s)) = concat (map frame payloads) ++ rest ->
  exists s' n, connecting z s' n /\ sq_connected n = true /\ sq_game n = Some (an_game a) /\ sq_deferred n = an_deferred a /\
    flat (conn_in (conn s')) = rest /\
    forall pick, Conn.ReadPacket (on_connected zero_start) zero_start (length payloads) pick s = (NoFuel, s').
Proof.
  intros Hc Hpr Hpl Hcb Hm (Ho0 & Ho1 & Ho2 & Ho3 & Ho4) Hfd Hf.
  assert (feeds zero_start z seq_init payloads (an_all a)) as Hfd' by by eapply (feeds_frozen zero_start _ z), (Hfd (cenv s)).
  destruct (sequence_completes (on_connected zero_start) zero_start z payloads s rest _ _ _ _ _ _ _ _ _ _ _ _ _ _
    Hc ltac:(unfold modern; by rewrite Hpr) Ho0 Ho1 Ho2 Ho3 Ho4 Hfd' Hf) as (s5 & Hc5 & Hf5 & Hloop).
  eexists s5, _. split; [exact Hc5|]. split_and!; try done. intros pick.
  pose proof (Hloop 0%nat pick s5) as Hrun. rewrite Nat.add_0_r in Hrun. apply Hrun.
  unfold notify, bind, gets. by rewrite (cg_onConnect _ _ _ Hc5), Hcb.
Qed.

(** An operation on a connection that only looks at it. *)
Lemma on_conn_gets {A} (f : Conn (cb:=transfer_cb) -> A) n c w :
  conns w !! n = Some c -> on_conn n (let! c := gets conn in ret (f c)) w = (Ok (f c), w).
Proof.
  intros Hc. unfold on_conn. rewrite Hc. unfold bind, gets, ret. simpl. rewrite list_insert_id by done. by destruct w.
Qed.

Lemma client_op_asked call w :
  client_op call w = (match client_result w call with Some err => Err err | None => Ok tt end, asked call w).
Proof. unfold asked, client_op. by destruct (client_result w call). Qed.

(** [login_finish] on a connection whose sequence has completed. *)
Lemma login_finish_eq n c w z q g :
  connecting z (mkCS c (w_pools w) w) q -> conns w !! n = Some c ->
  gameData_of zero_start c = g ->
  let call := client_StartGame (ProcessStartGame (session_processor w) w g) in
  match client_result w call with
  | Some err => login_finish zero_start n (Ok tt) w = (Err err, asked call w)
  | None => exists wr p, let c' := set_writer wr (set_spawned true c) in
      login_finish zero_start n (Ok tt) w =
        (Ok tt, set_s_registry (AddSession XUID self (s_registry w))
                  (set_conns (<[n := c']> (conns w)) (set_w_pools p (asked call w))))
  end.
Proof.
  intros Hc Hn Hg call. unfold login_finish. rewrite (bind_eq_Ok (gets id) _ w w w eq_refl).
  rewrite (bind_eq_Ok _ _ _ _ _ (on_conn_gets (gameData_of zero_start) n c w Hn)), Hg. cbv zeta. fold call.
  destruct (asked_beside call w) as (Hb & _ & _). pose proof (client_op_asked call w) as Hop.
  destruct (client_result w call) as [err|]; [by rewrite (bind_eq_Err _ _ _ _ _ Hop)|].
  rewrite (bind_eq_Ok _ _ _ _ _ Hop). set (w4 := asked call w) in *.
  destruct (DoSpawn_eq (mkCS c (w_pools w4) w4)) as (wr & p & bs1 & bs2 & E & _).
  { rewrite (bs_pools _ _ Hb). apply (cg_wf _ _ _ Hc). }
  { apply (cg_live _ _ _ Hc). }
  { apply (cg_healthy _ _ _ Hc). }
  { apply (cg_spawned _ _ _ Hc). }
  exists wr, p. cbv zeta. rewrite (bind_eq_Ok _ _ w4 tt (set_conns (<[n := set_writer wr (set_spawned true c)]> (conns w4)) (set_w_pools p w4))).
  2:{ unfold on_conn. assert (conns w4 !! n = Some c) as -> by by rewrite (bs_conns _ _ Hb). by rewrite E. }
  unfold modify. simpl. by rewrite (bs_conns _ _ Hb), (bs_registry _ _ Hb).
Qed.

(** A round on a spawned connection with deferred packets. *)
Lemma spawned_round n c w first others fuel pick :
  s_ctx w = None -> serverConn w = Some n -> conns w !! n = Some c -> ctx c = None -> spawned c = true ->
  deferredPackets c = first :: others ->
  handleServer_round zero_start (S fuel) pick w =
    handle_server_item zero_start first (set_conns (<[n := set_deferred others c]> (conns w)) w).
Proof.
  intros Hx Hs Hn Hl Hsp Hd. unfold handleServer_round. rewrite (bind_eq_Ok (gets id) _ w w w eq_refl), Hx, Hs.
  assert (on_conn n (Conn.ReadPacket (on_connected zero_start) zero_start (S fuel) pick) w =
    (Ok first, set_conns (<[n := set_deferred others c]> (conns w)) w)) as Hon.
  { unfold on_conn. rewrite Hn, (read_spawned_first zero_start first others) by done. by destruct w. }
  by rewrite (bind_eq_Ok _ _ _ _ _ (attempt_eq_Ok _ _ _ _ Hon)).
Qed.

(** Up to [WaitConnect]: the request is sent and the answers are read. *)
Lemma login_waits target ci w a payloads rest :
  Discover w = inl target -> can_dial target ci w -> (776 <=? Proto_ID server_protocol) = true ->
  answers_ok a -> answered zero_start a payloads -> flat ci = concat (map frame payloads) ++ rest ->
  exists w1 w2 c z q, let n := length (conns w) in
    login_start zero_start w = (Ok n, w1) /\
    (forall pick, handleServer_round zero_start (length payloads) pick w1 = (NoFuel, w2)) /\
    serverConn w2 = Some n /\ conns w2 !! n = Some c /\ s_ctx w2 = None /\
    client_out w2 = client_out w /\ s_registry w2 = s_registry w /\ flat (conn_in c) = rest /\
    connecting z (mkCS c (w_pools w2) w2) q /\
    connected c = true /\ gameData_of zero_start c = an_game a /\ deferredPackets c = an_deferred a.
Proof.
  intros Hdisc Hd Hm Ha Hfd Hf.
  destruct (dial_connecting zero_start target ci w Hd)
    as (wd & w1 & cs & c1 & bs & Hdial & Hdo & Hn & Hcs & Hs1 & Hx1 & Ho1 & _ & Hr1 & Hin & Hc1).
  set (n := length (conns w)) in *. rewrite <- Hin in Hf.
  assert (conns w1 !! n = Some c1) as Hk1 by (by rewrite Hcs, <- Hn, lookup_app_r, Nat.sub_diag).
  destruct (sequence_without_callback _ (mkCS c1 (w_pools w1) w1) a payloads rest Hc1 eq_refl eq_refl eq_refl Hm Ha Hfd Hf)
    as (s2 & q & Hc2 & Hqc & Hqg & Hqd & Hf2 & Hrd).
  pose proof (cg_env _ _ _ Hc2) as He. simpl in He.
  set (w2 := set_conns (<[n := conn s2]> (conns w1)) (set_w_pools (pools s2) w1)).
  exists w1, w2, (conn s2), (mkFrozen server_protocol (Packets server_protocol false) None w2 bs), q.
  cbv zeta. split_and!; try done.
  - unfold login_start. rewrite (bind_eq_Ok (gets id) _ w w w eq_refl), Hdisc, (bind_eq_Ok _ _ _ _ _ Hdial).
    by rewrite (bind_eq_Ok _ _ _ _ _ Hdo).
  - intros pick. unfold handleServer_round. rewrite (bind_eq_Ok (gets id) _ w1 w1 w1 eq_refl), Hx1, Hs1.
    unfold bind, attempt, on_conn. by rewrite Hk1, Hrd, He.
  - apply list_lookup_insert_eq. by eapply lookup_lt_Some.
  - destruct Hc2. by split.
  - by rewrite (cg_connected _ _ _ Hc2).
  - unfold gameData_of. by rewrite (cg_game _ _ _ Hc2), Hqg.
  - by rewrite (cg_deferred _ _ _ Hc2).
Qed.

(** C6: a login against a server that answers completes.  When the discovery
    names a server, the transport reaches it and it answers the connection
    sequence, however its answers are interleaved with other packets:
    [LoginContext] sends the request and waits; the goroutine of [handleServer]
    reads all the answers, sending the client nothing, and waits for more;
    [WaitConnect] then returns nil, and nothing else while the context lasts;
    the client is told to start the game the server announced, as the processor
    changed it, and nothing else; if it does, the connection is spawned, the
    session is registered under the client's XUID, and the next round of
    [handleServer] hands over the first of the packets that arrived meanwhile;
    if it does not, the login fails with its error and nothing is
    registered. *)
Theorem login_to_answering_server target ci w a payloads rest first others :
  Discover w = inl target -> can_dial target ci w -> (776 <=? Proto_ID server_protocol) = true ->
  answers_ok a -> answered zero_start a payloads -> flat ci = concat (map frame payloads) ++ rest ->
  an_deferred a = first :: others ->
  exists w1 w2 c, let n := length (conns w) in
    login_start zero_start w = (Ok n, w1) /\
    (forall pick, handleServer_round zero_start (length payloads) pick w1 = (NoFuel, w2)) /\
    serverConn w2 = Some n /\ conns w2 !! n = Some c /\ client_out w2 = client_out w /\
    (forall waited, WaitConnect c None waited <-> waited = Ok tt) /\
    let call := client_StartGame (ProcessStartGame (session_processor w2) w2 (an_game a)) in
    match client_result w2 call with
    | Some err => exists w3, login_finish zero_start n (Ok tt) w2 = (Err err, w3) /\ s_registry w3 = s_registry w
    | None => exists w3 c3,
        login_finish zero_start n (Ok tt) w2 = (Ok tt, w3) /\
        client_out w3 = client_out w ++ [call] /\ s_registry w3 = AddSession XUID self (s_registry w) /\
        serverConn w3 = Some n /\ conns w3 !! n = Some c3 /\ spawned c3 = true /\ ctx c3 = None /\
        deferredPackets c3 = first :: others /\ flat (conn_in c3) = rest /\
        (client_cause w2 call = None -> forall fuel pick,
           handleServer_round zero_start (S fuel) pick w3 =
             handle_server_item zero_start first (set_conns (<[n := set_deferred others c3]> (conns w3)) w3))
    end.
Proof.
  intros Hdisc Hd Hm Ha Hfd Hf Hdef.
  destruct (login_waits target ci w a payloads rest Hdisc Hd Hm Ha Hfd Hf)
    as (w1 & w2 & c & z & q & Hl & Hrd & Hs2 & Hk2 & Hx2 & Ho2 & Hr2 & Hf2 & Hc2 & Hcd & Hg & Hdp).
  set (n := length (conns w)) in *. pose proof (cg_live _ _ _ Hc2) as Hlive. unfold live in Hlive. simpl in Hlive.
  exists w1, w2, c. cbv zeta. split_and!; try done.
  - intros waited. split; [|intros ->; by apply WaitConnect_connected]. destruct 1; try done. congruence.
  - pose proof (login_finish_eq n c w2 z q (an_game a) Hc2 Hk2 Hg) as Hfin. cbv zeta in Hfin.
    set (call := client_StartGame (ProcessStartGame (session_processor w2) w2 (an_game a))) in *.
    destruct (asked_beside call w2) as (Hb & _ & Hout).
    destruct (client_result w2 call) as [err|] eqn:Hres.
    { exists (asked call w2). split; [done|]. by rewrite (bs_registry _ _ Hb). }
    destruct Hfin as (wr & p & E). set (c3 := set_writer wr (set_spawned true c)) in *.
    set (w3 := set_s_registry _ _) in E.
    assert (conns w3 !! n = Some c3) as Hk3 by (apply list_lookup_insert_eq; by eapply lookup_lt_Some).
    assert (serverConn w3 = Some n) as Hs3 by (etrans; [apply (bs_conn _ _ Hb) | exact Hs2]).
    assert (deferredPackets c3 = first :: others) as Hd3 by (etrans; [exact Hdp | exact Hdef]).
    exists w3, c3. split_and!; try done.
    + etrans; [apply Hout | by rewrite Ho2].
    + by rewrite <- Hr2.
    + intros Hcc fuel pick. apply spawned_round; try done.
      change (s_ctx (asked call w2) = None). unfold asked, client_op. by rewrite Hres; simpl; rewrite Hx2.
Qed.

End Login.

(** * Witness

    The toy server answers the first connection of the toy session. *)

#[local] Existing Instances toy_types toy toy_protocols toy_runtime toy_IOLaws toy_HeaderLaws toy_IDLaws toy_BuiltLaws.
#[local] Existing Instances toy_order toy_floats answering_session.

Lemma login_to_answering_server_witness :
  exists w1 w2 c, let n := length (conns toy_world) in
    login_start toy_start toy_world = (Ok n, w1) /\
    (forall pick, handleServer_round toy_start (length toy_answers) pick w1 = (NoFuel, w2)) /\
    serverConn w2 = Some n /\ conns w2 !! n = Some c /\ client_out w2 = client_out toy_world /\
    (forall waited, WaitConnect c None waited <-> waited = Ok tt) /\
    let call := client_StartGame (ProcessStartGame (session_processor w2) w2 (an_game toy_answered)) in
    match client_result w2 call with
    | Some err => exists w3, login_finish toy_start n (Ok tt) w2 = (Err err, w3) /\ s_registry w3 = s_registry toy_world
    | None => exists w3 c3,
        login_finish toy_start n (Ok tt) w2 = (Ok tt, w3) /\
        client_out w3 = client_out toy_world ++ [call] /\ s_registry w3 = AddSession XUID self (s_registry toy_world) /\
        serverConn w3 = Some n /\ conns w3 !! n = Some c3 /\ spawned c3 = true /\ ctx c3 = None /\
        deferredPackets c3 = Raw [Byte.x61] :: tl (an_deferred toy_answered) /\ flat (conn_in c3) = [] /\
        (client_cause w2 call = None -> forall fuel pick,
           handleServer_round toy_start (S fuel) pick w3 =
             handle_server_item toy_start (Raw [Byte.x61])
               (set_conns (<[n := set_deferred (tl (an_deferred toy_answered)) c3]> (conns w3)) w3))
    end.
Proof.
  apply (login_to_answering_server toy_start "lobby" answering_source toy_world toy_answered toy_answers []
    (Raw [Byte.x61]) (tl (an_deferred toy_answered))).
  - reflexivity.
  - split; [done | repeat constructor | reflexivity | reflexivity | exact toy_request_ok | by left].
  - reflexivity.
  - exact toy_answers_ok.
  - exact toy_answers_given.
  - vm_compute. reflexivity.
  - reflexivity.
Defined.
