(* ===== verification/SessionUpstream.v ===== *)
(** * SessionUpstream: what the session sends reaches the server

    The two goroutines that write to the server connection, [handleClient] and
    [handleLatency], round by round and interleaved in any way, against a
    reader of the stream on the server's side ([server_receives]). *)

From S2P Require Import Prelude GoFloat Wire Registry Minecraft ServerPacket Conn Toy ConnIO ConnSeq.
From S2P Require Import Batch Tracker Session SessionLoops SessionProps.

Local Open Scope Z_scope.
Local Open Scope go_scope.

(** ** The server's side *)

Section Reader.
Context `{G : Gopher} `{P : !Protocols} `{Rt : Runtime}.

(** A message of the stream: a batch of payloads, or one of the proxy's own
    packets, of which a connected session sends Latency only. *)
Inductive message := MBatch (payloads : list (list byte)) | MPacket (pk : packet).

(** The server reads the next message, with the protocol [pr] and its own
    shield id. *)
Definition server_next (pr : Proto) (shield : Z) (bs : list byte) : option (message * list byte) :=
  match peer_reads bs with
  | Some (f, data, rest) =>
      if Z.land f flagPacketIsBatch =? 0
      then (fun hp => (MPacket hp.2, rest)) <$> server_decodes pr shield (SLatency (mkLatency 0 0)) data
      else (fun payloads => (MBatch payloads, rest)) <$> unbatch (length data) data
  | None => None
  end.

(** It reads [n] messages, and nothing is left. *)
Fixpoint server_receives (n : nat) (pr : Proto) (shield : Z) (bs : list byte) : option (list message) :=
  match n with
  | O => match bs with [] => Some [] | _ => None end
  | S n =>
      match server_next pr shield bs with
      | Some (m, rest) => (fun ms => m :: ms) <$> server_receives n pr shield rest
      | None => None
      end
  end.

(** Flags and data, and the frame they are sent in. *)
Definition sealed (fd : Z * list byte) : list byte := frame (seal fd.1 fd.2).

(** They fit their length fields. *)
Definition fits (fd : Z * list byte) : Prop := len fd.2 < 2 ^ 32 /\ len (sealed fd) < 2 ^ 32.

(** What the server makes of some data, when it fits. *)
Definition conveys (pr : Proto) (shield : Z) (fd : Z * list byte) (m : message) : Prop :=
  fits fd -> forall rest, server_next pr shield (sealed fd ++ rest) = Some (m, rest).

Lemma conveys_all pr shield fds ms :
  Forall2 (conveys pr shield) fds ms -> Forall fits fds ->
  server_receives (length ms) pr shield (concat (map sealed fds)) = Some ms.
Proof.
  induction 1 as [|fd m fds ms Hm _ IH]; intros Hf; [done|]. apply Forall_cons in Hf as [H1 H2].
  simpl. rewrite (Hm H1), IH by done. done.
Qed.

Lemma len_batch_entry payloads p : p ∈ payloads -> len p <= len (batch_bytes payloads).
Proof.
  induction 1 as [p ps | p q ps _ IH]; unfold batch_bytes in *; simpl; rewrite !len_app;
    pose proof (len_nonneg (le_bytes 4 (u32 (len p)))); [|pose proof (len_nonneg q); pose proof (len_nonneg (le_bytes 4 (u32 (len q))))];
    pose proof (len_nonneg (concat (map (fun p => le_bytes 4 (u32 (len p)) ++ p) ps))); lia.
Qed.

Lemma length_batch payloads : (length payloads <= length (batch_bytes payloads))%nat.
Proof.
  induction payloads as [|p ps IH]; [done|]. unfold batch_bytes in *. simpl. rewrite !length_app, length_le_bytes. lia.
Qed.

Context `{!SnappyLaws}.

Lemma batch_conveyed pr shield outs :
  conveys pr shield (flagPacketIsBatch, batch_bytes outs) (MBatch outs).
Proof.
  intros [H1 H2] rest. unfold server_next, sealed in *. cbn [fst snd] in *.
  destruct (peer_reads_sealed flagPacketIsBatch (batch_bytes outs) rest (or_intror eq_refl) H1 H2) as (f & -> & -> & _).
  rewrite unbatch_batch; [done | | apply length_batch].
  apply Forall_forall. intros p Hp. pose proof (len_batch_entry outs p Hp). lia.
Qed.

End Reader.

(** ** The session's side *)

Section Upstream.
Context `{G : Gopher} `{P : !Protocols} `{Rt : Runtime} `{IO : IterationOrder} `{F : FloatConversion}.
Context `{Sur : !Surroundings} `{!IOLaws} `{!HeaderLaws} `{!SnappyLaws}.
Variable zero_start : StartGame_fields.
Variable type_name : packet -> string.
Variable pool : gmap Z packet.
Variable shieldID : Z.
Implicit Types w : World.
Abbreviation SConn := (Conn (cb:=transfer_cb)).

(** A processor of batches that does not look at the session. *)
Variable processes : list PacketContext -> list PacketContext.
Class ClientProcessor : Prop :=
  client_processed : forall w, ProcessClient (session_processor w) w = processes.

(** What happens to the writing goroutines. *)
Inductive upstream := UBatch (payloads : list (list byte)) | UTick (pick : bool) (latency now : Z).

(** Their rounds, in the order they take; the header is [handleClient]'s. *)
Fixpoint run_upstream (h : Header hdr_rest) (evs : list upstream) : M World (option (Header hdr_rest)) :=
  match evs with
  | [] => ret (Some h)
  | UBatch payloads :: evs =>
      let! r := handleClient_round zero_start type_name pool shieldID h (inl payloads) in
      match r with Some h => run_upstream h evs | None => ret None end
  | UTick pick latency now :: evs =>
      handleLatency_round zero_start pick latency now ;;;
      run_upstream h evs
  end.

(** The goroutine of [handleClient], alone. *)
Lemma handleClient_upstream h batches w :
  handleClient_loop zero_start type_name pool shieldID h (map inl batches) w =
  (run_upstream h (map UBatch batches) ;;; ret tt) w.
Proof.
  revert h w. induction batches as [|b batches IH]; intros h w; [done|]. simpl. unfold bind at 1 2 3.
  destruct (handleClient_round _ _ _ _ _ _ w) as [[[h'|]|e|why|] w']; done.
Qed.

(** The messages these rounds are to send: for a batch, one batch of what is
    forwarded, if anything is; for a tick the client's round-trip time.  [hr] is
    the rest of the header [handleClient] holds. *)
Definition last_rest (hr : hdr_rest) (hds : list (Header hdr_rest * option packet)) : hdr_rest :=
  match last hds with Some hd => Header_rest hd.1 | None => hr end.

Definition batch_message (outs : list (list byte)) : list message :=
  match outs with [] => [] | _ => [MBatch outs] end.

Inductive to_send : hdr_rest -> list upstream -> list message -> Prop :=
  | send_nothing hr : to_send hr [] []
  | send_latency hr pick latency now evs ms :
      in_i64 now -> to_send hr evs ms ->
      to_send hr (UTick pick latency now :: evs) (MPacket (SLatency (mkLatency (i64 (latency * 2)) now)) :: ms)
  | send_batch hr payloads hds outs evs ms :
      Forall2 (accepted batch_session pool shieldID) payloads hds ->
      Forall2 (forwarded batch_session shieldID (last_rest hr hds))
        (uncancelled (processes (zip_with context_of payloads hds))) outs ->
      to_send (last_rest hr hds) evs ms ->
      to_send hr (UBatch payloads :: evs) (batch_message outs ++ ms).

(** The session is open, its server connection [c] accepts bytes, its pools
    are clean. *)
Record flowing (k : nat) (c : SConn) w : Prop := {
  fl_ctx : s_ctx w = None;
  fl_current : serverConn w = Some k;
  fl_conn : conns w !! k = Some c;
  fl_live : ctx c = None;
  fl_writer : wf_writer (writer c);
  fl_healthy : healthy (writer c);
  fl_pools : wf_pools (w_pools w);
  fl_contexts : Forall (fun x => x = fresh_context) (s_ctxPool w);
}.

(** The data [fds] has been sent on [k], and but for the pools nothing else
    has changed. *)
Definition wrote (k : nat) (c c' : SConn) (fds : list (Z * list byte)) w w' : Prop :=
  exists x p ps, c' = set_writer x c /\ sk_data (wr_w x) = sk_data (wr_w (writer c)) ++ concat (map sealed fds) /\
    w' = set_s_ctxPool p (set_conns (<[k := c']> (conns w)) (set_w_pools ps w)).

Lemma wrote_nothing k c w : conns w !! k = Some c -> wrote k c c [] w w.
Proof.
  intros Hc. exists (writer c), (s_ctxPool w), (w_pools w). split_and!; [by destruct c | by rewrite app_nil_r|].
  rewrite list_insert_id by done. by destruct w.
Qed.

Lemma wrote_trans k c1 c2 c3 fds1 fds2 w1 w2 w3 :
  wrote k c1 c2 fds1 w1 w2 -> wrote k c2 c3 fds2 w2 w3 -> wrote k c1 c3 (fds1 ++ fds2) w1 w3.
Proof.
  intros (x & p & ps & -> & Hx & ->) (x' & p' & ps' & -> & Hx' & ->). exists x', p', ps'.
  split_and!; [done | rewrite Hx'; simpl; by rewrite Hx, map_app, concat_app, app_assoc | simpl].
  by rewrite list_insert_insert_eq.
Qed.

(** A step: one or no message. *)
Definition carried k c w ms w' : Prop :=
  exists c' fds, flowing k c' w' /\ wrote k c c' fds w w' /\
    forall shield, Forall2 (conveys (protocol c) shield) fds ms.

Lemma carried_trans k c w ms1 w1 :
  carried k c w ms1 w1 -> exists c1, flowing k c1 w1 /\
    forall ms2 w2, carried k c1 w1 ms2 w2 -> carried k c w (ms1 ++ ms2) w2.
Proof.
  intros (c1 & fds1 & Hf1 & Hw1 & Hc1). exists c1. split; [done|].
  intros ms2 w2 (c2 & fds2 & Hf2 & Hw2 & Hc2). exists c2, (fds1 ++ fds2). split_and!; [done | by eapply wrote_trans|].
  intros shield. apply Forall2_app; [apply Hc1|].
  destruct Hw1 as (x & p & ps & -> & _). apply Hc2.
Qed.

Lemma latency_conveyed pr data h pk :
  (forall shield y, same_type (SLatency pk) y = true -> server_decodes pr shield y data = Some (h, SLatency pk)) ->
  forall shield, conveys pr shield (0, data) (MPacket (SLatency pk)).
Proof.
  intros Hd shield [Hf1 Hf2] rest. unfold server_next, sealed in *. cbn [fst snd] in *.
  destruct (peer_reads_sealed 0 data rest (or_introl eq_refl) Hf1 Hf2) as (f & -> & -> & _).
  simpl. by rewrite Hd.
Qed.

Lemma i64_range z : in_i64 (i64 z).
Proof. unfold in_i64, i64. pose proof (Z.mod_pos_bound (z + 2 ^ 63) (2 ^ 64) ltac:(lia)). lia. Qed.

Lemma tick_carried k c w pick latency now :
  flowing k c w -> in_i64 now ->
  exists w', handleLatency_round zero_start pick latency now w = (Ok true, w') /\
    carried k c w [MPacket (SLatency (mkLatency (i64 (latency * 2)) now))] w'.
Proof.
  intros [] Hnow. set (pk := SLatency _). assert (marshalable pk) as Hpk by (split; [apply i64_range | done]).
  destruct (WritePacket_delivers pk (mkCS c (w_pools w) w)) as (x & p & data & Hrun & Hx & Hp & Hh & Hd & Hdec); try done.
  simpl in *. exists (set_conns (<[k := set_writer x c]> (conns w)) (set_w_pools p w)). split.
  - unfold handleLatency_round. rewrite (bind_eq_Ok (gets id) _ w w w eq_refl), fl_ctx0.
    unfold latency_tick, bind at 1. rewrite (bind_eq_Ok (gets id) _ w w w eq_refl), fl_current0.
    unfold ignore, attempt, bind, on_conn. rewrite fl_conn0. fold pk. by rewrite Hrun.
  - exists (set_writer x c), [(0, data)]. split_and!.
    + split; try done. simpl. apply list_lookup_insert_eq. by eapply lookup_lt_Some.
    + exists x, (s_ctxPool w), p. split_and!; [done | simpl; by rewrite app_nil_r | by destruct w].
    + intros shield. constructor; [|done]. by eapply latency_conveyed.
Qed.

Lemma WriteBatch_carried outs (s : CS (cb:=transfer_cb) (env:=World)) :
  wf_cs s -> live s -> healthy_cs s ->
  exists x p, WriteBatch outs s = (Ok tt, mkCS (set_writer x (conn s)) p (cenv s)) /\
    wf_writer x /\ wf_pools p /\ healthy x /\
    exists fds, sk_data (wr_w x) = sent s ++ concat (map sealed fds) /\
      forall pr shield, Forall2 (conveys pr shield) fds (batch_message outs).
Proof.
  intros Hs Hl Hh. destruct outs as [|o outs].
  { exists (writer (conn s)), (pools s). split_and!; [|apply Hs | apply Hs | done|].
    - unfold WriteBatch. rewrite (bind_eq_Ok _ _ _ _ _ (check_ctx_live s Hl)). by destruct s as [[] ? ?].
    - exists []. split; [by rewrite app_nil_r | constructor]. }
  destruct (WriteBatch_sends (o :: outs) s Hs Hl) as (r & x & p & Hrun & Hp & _ & Hsd); [done|].
  destruct (sends_healthy _ _ _ _ Hsd Hh) as (-> & Hx & Hh' & Hd).
  exists x, p. split_and!; try done. exists [(flagPacketIsBatch, batch_bytes (o :: outs))]. split.
  - by rewrite Hd; simpl; rewrite app_nil_r.
  - intros pr shield. constructor; [apply batch_conveyed | constructor].
Qed.

Lemma last_rest_header (h : Header hdr_rest) hds : Header_rest (last_header h hds) = last_rest (Header_rest h) hds.
Proof. unfold last_header, last_rest. by destruct (last hds). Qed.

Lemma batch_carried `{!ClientProcessor} k c w h payloads hds outs :
  flowing k c w ->
  Forall2 (accepted batch_session pool shieldID) payloads hds ->
  Forall2 (forwarded batch_session shieldID (last_rest (Header_rest h) hds))
    (uncancelled (processes (zip_with context_of payloads hds))) outs ->
  exists h' w', handleClient_round zero_start type_name pool shieldID h (inl payloads) w = (Ok (Some h'), w') /\
    Header_rest h' = last_rest (Header_rest h) hds /\ carried k c w (batch_message outs) w'.
Proof.
  intros [] Ha Hf. set (st := mkBS h (s_ctxPool w) (mkCS c (w_pools w) w)).
  rewrite <- last_rest_header in Hf.
  destruct (handleClientBatch_forwards batch_session type_name processes pool shieldID payloads hds outs st Ha fl_contexts0 Hf)
    as (h' & p & Hp & Hr & Hrun).
  destruct (WriteBatch_carried outs (mkCS c (w_pools w) w)) as (x & ps & Hw & Hx & Hps & Hh & fds & Hd & Hc); try done.
  set (w' := set_s_ctxPool p (set_conns (<[k := set_writer x c]> (conns w)) (set_w_pools ps w))).
  exists h', w'. split_and!; [|by rewrite Hr, last_rest_header|].
  - unfold handleClient_round. rewrite (bind_eq_Ok (gets id) _ w w w eq_refl), fl_ctx0, fl_current0.
    unfold bind at 1, attempt, on_server. rewrite fl_conn0. fold st.
    rewrite client_processed, Hrun. unfold recovering, zoom. simpl. rewrite Hw. done.
  - exists (set_writer x c), fds. split_and!; [|by exists x, p, ps | done].
    split; try done. simpl. apply list_lookup_insert_eq. by eapply lookup_lt_Some.
Qed.

(** Every round of the two goroutines carries its messages. *)
Lemma upstream_carried `{!ClientProcessor} k c w h evs ms :
  flowing k c w -> to_send (Header_rest h) evs ms ->
  exists h' w', run_upstream h evs w = (Ok (Some h'), w') /\ carried k c w ms w'.
Proof.
  intros Hw Hms.
  remember (Header_rest h) as hr eqn:Hhr. revert h Hhr c w Hw.
  induction Hms as [hr|hr pick latency now evs ms Hnow _ IH|hr payloads hds outs evs ms Ha Hf _ IH]; intros h -> c w Hw.
  - exists h, w. split; [done|]. exists c, []. split_and!; [done | by apply wrote_nothing, Hw | constructor].
  - destruct (tick_carried k c w pick latency now Hw Hnow) as (w1 & Hr1 & H1').
    destruct (carried_trans k c w _ w1 H1') as (c1 & Hw1 & Ht).
    destruct (IH h eq_refl c1 w1 Hw1) as (h' & w2 & Hr2 & H2'). exists h', w2.
    split; [simpl; by rewrite (bind_eq_Ok _ _ _ _ _ Hr1) | by apply Ht].
  - destruct (batch_carried k c w h payloads hds outs Hw Ha Hf) as (h1 & w1 & Hr1 & Hh1 & H1').
    destruct (carried_trans k c w _ w1 H1') as (c1 & Hw1 & Ht).
    destruct (IH h1 (eq_sym Hh1) c1 w1 Hw1) as (h' & w2 & Hr2 & H2'). exists h', w2.
    split; [simpl; by rewrite (bind_eq_Ok _ _ _ _ _ Hr1) | by apply Ht].
Qed.

(** C14: the session's stream reaches the server.  With an open session and a
    server connection that accepts bytes, let the rounds of [handleClient] and
    [handleLatency] interleave in any way, and let every batch be decodable.
    Then every round goes on, and the server, reading the stream message by
    message (as long as no frame reaches 4 GiB), finds exactly, in order and
    with nothing left over: for every batch one batch of what is forwarded for
    the contexts the processor has not cancelled, and nothing when there is
    none; for every tick one Latency with twice the client's latency and the
    time.  But for the connection's writer and the pools nothing of the session
    changes, and the stream can go on. *)
Theorem upstream_reaches_server `{!ClientProcessor} k c w h evs ms :
  flowing k c w -> to_send (Header_rest h) evs ms ->
  exists h' c' fds w', run_upstream h evs w = (Ok (Some h'), w') /\
    flowing k c' w' /\ wrote k c c' fds w w' /\
    forall shield, Forall fits fds ->
      server_receives (length ms) (protocol c) shield (concat (map sealed fds)) = Some ms.
Proof.
  intros Hw Hms. destruct (upstream_carried k c w h evs ms Hw Hms) as (h' & w' & Hrun & c' & fds & Hf & Hwr & Hc).
  exists h', c', fds, w'. split_and!; try done. intros shield. by apply conveys_all.
Qed.

End Upstream.

(** * Witness *)

#[local] Existing Instances toy_types toy toy_protocols toy_runtime toy_order toy_floats toy_session
  toy_IOLaws toy_HeaderLaws toy_SnappyLaws.

Lemma upstream_reaches_server_witness :
  let w := (dial toy_start "lobby" toy_world).2 in
  let c := NewConn (cb:=transfer_cb) (mkSource [] EOF) (mkSink [] []) session_client (SyncProtocol session_opts) (s_cache toy_world) in
  let h := toy_header 0 Byte.x00 in
  let evs := [UTick true 20 1000; UBatch [toy_actor_payload; toy_actor_payload]; UTick false 21 2000; UBatch []] in
  let ms := [MPacket (SLatency (mkLatency 40 1000)); MBatch [toy_actor_payload; toy_actor_payload];
             MPacket (SLatency (mkLatency 42 2000))] in
  exists h' c' fds w', run_upstream toy_start toy_type_name (toy_packets 800 true) 0 h evs w = (Ok (Some h'), w') /\
    flowing 0 c' w' /\ wrote 0 c c' fds w w' /\
    forall shield, Forall fits fds ->
      server_receives (length ms) (protocol c) shield (concat (map sealed fds)) = Some ms.
Proof.
  intros w c h evs ms. assert (ClientProcessor id) as Hp by done.
  apply (upstream_reaches_server toy_start toy_type_name (toy_packets 800 true) 0 id 0 c w h evs ms).
  - split; repeat constructor.
  - assert (accepted batch_session (toy_packets 800 true) 0 toy_actor_payload (toy_header 13 Byte.x09, None)) as Ha.
    { do 2 eexists. split_and!; [intros []; vm_compute; reflexivity | vm_compute; reflexivity | vm_compute; reflexivity]. }
    apply send_latency; [by split|].
    apply (send_batch _ _ _ _ [toy_actor_payload; toy_actor_payload] [(toy_header 13 Byte.x09, None); (toy_header 13 Byte.x09, None)]
      [toy_actor_payload; toy_actor_payload] _ [MPacket (SLatency (mkLatency 42 2000))]);
      [repeat constructor; exact Ha | repeat constructor |].
    apply send_latency; [by split|].
    apply (send_batch _ _ _ _ [] [] [] [] []); [constructor | constructor | constructor].
Defined.
