(* ===== verification/SessionServer.v ===== *)
(** * SessionServer: what the server sends reaches the client

    The rounds of [handleServer] on a spawned session: the items that were
    deferred and then those read from the server's frames are handled one after
    the other, through any processor that only cancels. *)

From S2P Require Import Prelude GoFloat Wire Registry Minecraft ServerPacket Conn Toy ConnIO ConnSeq.
From S2P Require Import Batch Tracker Session SessionProps.

Local Open Scope Z_scope.
Local Open Scope go_scope.

Section Server.
Context `{G : Gopher} `{P : !Protocols} `{Rt : Runtime} `{IO : IterationOrder} `{F : FloatConversion}.
Context `{Sur : !Surroundings}.
Variable zero_start : StartGame_fields.
Implicit Types w : World.
Abbreviation SConn := (Conn (cb:=transfer_cb)).

(** A processor that looks at packets and cancels some of them. *)
Variable cancels : list byte -> option packet -> bool.
Variable cancels_flush : bool.

Class CancellingProcessor : Prop := {
  only_cancels : forall w ctx,
    ProcessServer (session_processor w) w ctx = if cancels (raw ctx) (decoded ctx) then PacketContext_Cancel ctx else ctx;
  flush_decision : forall w, ProcessFlush (session_processor w) w = cancels_flush;
  cache_decision : forall w cache, ProcessCache (session_processor w) w cache = (false, cache);
}.

(** What the client is asked for an item. *)
Definition item_calls (it : item) : list client_call :=
  match it with
  | Raw payload => if cancels payload None then [] else [client_Write payload]
  | Decoded (SFlush _) => if cancels_flush then [] else [client_Flush]
  | Decoded (SLatency _) | Decoded (STransfer _) | Decoded (SUpdateCache _) => []
  | Decoded pk => if cancels [] (Some pk) then [] else [client_WritePacket (Fwd pk)]
  end.

(** The packets of an item the tracker sees, in the latest protocol. *)
Definition item_tracked (it : item) : list packet :=
  match it with
  | Raw _ | Decoded (SFlush _) | Decoded (SLatency _) | Decoded (STransfer _) | Decoded (SUpdateCache _) => []
  | Decoded pk =>
      if cancels [] (Some pk) then []
      else if SyncProtocol session_opts then ConvertToLatest (client_Proto session_client) pk else [pk]
  end.

Definition item_cache (it : item) (cache : list byte) : list byte :=
  match it with Decoded (SUpdateCache pk) => UpdateCache_Cache pk | _ => cache end.
Definition item_latency (it : item) (latency : Z) : Z :=
  match it with Decoded (SLatency pk) => Latency_Latency pk | _ => latency end.
Definition is_transfer (it : item) : Prop :=
  match it with Decoded (STransfer _) => True | _ => False end.

(** The loop's body over a stream; it stops where the loop stops. *)
Fixpoint handle_items (its : list item) : M World bool :=
  match its with
  | [] => ret true
  | it :: its =>
      let! go_on := handle_server_item zero_start it in
      if (go_on : bool) then handle_items its else ret false
  end.

(** The pool of contexts is clean, and the client accepts everything. *)
Definition ctx_clean w : Prop := Forall (fun c => c = fresh_context) (s_ctxPool w).
Definition accepting : Prop := forall w call, client_result w call = None.

(** Its connection stays open. *)
Definition staying : Prop := forall w call, client_cause w call = None.
Definition stays w w' : Prop := staying -> s_ctx w' = s_ctx w.

Lemma client_op_accepted call w :
  accepting -> exists w', client_op call w = (Ok tt, w') /\ beside w w' /\ s_tracker w' = s_tracker w /\
    client_out w' = client_out w ++ [call] /\ stays w w'.
Proof.
  intros Ha. unfold client_op. rewrite Ha. eexists. split_and!; try done.
  intros Hs. simpl. rewrite Hs. by destruct (s_ctx w).
Qed.

Lemma process_server_eq `{!CancellingProcessor} r d w :
  ctx_clean w -> exists p, ctx_clean (set_s_ctxPool p w) /\
    process_server r d w = (Ok (mkPacketContext (cancels r d) false r d), set_s_ctxPool p w).
Proof.
  intros Hc. unfold process_server, zoom, NewPacketContext, bind, ctx_clean in *.
  assert (exists p, Forall (fun c => c = fresh_context) p /\
    pool_Get fresh_context (s_ctxPool w) = (Ok fresh_context, p)) as (p & Hp & Hg).
  { destruct Hc as [|c l -> Hl]; [by exists [] | by exists l]. }
  exists p. split; [done|]. rewrite Hg. unfold gets, id. simpl. rewrite only_cancels. simpl.
  by destruct (cancels r d).
Qed.

(** One item. *)
Record handled (it : item) w w' : Prop := {
  hd_out : client_out w' = client_out w ++ item_calls it;
  hd_tracker : s_tracker w' = foldl Tracker.handlePacket (s_tracker w) (item_tracked it);
  hd_cache : s_cache w' = item_cache it (s_cache w);
  hd_latency : s_latency w' = item_latency it (s_latency w);
  hd_conns : conns w' = conns w /\ serverConn w' = serverConn w;
  hd_clean : ctx_clean w';
  hd_stays : stays w w';
}.

Lemma forward_accepted call failure w :
  accepting -> exists w', forward zero_start call failure w = (Ok true, w') /\ beside w w' /\
    s_tracker w' = s_tracker w /\ client_out w' = client_out w ++ [call] /\ stays w w'.
Proof.
  intros Ha. destruct (client_op_accepted call w Ha) as (w' & E & H'). exists w'. split; [|done].
  unfold forward. by rewrite (bind_eq_Ok _ _ _ _ _ (attempt_eq_Ok _ _ _ _ E)).
Qed.

Lemma handled_beside it w w1 w' t :
  beside (set_s_tracker t w1) w' -> s_tracker w' = t ->
  conns w1 = conns w -> serverConn w1 = serverConn w -> s_cache w1 = item_cache it (s_cache w) ->
  s_latency w1 = item_latency it (s_latency w) -> ctx_clean w1 ->
  t = foldl Tracker.handlePacket (s_tracker w) (item_tracked it) ->
  stays w w' -> client_out w' = client_out w ++ item_calls it -> handled it w w'.
Proof.
  intros [] Ht Hc Hs Hca Hl Hcl Htr Hst Ho. simpl in *. split; [done | by rewrite Ht | congruence.. | split; congruence | | done].
  unfold ctx_clean. by rewrite bs_ctxPool.
Qed.

Lemma handle_plain `{!CancellingProcessor} pk w :
  accepting -> ctx_clean w ->
  match pk with SFlush _ | SLatency _ | STransfer _ | SUpdateCache _ => False | _ => True end ->
  exists w', handle_server_item zero_start (Decoded pk) w = (Ok true, w') /\ handled (Decoded pk) w w'.
Proof.
  intros Ha Hc Hp. destruct (process_server_eq [] (Some pk) w Hc) as (p & Hcl & E).
  set (w1 := set_s_ctxPool p w) in *.
  assert (item_calls (Decoded pk) = (if cancels [] (Some pk) then [] else [client_WritePacket (Fwd pk)]) /\
    item_tracked (Decoded pk) = (if cancels [] (Some pk) then [] else
      if SyncProtocol session_opts then ConvertToLatest (client_Proto session_client) pk else [pk]) /\
    item_cache (Decoded pk) = (fun c => c) /\ item_latency (Decoded pk) = (fun l => l)) as (Hi & Ht & Hk & Hl) by by destruct pk.
  assert (handle_server_item zero_start (Decoded pk) w =
    (if cancels [] (Some pk) then ret true
     else
       modify (fun w => set_s_tracker (foldl Tracker.handlePacket (s_tracker w)
         (if SyncProtocol session_opts then ConvertToLatest (client_Proto session_client) pk else [pk])) w) ;;;
       forward zero_start (client_WritePacket (Fwd pk)) "failed to write packet to client") w1) as ->.
  { destruct pk; try done; simpl; by rewrite (bind_eq_Ok _ _ _ _ _ E). }
  destruct (cancels [] (Some pk)).
  - exists w1. split; [done|]. apply (handled_beside _ _ w1 _ (s_tracker w)); rewrite ?Hi, ?Ht, ?Hk, ?Hl; try done.
    by rewrite app_nil_r.
  - set (w2 := set_s_tracker (foldl Tracker.handlePacket (s_tracker w)
      (if SyncProtocol session_opts then ConvertToLatest (client_Proto session_client) pk else [pk])) w1).
    destruct (forward_accepted (client_WritePacket (Fwd pk)) "failed to write packet to client" w2 Ha) as (w3 & E3 & B3 & T3 & O3 & S3).
    exists w3. split; [exact E3|].
    by apply (handled_beside _ _ w1 _ (s_tracker w2)); rewrite ?Hi, ?Ht, ?Hk, ?Hl.
Qed.

Lemma handle_item `{!CancellingProcessor} it w :
  accepting -> ctx_clean w -> ~ is_transfer it ->
  exists w', handle_server_item zero_start it w = (Ok true, w') /\ handled it w w'.
Proof.
  intros Ha Hc Hn. destruct it as [pk|payload].
  - destruct pk; try (by apply handle_plain); [| |].
    + simpl. unfold bind at 1, gets, id. rewrite flush_decision. destruct cancels_flush eqn:Hf.
      * exists w. split; [done|]. apply (handled_beside _ _ w _ (s_tracker w)); [by split | done.. | by simpl; rewrite Hf, app_nil_r].
      * destruct (forward_accepted client_Flush "failed to flush client's buffer" w Ha) as (w3 & E3 & B3 & T3 & O3 & S3).
        exists w3. split; [exact E3|]. apply (handled_beside _ _ w _ (s_tracker w)); [by destruct B3; split | done.. | by simpl; rewrite Hf].
    + exists (set_s_latency (Latency_Latency pk) w). split; [done|].
      apply (handled_beside _ _ (set_s_latency (Latency_Latency pk) w) _ (s_tracker w)); [by split | done.. | by simpl; rewrite app_nil_r].
    + simpl. unfold SetCache, bind at 1 2, gets, id. rewrite cache_decision.
      exists (set_s_cache (UpdateCache_Cache pk) w). split; [done|].
      apply (handled_beside _ _ (set_s_cache (UpdateCache_Cache pk) w) _ (s_tracker w)); [by split | done.. | by simpl; rewrite app_nil_r].
  - destruct (process_server_eq payload None w Hc) as (p & Hcl & E). set (w1 := set_s_ctxPool p w) in *.
    simpl. rewrite (bind_eq_Ok _ _ _ _ _ E). simpl. destruct (cancels payload None) eqn:Hcp.
    + exists w1. split; [done|]. apply (handled_beside _ _ w1 _ (s_tracker w)); [by split | done.. | by simpl; rewrite Hcp, app_nil_r].
    + destruct (forward_accepted (client_Write payload) "failed to write packet to client" w1 Ha) as (w3 & E3 & B3 & T3 & O3 & S3).
      exists w3. split; [exact E3|]. apply (handled_beside _ _ w1 _ (s_tracker w)); [by destruct B3; split | done.. | by simpl; rewrite Hcp].
Qed.

(** The items the server loop handles reach the client.  With a client that accepts
    its packets and any processor that only cancels, the server loop hands the
    client exactly the packets and raw payloads that are not cancelled, and a
    flush for each Flush, in the order in which they were read and once each;
    the proxy's own packets never reach it.  The tracker has seen every decoded
    packet sent, converted to the latest protocol where [SyncProtocol] asks for
    it; the latency and the cache are the last ones received.  The loop goes on
    and the server connections are left alone. *)
Lemma server_stream_reaches_client `{!CancellingProcessor} its w :
  accepting -> ctx_clean w -> Forall (fun it => ~ is_transfer it) its ->
  exists w', handle_items its w = (Ok true, w') /\
    client_out w' = client_out w ++ concat (map item_calls its) /\
    s_tracker w' = foldl Tracker.handlePacket (s_tracker w) (concat (map item_tracked its)) /\
    s_cache w' = foldl (fun c it => item_cache it c) (s_cache w) its /\
    s_latency w' = foldl (fun l it => item_latency it l) (s_latency w) its /\
    conns w' = conns w /\ serverConn w' = serverConn w.
Proof.
  intros Ha Hc Hits. revert w Hc. induction Hits as [|it its Hit Hits IH]; intros w Hc.
  - exists w. by rewrite app_nil_r.
  - destruct (handle_item it w Ha Hc Hit) as (w1 & E & [H1 H2 H3 H4 [H5 H6] H7 _]).
    destruct (IH w1 H7) as (w2 & E2 & G1 & G2 & G3 & G4 & G5 & G6). exists w2. simpl.
    rewrite (bind_eq_Ok _ _ _ _ _ E). split; [exact E2|].
    rewrite G1, G2, G3, G4, G5, G6, H1, H2, H3, H4, foldl_app. by rewrite <- (assoc_L (++)).
Qed.

(** ** From the bytes of the server *)

(** An open, spawned session: [k] is its server connection [c]. *)
Record serving (k : nat) (c : SConn) w : Prop := {
  sv_ctx : s_ctx w = None;
  sv_current : serverConn w = Some k;
  sv_conn : conns w !! k = Some c;
  sv_live : ctx c = None;
  sv_spawned : spawned c = true;
  sv_clean : ctx_clean w;
}.

(** The items [its] have been handled. *)
Record relayed (its : list item) w w' : Prop := {
  rl_out : client_out w' = client_out w ++ concat (map item_calls its);
  rl_tracker : s_tracker w' = foldl Tracker.handlePacket (s_tracker w) (concat (map item_tracked its));
  rl_cache : s_cache w' = foldl (fun c it => item_cache it c) (s_cache w) its;
  rl_latency : s_latency w' = foldl (fun l it => item_latency it l) (s_latency w) its;
}.

Lemma relayed_nil w : relayed [] w w.
Proof. split; simpl; by rewrite ?app_nil_r. Qed.

Lemma relayed_app its1 its2 w1 w2 w3 : relayed its1 w1 w2 -> relayed its2 w2 w3 -> relayed (its1 ++ its2) w1 w3.
Proof.
  intros [A1 A2 A3 A4] [B1 B2 B3 B4].
  split; rewrite ?B1, ?B2, ?B3, ?B4, ?A1, ?A2, ?A3, ?A4, ?map_app, ?concat_app, ?foldl_app; [by rewrite <- (assoc_L (++)) | done..].
Qed.

(** A round that reads the item [it]. *)
Lemma serve_round `{!CancellingProcessor} k c c1 ps it fuel pick w :
  accepting -> staying -> serving k c w -> ~ is_transfer it ->
  Conn.ReadPacket (on_connected zero_start) zero_start fuel pick (mkCS c (w_pools w) w) = (Ok it, mkCS c1 ps w) ->
  ctx c1 = None -> spawned c1 = true ->
  exists w', handleServer_round zero_start fuel pick w = (Ok true, w') /\ serving k c1 w' /\ relayed [it] w w'.
Proof.
  intros Ha Hst [] Hit Hread Hx Hsp.
  set (w1 := set_conns (<[k := c1]> (conns w)) (set_w_pools ps w)).
  assert (on_conn k (Conn.ReadPacket (on_connected zero_start) zero_start fuel pick) w = (Ok it, w1)) as Hon.
  { unfold on_conn. by rewrite sv_conn0, Hread. }
  destruct (handle_item it w1 Ha sv_clean0 Hit) as (w' & E & [H1' H2' H3' H4' [H5' H6'] H7' H8']).
  exists w'. split_and!.
  - unfold handleServer_round. rewrite (bind_eq_Ok (gets id) _ w w w eq_refl), sv_ctx0, sv_current0.
    by rewrite (bind_eq_Ok _ _ _ _ _ (attempt_eq_Ok _ _ _ _ Hon)).
  - split; try done; [by rewrite (H8' Hst) | by rewrite H6' |].
    rewrite H5'. apply list_lookup_insert_eq. by eapply lookup_lt_Some.
  - split; simpl; rewrite ?app_nil_r; done.
Qed.

Lemma read_spawned_eq (s : CS (cb:=transfer_cb) (env:=World)) fuel pick r :
  ctx (conn s) = None -> spawned (conn s) = true -> read_spawned s = r ->
  Conn.ReadPacket (on_connected zero_start) zero_start (S fuel) pick s = r.
Proof. intros Hx Hsp Hr. simpl. unfold bind, gets at 1. by rewrite Hx, Hsp. Qed.

(** What is deferred comes first. *)
Lemma serve_deferred `{!CancellingProcessor} k its c w rounds fuel pick :
  accepting -> staying -> serving k c w -> deferredPackets c = its -> Forall (fun it => ~ is_transfer it) its ->
  exists w', handleServer zero_start (length its + rounds) (S fuel) pick w = handleServer zero_start rounds (S fuel) pick w' /\
    serving k (set_deferred [] c) w' /\ relayed its w w'.
Proof.
  intros Ha Hst Hw Hd Hits. revert c w Hw Hd. induction Hits as [|it its Hit _ IH]; intros c w Hw Hd.
  - exists w. split_and!; [done | | apply relayed_nil]. rewrite <- Hd. by destruct c.
  - destruct (serve_round k c (set_deferred its c) (w_pools w) it (S fuel) (pick (length its + rounds)%nat) w)
      as (w1 & E & Hw1 & R1); try done; try apply Hw.
    { by apply read_spawned_eq; [apply Hw..|]; unfold read_spawned, bind, gets, modify; simpl; rewrite Hd. }
    destruct (IH (set_deferred its c) w1 Hw1 eq_refl) as (w2 & E2 & Hw2 & R2).
    exists w2. split_and!; [|done | by apply (relayed_app [it] its w w1)].
    simpl. by rewrite (bind_eq_Ok _ _ _ _ _ E).
Qed.

Lemma read_spawned_read (s : CS (cb:=transfer_cb) (env:=World)) :
  deferredPackets (conn s) = [] -> read_spawned s = read s.
Proof. intros Hd. unfold read_spawned, bind, gets. by rewrite Hd. Qed.

(** Then what is read. *)
Lemma serve_frames `{!CancellingProcessor} k payloads its c w rest fuel pick :
  accepting -> staying -> serving k c w -> deferredPackets c = [] ->
  flat (conn_in c) = concat (map frame payloads) ++ rest ->
  Forall2 (fun payload it => len payload < 2 ^ 32 /\ decodes (protocol c) (pool c) (shieldID c) payload it /\ ~ is_transfer it)
    payloads its ->
  exists w' i, handleServer zero_start (length its) (S fuel) pick w = (Ok true, w') /\
    serving k (set_conn_in i c) w' /\ flat i = rest /\ relayed its w w'.
Proof.
  intros Ha Hst. revert its c w. induction payloads as [|payload payloads IH]; intros its c w Hw Hd Hin Hits.
  { inversion Hits; subst. exists w, (conn_in c). split_and!; [done | by destruct c | done | apply relayed_nil]. }
  apply Forall2_cons_inv_l in Hits as (it & its' & (Hl & Hdec & Hit) & Hits & ->).
  simpl in Hin. rewrite <- (assoc_L (++)) in Hin.
  destruct (ReadPacket_frame _ _ _ Hin Hl) as (in' & Hr & Hin' & _).
  destruct (read_decodes (mkCS c (w_pools w) w) payload in' it Hr Hdec) as (hp & Hread).
  destruct (serve_round k c (set_conn_in in' c) _ it (S fuel) (pick (length its')) w Ha Hst Hw Hit
    (read_spawned_eq (mkCS c (w_pools w) w) fuel _ _ (sv_live _ _ _ Hw) (sv_spawned _ _ _ Hw) (eq_trans (read_spawned_read (mkCS c (w_pools w) w) Hd) Hread)))
    as (w1 & E & Hw1 & R1); [apply Hw..|].
  destruct (IH its' (set_conn_in in' c) w1 Hw1 Hd Hin' Hits) as (w2 & i & E2 & Hw2 & Hi & R2).
  exists w2, i. split_and!; [|exact Hw2 | done | by apply (relayed_app [it] its' w w1)].
  simpl. by rewrite (bind_eq_Ok _ _ _ _ _ E).
Qed.

(** C13: the server's stream reaches the client, from the bytes of the server
    to the calls of the client.  Let the session be open and spawned, the
    client accept what it is given and stay, and the processor at most cancel.
    Whatever was deferred while connecting and whatever frames the server sends,
    raw or decodable, compressed or not and in any fragmentation, so many
    rounds of [handleServer] hand the client exactly the packets and raw
    payloads that are not cancelled and a flush for each Flush, in the order of
    the server and once each; the proxy's own packets never reach it.  The
    tracker has seen every decoded packet sent, converted to the latest protocol
    where [SyncProtocol] asks for it; the latency and the cache are the last
    ones received.  The loop still runs, and the rest of the stream is unread. *)
Theorem server_frames_reach_client `{!CancellingProcessor} k c w payloads its rest fuel pick :
  accepting -> staying -> serving k c w ->
  Forall (fun it => ~ is_transfer it) (deferredPackets c) ->
  flat (conn_in c) = concat (map frame payloads) ++ rest ->
  Forall2 (fun payload it => len payload < 2 ^ 32 /\ decodes (protocol c) (pool c) (shieldID c) payload it /\ ~ is_transfer it)
    payloads its ->
  let all := deferredPackets c ++ its in
  exists w' i, handleServer zero_start (length all) (S fuel) pick w = (Ok true, w') /\
    client_out w' = client_out w ++ concat (map item_calls all) /\
    s_tracker w' = foldl Tracker.handlePacket (s_tracker w) (concat (map item_tracked all)) /\
    s_cache w' = foldl (fun c it => item_cache it c) (s_cache w) all /\
    s_latency w' = foldl (fun l it => item_latency it l) (s_latency w) all /\
    serving k (set_conn_in i (set_deferred [] c)) w' /\ flat i = rest.
Proof.
  intros Ha Hst Hw Hd Hin Hits all.
  destruct (serve_deferred k (deferredPackets c) c w (length its) fuel pick Ha Hst Hw eq_refl Hd) as (w1 & E1 & Hw1 & R1).
  destruct (serve_frames k payloads its (set_deferred [] c) w1 rest fuel pick Ha Hst Hw1 eq_refl Hin Hits)
    as (w2 & i & E2 & Hw2 & Hi & R2).
  destruct (relayed_app _ _ _ _ _ R1 R2) as [G1 G2 G3 G4].
  exists w2, i. unfold all. rewrite length_app, E1, E2. by split_and!.
Qed.

End Server.

(** * Witness *)

#[local] Existing Instances toy_types toy toy_protocols toy_runtime toy_order toy_floats toy_session.

Lemma server_stream_reaches_client_witness :
  let its := [Decoded (Gt (AddActor 5 tt)); Raw [Byte.x61]; Decoded (SLatency (mkLatency 40 0)); Decoded (SFlush mkFlush)] in
  let none := fun (_ : list byte) (_ : option packet) => false in
  exists w', handle_items toy_start its toy_world = (Ok true, w') /\
    client_out w' = client_out toy_world ++ concat (map (item_calls none false) its) /\
    s_tracker w' = foldl Tracker.handlePacket (s_tracker toy_world) (concat (map (item_tracked none) its)) /\
    s_cache w' = foldl (fun c it => item_cache it c) (s_cache toy_world) its /\
    s_latency w' = foldl (fun l it => item_latency it l) (s_latency toy_world) its /\
    conns w' = conns toy_world /\ serverConn w' = serverConn toy_world.
Proof.
  intros its none. assert (CancellingProcessor none false) as Hp by (split; reflexivity).
  apply (server_stream_reaches_client toy_start none false its toy_world).
  - intros w call. reflexivity.
  - constructor.
  - repeat constructor; intros [].
Defined.


(** A spawned session with one deferred packet; the server sends an actor, raw
    bytes, a latency and a flush. *)
Definition toy_stream : list (list byte) :=
  [toy_packet_payload 13 []; [Byte.x00; Byte.x61]; toy_packet_payload 503 (le_bytes 8 40 ++ le_bytes 8 0);
   toy_packet_payload 502 []].
Definition toy_spawned_conn : Conn (cb:=transfer_cb) :=
  set_spawned true (set_deferred toy_pre0
    (NewConn (mkSource (map frame toy_stream) EOF) (mkSink [] []) toy_client false [])).
Definition toy_serving : World := set_serverConn (Some 0%nat) (set_conns [toy_spawned_conn] toy_world).

Lemma server_frames_reach_client_witness :
  let its := [Decoded (Gt (AddActor 5 tt)); Raw [Byte.x61]; Decoded (SLatency (mkLatency 40 0)); Decoded (SFlush mkFlush)] in
  let none := fun (_ : list byte) (_ : option packet) => false in
  let c := toy_spawned_conn in let w := toy_serving in
  let all := deferredPackets c ++ its in
  exists w' i, handleServer toy_start (length all) 1 (fun _ => true) w = (Ok true, w') /\
    client_out w' = client_out w ++ concat (map (item_calls none false) all) /\
    s_tracker w' = foldl Tracker.handlePacket (s_tracker w) (concat (map (item_tracked none) all)) /\
    s_cache w' = foldl (fun c it => item_cache it c) (s_cache w) all /\
    s_latency w' = foldl (fun l it => item_latency it l) (s_latency w) all /\
    serving 0 (set_conn_in i (set_deferred [] c)) w' /\ flat i = [].
Proof.
  intros its none c w. assert (CancellingProcessor none false) as Hp by (split; reflexivity).
  apply (server_frames_reach_client toy_start none false 0 c w toy_stream its [] 0 (fun _ => true)).
  - intros w' call. reflexivity.
  - intros w' call. reflexivity.
  - split; try reflexivity. constructor.
  - repeat constructor; intros [].
  - reflexivity.
  - repeat (constructor; [split_and!; [reflexivity | feeds_by_computation | intros []]|]). constructor.
Defined.
