(* ===== verification/SessionSeamless.v ===== *)
(** * SessionSeamless: a player keeps playing

    A transfer, the rest of the new server's stream and the client's own, put
    together: what the player's client and the new server see of a transfer is
    exactly what they should. *)

From S2P Require Import Prelude GoFloat Wire Registry Minecraft ServerPacket Conn Toy ConnIO ConnSeq ConnLife.
From S2P Require Import Batch Tracker Session SessionLoops SessionSteps SessionProps SessionLife SessionOutcomes.
From S2P Require Import SessionHistory SessionPools SessionTransfer SessionUpstream SessionServer.

Local Open Scope Z_scope.
Local Open Scope go_scope.

Section Seamless.
Context `{G : Gopher} `{P : !Protocols} `{Rt : Runtime} `{IO : IterationOrder} `{F : FloatConversion}.
Context `{Sur : !Surroundings} `{!IOLaws} `{!HeaderLaws} `{!IDLaws} `{!BuiltLaws} `{!SnappyLaws}.
Variable zero_start : StartGame_fields.
Variable type_name : packet -> string.
Implicit Types w : World.

Abbreviation CSW := (CS (cb:=transfer_cb) (env:=World)).

(** ** A client that stays keeps the session open *)

Definition same_ctx : relation World := same s_ctx.
Definition same_ctx_of : relation CSW := same (fun s => s_ctx (cenv s)).

Lemma client_op_ctx call : staying -> moves same_ctx (client_op call).
Proof. intros Hs w. unfold client_op. rewrite Hs. by destruct (s_ctx w) eqn:E, (client_result w call). Qed.

Ltac ctx_moves := go_moves; try (apply moves_zoom; intros ? ?); try done; intros; try done.

Lemma send_ctx pk : staying -> moves same_ctx (send pk).
Proof. intros Hs. pose proof (fun call => client_op_ctx call Hs). unfold send. ctx_moves. Qed.

Lemma in_world_ctx {A} (m : M World A) : moves same_ctx m -> moves same_ctx_of (in_world m).
Proof. intros Hm s. unfold in_world, zoom. specialize (Hm (cenv s)). by destruct (m _). Qed.

Lemma sendGameData_ctx g : staying -> moves same_ctx (sendGameData g).
Proof.
  intros Hs. pose proof (fun pk => send_ctx pk Hs). unfold sendGameData, send_chunks, clear_tracker.
  ctx_moves; destruct (clearAll _ _); ctx_moves.
Qed.

Lemma ctx_blind : blind same_ctx_of.
Proof. split; [apply _ | done..]. Qed.

Lemma DoSpawn_ctx : moves same_ctx_of DoSpawn.
Proof.
  pose proof (fun pk => blind_WritePacket same_ctx_of pk ctx_blind). unfold DoSpawn, check_ctx, close_chan.
  conn_moves ltac:(done).
Qed.

Lemma on_connected_ctx cb err : staying -> moves same_ctx_of (on_connected zero_start cb err).
Proof.
  intros Hs. pose proof (fun pk => send_ctx pk Hs). pose proof (fun g => sendGameData_ctx g Hs). pose proof DoSpawn_ctx.
  unfold on_connected, notify_processor.
  destruct err; [apply in_world_ctx; ctx_moves|]. go_moves; try intros [_|_]; apply in_world_ctx; ctx_moves.
Qed.

Lemma ReadPacket_ctx fuel pick : staying -> moves same_ctx_of (Conn.ReadPacket (on_connected zero_start) zero_start fuel pick).
Proof.
  intros Hs. pose proof (fun cb err => on_connected_ctx cb err Hs) as Hcb.
  assert (forall pk, moves same_ctx_of (Conn.handlePacket (on_connected zero_start) zero_start pk)) as Hp.
  { intros pk. apply blind_handlePacket; [apply ctx_blind|]. unfold close_chan, notify. conn_moves ltac:(done). }
  assert (moves same_ctx_of (read (cb:=transfer_cb) (env:=World))) as Hr by (unfold read, headerPool_Get; conn_moves ltac:(done)).
  induction fuel as [|fuel IH]; [apply moves_nofuel, _|]. simpl. unfold read_spawned, read_sequence, deferPacket.
  conn_moves ltac:(done).
Qed.

Lemma on_conn_ctx {A} k (m : M CSW A) : moves same_ctx_of m -> moves same_ctx (on_conn k m).
Proof. intros Hm w. unfold on_conn. destruct (conns w !! k) as [c|]; [|done]. specialize (Hm (mkCS c (w_pools w) w)). by destruct (m _). Qed.

(** ** After the arrival *)

Lemma handleServer_clean rounds fuel pick : moves keeps_clean (handleServer zero_start rounds fuel pick).
Proof.
  pose proof (fun f p => handleServer_round_moves zero_start type_name keeps_clean f p).
  induction rounds as [|rounds IH]; simpl; go_moves.
Qed.

(** A session that serves, with clean pools and a connection that accepts
    bytes, carries what its client sends. *)
Lemma serving_flowing k c w : serving k c w -> clean_world w -> healthy (writer c) -> flowing k c w.
Proof.
  intros [Hs1 Hs2 Hk Hl _ Hcl] (Hp & Hx & Hc) Hh. split; try done. by apply (Forall_lookup_1 _ _ _ _ Hc Hk).
Qed.

Context (cancels : list byte -> option packet -> bool) (cancels_flush : bool).
Context `{!CancellingProcessor cancels cancels_flush}.

Abbreviation relayed := (relayed cancels cancels_flush).
Abbreviation calls_of its := (concat (map (item_calls cancels cancels_flush) its)).
Abbreviation tracked_of its := (concat (map (item_tracked cancels) its)).

(** When the player has arrived, the session serves the new server. *)
Lemma arrived_serving addr origin target a rest others w w1 w2 fuel pick first (payloads : list (list byte)) :
  staying -> clean_world w -> Transfer zero_start addr w = (Ok tt, w1) -> s_ctx w1 = None ->
  on_conn (length (conns w)) (Conn.ReadPacket (on_connected zero_start) zero_start (length payloads + S fuel) pick) w1 = (Ok first, w2) ->
  arrived origin target a rest others w w1 w2 ->
  clean_world w2 /\ exists c, serving (length (conns w)) c w2 /\ deferredPackets c = others /\ flat (conn_in c) = rest /\ ready a c /\
    gameData c = Some (an_game a).
Proof.
  intros Hst Hw E Hx Hon [_ (c & Hs & Hc & Hsp & _ & Hcx & Hg & Hd & Hin & Hr) _].
  pose proof (Transfer_moves zero_start type_name keeps_clean addr w Hw) as Hw1. rewrite E in Hw1.
  pose proof (on_conn_clean (length (conns w)) _ (ReadPacket_neat zero_start (length payloads + S fuel) pick) w1 Hw1) as Hw2.
  pose proof (on_conn_ctx (length (conns w)) _ (ReadPacket_ctx (length payloads + S fuel) pick Hst) w1) as Hx2.
  rewrite Hon in Hw2, Hx2. simpl in Hw2, Hx2. split; [done|]. exists c. split_and!; try done.
  split; try done; [by rewrite Hx2 | apply Hw2].
Qed.

(** The rounds that follow. *)
Lemma play_on k a c w its first others payloads rest fuel pick :
  accepting -> staying -> clean_world w -> serving k c w -> deferredPackets c = others -> ready a c ->
  flat (conn_in c) = concat (map frame payloads) ++ rest ->
  Forall (fun it => ~ is_transfer it) (first :: others) ->
  Forall2 (fun payload it => len payload < 2 ^ 32 /\
    decodes server_protocol (Packets server_protocol false) (shield_of 0 (an_items a)) payload it /\ ~ is_transfer it) payloads its ->
  exists w' w'' i, handle_server_item zero_start first w = (Ok true, w') /\
    handleServer zero_start (length (others ++ its)) (S fuel) pick w' = (Ok true, w'') /\
    relayed (first :: others ++ its) w w'' /\ clean_world w'' /\
    serving k (set_conn_in i (set_deferred [] c)) w'' /\ flat i = rest.
Proof.
  intros Ha Hst Hw Hsv Hd (Hpr & Hpl & Hsh & Hh) Hin [Hf Ho]%Forall_cons Hits.
  destruct (handle_item zero_start cancels cancels_flush first w Ha (sv_clean _ _ _ Hsv) Hf) as (w1 & E1 & [I1 I2 I3 I4 [I5 I6] I7 I8]).
  assert (serving k c w1) as Hsv1.
  { destruct Hsv. split; try done; [by rewrite (I8 Hst) | by rewrite I6 | by rewrite I5]. }
  destruct (serve_deferred zero_start cancels cancels_flush k others c w1 (length its) fuel pick Ha Hst Hsv1 Hd Ho) as (w2 & E2 & Hsv2 & R2).
  rewrite <- Hpl, <- Hsh, <- Hpr in Hits.
  destruct (serve_frames zero_start cancels cancels_flush k payloads its (set_deferred [] c) w2 rest fuel pick Ha Hst Hsv2 eq_refl Hin Hits)
    as (w3 & i & E3 & Hsv3 & Hi & R3).
  exists w1, w3, i. rewrite length_app, E2. split_and!; try done.
  - change (first :: others ++ its) with ([first] ++ others ++ its). eapply relayed_app; [|by eapply relayed_app].
    split; simpl; by rewrite ?app_nil_r.
  - pose proof (handle_server_item_moves zero_start type_name keeps_clean first w Hw) as Hw1. rewrite E1 in Hw1.
    pose proof (handleServer_clean (length others + length its) (S fuel) pick w1 Hw1) as Hw3. by rewrite E2, E3 in Hw3.
Qed.

(** C2: a transfer is seamless.  Let the client accept what it is given and stay,
    and the processor at most cancel.  A player is transferred to a server that
    is reachable, answers the connection sequence, its answers interleaved with
    other packets, and goes on sending.  Then [Transfer] succeeds, and so many
    rounds of [handleServer] complete it and go on: after the transfer's own
    packets the client is given exactly what the new server has sent and the
    processor has not cancelled, what came during the sequence first, in order
    and once each; the tracker knows what the new server has shown and nothing
    of the old one; the session serves the new server, with the rest of its
    stream unread.  And what the client sends from then on reaches the new
    server: for every interleaving of the rounds of [handleClient] and
    [handleLatency] it receives exactly the batches to be forwarded and the
    latencies, in order. *)
Theorem seamless_transfer addr origin target ci w a payloads more its rest fuel pick :
  accepting -> staying -> clean_world w ->
  can_transfer addr origin target ci w -> (776 <=? Proto_ID server_protocol) = true ->
  answers_ok a -> answered zero_start a payloads ->
  flat ci = concat (map frame payloads) ++ concat (map frame more) ++ rest ->
  Forall (fun it => ~ is_transfer it) (an_deferred a) ->
  Forall2 (fun payload it => len payload < 2 ^ 32 /\
    decodes server_protocol (Packets server_protocol false) (shield_of 0 (an_items a)) payload it /\ ~ is_transfer it) more its ->
  let n := length (conns w) in
  let all := an_deferred a ++ its in
  exists w1 w2 w3 c,
    Transfer zero_start addr w = (Ok tt, w1) /\
    handleServer zero_start (length all) (length payloads + S fuel) pick w1 = (Ok true, w3) /\
    arrived origin target a (concat (map frame more) ++ rest) (tl (an_deferred a)) w w1 w2 /\
    client_out w3 = client_out w2 ++ calls_of all /\
    s_tracker w3 = foldl Tracker.handlePacket newTracker (tracked_of all) /\
    serving n c w3 /\ deferredPackets c = [] /\ flat (conn_in c) = rest /\ gameData c = Some (an_game a) /\
    forall pool shieldID processes h evs ms, ClientProcessor processes ->
      to_send pool shieldID processes (Header_rest h) evs ms ->
      exists h' c' fds w4, run_upstream zero_start type_name pool shieldID h evs w3 = (Ok (Some h'), w4) /\
        flowing n c' w4 /\ wrote n c c' fds w3 w4 /\
        forall shield, Forall fits fds ->
          server_receives (length ms) server_protocol shield (concat (map sealed fds)) = Some ms.
Proof.
  intros Ha Hst Hw Hcan Hm Hok Hans Hci Hdef Hits n all. unfold all.
  assert (exists first others, an_deferred a = first :: others) as (first & others & Hfirst)
    by (unfold an_deferred; destruct (an_pre0 a), (an_pre1 a), (an_pre2 a), (an_pre3 a); simpl; eauto).
  destruct (transfer_arrives zero_start addr origin target ci w a payloads _ first others Hcan Hm Hok Hans Hci Hfirst)
    as (w1 & w2 & E & Hx & Hs & Hon & Harr).
  destruct (arrived_serving addr origin target a _ others w w1 w2 fuel (pick (length (others ++ its))) first payloads
    Hst Hw E Hx (Hon fuel _) Harr) as (Hw2 & c & Hsv & Hd & Hin & Hr & Hg).
  rewrite Hfirst in Hdef |- *.
  destruct (play_on n a c w2 its first others more rest (length payloads + fuel) pick Ha Hst Hw2 Hsv Hd Hr Hin Hdef Hits)
    as (w2' & w3 & i & E1 & E2 & [R1 R2 _ _] & Hw3 & Hsv3 & Hi).
  exists w1, w2, w3, (set_conn_in i (set_deferred [] c)).
  assert (flowing n (set_conn_in i (set_deferred [] c)) w3) as Hfl by (apply serving_flowing; [done | done | apply Hr]).
  split_and!; try done.
  - refine (eq_trans (bind_eq_Ok (handleServer_round zero_start (length payloads + S fuel) _) _ w1 true w2' _) _).
    + by rewrite (round_reads zero_start n _ _ first w1 w2 Hx Hs (Hon fuel _)).
    + rewrite Nat.add_succ_r. exact E2.
  - by rewrite R2, (proj1 (ar_session _ _ _ _ _ _ _ _ Harr)).
  - intros pool shieldID processes h evs ms Hp Hms.
    destruct (upstream_carried zero_start type_name pool shieldID processes n _ w3 h evs ms Hfl Hms)
      as (h' & w4 & Hrun & c' & fds & Hf' & Hwr & Hcv).
    exists h', c', fds, w4. split_and!; try done. intros shield. apply conveys_all.
    destruct Hr as [<- _]. apply Hcv.
Qed.

End Seamless.

(** * Witness

    The toy server answers and sends an actor, raw bytes, a latency and a
    flush. *)

#[local] Existing Instances toy_types toy toy_protocols toy_runtime toy_IOLaws toy_HeaderLaws toy_IDLaws toy_BuiltLaws toy_SnappyLaws.
#[local] Existing Instances toy_order toy_floats.

Definition playing_source : source := mkSource (map frame (toy_answers ++ toy_stream)) EOF.

Definition playing_session : Surroundings :=
  let s := answering_session in {|
  session_opts := session_opts;
  session_client := session_client;
  XUID := XUID;
  self := self;
  client_result := client_result;
  client_cause := client_cause;
  client_EntityRuntimeID := client_EntityRuntimeID;
  transport_Dial _ _ := inl (playing_source, mkSink [] []);
  Discover := Discover;
  DiscoverFallback := DiscoverFallback;
  GameData_Dimension := GameData_Dimension;
  processors := processors;
  animations := animations
|}.

#[local] Existing Instance playing_session.

Lemma seamless_transfer_witness :
  let none := fun (_ : list byte) (_ : option packet) => false in
  let its := [Decoded (Gt (AddActor 5 tt)); Raw [Byte.x61]; Decoded (SLatency (mkLatency 40 0)); Decoded (SFlush mkFlush)] in
  let a := toy_answered in
  let n := length (conns toy_world) in
  let all := an_deferred a ++ its in
  exists w1 w2 w3 c,
    Transfer toy_start "arena" toy_world = (Ok tt, w1) /\
    handleServer toy_start (length all) (length toy_answers + 1) (fun _ => true) w1 = (Ok true, w3) /\
    arrived "" "arena" a (concat (map frame toy_stream) ++ []) (tl (an_deferred a)) toy_world w1 w2 /\
    client_out w3 = client_out w2 ++ concat (map (item_calls none false) all) /\
    s_tracker w3 = foldl Tracker.handlePacket newTracker (concat (map (item_tracked none) all)) /\
    serving n c w3 /\ deferredPackets c = [] /\ flat (conn_in c) = [] /\ gameData c = Some (an_game a) /\
    forall pool shieldID processes h evs ms, ClientProcessor processes ->
      to_send pool shieldID processes (Header_rest h) evs ms ->
      exists h' c' fds w4, run_upstream toy_start toy_type_name pool shieldID h evs w3 = (Ok (Some h'), w4) /\
        flowing n c' w4 /\ wrote n c c' fds w3 w4 /\
        forall shield, Forall fits fds ->
          server_receives (length ms) server_protocol shield (concat (map sealed fds)) = Some ms.
Proof.
  intros none its a n all. assert (CancellingProcessor none false) as Hp by (split; reflexivity).
  apply (seamless_transfer toy_start toy_type_name none false "arena" "" "arena" playing_source toy_world toy_answered
    toy_answers toy_stream its [] 0 (fun _ => true)).
  - intros w call. reflexivity.
  - intros w call. reflexivity.
  - repeat constructor.
  - split; [done | repeat constructor | reflexivity | reflexivity | reflexivity | exact toy_request_ok | by left].
  - reflexivity.
  - exact toy_answers_ok.
  - exact toy_answers_given.
  - vm_compute. reflexivity.
  - repeat constructor; intros [].
  - repeat (constructor; [split_and!; [reflexivity | feeds_by_computation | intros []]|]). constructor.
Defined.
