(* ===== verification/Spectrum.v ===== *)
(** * Spectrum: the proxy as a whole

    spectrum.go: the listener that makes a session of each client, and the
    sessions it has made.  The registry and the pools are shared by all
    sessions: an operation of one runs with the proxy's ([on_session]).  The
    service of [Api] finds its sessions here ([proxy_sessions]). *)

From S2P Require Import Prelude GoFloat Wire ApiPacket Registry Api Minecraft ServerPacket Conn Toy ConnIO ConnSeq ConnLife.
From S2P Require Import Batch Tracker Session SessionLoops SessionSteps SessionProps SessionLife SessionOutcomes.

Local Open Scope Z_scope.
Local Open Scope go_scope.

(** ** State *)

(** [sp_sessions] are all sessions ever made; a session pointer is an index
    into them. *)
Record Spectrum `{MCTypes} `{G : !Gopher} := mkSpectrum {
  sp_opts : Opts;
  listener : option bool;   (* nil, or whether it is open *)
  sp_registry : Registry;
  sp_sessions : list World;
  sp_pools : Pools;
  sp_ctxPool : list PacketContext;
}.

Section Spectrum.
Context `{T : MCTypes} `{G : !Gopher} `{P : !Protocols} `{Rt : Runtime} `{IO : IterationOrder} `{F : FloatConversion}.

(** The surroundings of each session. *)
Variable Sur : sid -> Surroundings.
Variable zero_start : StartGame_fields.
Variable type_name : packet -> string.
Implicit Types p : Spectrum.

Definition set_listener v p := mkSpectrum _ _ (sp_opts p) v (sp_registry p) (sp_sessions p) (sp_pools p) (sp_ctxPool p).
Definition set_sp_sessions v p := mkSpectrum _ _ (sp_opts p) (listener p) (sp_registry p) v (sp_pools p) (sp_ctxPool p).

(** A session sees the shared registry and pools. *)
Definition lend p (w : World) : World :=
  set_s_registry (sp_registry p) (set_w_pools (sp_pools p) (set_s_ctxPool (sp_ctxPool p) w)).

Definition on_session {A} (i : sid) (m : M World A) : M Spectrum A := fun p =>
  match sp_sessions p !! i with
  | None => (Panic "runtime error: invalid memory address or nil pointer dereference", p)
  | Some w =>
      let (o, w') := m (lend p w) in
      (o, mkSpectrum _ _ (sp_opts p) (listener p) (s_registry w') (<[i := w']> (sp_sessions p)) (w_pools w') (s_ctxPool w'))
  end.

(** ** spectrum.go *)

(** [NewSpectrum]; the pools are those of the packages. *)
Definition NewSpectrum (opts : option Opts) (pools : Pools) (ctxPool : list PacketContext) : Spectrum :=
  mkSpectrum _ _ (default DefaultOpts opts) None NewRegistry [] pools ctxPool.

(** The transport of a new proxy. *)
Definition NewSpectrum_transport {Tr} (NewSpectral : Tr) (transport : option Tr) : Tr := default NewSpectral transport.

(** [Listen]; [err] is the result of [config.Listen]. *)
Definition Listen (err : option error) : M Spectrum unit :=
  match err with
  | Some err => fail err
  | None => modify (set_listener (Some true))
  end.

(** [Accept]; [c] is the result of [listener.Accept], a client by the cause
    its context is done for already, if it is. *)
Definition Accept (c : option error + error) : M Spectrum sid :=
  let! p := gets id in
  match listener p with
  | None => panic "runtime error: invalid memory address or nil pointer dereference"
  | Some _ =>
      match c with
      | inr err => fail err
      | inl client_ctx =>
          modify (set_sp_sessions (sp_sessions p ++ [NewSession client_ctx (sp_pools p) (sp_ctxPool p) (sp_registry p)])) ;;;
          ret (length (sp_sessions p))
      end
  end.

(** The goroutine [Accept] starts when [AutoLogin] is set. *)
Definition auto_login (i : sid) (waited : outcome unit) : M Spectrum unit :=
  let! r := attempt (on_session i (Login (Sur:=Sur i) zero_start waited)) in
  match r with
  | inl _ => ret tt
  | inr err => on_session i (Session_Disconnect (Sur:=Sur i) zero_start (error_text err))
  end.

(** [Close]; [err] is the result of [listener.Close]. *)
Definition Close (err : option error) : M Spectrum unit :=
  let! p := gets id in
  for_each (fun i => on_session i (Session_Disconnect (Sur:=Sur i) zero_start (ShutdownMessage (sp_opts p))))
    (GetSessions (sp_registry p)) ;;;
  let! p := gets id in
  match listener p with
  | None => panic "runtime error: invalid memory address or nil pointer dereference"
  | Some _ =>
      match err with
      | Some err => fail err
      | None => modify (set_listener (Some false))
      end
  end.

(** ** util/status.go

    What the listener tells about the proxy; the fields of
    [minecraft.ServerStatus] that are set. *)
Record StatusProvider := mkStatusProvider { serverName : string; serverSubName : string }.
Record ServerStatus := mkServerStatus {
  ServerName : string; ServerSubName : string; PlayerCount : Z; MaxPlayers : Z;
}.

Definition NewStatusProvider (serverName serverSubName : string) : StatusProvider :=
  mkStatusProvider serverName serverSubName.
Definition StatusProvider_ServerStatus (s : StatusProvider) (playerCount maxPlayers : Z) : ServerStatus :=
  mkServerStatus (serverName s) (serverSubName s) playerCount maxPlayers.

(** ** The sessions of the service *)

Variable DisplayName : sid -> string.

Definition proxy_sessions `{UnicodeFold} : Sessions Spectrum := {|
  find_session username p := GetSessionByUsername DisplayName username (sp_registry p);
  session_Disconnect i message := on_session i (Session_Disconnect (Sur:=Sur i) zero_start message);
  session_Transfer i addr := on_session i (Transfer (Sur:=Sur i) zero_start addr)
|}.

(** ** Steps *)

Inductive spectrum_op :=
  | SpListen (err : option error)
  | SpAccept (c : option error + error)
  | SpAutoLogin (i : sid) (waited : outcome unit)
  | SpSession (i : sid) (op : session_op)
  | SpClose (err : option error).

Definition sp_perform (op : spectrum_op) : M Spectrum unit :=
  match op with
  | SpListen err => Listen err
  | SpAccept c => ignore (Accept c)
  | SpAutoLogin i waited => auto_login i waited
  | SpSession i op => on_session i (perform (Sur:=Sur i) zero_start type_name op)
  | SpClose err => Close err
  end.

Definition sp_run (ops : list spectrum_op) p : Spectrum := foldl (fun p op => (sp_perform op p).2) p ops.

End Spectrum.

(** * Lemmas *)

Section Lemmas.
Context `{T : MCTypes} `{G : !Gopher} `{P : !Protocols} `{Rt : Runtime} `{IO : IterationOrder} `{F : FloatConversion}.
Variable Sur : sid -> Surroundings.
Variable zero_start : StartGame_fields.
Hypothesis self_is : forall i, self (Surroundings:=Sur i) = i.
Implicit Types p : Spectrum.

Abbreviation XUID_of i := (XUID (Surroundings:=Sur i)).

(** Every session's connections are tidy, and sessions are registered under
    their own XUIDs. *)
Record orderly p : Prop := {
  od_tidy : forall i w, sp_sessions p !! i = Some w -> tidy w;
  od_registry : forall x i, sessions (sp_registry p) !! x = Some i -> x = XUID_of i /\ is_Some (sp_sessions p !! i);
}.

Lemma on_session_orderly {A} i (m : M World A) :
  moves (sound (Sur:=Sur i)) m -> moves (keeps orderly) (on_session i m).
Proof.
  intros Hm p [H1 H2]. unfold on_session. destruct (sp_sessions p !! i) as [w|] eqn:Hi; [|by split].
  specialize (Hm (lend p w)). destruct (m (lend p w)) as [o w']. destruct Hm as [Ht Hr]. simpl in Ht, Hr.
  split; simpl.
  - intros j v [[<- [<- _]]|[_ Hj]]%list_lookup_insert_Some; [|by eapply H1].
    apply Ht. destruct (H1 i w Hi). by split.
  - intros x j Hx. rewrite list_lookup_insert_is_Some. destruct (Hr x j Hx) as [Hx'|[-> ->]]; [by apply H2|].
    rewrite self_is. split; [done|]. by exists w.
Qed.

Lemma login_auto_sound i waited :
  moves (sound (Sur:=Sur i)) (Login (Sur:=Sur i) zero_start waited).
Proof.
  destruct (login_tidy (Sur:=Sur i) zero_start) as [H1 H2]. apply moves_bind; [apply _ | done | intros k; apply H2].
Qed.

Lemma disconnect_sound i message : moves (sound (Sur:=Sur i)) (Session_Disconnect (Sur:=Sur i) zero_start message).
Proof. apply Session_CloseWithError_tidy. Qed.

(** What [Disconnect] makes of a session: nothing when it was closed before. *)
Definition parted (i : sid) (message : string) (w w' : World) : Prop :=
  s_once w' = true /\
  if s_once w then client_out w' = client_out w
  else all_closed w' /\ exists v, client_out w' = client_out w ++
    [client_WritePacket (Disconnect (ProcessDisconnection (session_processor (Sur:=Sur i) v) v message)); client_Close].

(** Disconnecting the sessions [l]. *)
Record disconnected (l : list sid) (message : string) p p' : Prop := {
  dc_opts : sp_opts p' = sp_opts p;
  dc_listener : listener p' = listener p;
  dc_others : forall j, j ∉ l -> sp_sessions p' !! j = sp_sessions p !! j;
  dc_session : forall i, i ∈ l ->
    exists w w', sp_sessions p !! i = Some w /\ sp_sessions p' !! i = Some w' /\ parted i message w w';
  dc_registry : forall x j, sessions (sp_registry p') !! x = Some j ->
    sessions (sp_registry p) !! x = Some j /\
    (j ∈ l -> exists w, sp_sessions p !! j = Some w /\ s_once w = true);
}.

Lemma disconnect_session i message p :
  orderly p -> is_Some (sp_sessions p !! i) ->
  exists p', on_session i (Session_Disconnect (Sur:=Sur i) zero_start message) p = (Ok tt, p') /\
    disconnected [i] message p p'.
Proof.
  intros [H1 H2] [w Hi]. unfold on_session. rewrite Hi.
  assert (tidy (lend p w)) as Hw by (destruct (H1 i w Hi); by split).
  unfold Session_Disconnect. destruct (s_once w) eqn:Ho.
  - assert (Session_CloseWithError (Sur:=Sur i) zero_start (ErrNew message) (lend p w) = (Ok tt, lend p w)) as ->.
    { unfold Session_CloseWithError, bind, gets, id. change (s_once (lend p w)) with (s_once w). by rewrite Ho. }
    eexists. split; [done|]. split; simpl; [done | done | | |].
    + intros j Hj. apply list_lookup_insert_ne. set_solver.
    + intros j ->%list_elem_of_singleton. exists w, (lend p w).
      split_and!; [done | apply list_lookup_insert_eq; by eapply lookup_lt_Some | by unfold parted; rewrite Ho].
    + intros x j Hx. split; [done|]. intros ->%list_elem_of_singleton. by exists w.
  - rewrite (Session_CloseWithError_eq (Sur:=Sur i) zero_start (ErrNew message) (lend p w) (ty_current _ Hw) Ho).
    destruct (closed_session_done (Sur:=Sur i) zero_start (ErrNew message) (lend p w) Hw Ho) as (Ho' & _ & Hall).
    eexists. split; [done|]. split; simpl; [done | done | | |].
    + intros j Hj. apply list_lookup_insert_ne. set_solver.
    + intros j ->%list_elem_of_singleton. exists w, (closed_session (Sur:=Sur i) (ErrNew message) (lend p w)).
      split_and!; [done | apply list_lookup_insert_eq; by eapply lookup_lt_Some |].
      unfold parted. rewrite Ho. split_and!; [done | done |]. exists (set_s_once true (lend p w)).
      exact (closed_session_out (Sur:=Sur i) (ErrNew message) (lend p w)).
    + intros x j Hx. apply (lookup_delete_Some (sessions _)) in Hx as [Hne Hx].
      rewrite closed_session_registry in Hx. split; [done|].
      intros ->%list_elem_of_singleton. destruct (H2 x i Hx) as [-> _]. by destruct Hne.
Qed.

Lemma disconnected_cons i l message p p1 p2 :
  i ∉ l -> disconnected [i] message p p1 -> disconnected l message p1 p2 -> disconnected (i :: l) message p p2.
Proof.
  intros Hi A B. split.
  - by rewrite (dc_opts _ _ _ _ B), (dc_opts _ _ _ _ A).
  - by rewrite (dc_listener _ _ _ _ B), (dc_listener _ _ _ _ A).
  - intros j Hj. rewrite (dc_others _ _ _ _ B) by set_solver. apply (dc_others _ _ _ _ A). set_solver.
  - intros j [->|Hj]%elem_of_cons.
    + destruct (dc_session _ _ _ _ A i) as (w & w' & ? & ? & ?); [set_solver|].
      exists w, w'. by rewrite (dc_others _ _ _ _ B).
    + destruct (dc_session _ _ _ _ B j Hj) as (w & w' & Hw & ? & ?).
      rewrite (dc_others _ _ _ _ A) in Hw by set_solver. by exists w, w'.
  - intros x j Hx. destruct (dc_registry _ _ _ _ B x j Hx) as [Hx1 Hc1].
    destruct (dc_registry _ _ _ _ A x j Hx1) as [Hx0 Hc0]. split; [done|].
    intros [->|Hj]%elem_of_cons; [apply Hc0; set_solver|].
    destruct (Hc1 Hj) as (w & Hw & ?). rewrite (dc_others _ _ _ _ A) in Hw by set_solver. by exists w.
Qed.

Lemma disconnect_sessions l message p :
  orderly p -> NoDup l -> (forall i, i ∈ l -> is_Some (sp_sessions p !! i)) ->
  exists p', for_each (fun i => on_session i (Session_Disconnect (Sur:=Sur i) zero_start message)) l p = (Ok tt, p') /\
    disconnected l message p p'.
Proof.
  revert p. induction l as [|i l IH]; intros p Hp Hnd Hl; simpl.
  { exists p. split; [done|]. split; set_solver. }
  apply NoDup_cons in Hnd as [Hi Hnd]. destruct (disconnect_session i message p Hp) as (p1 & E1 & D1); [set_solver|].
  pose proof (on_session_orderly i _ (disconnect_sound i message) p Hp) as Hp1. rewrite E1 in Hp1.
  destruct (IH p1 Hp1 Hnd) as (p2 & E2 & D2).
  { intros j Hj. rewrite (dc_others _ _ _ _ D1) by set_solver. set_solver. }
  exists p2. split; [|by eapply disconnected_cons]. by rewrite (bind_eq_Ok _ _ _ _ _ E1).
Qed.

(** The registered sessions are found once each. *)
Lemma GetSessions_registered p :
  orderly p ->
  NoDup (GetSessions (sp_registry p)) /\
  (forall i, i ∈ GetSessions (sp_registry p) <-> exists x, sessions (sp_registry p) !! x = Some i).
Proof.
  intros [_ H2]. rewrite GetSessions_perm. split.
  - apply (NoDup_fmap_2_strong snd); [|apply NoDup_map_to_list].
    intros [x i] [y j] Hx%elem_of_map_to_list Hy%elem_of_map_to_list ?; simplify_eq/=.
    by rewrite (proj1 (H2 x j Hx)), (proj1 (H2 y j Hy)).
  - intros i. rewrite GetSessions_perm. etrans; [apply (list_elem_of_fmap snd)|]. split.
    + intros ([x j] & -> & Hx%elem_of_map_to_list). by exists x.
    + intros [x Hx%elem_of_map_to_list]. by exists (x, i).
Qed.

(** Every operation of the proxy. *)
Variable type_name : packet -> string.

Lemma sp_perform_orderly op : moves (keeps orderly) (sp_perform Sur zero_start type_name op).
Proof.
  destruct op as [err|c|i waited|i op|err]; simpl.
  - destruct err; [by apply moves_fail; apply _|]. apply moves_modify. by intros p [].
  - apply moves_ignore; [apply _|]. intros p Hp. unfold Accept, bind, gets, id.
    destruct (listener p), c; try done. destruct Hp as [H1 H2]. split; simpl.
    + intros i w [Hi|[_ Hi]]%lookup_app_Some; [by eapply H1|].
      apply list_lookup_singleton_Some in Hi as [_ <-]. apply NewSession_tidy.
    + intros x i Hx. destruct (H2 x i Hx) as [? [w Hw]]. split; [done|]. exists w. by apply lookup_app_l_Some.
  - unfold auto_login. apply moves_bind; [apply _ | |].
    + apply moves_attempt, on_session_orderly, login_auto_sound.
    + intros [_|err]; [apply moves_ret; apply _ | apply on_session_orderly, disconnect_sound].
  - apply on_session_orderly, perform_tidy.
  - unfold Close. go_moves; intros.
    + apply on_session_orderly, disconnect_sound.
    + destruct (listener _), err; [apply moves_fail; apply _ | apply moves_modify; by intros p [] | apply moves_panic; apply _..].
Qed.

Lemma sp_run_orderly ops opts pools ctxPool : orderly (sp_run Sur zero_start type_name ops (NewSpectrum opts pools ctxPool)).
Proof.
  assert (forall p, orderly p -> orderly (sp_run Sur zero_start type_name ops p)) as H.
  { induction ops as [|op ops IH]; intros p Hp; [done|]. by apply IH, sp_perform_orderly. }
  apply H. split; simpl; [done|]. intros x i Hx. by rewrite lookup_empty in Hx.
Qed.

End Lemmas.

(** * Properties *)

Section Properties.
Context `{T : MCTypes} `{G : !Gopher} `{P : !Protocols} `{Rt : Runtime} `{IO : IterationOrder} `{F : FloatConversion} `{UnicodeFold} `{CP : !CustomPackets}.
Variable Sur : sid -> Surroundings.
Variable zero_start : StartGame_fields.
Variable type_name : packet -> string.
Variable DisplayName : sid -> string.

(** C31: the proxy's state is well formed at any time of its life, whatever its
    sessions do and in whatever order: a registered session is one the proxy
    made, under the XUID of its own client, and is registered once; of every
    session's connections the closed ones have their stream closed and their
    context ended, and one that is not closed is the session's current one. *)
Theorem proxy_well_formed ops opts pools ctxPool :
  (forall i, self (Surroundings:=Sur i) = i) ->
  let p := sp_run Sur zero_start type_name ops (NewSpectrum opts pools ctxPool) in
  (forall x i, GetSession x (sp_registry p) = Some i ->
     x = XUID (Surroundings:=Sur i) /\ is_Some (sp_sessions p !! i)) /\
  NoDup (GetSessions (sp_registry p)) /\
  (forall i w k c, sp_sessions p !! i = Some w -> conns w !! k = Some c ->
     if once c then conn_closed c = true /\ ctx c <> None else serverConn w = Some k).
Proof.
  intros Hself p. pose proof (sp_run_orderly Sur zero_start Hself type_name ops opts pools ctxPool) as Hp.
  fold p in Hp. split_and!; [apply (od_registry _ _ Hp) | by apply (GetSessions_registered Sur) |].
  intros i w k c Hi Hk. destruct (od_tidy _ _ Hp i w Hi) as [Hset Hoth _].
  destruct (once c) eqn:Ho; [by apply (Hset k c)|].
  destruct (decide (serverConn w = Some k)) as [|Hne]; [done|]. pose proof (Hoth k c Hk Hne). congruence.
Qed.

(** C16: closing the proxy, at any time of its life: every registered session
    is disconnected, once each and with the shutdown message, its connections
    are closed and its context ends; other sessions are not touched, nobody
    joins the registry, and who is still in it had been closed already.  Then the listener is closed.  Without a listener the sessions
    are disconnected all the same, and then [Close] panics. *)
Theorem close_disconnects_everyone ops opts pools ctxPool err :
  (forall i, self (Surroundings:=Sur i) = i) ->
  let p := sp_run Sur zero_start type_name ops (NewSpectrum opts pools ctxPool) in
  let '(o, p') := Close Sur zero_start err p in
  (forall i x, sessions (sp_registry p) !! x = Some i ->
     exists w w', sp_sessions p !! i = Some w /\ sp_sessions p' !! i = Some w' /\
       parted Sur i (ShutdownMessage (sp_opts p)) w w') /\
  (forall j, (forall x, sessions (sp_registry p) !! x <> Some j) -> sp_sessions p' !! j = sp_sessions p !! j) /\
  (forall x j, sessions (sp_registry p') !! x = Some j ->
     sessions (sp_registry p) !! x = Some j /\ exists w, sp_sessions p !! j = Some w /\ s_once w = true) /\
  match listener p, err with
  | None, _ => (exists r, o = Panic r) /\ listener p' = None
  | Some b, Some e => o = Err e /\ listener p' = Some b
  | Some _, None => o = Ok tt /\ listener p' = Some false
  end.
Proof.
  intros Hself p. pose proof (sp_run_orderly Sur zero_start Hself type_name ops opts pools ctxPool) as Hp.
  fold p in Hp. destruct (GetSessions_registered Sur p Hp) as [Hnd Hin].
  destruct (disconnect_sessions Sur zero_start Hself _ (ShutdownMessage (sp_opts p)) p Hp Hnd) as (p1 & E & D).
  { intros i [x Hx]%Hin. apply (proj2 (od_registry _ _ Hp x i Hx)). }
  unfold Close. rewrite (bind_eq_Ok (gets id) _ p p p eq_refl), (bind_eq_Ok _ _ _ _ _ E).
  rewrite (bind_eq_Ok (gets id) _ p1 p1 p1 eq_refl), (dc_listener _ _ _ _ _ D).
  assert (forall x j, sessions (sp_registry p1) !! x = Some j ->
    sessions (sp_registry p) !! x = Some j /\ exists w, sp_sessions p !! j = Some w /\ s_once w = true) as Hreg.
  { intros x j Hx. destruct (dc_registry _ _ _ _ _ D x j Hx) as [Hx' Hc]. split; [done|]. apply Hc, Hin. by exists x. }
  assert (forall j, (forall x, sessions (sp_registry p) !! x <> Some j) -> sp_sessions p1 !! j = sp_sessions p !! j) as Hoth.
  { intros j Hj. apply (dc_others _ _ _ _ _ D). intros [x Hx]%Hin. by apply (Hj x). }
  assert (forall i x, sessions (sp_registry p) !! x = Some i -> exists w w',
    sp_sessions p !! i = Some w /\ sp_sessions p1 !! i = Some w' /\ parted Sur i (ShutdownMessage (sp_opts p)) w w') as Hses.
  { intros i x Hx. apply (dc_session _ _ _ _ _ D), Hin. by exists x. }
  pose proof (dc_listener _ _ _ _ _ D) as Hl. destruct (listener p), err; simpl; rewrite ?Hl; eauto 6.
Qed.

(** A Kick of the service reaches the player it names, at any time of the
    proxy's life: the handler returns, the session found by that name is
    disconnected with the reason as its message, its connections are closed,
    and it leaves the registry (unless it was closed before); no other session
    changes.  When no registered session has the name nothing happens. *)
Theorem kick_disconnects_player ops opts pools ctxPool c k :
  (forall i, self (Surroundings:=Sur i) = i) ->
  let p := sp_run Sur zero_start type_name ops (NewSpectrum opts pools ctxPool) in
  let '(o, (c', p')) := kick_handler (S:=proxy_sessions Sur zero_start DisplayName) (PKick k) (c, p) in
  o = Ok tt /\ c' = c /\
  (p' = p /\ (forall x i, sessions (sp_registry p) !! x = Some i -> EqualFold (DisplayName i) (Kick_Username k) = false) \/
   exists i x w w', sessions (sp_registry p) !! x = Some i /\ EqualFold (DisplayName i) (Kick_Username k) = true /\
     sp_sessions p !! i = Some w /\ sp_sessions p' !! i = Some w' /\ parted Sur i (Kick_Reason k) w w' /\
     (forall j, j <> i -> sp_sessions p' !! j = sp_sessions p !! j) /\
     (s_once w = false -> forall y, sessions (sp_registry p') !! y <> Some i)).
Proof.
  intros Hself p. pose proof (sp_run_orderly Sur zero_start Hself type_name ops opts pools ctxPool) as Hp.
  fold p in Hp. pose proof (GetSessionByUsername_spec DisplayName (Kick_Username k) (sp_registry p)) as Hf.
  unfold kick_handler. rewrite (bind_eq_Ok (gets snd) _ (c, p) p (c, p) eq_refl). cbn [find_session proxy_sessions].
  destruct (GetSessionByUsername _ _ _) as [i|].
  2: { simpl. split_and!; [done | done |]. by left. }
  destruct Hf as (Hn & x & Hx). unfold on_world, zoom. cbn [session_Disconnect proxy_sessions fst snd].
  destruct (disconnect_session Sur zero_start Hself i (Kick_Reason k) p Hp) as (p1 & -> & D).
  { apply (proj2 (od_registry _ _ Hp x i Hx)). }
  destruct (dc_session _ _ _ _ _ D i) as (w & w' & Hw & Hw' & Hpart); [set_solver|].
  split_and!; [done | done |]. right. exists i, x, w, w'. split_and!; try done.
  - intros j Hj. apply (dc_others _ _ _ _ _ D). set_solver.
  - intros Ho y Hy. destruct (dc_registry _ _ _ _ _ D y i Hy) as [_ Hc].
    destruct Hc as (v & Hv & Hv'); [set_solver|]. congruence.
Qed.

End Properties.

(** * Witnesses *)

#[local] Existing Instances toy_types toy toy_protocols toy_runtime toy_order toy_floats.
#[local] Instance no_unicode : UnicodeFold := fun s t => bool_decide (s = t).

Definition toy_XUID (i : sid) : string := pretty i.

(** The toy session as the [i]th of a proxy. *)
Definition toy_sessions (i : sid) : Surroundings :=
  let s := toy_session in {|
  session_opts := session_opts;
  session_client := toy_client;
  XUID := toy_XUID i;
  self := i;
  client_result := client_result;
  client_cause := client_cause;
  client_EntityRuntimeID := client_EntityRuntimeID;
  transport_Dial := transport_Dial;
  Discover := Discover;
  DiscoverFallback := DiscoverFallback;
  GameData_Dimension := GameData_Dimension;
  processors _ := NopProcessor;
  animations _ := dimension_object (fun _ => 0)
|}.

(** Two players log in; the second is [Two]. *)
Definition toy_ops : list spectrum_op :=
  [SpListen None; SpAccept (inl None); SpAutoLogin 0%nat (Ok tt); SpAccept (inl None); SpAutoLogin 1%nat (Ok tt)].

Definition toy_DisplayName (i : sid) : string := if decide (i = 1%nat) then "Two" else "One".

Lemma proxy_well_formed_witness :
  let p := sp_run toy_sessions toy_start toy_type_name toy_ops (NewSpectrum None (mkPools [] [] []) []) in
  (forall x i, GetSession x (sp_registry p) = Some i ->
     x = XUID (Surroundings:=toy_sessions i) /\ is_Some (sp_sessions p !! i)) /\
  NoDup (GetSessions (sp_registry p)) /\
  (forall i w k c, sp_sessions p !! i = Some w -> conns w !! k = Some c ->
     if once c then conn_closed c = true /\ ctx c <> None else serverConn w = Some k).
Proof.
  exact (proxy_well_formed toy_sessions toy_start toy_type_name toy_ops None (mkPools [] [] []) [] (fun _ => eq_refl)).
Defined.

Lemma close_disconnects_everyone_witness :
  let p := sp_run toy_sessions toy_start toy_type_name toy_ops (NewSpectrum None (mkPools [] [] []) []) in
  sessions (sp_registry p) !! toy_XUID 1 = Some 1%nat /\
  let err := None in
  let '(o, p') := Close toy_sessions toy_start err p in
  (forall i x, sessions (sp_registry p) !! x = Some i ->
     exists w w', sp_sessions p !! i = Some w /\ sp_sessions p' !! i = Some w' /\
       parted toy_sessions i (ShutdownMessage (sp_opts p)) w w') /\
  (forall j, (forall x, sessions (sp_registry p) !! x <> Some j) -> sp_sessions p' !! j = sp_sessions p !! j) /\
  (forall x j, sessions (sp_registry p') !! x = Some j ->
     sessions (sp_registry p) !! x = Some j /\ exists w, sp_sessions p !! j = Some w /\ s_once w = true) /\
  match listener p, err with
  | None, _ => (exists r, o = Panic r) /\ listener p' = None
  | Some b, Some e => o = Err e /\ listener p' = Some b
  | Some _, None => o = Ok tt /\ listener p' = Some false
  end.
Proof.
  intros p. split; [vm_compute; reflexivity|]. intros err.
  pose proof (close_disconnects_everyone toy_sessions toy_start toy_type_name toy_ops None (mkPools [] [] []) []
    err (fun _ => eq_refl)) as Hc. fold p in Hc. cbv zeta in Hc. exact Hc.
Defined.

Lemma kick_disconnects_player_witness :
  let p := sp_run toy_sessions toy_start toy_type_name toy_ops (NewSpectrum None (mkPools [] [] []) []) in
  let k := mkKick "bye" "two" in
  let CP := no_custom in
  let c := newClient (mkSource [] EOF) (mkSink [] []) ∅ [] in
  let '(o, (c', p')) := kick_handler (S:=proxy_sessions toy_sessions toy_start toy_DisplayName) (PKick k) (c, p) in
  (option_map s_once (sp_sessions p !! 1%nat) = Some false /\ option_map s_once (sp_sessions p' !! 1%nat) = Some true) /\
  o = Ok tt /\ c' = c /\
  (p' = p /\ (forall x i, sessions (sp_registry p) !! x = Some i -> EqualFold (toy_DisplayName i) (Kick_Username k) = false) \/
   exists i x w w', sessions (sp_registry p) !! x = Some i /\ EqualFold (toy_DisplayName i) (Kick_Username k) = true /\
     sp_sessions p !! i = Some w /\ sp_sessions p' !! i = Some w' /\ parted toy_sessions i (Kick_Reason k) w w' /\
     (forall j, j <> i -> sp_sessions p' !! j = sp_sessions p !! j) /\
     (s_once w = false -> forall y, sessions (sp_registry p') !! y <> Some i)).
Proof.
  intros p k CP c.
  pose proof (kick_disconnects_player toy_sessions toy_start toy_type_name toy_DisplayName toy_ops
    None (mkPools [] [] []) [] c k (fun _ => eq_refl)) as Hk.
  assert (option_map s_once (sp_sessions p !! 1%nat) = Some false /\
    option_map s_once (sp_sessions (kick_handler (S:=proxy_sessions toy_sessions toy_start toy_DisplayName) (PKick k) (c, p)).2.2 !! 1%nat)
      = Some true) as Hx by (split; vm_compute; reflexivity).
  fold p in Hk. cbv zeta in Hk. destruct (kick_handler _ _) as [o [c' p']]. split; [exact Hx | exact Hk].
Defined.
