(* ===== verification/ProxyPools.v ===== *)
(** * ProxyPools: nothing leaks through the pools

    The pools are those of the whole proxy: the invariant of [SessionPools]
    holds of it, however its operations are interleaved. *)

From S2P Require Import Prelude GoFloat Wire ApiPacket Registry Api Minecraft ServerPacket Conn Toy ConnIO ConnSeq ConnLife.
From S2P Require Import Batch Tracker Session SessionLoops SessionSteps SessionProps SessionPools Spectrum.

Local Open Scope Z_scope.
Local Open Scope go_scope.

Section Proxy.
Context `{T : MCTypes} `{G : !Gopher} `{P : !Protocols} `{Rt : Runtime} `{IO : IterationOrder} `{F : FloatConversion}.
Variable Sur : sid -> Surroundings.
Variable zero_start : StartGame_fields.
Variable type_name : packet -> string.
Implicit Types p : Spectrum.

Definition clean_proxy p : Prop :=
  wf_pools (sp_pools p) /\ fresh_contexts (sp_ctxPool p) /\ Forall (fun w => clean_conns (conns w)) (sp_sessions p).

Definition proxy_keeps : relation Spectrum := fun p p' => clean_proxy p -> clean_proxy p'.

#[export] Instance proxy_keeps_preorder : PreOrder proxy_keeps.
Proof. split; unfold proxy_keeps; auto. Qed.

Lemma on_session_clean {A} i (m : M World A) : moves keeps_clean m -> moves proxy_keeps (on_session i m).
Proof.
  intros Hm p. unfold on_session. destruct (sp_sessions p !! i) as [w|] eqn:Hw; [|done]. intros (Hp & Hx & Hs).
  specialize (Hm (lend p w)). destruct (m _) as [o w'].
  destruct Hm as (Hp' & Hx' & Hc').
  { split; [done|]. split; [done|]. by apply (Forall_lookup_1 _ _ _ _ Hs Hw). }
  split; [done|]. split; [done|]. by apply Forall_insert.
Qed.

Lemma disconnect_clean i message : moves keeps_clean (Session_Disconnect (Sur:=Sur i) zero_start message).
Proof. apply (Session_CloseWithError_moves zero_start type_name keeps_clean). Qed.

Lemma login_clean i waited : moves keeps_clean (Login (Sur:=Sur i) zero_start waited).
Proof.
  apply moves_bind; [apply _ | apply (login_start_moves zero_start type_name keeps_clean)
    | intros k; apply (login_finish_moves zero_start type_name keeps_clean)].
Qed.

Lemma sp_perform_clean op : moves proxy_keeps (sp_perform Sur zero_start type_name op).
Proof.
  destruct op as [err|c|i waited|i op|err]; simpl.
  - destruct err; [apply moves_fail, _ | by (apply moves_modify; unfold proxy_keeps)].
  - apply moves_ignore; [apply _|]. intros p. unfold Accept, bind, gets, id.
    destruct (listener p), c; try done. intros (Hp & Hx & Hs). split; [done|]. split; [done|].
    apply Forall_app. split; [done|]. by repeat constructor.
  - unfold auto_login. apply moves_bind; [apply _ | apply moves_attempt, on_session_clean, login_clean |].
    intros [_|err]; [apply moves_ret, _ | apply on_session_clean, disconnect_clean].
  - apply on_session_clean, (perform_moves (Sur:=Sur i) zero_start type_name keeps_clean).
  - unfold Close. go_moves; intros.
    + apply on_session_clean, disconnect_clean.
    + destruct (listener _), err; [apply moves_fail, _ | by (apply moves_modify; unfold proxy_keeps) | apply moves_panic, _ ..].
Qed.

Lemma sp_run_clean ops p : clean_proxy p -> clean_proxy (sp_run Sur zero_start type_name ops p).
Proof.
  revert p. induction ops as [|op ops IH]; intros p Hp; [done|]. apply IH. by apply (sp_perform_clean op p).
Qed.

(** C27: nothing leaks through the pools.  However the operations of the
    listener, the sessions and their goroutines are interleaved, whichever
    packets they carry and whatever fails or panics on the way: the next buffer
    any connection takes from the pool is empty, the next batch is empty and of
    the pool's capacity, the next packet context is neither cancelled nor
    modified and holds what its caller put in it, and every connection's writer
    has scratch slices of the right length.  Only the header pool keeps
    something of the packet before ([ConnIO.stale_header_sent]). *)
Theorem pools_stay_clean ops opts pools ctxPool :
  wf_pools pools -> fresh_contexts ctxPool ->
  let p := sp_run Sur zero_start type_name ops (NewSpectrum opts pools ctxPool) in
  (forall raw decoded, (NewPacketContext raw decoded (sp_ctxPool p)).1 = Ok (mkPacketContext false false raw decoded)) /\
  forall i w k c, sp_sessions p !! i = Some w -> conns w !! k = Some c ->
    let s := mkCS c (sp_pools p) (lend p w) in
    (bufferPool_Get s).1 = Ok [] /\ (batchPool_Get s).1 = Ok (mkBuffer [] maxBatchPooledSize) /\ wf_writer (writer c).
Proof.
  intros Hp Hx p. assert (clean_proxy p) as ([Hb Hb'] & Hx' & Hs) by (apply sp_run_clean; by split).
  split; [intros raw decoded; unfold NewPacketContext, bind; by destruct Hx' as [|? ? ->]|].
  intros i w k c Hw Hc s. split_and!.
  - unfold bufferPool_Get, zoom. simpl. by destruct Hb as [|? ? ->].
  - unfold batchPool_Get, zoom. simpl. by destruct Hb' as [|? ? ->].
  - apply (Forall_lookup_1 _ _ _ _ (Forall_lookup_1 _ _ _ _ Hs Hw) Hc).
Qed.

End Proxy.

(** * Witness *)

#[local] Existing Instances toy_types toy toy_protocols toy_runtime toy_order toy_floats.

Lemma pools_stay_clean_witness :
  let p := sp_run toy_sessions toy_start toy_type_name toy_ops (NewSpectrum None (mkPools [] [] []) []) in
  (forall raw decoded, (NewPacketContext raw decoded (sp_ctxPool p)).1 = Ok (mkPacketContext false false raw decoded)) /\
  forall i w k c, sp_sessions p !! i = Some w -> conns w !! k = Some c ->
    let s := mkCS c (sp_pools p) (lend p w) in
    (bufferPool_Get s).1 = Ok [] /\ (batchPool_Get s).1 = Ok (mkBuffer [] maxBatchPooledSize) /\ wf_writer (writer c).
Proof.
  apply (pools_stay_clean toy_sessions toy_start toy_type_name toy_ops None (mkPools [] [] []) []); repeat constructor.
Defined.
