(* ===== verification/ProxySafe.v ===== *)
(** * ProxySafe: where the proxy can panic

    The sessions of [SessionSafe] put together by [Spectrum]. *)

From S2P Require Import Prelude GoFloat Wire Registry Minecraft ServerPacket Conn Toy ConnIO ConnSeq ConnLife ConnSafe.
From S2P Require Import Batch Tracker Session SessionLoops SessionSteps SessionProps SessionLife SessionOutcomes SessionSafe Spectrum.

Local Open Scope Z_scope.
Local Open Scope go_scope.

Section Proxy.
Context `{T : MCTypes} `{G : !Gopher} `{P : !Protocols} `{Rt : Runtime} `{IO : IterationOrder} `{F : FloatConversion}.
Context `{!WriterReturns}.
Variable Sur : sid -> Surroundings.
Variable zero_start : StartGame_fields.
Variable type_name : packet -> string.
Hypothesis self_is : forall i, self (Surroundings:=Sur i) = i.
Implicit Types p : Spectrum.

(** A panic of one of the sessions. *)
Definition some_known_crash (c : crash) : Prop := exists i, known_crash (Sur:=Sur i) c.

(** Every session is sound, and the registered ones exist. *)
Record proxy_ok p : Prop := {
  po_sessions : forall i w, sp_sessions p !! i = Some w -> world_ok (Sur:=Sur i) 0 w;
  po_orderly : orderly Sur p;
}.

Lemma on_session_safe {A} i (m : M World A) p :
  (forall w, world_ok (Sur:=Sur i) 0 w -> guarded (world_ok (Sur:=Sur i) 0) (known_crash (Sur:=Sur i)) m w) ->
  moves (sound (Sur:=Sur i)) m -> proxy_ok p -> is_Some (sp_sessions p !! i) ->
  guarded proxy_ok some_known_crash (on_session i m) p.
Proof.
  intros Hm Hs [H1' H2'] [w Hw].
  pose proof (on_session_orderly Sur self_is i m Hs p H2') as Ho. unfold guarded, on_session in *. rewrite Hw in *.
  destruct (Hm (lend p w)) as [H3' H4']; [apply (world_ok_update (Sur:=Sur i) 0 w); [by apply H1' | done | done]|].
  destruct (m (lend p w)) as [o w']. simpl in *. split.
  - split; [|done]. simpl. intros j v [[<- [<- _]]|[_ Hj]]%list_lookup_insert_Some; [done | by apply H1'].
  - unfold allows in *. destruct o; try done; by exists i.
Qed.

Lemma login_safe i waited w : world_ok (Sur:=Sur i) 0 w ->
  guarded (world_ok (Sur:=Sur i) 0) (known_crash (Sur:=Sur i))
    (Login (Sur:=Sur i) zero_start waited) w.
Proof.
  intros Hw. apply guarded_bind; [by apply login_start_safe|]. intros k w1 E _.
  pose proof (login_start_named zero_start k w w1 Hw E) as Hk.
  apply (guarded_stronger _ _ (world_ok (Sur:=Sur i) (S k))); [intros w'; apply world_ok_le; lia|].
  apply login_finish_safe; [done | lia].
Qed.

Lemma disconnect_safe i message p :
  proxy_ok p -> is_Some (sp_sessions p !! i) ->
  guarded proxy_ok some_known_crash (on_session i (Session_Disconnect (Sur:=Sur i) zero_start message)) p.
Proof.
  intros Hp Hi. apply on_session_safe; [|apply disconnect_sound | done | done].
  intros w Hw. by apply Session_CloseWithError_safe.
Qed.

(** What is there when an operation is called: the listener, the session, and
    for an operation of the session what that needs. *)
Definition sp_enabled (op : spectrum_op) p : Prop :=
  match op with
  | SpListen _ => True
  | SpAccept _ | SpClose _ => listener p <> None
  | SpAutoLogin i _ => is_Some (sp_sessions p !! i)
  | SpSession i op => match sp_sessions p !! i with Some w => enabled op (lend p w) | None => False end
  end.

Fixpoint sp_enabled_run (ops : list spectrum_op) p : Prop :=
  match ops with
  | [] => True
  | op :: ops => sp_enabled op p /\ sp_enabled_run ops (sp_perform Sur zero_start type_name op p).2
  end.

Lemma disconnect_keeps i message :
  moves (keeps proxy_ok) (on_session i (Session_Disconnect (Sur:=Sur i) zero_start message)).
Proof.
  intros p Hp. destruct (sp_sessions p !! i) as [w|] eqn:Hi; [|unfold on_session; by rewrite Hi].
  by apply (disconnect_safe i message p Hp).
Qed.

Lemma Close_safe err p : proxy_ok p -> listener p <> None -> guarded proxy_ok some_known_crash (Close Sur zero_start err) p.
Proof.
  intros Hp Hl. unfold Close. apply guarded_bind_id.
  destruct (GetSessions_registered Sur p (po_orderly _ Hp)) as [Hnd Hin].
  destruct (disconnect_sessions Sur zero_start self_is (GetSessions (sp_registry p)) (ShutdownMessage (sp_opts p)) p
    (po_orderly _ Hp) Hnd) as (p1 & E & D).
  { intros i [x Hx]%Hin. apply (proj2 (od_registry _ _ (po_orderly _ Hp) x i Hx)). }
  pose proof (moves_for_each (keeps proxy_ok) _ (GetSessions (sp_registry p))
    (fun i => disconnect_keeps i (ShutdownMessage (sp_opts p))) p Hp) as Hp1.
  rewrite E in Hp1. apply guarded_bind; [by unfold guarded; rewrite E|].
  intros u p2 E2 _. rewrite E2 in E. injection E as -> ->. apply guarded_bind_id. rewrite (dc_listener _ _ _ _ _ D).
  destruct (listener p); [|done]. destruct err; [by apply guarded_fail|]. apply guarded_modify.
  destruct Hp1 as [H1' [H2' H3']]. by split.
Qed.

Lemma sp_perform_safe op p :
  proxy_ok p -> sp_enabled op p -> guarded proxy_ok some_known_crash (sp_perform Sur zero_start type_name op) p.
Proof.
  intros Hp He. pose proof (sp_perform_orderly Sur zero_start self_is type_name op p (po_orderly _ Hp)) as Ho.
  destruct op as [err|c|i waited|i op|err]; simpl in *.
  - destruct err; [by apply guarded_fail|]. apply guarded_modify. destruct Hp. by split.
  - apply guarded_ignore. unfold Accept. apply guarded_bind_id. destruct (listener p); [|done].
    destruct c as [client_ctx|err]; [|by apply guarded_fail]. apply guarded_bind; [|intros; by apply guarded_ret].
    apply guarded_modify. destruct Hp as [H1' [H2' H3']]. split; [|split]; simpl.
    + intros i w [Hi|[_ Hi]]%lookup_app_Some; [by apply H1'|].
      apply list_lookup_singleton_Some in Hi as [_ <-]. apply NewSession_ok.
    + intros i w [Hi|[_ Hi]]%lookup_app_Some; [by eapply H2'|].
      apply list_lookup_singleton_Some in Hi as [_ <-]. apply NewSession_tidy.
    + intros x i Hx. destruct (H3' x i Hx) as [? [w Hw]]. split; [done|]. exists w. by apply lookup_app_l_Some.
  - unfold auto_login. apply guarded_bind.
    { apply guarded_attempt, on_session_safe; [apply login_safe | by apply login_auto_sound | done | done]. }
    intros [u|err] p1 E Hp1; [by apply guarded_ret|]. apply disconnect_safe; [done|].
    unfold attempt, on_session in E. destruct He as [w Hw]. rewrite Hw in E.
    destruct (Login _ _ _) as [[] w']; simplify_eq. simpl. apply list_lookup_insert_is_Some. by exists w.
  - destruct (sp_sessions p !! i) as [w|] eqn:Hw; [|done].
    unfold guarded, on_session in *. rewrite Hw in *.
    destruct (perform_safe (Sur:=Sur i) zero_start type_name op (lend p w)) as [H3' H4']; [|done|].
    { apply (world_ok_update (Sur:=Sur i) 0 w); [by apply (po_sessions _ Hp) | done | done]. }
    destruct (perform _ _ _ _) as [o w']. simpl in *. split.
    + split; [|done]. simpl. intros j v [[<- [<- _]]|[_ Hj]]%list_lookup_insert_Some; [done | by apply (po_sessions _ Hp)].
    + unfold allows in *. destruct o; try done; by exists i.
  - by apply Close_safe.
Qed.

Lemma sp_run_ok ops p :
  proxy_ok p -> sp_enabled_run ops p -> proxy_ok (sp_run Sur zero_start type_name ops p).
Proof.
  revert p. induction ops as [|op ops IH]; intros p Hp He; [done|]. destruct He as [H1' H2'].
  apply IH; [by apply sp_perform_safe | done].
Qed.

Lemma NewSpectrum_ok opts pools ctxPool : proxy_ok (NewSpectrum opts pools ctxPool).
Proof. split; [done|]. split; simpl; [done|]. intros x i Hx. by rewrite lookup_empty in Hx. Qed.

End Proxy.

(** * Properties *)

Section Properties.
Context `{T : MCTypes} `{G : !Gopher} `{P : !Protocols} `{Rt : Runtime} `{IO : IterationOrder} `{F : FloatConversion}.
Context `{!WriterReturns}.
Variable Sur : sid -> Surroundings.
Variable zero_start : StartGame_fields.
Variable type_name : packet -> string.

(** C11: the proxy panics in three cases only.  Let the library write the proxy's
    own packets without a panic, and let the listener, the sessions and the
    goroutines of every session do their operations in any interleaving, where
    [Accept] and [Close] follow a [Listen], a session's goroutines run from its
    first connection on, and what is operated on exists.  Whatever the clients,
    the servers and the transports do (their streams, the results of every call
    and all faults of the writers are arbitrary), no operation dereferences
    nil, indexes out of range or panics otherwise, but for these: a read
    panics when a server that a session dialled has sent an empty frame;
    closing one of the channels [connected] and [spawned] a second time panics
    (a second PlayStatus before the spawn, or a second spawn); and the goroutine
    of the latency panics as it starts when the session's [LatencyInterval] in
    nanoseconds, wrapped around to an [int64], is not positive.  What the program
    around the proxy supplies (discovery, transport, processor, animation) is
    taken to return. *)
Theorem only_known_panics opts pools ctxPool ops op why :
  (forall i, self (Surroundings:=Sur i) = i) ->
  let p0 := NewSpectrum opts pools ctxPool in
  let p := sp_run Sur zero_start type_name ops p0 in
  sp_enabled_run Sur zero_start type_name ops p0 -> sp_enabled op p ->
  (sp_perform Sur zero_start type_name op p).1 = Panic why ->
  why = "close of closed channel"%string \/
  why = "non-positive interval for NewTicker"%string /\
    (exists i, latency_duration (LatencyInterval (session_opts (Surroundings:=Sur i))) <= 0) \/
  why = "runtime error: index out of range [0] with length 0"%string /\
    exists i w addr ci co, transport_Dial (Surroundings:=Sur i) w addr = inl (ci, co) /\ sends_empty_frame ci.
Proof.
  intros Hself p0 p Hr He Hpanic.
  pose proof (sp_run_ok Sur zero_start type_name Hself ops p0 (NewSpectrum_ok Sur opts pools ctxPool) Hr) as Hp.
  destruct (sp_perform_safe Sur zero_start type_name Hself op p Hp He) as [_ Hc]. rewrite Hpanic in Hc.
  destruct Hc as [i [Hc|[[Hc Hi]|[Hc Hd]]]]; [by left | right; left; split; [done|]; by exists i|].
  right. right. split; [done|]. by exists i.
Qed.

End Properties.

(** * Witness *)

#[local] Existing Instances toy_types toy toy_protocols toy_runtime toy_order toy_floats.

(** Sessions whose servers send an empty frame. *)
Definition toy_empty_frames (i : sid) : Surroundings := {|
  session_opts := DefaultOpts;
  session_client := toy_client;
  XUID := toy_XUID i;
  self := i;
  client_result _ _ := None;
  client_cause _ _ := None;
  client_EntityRuntimeID _ := 1;
  transport_Dial _ _ := inl (mkSource [le_bytes 4 0] EOF, mkSink [] []);
  Discover _ := inl "lobby"%string;
  DiscoverFallback _ := inl "fallback"%string;
  GameData_Dimension _ := 0;
  processors _ := NopProcessor;
  animations _ := dimension_object (fun _ => 0)
|}.

Lemma only_known_panics_witness :
  let why := "runtime error: index out of range [0] with length 0"%string in
  why = "close of closed channel"%string \/
  why = "non-positive interval for NewTicker"%string /\
    (exists i, latency_duration (LatencyInterval (session_opts (Surroundings:=toy_empty_frames i))) <= 0) \/
  why = "runtime error: index out of range [0] with length 0"%string /\
    exists i w addr ci co, transport_Dial (Surroundings:=toy_empty_frames i) w addr = inl (ci, co) /\ sends_empty_frame ci.
Proof.
  intros why. pose proof toy_WriterReturns as Hw.
  apply (only_known_panics toy_empty_frames toy_start toy_type_name None (mkPools [] [] []) []
    [SpListen None; SpAccept (inl None); SpSession 0 OpLogin] (SpSession 0 (OpServerRound 1 true)) why (fun _ => eq_refl)).
  - split; [done|]. split; [vm_compute; discriminate|]. split; [vm_compute; done | done].
  - vm_compute. discriminate.
  - vm_compute. reflexivity.
Defined.
