(* ===== verification/Service.v ===== *)
(** * Service: the service on the real proxy

    The sessions of [Spectrum] keep what the service of [Api] relies on
    ([proxy_laws]), so that its theorems hold of the composed program: what a
    server does to players by the packets it sends to the service. *)

From S2P Require Import Prelude GoFloat Wire ApiPacket Registry Api Minecraft ServerPacket Conn Toy ConnIO ConnSeq ConnLife ConnSafe.
From S2P Require Import Batch Tracker Session SessionLoops SessionSteps SessionProps SessionLife SessionOutcomes SessionSafe SessionTransfer Spectrum.

Local Open Scope Z_scope.
Local Open Scope go_scope.

(** ** Operations that return *)

Section Returns.
Context `{T : MCTypes} `{G : !Gopher} `{P : !Protocols} `{Rt : Runtime} `{IO : IterationOrder} `{F : FloatConversion}.
Context `{!WriterReturns}.

Lemma DoConnect_returns {cb env : Type} (s : CS (cb:=cb) (env:=env)) :
  wf_writer (writer (conn s)) -> returns (DoConnect s).1.
Proof.
  intros Hw. apply (guarded_returns (conn_ok (fun _ => True) (fun _ => True))), DoConnect_safe. by split.
Qed.

Section Session.
Context `{Sur : !Surroundings}.
Variable zero_start : StartGame_fields.
Implicit Types w : World.

Lemma Transfer_returns addr w : tidy w -> returns (Transfer zero_start addr w).1.
Proof.
  intros Hw. rewrite Transfer_eq.
  destruct (ProcessPreTransfer (session_processor w) w (serverAddr w) addr) as [[[] origin] target]; [done|].
  set (w0 := asked (metadata_call w) w).
  assert (tidy w0) as Hw0 by (apply (sd_tidy _ _ (client_op_tidy (metadata_call w) w) Hw)).
  rewrite dial_eq. destruct (s_ctx w0); [done|]. rewrite (dial_locked_eq zero_start target w0 (ty_current w0 Hw0)). cbv zeta.
  destruct (transport_Dial _ target) as [[ci co]|err]; [|done]. set (w1 := closed_current w0).
  set (w2 := dialled target ci co w1). set (c := NewConn (cb:=transfer_cb) ci co session_client (SyncProtocol session_opts) (s_cache w1)).
  pose proof (DoConnect_returns (mkCS c (w_pools w2) w2)) as Hr. pose proof (DoConnect_fresh (mkCS c (w_pools w2) w2)) as Hfr.
  destruct (DoConnect _) as [o s] eqn:Hd. injection Hfr as Henv _ _ _ _ _ _ _ _.
  rewrite (on_conn_last DoConnect w2 (conns w1) c o s) by done.
  specialize (Hr ltac:(by split)). destruct o as [[]|err| |]; try done.
  set (w3 := set_conns _ _). assert (OnConnect (mkTransferCb origin target) (mkCS (conn s) (w_pools w3) w3)
    = (Ok tt, mkCS (set_onConnect (Some (mkTransferCb origin target)) (conn s)) (w_pools w3) w3)) as Hoc by done.
  by rewrite (on_conn_last (OnConnect (mkTransferCb origin target)) w3 (conns w1) (conn s) _ _ eq_refl Hoc eq_refl).
Qed.

End Session.
End Returns.

(** * The sessions of the proxy *)

Section Proxy.
Context `{T : MCTypes} `{G : !Gopher} `{P : !Protocols} `{Rt : Runtime} `{IO : IterationOrder} `{F : FloatConversion}.
Context `{!WriterReturns} `{UnicodeFold} `{CP : !CustomPackets}.
Variable Sur : sid -> Surroundings.
Variable zero_start : StartGame_fields.
Variable DisplayName : sid -> string.
Hypothesis self_is : forall i, self (Surroundings:=Sur i) = i.
Implicit Types p : Spectrum.

#[local] Instance the_sessions : Sessions Spectrum := proxy_sessions Sur zero_start DisplayName.

(** A player registered under the name, and that there is none. *)
Definition named (u : string) (i : sid) p : Prop :=
  EqualFold (DisplayName i) u = true /\ exists x, sessions (sp_registry p) !! x = Some i.
Definition nobody (u : string) p : Prop :=
  forall x i, sessions (sp_registry p) !! x = Some i -> EqualFold (DisplayName i) u = false.

Lemma found_named u p :
  match find_session u p with Some i => named u i p | None => nobody u p end.
Proof. pose proof (GetSessionByUsername_spec DisplayName u (sp_registry p)). simpl. by case_match. Qed.

Lemma found_session u p i : orderly Sur p -> find_session u p = Some i -> is_Some (sp_sessions p !! i).
Proof.
  intros Hp Hf. pose proof (found_named u p) as Hn. rewrite Hf in Hn. destruct Hn as [_ [x Hx]].
  apply (proj2 (od_registry _ _ Hp x i Hx)).
Qed.

Lemma transfer_session i addr p :
  orderly Sur p -> is_Some (sp_sessions p !! i) ->
  exists w o w', sp_sessions p !! i = Some w /\ Transfer (Sur:=Sur i) zero_start addr (lend p w) = (o, w') /\ returns o /\
    on_session i (Transfer (Sur:=Sur i) zero_start addr) p =
      (o, mkSpectrum _ _ (sp_opts p) (listener p) (s_registry w') (<[i := w']> (sp_sessions p)) (w_pools w') (s_ctxPool w')).
Proof.
  intros [H1' _] [w Hw]. assert (tidy (lend p w)) as Ht by (destruct (H1' i w Hw); by split).
  pose proof (Transfer_returns (Sur:=Sur i) zero_start addr (lend p w) Ht) as Hr.
  unfold on_session. rewrite Hw. destruct (Transfer _ _ _) as [o w'] eqn:E. by exists w, o, w'.
Qed.

(** The contract of the service's interface. *)
#[export] Instance proxy_laws : SessionsLaws (orderly Sur).
Proof.
  split; intros u i x p Hp Hf; pose proof (found_session u p i Hp Hf) as Hi.
  - pose proof (on_session_orderly Sur self_is i _ (disconnect_sound Sur zero_start i x) p Hp) as Ho.
    destruct (disconnect_session Sur zero_start self_is i x p Hp Hi) as (p' & E & _).
    simpl. rewrite E in *. by split.
  - pose proof (on_session_orderly Sur self_is i _ (Transfer_tidy (Sur:=Sur i) zero_start x) p Hp) as Ho.
    destruct (transfer_session i x p Hp Hi) as (w & o & w' & _ & _ & Hr & E).
    simpl. rewrite E in *. by split.
Qed.

(** ** What a server can do to players

    The service as a machine on the proxy's state: one step for each packet. *)
Definition transfer_ends (i : sid) (addr : string) (w w' : World) : Prop :=
  let '(canceled, origin, target) := ProcessPreTransfer (session_processor (Sur:=Sur i) w) w (serverAddr w) addr in
  if (canceled : bool) then w' = w
  else transferring (Sur:=Sur i) origin target w w' \/ transfer_failed (Sur:=Sur i) origin target w w'.

Inductive served p : Packet -> Spectrum -> Prop :=
  | served_kick k i p' :
      named (Kick_Username k) i p -> disconnected Sur [i] (Kick_Reason k) p p' -> served p (PKick k) p'
  | served_transfer t i w w' :
      named (Transfer_Username t) i p -> sp_sessions p !! i = Some w ->
      transfer_ends i (ApiPacket.Transfer_Addr t) (lend p w) w' ->
      served p (PTransfer t) (mkSpectrum _ _ (sp_opts p) (listener p) (s_registry w') (<[i := w']> (sp_sessions p)) (w_pools w') (s_ctxPool w'))
  | served_ignored pk :
      match pk with
      | PKick k => nobody (Kick_Username k) p
      | PTransfer t => nobody (Transfer_Username t) p
      | _ => True
      end -> served p pk p.

Inductive serves : Spectrum -> list Packet -> Spectrum -> Prop :=
  | serves_nil p : serves p [] p
  | serves_cons p pk p' pks p'' : served p pk p' -> serves p' pks p'' -> serves p (pk :: pks) p''.

Lemma dispatch_served p pk : orderly Sur p -> served p pk (dispatch p pk).
Proof.
  intros Hp. destruct pk as [| |k|t|]; try by apply served_ignored.
  - simpl. pose proof (found_named (Kick_Username k) p) as Hn. simpl in Hn.
    destruct (GetSessionByUsername _ _ _) as [i|] eqn:Hf; [|by apply served_ignored].
    pose proof (found_session _ p i Hp Hf) as Hi.
    destruct (disconnect_session Sur zero_start self_is i (Kick_Reason k) p Hp Hi) as (p' & -> & D).
    by apply (served_kick p k i).
  - simpl. pose proof (found_named (Transfer_Username t) p) as Hn. simpl in Hn.
    destruct (GetSessionByUsername _ _ _) as [i|] eqn:Hf; [|by apply served_ignored].
    pose proof (found_session _ p i Hp Hf) as Hi.
    destruct (transfer_session i (ApiPacket.Transfer_Addr t) p Hp Hi) as (w & o & w' & Hw & E & Hr & ->).
    apply (served_transfer p t i w w' Hn Hw).
    assert (tidy (lend p w)) as Ht by (destruct (od_tidy _ _ Hp i w Hw); by split).
    pose proof (Transfer_cases (Sur:=Sur i) zero_start (ApiPacket.Transfer_Addr t) (lend p w) Ht) as Hc. rewrite E in Hc.
    unfold transfer_ends. destruct (ProcessPreTransfer _ _ _ _) as [[canceled origin] target].
    destruct o as [[]|e| |]; try done; [destruct Hc as [-> Hc]; by left|].
    destruct canceled; [apply Hc | by right].
Qed.

Lemma dispatch_serves pks p : orderly Sur p -> serves p pks (foldl dispatch p pks).
Proof.
  revert p. induction pks as [|pk pks IH]; intros p Hp; [constructor|]. simpl.
  apply (serves_cons p pk (dispatch p pk)); [by apply dispatch_served|]. apply IH, (dispatch_invariant (Inv:=orderly Sur)), Hp.
Qed.

End Proxy.

(** * Properties *)

Section Properties.
Context `{T : MCTypes} `{G : !Gopher} `{P : !Protocols} `{Rt : Runtime} `{IO : IterationOrder} `{F : FloatConversion}.
Context `{!WriterReturns} `{UnicodeFold} `{CP : !CustomPackets}.
Variable Sur : sid -> Surroundings.
Variable zero_start : StartGame_fields.
Variable type_name : packet -> string.
Variable DisplayName : sid -> string.

(** C15: the service and the proxy together.  At any time of the proxy's life, a
    server that connects to the service and is accepted drives the proxy
    through the abstract machine [serves], one step for each packet it sends
    and in their order: a kick disconnects the registered player of that name
    with its reason and touches no other session; a transfer does to that
    player's session what a transfer may do (it is refused without effect, it
    fails and is reported, or the session is on a new connection to the
    address) and touches no other; every other packet, and a name nobody has,
    changes nothing.  When the server's stream ends, [handle] returns, its
    client is closed and forgotten. *)
Theorem service_drives_proxy ops opts pools ctxPool (auth : option Authentication) (cs : gmap Z nat) (n id : Z)
    (token : string) (ps : list Packet) (fuel : nat) (polls : nat -> bool) (c : Client) :
  (forall i, self (Surroundings:=Sur i) = i) ->
  wf_client c -> healthy (cl_writer c) -> cl_pool c = NewPool init_packets ->
  match auth with Some f => f token = true | None => True end ->
  Forall (fun p => encodable p /\ len (packet_bytes p) < 2 ^ 32)
    (PConnectionRequest (ApiPacket.mkConnectionRequest token) :: ps) ->
  flat (cl_in c) = concat (map frame (map packet_bytes (PConnectionRequest (ApiPacket.mkConnectionRequest token) :: ps))) ->
  (forall k, polls k = false) -> (length ps < fuel)%nat ->
  let p := sp_run Sur zero_start type_name ops (NewSpectrum opts pools ctxPool) in
  let S := proxy_sessions Sur zero_start DisplayName in
  let r := handle id fuel polls (set_clients cs n (NewAPI auth), (c, p)) in
  r.1 = Ok tt /\ serves Sur DisplayName p (map as_decoded ps) r.2.2.2 /\
  cl_closed r.2.2.1 = true /\ clients r.2.1 = delete id cs.
Proof.
  intros Hself Hc Hh Hpool Hauth Hps Hin Hpolls Hfuel p S.
  pose proof (sp_run_orderly Sur zero_start Hself type_name ops opts pools ctxPool) as Hp. fold p in Hp.
  pose proof (proxy_laws Sur zero_start DisplayName Hself) as Hlaws.
  destruct (authorized_client_handled (orderly Sur) auth cs n id token ps fuel polls c p
    Hc Hh Hpool Hauth Hps Hin Hpolls Hfuel Hp) as (H1' & H2' & _ & H3' & H4').
  cbv zeta. rewrite H2'. split_and!; try done. by apply dispatch_serves.
Qed.

End Properties.

(** * Witness *)

#[local] Existing Instances toy_types toy toy_protocols toy_runtime toy_order toy_floats.
#[local] Instance no_unicode : UnicodeFold := fun s t => bool_decide (s = t).

Lemma service_drives_proxy_witness :
  let CP := no_custom in
  let ps := [PKick (mkKick "bye" "two"); PTransfer (ApiPacket.mkTransfer "hub" "One")] in
  let c := newClient (mkSource [sk_data (wr_w (cl_writer (for_each Client_WritePacket
             (PConnectionRequest (ApiPacket.mkConnectionRequest "s3cret") :: ps)
             (newClient (mkSource [] EOF) (mkSink [] []) ∅ [])).2))] EOF)
             (mkSink [] []) (NewPool init_packets) [] in
  let auth := Some (fun t : string => bool_decide (t = "s3cret")) in
  let p := sp_run Spectrum.toy_sessions toy_start toy_type_name toy_ops (NewSpectrum None (mkPools [] [] []) []) in
  let S := proxy_sessions Spectrum.toy_sessions toy_start toy_DisplayName in
  let r := handle 4 3 (fun _ => false) (set_clients {[4 := 1%nat]} 5 (NewAPI auth), (c, p)) in
  r.1 = Ok tt /\ serves Spectrum.toy_sessions toy_DisplayName p (map as_decoded ps) r.2.2.2 /\
  cl_closed r.2.2.1 = true /\ clients r.2.1 = delete 4 {[4 := 1%nat]}.
Proof.
  intros CP ps c auth.
  pose proof toy_WriterReturns as HW.
  apply (service_drives_proxy Spectrum.toy_sessions toy_start toy_type_name toy_DisplayName toy_ops None (mkPools [] [] []) []
    auth {[4 := 1%nat]} 5 4 "s3cret" ps 3 (fun _ => false) c (fun _ => eq_refl)).
  - split; [split; reflexivity | constructor].
  - reflexivity.
  - reflexivity.
  - reflexivity.
  - repeat constructor.
  - vm_compute. reflexivity.
  - reflexivity.
  - simpl. lia.
Defined.
