(* ===== verification/ServiceTransfer.v ===== *)
(** * ServiceTransfer: a player transferred by another server

    The whole path of a transfer that a server asks the proxy for: the frames
    it sends to the service ([Wire], [ApiPacket], [Api]), the registry, the
    session the name stands for ([Spectrum]), the connection to the new server
    ([Conn]) and the client's screen ([Session]). *)

From S2P Require Import Prelude GoFloat Wire ApiPacket Registry Api Minecraft ServerPacket Conn Toy ConnIO ConnSeq ConnLife ConnSafe.
From S2P Require Import Batch Tracker Session SessionLoops SessionSteps SessionProps SessionLife SessionOutcomes SessionSafe SessionTransfer Spectrum Service.

Local Open Scope Z_scope.
Local Open Scope go_scope.

Section ServiceTransfer.
Context `{T : MCTypes} `{G : !Gopher} `{P : !Protocols} `{Rt : Runtime} `{IO : IterationOrder} `{F : FloatConversion}.
Context `{!IOLaws} `{!HeaderLaws} `{!IDLaws} `{!BuiltLaws} `{!WriterReturns} `{UnicodeFold} `{CP : !CustomPackets}.
Variable Sur : sid -> Surroundings.
Variable zero_start : StartGame_fields.
Variable type_name : packet -> string.
Variable DisplayName : sid -> string.
Implicit Types p : Spectrum.

(** ** An operation of one session, seen from the proxy *)

(** The proxy after session [i] has become [w]. *)
Definition put_session (i : sid) (w : World) p : Spectrum :=
  mkSpectrum _ _ (sp_opts p) (listener p) (s_registry w) (<[i := w]> (sp_sessions p)) (w_pools w) (s_ctxPool w).

(** What one session does leaves the others as they are. *)
Definition others_same (i : sid) p p' : Prop := forall j, j <> i -> sp_sessions p' !! j = sp_sessions p !! j.

Lemma on_session_put {A} i (m : M World A) p w o w' :
  sp_sessions p !! i = Some w -> m (lend p w) = (o, w') -> on_session i m p = (o, put_session i w' p).
Proof. intros Hw E. unfold on_session. by rewrite Hw, E. Qed.

Lemma put_session_same i w p : is_Some (sp_sessions p !! i) -> sp_sessions (put_session i w p) !! i = Some w.
Proof. intros Hi. apply list_lookup_insert_eq. by apply lookup_lt_is_Some. Qed.

Lemma put_session_others i w p : others_same i p (put_session i w p).
Proof. intros j Hj. by apply list_lookup_insert_ne. Qed.

(** A session that has just run finds the shared state as it left it. *)
Lemma lend_put i w p : lend (put_session i w p) w = w.
Proof. by destruct w. Qed.

(** ** The packet of the service and the round of the session *)

#[local] Instance the_sessions : Sessions Spectrum := proxy_sessions Sur zero_start DisplayName.

Lemma dispatch_transfer t p i w w1 :
  GetSessionByUsername DisplayName (Transfer_Username t) (sp_registry p) = Some i -> sp_sessions p !! i = Some w ->
  Transfer (Sur:=Sur i) zero_start (ApiPacket.Transfer_Addr t) (lend p w) = (Ok tt, w1) ->
  dispatch p (PTransfer t) = put_session i w1 p.
Proof. intros Hf Hw E. simpl. rewrite Hf. by rewrite (on_session_put i _ p w (Ok tt) w1 Hw E). Qed.

(** A round of the session's [handleServer] on the proxy. *)
Lemma round_put i fuel pick p w it w2 :
  sp_sessions p !! i = Some w -> lend p w = w ->
  handleServer_round (Sur:=Sur i) zero_start fuel pick w = handle_server_item (Sur:=Sur i) zero_start it w2 ->
  (sp_perform Sur zero_start type_name (SpSession i (OpServerRound fuel pick)) p).2
    = put_session i (handle_server_item (Sur:=Sur i) zero_start it w2).2 p.
Proof.
  intros Hw Hl E. simpl. unfold on_session. rewrite Hw, Hl. unfold ignore, attempt, bind. rewrite E.
  by destruct (handle_server_item _ _ _) as [[] w'].
Qed.

(** C3: a transfer asked for through the service, from its bytes to the player.
    At any time of the proxy's life, a server connects to the service, is
    accepted and asks for the transfer of a player it names; the player is
    registered, and the target is reachable and answers the connection
    sequence, its answers interleaved with other packets in any way.  Then
    [handle] tells the server "success", returns when its stream ends and
    closes its connection; the player's session alone has changed; and the next
    round of its [handleServer] completes the transfer: the player's client has
    been sent the whole sequence of a transfer with the new server's game data,
    the session is on the spawned connection to the new server with nothing
    lost of what that server has sent, and the processor knows. *)
Theorem remote_transfer ops opts pools ctxPool (auth : option Authentication) (cs : gmap Z nat) (n id : Z)
    (token : string) (t : ApiPacket.Transfer) (fuel : nat) (polls : nat -> bool) (c : Client)
    (i : sid) (w : World) (origin target : string) (ci : source) (a : answers) (payloads : list (list byte))
    (rest : list byte) (first : item) (others : list item) :
  (forall i, self (Surroundings:=Sur i) = i) ->
  wf_client c -> healthy (cl_writer c) -> cl_pool c = NewPool init_packets ->
  match auth with Some f => f token = true | None => True end ->
  Forall (fun pk => encodable pk /\ len (packet_bytes pk) < 2 ^ 32)
    [PConnectionRequest (ApiPacket.mkConnectionRequest token); PTransfer t] ->
  flat (cl_in c) = concat (map frame (map packet_bytes [PConnectionRequest (ApiPacket.mkConnectionRequest token); PTransfer t])) ->
  (forall k, polls k = false) -> (1 < fuel)%nat ->
  let p := sp_run Sur zero_start type_name ops (NewSpectrum opts pools ctxPool) in
  GetSessionByUsername DisplayName (Transfer_Username t) (sp_registry p) = Some i ->
  sp_sessions p !! i = Some w ->
  can_transfer (Sur:=Sur i) (ApiPacket.Transfer_Addr t) origin target ci (lend p w) ->
  (776 <=? Proto_ID (server_protocol (Sur:=Sur i))) = true ->
  answers_ok a -> answered (Sur:=Sur i) zero_start a payloads -> flat ci = concat (map frame payloads) ++ rest ->
  an_deferred a = first :: others ->
  let r := handle id fuel polls (set_clients cs n (NewAPI auth), (c, p)) in
  r.1 = Ok tt /\ cl_closed r.2.2.1 = true /\ clients r.2.1 = delete id cs /\
  sk_data (wr_w (cl_writer r.2.2.1)) = sk_data (wr_w (cl_writer c)) ++
    frame (packet_bytes (PConnectionResponse (ApiPacket.mkConnectionResponse ResponseSuccess))) /\
  others_same i p r.2.2.2 /\
  exists w1 w2, sp_sessions r.2.2.2 !! i = Some w1 /\ arrived (Sur:=Sur i) origin target a rest others (lend p w) w1 w2 /\
    forall fuel' pick,
      let p' := (sp_perform Sur zero_start type_name (SpSession i (OpServerRound (length payloads + S fuel') pick)) r.2.2.2).2 in
      sp_sessions p' !! i = Some (handle_server_item (Sur:=Sur i) zero_start first w2).2 /\ others_same i p p'.
Proof.
  intros Hself Hc Hh Hpool Hauth Hps Hin Hpolls Hfuel p Hfind Hw Hcan Hm Ha Hans Hci Hdef.
  pose proof (sp_run_orderly Sur zero_start Hself type_name ops opts pools ctxPool) as Hp. fold p in Hp.
  pose proof (proxy_laws Sur zero_start DisplayName Hself) as Hlaws.
  destruct (authorized_client_handled (orderly Sur) auth cs n id token [PTransfer t] fuel polls c p
    Hc Hh Hpool Hauth Hps Hin Hpolls Hfuel Hp) as (H1' & H2' & H3' & H4' & H5').
  destruct (transfer_answered (Sur:=Sur i) zero_start (ApiPacket.Transfer_Addr t) origin target ci (lend p w) a payloads rest
    first others Hcan Hm Ha Hans Hci Hdef) as (w1 & w2 & E & Hr & Harr).
  cbv zeta. rewrite H2'. change (foldl dispatch p (map as_decoded [PTransfer t])) with (dispatch p (PTransfer t)).
  rewrite (dispatch_transfer t p i w w1 Hfind Hw E).
  assert (sp_sessions (put_session i w1 p) !! i = Some w1) as Hi by (apply put_session_same; by exists w).
  split_and!; try done; [apply put_session_others|]. exists w1, w2. split_and!; [done | done |]. intros fuel' pick.
  rewrite (round_put i _ pick _ w1 first w2 Hi (lend_put i w1 p) (Hr fuel' pick)). split.
  - apply put_session_same. by exists w1.
  - intros j Hj. by rewrite put_session_others, put_session_others.
Qed.

End ServiceTransfer.

(** * Witness *)

#[local] Existing Instances toy_types toy toy_protocols toy_runtime toy_IOLaws toy_HeaderLaws toy_IDLaws toy_BuiltLaws.
#[local] Existing Instances toy_order toy_floats.
#[local] Instance no_unicode : UnicodeFold := fun s t => bool_decide (s = t).

(** The sessions of a proxy whose transport reaches the server that answers. *)
Definition answering_sessions (i : sid) : Surroundings :=
  let s := answering_session in {|
  session_opts := session_opts;
  session_client := session_client;
  XUID := toy_XUID i;
  self := i;
  client_result := client_result;
  client_cause := client_cause;
  client_EntityRuntimeID := client_EntityRuntimeID;
  transport_Dial := transport_Dial;
  Discover := Discover;
  DiscoverFallback := DiscoverFallback;
  GameData_Dimension := GameData_Dimension;
  processors := processors;
  animations := animations
|}.

(** The first player, [One], logs in. *)
Definition one_player : list spectrum_op := [SpListen None; SpAccept (inl None); SpAutoLogin 0%nat (Ok tt)].
Abbreviation one_proxy :=
  (sp_run answering_sessions toy_start toy_type_name one_player (NewSpectrum None (mkPools [] [] []) [])).
Abbreviation one_world := (default toy_world (sp_sessions one_proxy !! 0%nat)).

Lemma one_found : GetSessionByUsername toy_DisplayName "One" (sp_registry one_proxy) = Some 0%nat.
Proof. vm_compute. reflexivity. Qed.

Lemma one_there : sp_sessions one_proxy !! 0%nat = Some one_world.
Proof.
  assert (match sp_sessions one_proxy !! 0%nat with Some _ => true | None => false end = true) as H by (vm_compute; reflexivity).
  by destruct (sp_sessions one_proxy !! 0%nat).
Qed.

Lemma one_can_transfer :
  can_transfer (Sur:=answering_sessions 0) "arena" "lobby" "arena" answering_source (lend one_proxy one_world).
Proof.
  split.
  - intros k Hk. apply lookup_lt_is_Some. revert Hk. vm_compute. intros [= <-]. lia.
  - vm_compute. repeat constructor.
  - vm_compute. reflexivity.
  - vm_compute. reflexivity.
  - vm_compute. reflexivity.
  - exists [Byte.x7b; Byte.x7d], [Byte.x7b; Byte.x7d]. split_and!; vm_compute; intuition congruence.
  - by left.
Qed.

Lemma remote_transfer_witness :
  let CP := no_custom in
  let S := proxy_sessions answering_sessions toy_start toy_DisplayName in
  let t := ApiPacket.mkTransfer "arena" "One" in
  let c := newClient (mkSource [sk_data (wr_w (cl_writer (for_each Client_WritePacket
             [PConnectionRequest (ApiPacket.mkConnectionRequest "s3cret"); PTransfer t]
             (newClient (mkSource [] EOF) (mkSink [] []) ∅ [])).2))] EOF)
             (mkSink [] []) (NewPool init_packets) [] in
  let auth := Some (fun s : string => bool_decide (s = "s3cret")) in
  let p := one_proxy in
  let r := handle 4 2 (fun _ => false) (set_clients {[4 := 1%nat]} 5 (NewAPI auth), (c, p)) in
  r.1 = Ok tt /\ cl_closed r.2.2.1 = true /\ clients r.2.1 = delete 4 {[4 := 1%nat]} /\
  sk_data (wr_w (cl_writer r.2.2.1)) = sk_data (wr_w (cl_writer c)) ++
    frame (packet_bytes (PConnectionResponse (ApiPacket.mkConnectionResponse ResponseSuccess))) /\
  others_same 0 p r.2.2.2 /\
  exists w1 w2, sp_sessions r.2.2.2 !! 0%nat = Some w1 /\
    arrived (Sur:=answering_sessions 0) "lobby" "arena" toy_answered [] (tl (an_deferred toy_answered)) (lend p one_world) w1 w2 /\
    forall fuel' pick,
      let p' := (sp_perform answering_sessions toy_start toy_type_name
        (SpSession 0 (OpServerRound (length toy_answers + Datatypes.S fuel') pick)) r.2.2.2).2 in
      sp_sessions p' !! 0%nat = Some (handle_server_item (Sur:=answering_sessions 0) toy_start (Raw [Byte.x61]) w2).2 /\
      others_same 0 p p'.
Proof.
  intros CP S t c auth.
  pose proof toy_WriterReturns as HW.
  apply (remote_transfer answering_sessions toy_start toy_type_name toy_DisplayName one_player None (mkPools [] [] []) []
    auth {[4 := 1%nat]} 5 4 "s3cret" t 2 (fun _ => false) c 0 one_world "lobby" "arena" answering_source toy_answered
    toy_answers [] (Raw [Byte.x61]) (tl (an_deferred toy_answered)) (fun _ => eq_refl)).
  - split; [split; reflexivity | constructor].
  - reflexivity.
  - reflexivity.
  - reflexivity.
  - repeat constructor.
  - vm_compute. reflexivity.
  - reflexivity.
  - lia.
  - exact one_found.
  - exact one_there.
  - exact one_can_transfer.
  - reflexivity.
  - exact toy_answers_ok.
  - exact toy_answers_given.
  - vm_compute. reflexivity.
  - reflexivity.
Defined.
